(* ===== verification/_CoqProject ===== *)
-Q . S2P
Prelude.v
CMem.v
Ctype.v
LibcMem.v
LibcStr.v
Strto.v
Vsnprintf.v
VsnprintfSpec.v
Console.v
Hello.v
Simulate.v
Mmu.v
MmuTest.v
MmuTables.v
MmuRun.v
MmuCorrect.v
Xics.v
XicsIsr.v
XicsTest.v
XicsIdeal.v
XicsRun.v
XicsCorrect.v
Elf.v
Boot.v
BootSpec.v
ElfImage.v
FlashRead.v
BootMain.v
Vhpi.v
Bram.v
Litedram.v
SimLink.v
Jtag.v
MwDebug.v
MwDebugSpec.v
MwDebugShow.v
MwDebugFail.v
MwDebugPort.v
MwBackend.v
MwBackendSpec.v
DebugStack.v
DebugBench.v
SimConsole.v
UartSim.v
Harness.v
FmtLog.v
FmtLogSpec.v
LogChain.v
Lms.v
LmsDebug.v
