(* ===== verification/Prelude.v ===== *)
(** * Microwatt support software: a verification development

    Microwatt is a POWER soft core.  The repository holds the core itself, in
    VHDL and Verilog, and the C programs around it, which are what is verified
    here:

    - the firmware: a small C library, the console and UART drivers, the
      demonstration programs and the boot loader that loads an ELF image from
      flash into DRAM;
    - the C and C++ side of the simulations: block RAM, DRAM, console and debug
      socket behind GHDL's foreign-function interface, and the Verilator harness
      with its serial port;
    - two test programs, of the memory management unit and of the interrupt
      controller, which are verified together with models of these units;
    - the C++ model of the LMS filter, a peripheral of the SoC;
    - the host tools: the debugger mw_debug, which talks to the debug port over
      JTAG or over the debug socket of a simulation, and the formatter of the
      processor's log.

    ** How C is modelled

    A C function is a Rocq function in a state-and-error monad, [M] below.  Its
    state is what the code can change: a byte-addressed memory that faults
    outside its objects ([CMem]), the registers of a device, files, the text
    printed.  Integers are [Z] with the conversions of C written out ([u8] ..
    [s64]); undefined behaviour is an error of its own.  A loop is [loop fuel
    body]: the fuel is a bound on the number of rounds, the size of the memory
    for loops that scan it ([mloop]), the number of digits or bits for the
    arithmetic ones, the length of the input, or a count the code itself
    computes.  Running out of fuel is the error [Fuel]; the theorems state what
    the outcome is, so that they also say that the fuel is enough and that the
    loop ends.  The loops that wait for hardware (the UART, flash and debug port
    polls, and the harness running until the system finishes) have their number
    of rounds as a parameter; the contract of the device, or the premise that
    the system finishes, says that it is enough.

    Hardware, the operating system and generated code are parameters.  What the
    code relies on of them is stated as a type class: operations, such as
    [Bus], [Net], [Link], [Backend], [Term], [Sock], [Urj], [Tlb], [IrqLine],
    and contracts, such as [Uart], [TlbOk], [IrqLineOk], [Syscon], [SysCtrl],
    [SpiFlash], [QuadChip], [Calibration], [Wire], [Dmi],
    [DeadBackend], [Wishbone], [Gspr], [LogRing], [Typed], [Tap], [Simulator],
    [Dial], [ScanPort], [Regs64], [Echo], [VerilatedOk].  A theorem
    about a client is proved against the contract, and each contract has an
    instance, at which the theorem is applied in its witness.

    ** Files

    - [Prelude]: integers, the monad, loops, total correctness ([wp]), shared
      lemmas and tactics.
    - [CMem]: memory, blocks of bytes, strings, little-endian numbers.
    - [Ctype], [LibcMem], [LibcStr], [Strto], [Vsnprintf]: the library under
      litedram/gen-src/sdram_init/libc (src/is*.c, mem*.c, str*.c, strtol.c,
      strtoul.c, vsnprintf.c).  [VsnprintfSpec]: a reference of what a format
      prints, and the proof that vsnprintf writes it.
    - [Console]: lib/console.c with include/io.h and include/microwatt_soc.h;
      a 16550 and the older potato UART.  [Hello]: hello_world/hello_world.c and
      rust_lib_demo/hello_world.c.
    - [Simulate]: forward simulation between machines.  tests/mmu: [Mmu], the
      radix tree walk of mmu.vhdl and what is around it; [MmuTest], mmu.c and
      head.S, the tests over the interface [Machine] and the program that
      implements it; [MmuTables], the page tables in memory; [MmuRun], the
      program compared with an ideal machine; [MmuCorrect], the theorems.
      tests/xics in the same way: [Xics], xics.vhdl clock by clock; [XicsIsr],
      the vector of head.S; [XicsTest], xics.c and xics.h over [Xmachine];
      [XicsIdeal], [XicsRun], [XicsCorrect].
    - [Elf]: litedram/gen-src/sdram_init/include/elf64.h, its structures with
      their C layout and its macros.  [Boot]: litedram/gen-src/sdram_init/main.c;
      [BootSpec]: what loading an image means and that boot_flash does it;
      [ElfImage]: the ELF file of a program, made and booted; [FlashRead]: the
      other build of fl_read; [BootMain]: the whole loader, from main to the
      jump.
    - [Vhpi], [Bram], [SimConsole], [Jtag]: sim_vhpi_c.c,
      sim_bram_helpers_c.c, sim_console_c.c, sim_jtag_socket_c.c.
    - [Litedram]: litedram/extras/sim_litedram_c.cpp around the generated core.
    - [UartSim]: verilator/uart-verilator.c.  [Harness]:
      verilator/microwatt-verilator.cpp around the generated system.
    - scripts/mw_debug/mw_debug.c: [SimLink], the packets of the simulation back
      end; [MwDebug], the DMI, the commands and the command line; [MwBackend],
      the opening of the simulation socket and of the two kinds of JTAG part
      over liburjtag, the JTAG command and the table of back ends.
      [MwDebugSpec], [MwDebugShow]: what the commands do over any port;
      [MwDebugFail]: what they do when every access fails;
      [MwBackendSpec]: what each back end does; [DebugStack]: the tool over its
      back ends; [MwDebugPort], [DebugBench]: concrete ports and sessions.
    - [FmtLog]: scripts/fmt_log/fmt_log.c.  [FmtLogSpec]: the listing, described
      by the signals of the log vector of core.vhdl.  [LogChain]: the log of a
      core through mw_debug and fmt_log to the listing.
    - [Lms]: LMS_Periph/obj_dir, the C++ that Verilator made of the adaptive
      filter LMS_Periph/wb_lms.v and LMS.v, with its scheduler; [LmsDebug]: its
      debugging build and the methods of the class around it.

    ** What is proved

    - Library: each routine does what its description says, for every memory,
      overlap and length: memmove and memcpy, memset, the comparisons and
      searches, strncpy, strtok with its static, strtoul and strtol in every
      base.  vsnprintf prints exactly the reference rendering of its format, for
      every conversion, width and length modifier the code knows, and stays
      within the buffer when the format has no %c; the numbers it prints read
      back.
    - Drivers: puts sends the string with carriage returns and waits for the
      transmitter; getchar; the initialisation programs the UART the system
      controller reports, with the divisor for the clock.
    - Programs: hello_world prints its banner and the commit, then echoes.
      boot_flash on any image copies the segments of its program headers up to
      the first one that is not loadable to their addresses and nothing else,
      and returns the entry point; on anything that is not a little-endian POWER
      ELF64 file it gives up without loading anything.  A program made into an
      ELF file with the structures of elf64.h is in memory as it was once the
      file was booted.  Reading the first 16 MB of the flash through the
      controller is the same as reading it through the window.  The loader's
      main prints the report the registers call for, sets the flash up, starts
      the DRAM, clears the alternate reset and boots from block RAM, from the
      flash or from its own payload, and touches no other memory and no other
      bit of the control register.
    - Tests: the MMU test prints its nineteen PASS lines, byte for byte the file
      tests/test_mmu.console_out, whichever entries the translation buffers
      keep.  The page tables in memory with the walk and the buffers behave as a
      map from pages to leaves, for any sequence of mapping, unmapping and
      translating that the map allows: below 2 GB, four pages and four tables at
      most, and no mapping of a mapped page but to add to its bits, as map does
      not invalidate the buffers ([remap_is_stale] shows what happens then).
      zero_memory ends, and clears its area, exactly for areas that end at a
      cache line.  The interrupt test passes at whichever points its interrupts
      are taken, clock by clock on the controller, whatever the other interrupt
      lines do, with at least four cycles between an access and an interrupt and
      with stack for the vector, which puts all registers back; the controller
      presents the most favoured source.
    - Simulation: vectors, block RAM words and console characters survive the
      trip across the VHDL boundary; a block RAM starts with the contents of
      its file.  The two state machines of the simulated serial port agree:
      everything typed is printed, for every bit time.  Requests and answers
      of the DRAM core are laid out in their vectors as the VHDL side documents
      them, with one time step for each evaluation, and one trace entry where
      tracing was switched on by the first call.  The
      harness makes five reset pulses, then runs the system until it finishes,
      and a system that echoes its line echoes what is typed.
    - Debugging: a command of the debug tool reaches the simulated debug port
      bit for bit through the packet format and back.  Over any back end that
      keeps the contract of the port every access completes; memory commands
      change exactly the words they name, load and save give a file back up to
      the zeros that fill its last word, the register, memory and log commands
      show and dump what is there.  The three back ends give the same answers
      over the same port.  Opening a JTAG part selects the debug port when the
      library works; with any library at all it gives 0 or -1 but for two cases
      in which a null pointer is followed.  The whole program, given a write on
      its command line, opens its back end and changes exactly that word.  When
      every access fails the
      program ends with status 1 whatever it was asked, and no file has got a
      byte.
    - Log: every signal the units of the core put into the log vector is shown in
      its column, the addresses next to the stages are those of the last entries
      with these low bits, and the run prints a line for every whole entry and
      the summary, or exits with 1.  What mw_debug dumps of the ring of a core,
      fmt_log prints: all entries of the stopped ring, and from the oldest to the
      newest if it was stopped before.
    - Filter: the Verilated LMS filter, from its random initial state on, does
      what the Verilog design says for every sequence of inputs; its scheduler
      always converges; every variable keeps its width; an update is exact
      Q4.12 arithmetic unless it overflows.  The model reproduces the run
      recorded in LMS_Periph/wb_lms_output.csv ([recorded]).  The debugging
      build is the same model behind a check of exactly the precondition.

    Several lemmas record behaviour that is probably not intended; they sit
    next to the definitions they are about: [vsnprintf_char_overflow],
    [boot_flash_note_stops], [console_init_ignores_uart_clock],
    [bram_check_off_by_one], [strcasecmp_order], [strchr_nul], [pack_short],
    [pack_overflow], [gpr_count_wraps], [frequency_without_argument],
    [back_to_back], [last_slot_uninitialised], [taps_flat], [running_dump],
    [zero_memory_stuck], [xive_reads_masked], [xics_source_15],
    [isr_saves_outside], [bypass_letters_swapped], [fpr_shown_as_spr].

    ** What is not modelled

    Generated code: the LiteX calibration the boot loader calls (sdram_init),
    and the Verilated DRAM core and system, which are not in the repository;
    what is called of them is a parameter, as is the Verilator library. Debug
    output and messages on standard error. The VHDL and Verilog sources, but for
    mmu.vhdl, xics.vhdl and the few lines around them that the two test programs
    depend on (those of the filter are the reference its C++ is compared with).
    The other test programs, whose outcome is that of the single instructions
    under test, and the start code of the two that are modelled. What compiled C
    keeps in registers: an interrupt finds any values there. Pipelining and
    caches: accesses to memory happen in program order. The constants of elf_common.h and of the register
    map that no code uses, and the empty functions and declarations of the
    headers. *)

From Stdlib Require Export ZArith Lia ZifyBool.
From stdpp Require Export strings.
From stdpp Require Export base tactics numbers list list_numbers gmap option.

Declare Scope c_scope.
Delimit Scope c_scope with C.
Global Open Scope Z_scope.

Coercion Z.of_nat : nat >-> Z.

(** ** Machine integers

    A C integer is a [Z]; the conversions below are the implicit and explicit
    conversions of C on an LP64 target with two's complement. *)

Definition u8 (x : Z) : Z := x mod 2 ^ 8.
Definition u16 (x : Z) : Z := x mod 2 ^ 16.
Definition u32 (x : Z) : Z := x mod 2 ^ 32.
Definition u64 (x : Z) : Z := x mod 2 ^ 64.

(** Two's complement reading of the low [w] bits. *)
Definition signed (w x : Z) : Z :=
  let r := x mod 2 ^ w in if r <? 2 ^ (w - 1) then r else r - 2 ^ w.

Definition s16 (x : Z) : Z := signed 16 x.
Definition s32 (x : Z) : Z := signed 32 x.
Definition s64 (x : Z) : Z := signed 64 x.

Definition in_u8 (x : Z) : Prop := 0 <= x < 2 ^ 8.
Definition in_u32 (x : Z) : Prop := 0 <= x < 2 ^ 32.
Definition in_u64 (x : Z) : Prop := 0 <= x < 2 ^ 64.

(** C's truth value of a comparison. *)
Definition b2z (b : bool) : Z := if b then 1 else 0.

Create HintDb cint discriminated.

Lemma u8_range x : 0 <= u8 x < 2 ^ 8.
Proof. unfold u8. apply Z.mod_pos_bound. lia. Qed.

Lemma u32_range x : 0 <= u32 x < 2 ^ 32.
Proof. unfold u32. apply Z.mod_pos_bound. lia. Qed.

Lemma u64_range x : 0 <= u64 x < 2 ^ 64.
Proof. unfold u64. apply Z.mod_pos_bound. lia. Qed.

Lemma u8_small x : 0 <= x < 2 ^ 8 -> u8 x = x.
Proof. intros. unfold u8. by apply Z.mod_small. Qed.

Lemma u32_small x : 0 <= x < 2 ^ 32 -> u32 x = x.
Proof. intros. unfold u32. by apply Z.mod_small. Qed.

Lemma u64_small x : 0 <= x < 2 ^ 64 -> u64 x = x.
Proof. intros. unfold u64. by apply Z.mod_small. Qed.

Lemma signed_small w x :
  0 < w -> - 2 ^ (w - 1) <= x < 2 ^ (w - 1) -> signed w x = x.
Proof.
  intros Hw Hx. unfold signed.
  assert (Hp : 2 ^ w = 2 * 2 ^ (w - 1)).
  { rewrite <- Z.pow_succ_r by lia. f_equal. lia. }
  destruct (decide (0 <= x)) as [Hn|Hn].
  - rewrite Z.mod_small by lia. destruct (Z.ltb_spec x (2 ^ (w - 1))); lia.
  - replace (x mod 2 ^ w) with (x + 2 ^ w).
    + destruct (Z.ltb_spec (x + 2 ^ w) (2 ^ (w - 1))); lia.
    + rewrite <- (Z.mod_small (x + 2 ^ w) (2 ^ w)) by lia.
      rewrite <- (Z_mod_plus_full x 1). f_equal. lia.
Qed.

Lemma s16_small x : - 2 ^ 15 <= x < 2 ^ 15 -> s16 x = x.
Proof. intros. by apply signed_small. Qed.

Lemma s32_small x : - 2 ^ 31 <= x < 2 ^ 31 -> s32 x = x.
Proof. intros. by apply signed_small. Qed.

Lemma s64_small x : - 2 ^ 63 <= x < 2 ^ 63 -> s64 x = x.
Proof. intros. by apply signed_small. Qed.

Lemma u64_sub_same a b : 0 <= a - b < 2 ^ 64 -> u64 (a - b) = a - b.
Proof. apply u64_small. Qed.

#[export] Hint Resolve u8_range u32_range u64_range : cint.

(** [unwrap] removes the conversions whose operand is provably in range. *)
Ltac unwrap :=
  repeat first
    [ rewrite u8_small by lia | rewrite u32_small by lia
    | rewrite u64_small by lia | rewrite s16_small by lia
    | rewrite s32_small by lia | rewrite s64_small by lia ].

(** Case analysis on every boolean comparison of the goal. *)
Ltac zcases :=
  repeat match goal with
  | |- context [?x <? ?y] => destruct (Z.ltb_spec x y); try lia
  | |- context [?x <=? ?y] => destruct (Z.leb_spec x y); try lia
  | |- context [?x =? ?y] => destruct (Z.eqb_spec x y); try lia
  | |- context [?x >? ?y] => rewrite (Z.gtb_ltb x y)
  | |- context [?x >=? ?y] => rewrite (Z.geb_leb x y)
  end.

(** ** Text *)

(** The character codes of a string constant. *)
Definition codes (s : string) : list Z :=
  List.map (fun a => Z.of_N (Ascii.N_of_ascii a)) (String.list_ascii_of_string s).
Arguments codes s%_string.

(** ** Effects

    A C function is a state transformer that can fail: [Segv p] is an access
    outside the objects of the model, [UB] any other undefined behaviour,
    [Exit c] a call of [exit], and [Fuel] marks a loop whose bound was too
    small (the termination theorems show it is never the outcome). *)

Inductive exn : Type :=
| Segv (p : Z)
| UB
| Exit (code : Z)
| Fuel.

#[global] Instance exn_eq_dec : EqDecision exn.
Proof. solve_decision. Defined.

Inductive outcome (S A : Type) : Type :=
| Ok (a : A) (s : S)
| Err (e : exn) (s : S).
Arguments Ok {S A} a s.
Arguments Err {S A} e s.

Definition M (S A : Type) : Type := S -> outcome S A.

#[global] Instance M_ret S : MRet (M S) := fun A a s => Ok a s.
#[global] Instance M_bind S : MBind (M S) := fun A B k c s =>
  match c s with
  | Ok a s' => k a s'
  | Err e s' => Err e s'
  end.

Definition throw {S A} (e : exn) : M S A := fun s => Err e s.
Definition gets {S A} (f : S -> A) : M S A := fun s => Ok (f s) s.
Definition modify {S} (f : S -> S) : M S unit := fun s => Ok tt (f s).

(** The state an outcome leaves behind, error or not. *)
Definition out_state {S A} (o : outcome S A) : S :=
  match o with Ok _ s => s | Err _ s => s end.

Definition is_ok {S A} (o : outcome S A) : bool :=
  match o with Ok _ _ => true | Err _ _ => false end.

(** A C loop: the body answers [inl] to go round again and [inr] to leave. *)
Fixpoint loop {S X R} (fuel : nat) (body : X -> M S (X + R)) (x : X) : M S R :=
  fun s =>
    match fuel with
    | O => Err Fuel s
    | Datatypes.S f =>
        match body x s with
        | Ok (inl x') s' => loop f body x' s'
        | Ok (inr r) s' => Ok r s'
        | Err e s' => Err e s'
        end
    end.

(** Running a computation on another object and keeping only its value. *)
Definition on_object {S T A} (t : T) (c : M T A) : M S A := fun s =>
  match c t with
  | Ok a _ => Ok a s
  | Err e _ => Err e s
  end.

Lemma bind_ok {S A B} (c : M S A) (k : A -> M S B) s a s' :
  c s = Ok a s' -> (c ≫= k) s = k a s'.
Proof. intros H. unfold mbind, M_bind. by rewrite H. Qed.

Lemma bind_err {S A B} (c : M S A) (k : A -> M S B) s e s' :
  c s = Err e s' -> (c ≫= k) s = Err e s'.
Proof. intros H. unfold mbind, M_bind. by rewrite H. Qed.

Lemma bind_inv {S A B} (c : M S A) (k : A -> M S B) s b s'' :
  (c ≫= k) s = Ok b s'' -> exists a s', c s = Ok a s' /\ k a s' = Ok b s''.
Proof.
  unfold mbind, M_bind. destruct (c s) as [a s'|e s'] eqn:E; intros H.
  - by exists a, s'.
  - discriminate.
Qed.

Lemma loop_continue {S X R} f (body : X -> M S (X + R)) x x' s s' :
  body x s = Ok (inl x') s' -> loop (Datatypes.S f) body x s = loop f body x' s'.
Proof. intros H. simpl. by rewrite H. Qed.

Lemma loop_break {S X R} f (body : X -> M S (X + R)) x r s s' :
  body x s = Ok (inr r) s' -> loop (Datatypes.S f) body x s = Ok r s'.
Proof. intros H. simpl. by rewrite H. Qed.

Lemma loop_err {S X R} f (body : X -> M S (X + R)) x e s s' :
  body x s = Err e s' -> loop (Datatypes.S f) body x s = Err e s'.
Proof. intros H. simpl. by rewrite H. Qed.

(** An invariant of the state that every iteration keeps holds of the state
    the loop leaves, however it leaves. *)
Lemma loop_state_inv {S X R} (I : X -> S -> Prop) (Q : S -> Prop)
    (body : X -> M S (X + R)) :
  (forall x s, I x s -> Q s) ->
  (forall x s, I x s ->
     match body x s with
     | Ok (inl x') s' => I x' s'
     | Ok (inr _) s' => Q s'
     | Err _ s' => Q s'
     end) ->
  forall f x s, I x s -> Q (out_state (loop f body x s)).
Proof.
  intros HQ Hb f. induction f as [|f IH]; intros x s HI; simpl; [eauto|].
  specialize (Hb x s HI). destruct (body x s) as [[x'|r] s'|e s']; simpl; auto.
Qed.

Create Rewrite HintDb run.
#[export] Hint Rewrite @bind_ok @bind_err using (first [eassumption | reflexivity]) : run.

(** ** Total correctness

    [wp c Q s]: from [s] the computation [c] ends without an error, and [Q]
    holds of its result and final state. *)

Definition wp {S A} (c : M S A) (Q : A -> S -> Prop) (s : S) : Prop :=
  match c s with Ok a s' => Q a s' | Err _ _ => False end.

Lemma wp_spec {S A} (c : M S A) Q s : wp c Q s <-> exists a s', c s = Ok a s' /\ Q a s'.
Proof.
  unfold wp. destruct (c s) as [a s'|e s']; split; [eauto|by intros (? & ? & [= <- <-] & ?)|done|].
  by intros (? & ? & ? & _).
Qed.

Lemma wp_ret {S A} (a : A) (Q : A -> S -> Prop) s : Q a s -> wp (mret a) Q s.
Proof. done. Qed.

Lemma wp_gets {S A} (f : S -> A) (Q : A -> S -> Prop) s : Q (f s) s -> wp (gets f) Q s.
Proof. done. Qed.

Lemma wp_modify {S} (f : S -> S) (Q : unit -> S -> Prop) s : Q tt (f s) -> wp (modify f) Q s.
Proof. done. Qed.

Lemma wp_bind {S A B} (c : M S A) (k : A -> M S B) Q s :
  wp c (fun a => wp (k a) Q) s -> wp (c ≫= k) Q s.
Proof. unfold wp, mbind, M_bind. by destruct (c s). Qed.

Lemma wp_mono {S A} (c : M S A) (P Q : A -> S -> Prop) s :
  wp c P s -> (forall a s', P a s' -> Q a s') -> wp c Q s.
Proof. unfold wp. destruct (c s); auto. Qed.

(** A loop with an invariant and a measure that goes down. *)
Lemma wp_loop {S X R} (I : X -> S -> Prop) (mu : X -> nat) (body : X -> M S (X + R)) Q f x s :
  I x s -> (mu x < f)%nat ->
  (forall x s, I x s -> wp (body x) (fun r s' =>
     match r with inl x' => I x' s' /\ (mu x' < mu x)%nat | inr r => Q r s' end) s) ->
  wp (loop f body x) Q s.
Proof.
  intros HI Hf Hb. revert x s HI Hf. induction f as [|f IH]; intros x s HI Hf; [lia|].
  specialize (Hb x s HI). unfold wp in *. simpl. destruct (body x s) as [[x'|r] s'|e s']; [|done|done].
  destruct Hb as [HI' Hmu]. apply IH; [done|lia].
Qed.

(** ** Generic lemmas *)

Lemma replicate_snoc {A} (n : nat) (x : A) :
  replicate n x ++ [x] = replicate (Datatypes.S n) x.
Proof. rewrite replicate_S_end. reflexivity. Qed.

Lemma testbit_above (x w i : Z) :
  0 <= x < 2 ^ w -> 0 <= w <= i -> Z.testbit x i = false.
Proof.
  intros Hx Hw. destruct (Z.eq_dec x 0) as [->|Hne]; [apply Z.bits_0|].
  apply Z.bits_above_log2; [lia|].
  assert (Z.log2 x < w) by (apply Z.log2_lt_pow2; lia). lia.
Qed.

Lemma testbit_mod_pow2 (a n i : Z) :
  0 <= i -> 0 <= n -> Z.testbit (a mod 2 ^ n) i = (i <? n) && Z.testbit a i.
Proof.
  intros Hi Hn. destruct (Z.ltb_spec i n).
  - by rewrite Z.mod_pow2_bits_low by lia.
  - by rewrite Z.mod_pow2_bits_high by lia.
Qed.

(** The C idiom [v & (1 << k)]. *)
Lemma land_pow2 v k : 0 <= k -> (Z.land v (2 ^ k) =? 0) = negb (Z.testbit v k).
Proof.
  intros Hk. destruct (Z.testbit v k) eqn:E.
  - apply Z.eqb_neq. intros H. apply (f_equal (fun z => Z.testbit z k)) in H.
    by rewrite Z.land_spec, Z.pow2_bits_true, E, Z.bits_0 in H.
  - apply Z.eqb_eq, Z.bits_inj'. intros n Hn.
    rewrite Z.land_spec, Z.bits_0, Z.pow2_bits_eqb by done.
    destruct (Z.eqb_spec k n) as [->|]; [by rewrite E|by rewrite andb_false_r].
Qed.

(** Bits [msb] down to [lsb] of a number. *)
Definition bit_range (w msb lsb : Z) : Z := Z.shiftr w lsb mod 2 ^ (msb - lsb + 1).

(** Numbers with no bit in common. *)
Lemma lor_disjoint a b : Z.land a b = 0 -> Z.lor a b = a + b.
Proof. intros H. by rewrite <- Z.lxor_lor, <- Z.add_nocarry_lxor by done. Qed.

(** Bit operations stay within 64 bits. *)
Lemma in_u64_ones a : in_u64 a <-> Z.land a (Z.ones 64) = a.
Proof.
  rewrite Z.land_ones by lia. split; [by apply Z.mod_small|]. intros <-. by apply Z.mod_pos_bound.
Qed.

Lemma lor_u64 a b : in_u64 a -> in_u64 b -> in_u64 (Z.lor a b).
Proof. rewrite !in_u64_ones, Z.land_lor_distr_l. by intros -> ->. Qed.

Lemma land_u64 a b : in_u64 a -> in_u64 (Z.land a b).
Proof. rewrite !in_u64_ones, <- Z.land_assoc, (Z.land_comm b), Z.land_assoc. by intros ->. Qed.

(** A number shifted clear of a small one. *)
Lemma lor_shifted a b k : 0 <= k -> 0 <= b < 2 ^ k -> Z.lor (a * 2 ^ k) b = a * 2 ^ k + b.
Proof.
  intros Hk Hb. apply lor_disjoint. rewrite <- Z.shiftl_mul_pow2 by lia. apply Z.bits_inj'.
  intros n Hn. rewrite Z.land_spec, Z.bits_0. destruct (Z.ltb_spec n k).
  - by rewrite Z.shiftl_spec_low by lia.
  - by rewrite (testbit_above b k n), andb_false_r by lia.
Qed.

(** [run_with tac] executes the first command of a sequence, whose outcome
    [tac] establishes. *)
Tactic Notation "run_with" tactic3(tac) :=
  erewrite bind_ok by tac; cbv beta iota.

(** Resolve the test a conditional statement makes. *)
Ltac if_is v :=
  match goal with
  | |- context [if ?b then _ else _] =>
      let H := fresh in
      assert (b = v) as H by lia; rewrite H; clear H; cbv beta iota
  end.
Ltac if_true := if_is true.
Ltac if_false := if_is false.

(** Open the body of a loop at its current state. *)
Tactic Notation "enter" reference(f) := unfold f; cbv beta iota zeta.

(** Equality of two data structures whose leaves differ by arithmetic. *)
Ltac eq_lia := solve [first [reflexivity | lia | progress f_equal; eq_lia]].
