(* ===== verification/CMem.v ===== *)
(** * Byte-addressed memory

    The objects a firmware routine can reach, as a finite map from addresses
    to bytes.  An access to an address outside the map is a fault, so a
    theorem that a routine returns also says it touches mapped bytes only.
    The target is little endian ([-mlittle-endian]) and plain [char] is
    unsigned (ELFv2), so a [char] read from memory is a value in 0..255. *)

From S2P Require Import Prelude.

Abbreviation mem := (gmap Z Z).

(** Every address is a 64-bit number and every cell holds a byte. *)
Definition mem_ok (m : mem) : Prop := map_Forall (fun p b => in_u64 p /\ in_u8 b) m.

(** ** Accesses *)

Definition loadb (p : Z) : M mem Z := fun m =>
  match m !! p with
  | Some b => Ok b m
  | None => Err (Segv p) m
  end.

Definition storeb (p v : Z) : M mem unit := fun m =>
  match m !! p with
  | Some _ => Ok tt (<[p := u8 v]> m)
  | None => Err (Segv p) m
  end.

(** The [n] bytes from [p], least significant first, as one number. *)
Fixpoint load_le (n : nat) (p : Z) : M mem Z :=
  match n with
  | O => mret 0
  | S n' =>
      b ← loadb p; r ← load_le n' (p + 1); mret (b + 256 * r)
  end.

Fixpoint store_le (n : nat) (p v : Z) : M mem unit :=
  match n with
  | O => mret tt
  | S n' => _ ← storeb p v; store_le n' (p + 1) (v / 256)
  end.

(** [*(uint64_t * )p] and friends: a misaligned access is split by the core. *)
Definition load64 (p : Z) : M mem Z := load_le 8 p.
Definition store64 (p v : Z) : M mem unit := store_le 8 p v.

(** A loop over memory reaches a new address in each round, so one round
    more than there are bytes is enough. *)
Definition mloop {X R} (body : X -> M mem (X + R)) (x : X) : M mem R :=
  fun m => loop (S (size m)) body x m.

(** ** What memory holds *)

Definition bytes_at (m : mem) (p : Z) (l : list Z) : Prop :=
  forall (i : nat) b, l !! i = Some b -> m !! (p + i) = Some b.

Definition mapped (m : mem) (p n : Z) : Prop :=
  forall i, 0 <= i < n -> is_Some (m !! (p + i)).

(** A NUL terminated string. *)
Definition cstr (m : mem) (p : Z) (l : list Z) : Prop :=
  bytes_at m p (l ++ [0]) /\ Forall (fun c => c <> 0) l.

Fixpoint write_bytes (p : Z) (l : list Z) (m : mem) : mem :=
  match l with
  | [] => m
  | b :: l' => write_bytes (p + 1) l' (<[p := b]> m)
  end.

(** The two memories agree outside [p, p + n). *)
Definition same_outside (p n : Z) (m m' : mem) : Prop :=
  forall q, ~ (p <= q < p + n) -> m' !! q = m !! q.

(** ** Lemmas on accesses *)

Lemma loadb_ok m p b : m !! p = Some b -> loadb p m = Ok b m.
Proof. intros H. unfold loadb. by rewrite H. Qed.

Lemma loadb_fault m p : m !! p = None -> loadb p m = Err (Segv p) m.
Proof. intros H. unfold loadb. by rewrite H. Qed.

Lemma storeb_ok m p v :
  is_Some (m !! p) -> storeb p v m = Ok tt (<[p := u8 v]> m).
Proof. intros [b H]. unfold storeb. by rewrite H. Qed.

Lemma storeb_dom m p v : dom (out_state (storeb p v m)) = dom m.
Proof.
  unfold storeb. destruct (m !! p) eqn:E; simpl; [|done].
  rewrite dom_insert_L. apply elem_of_dom_2 in E. set_solver +E.
Qed.

Lemma storeb_same p n m q v :
  p <= q < p + n -> same_outside p n m (out_state (storeb q v m)).
Proof.
  intros Hq r Hr. unfold storeb. destruct (m !! q); simpl; [|done].
  rewrite lookup_insert_ne; [done|]. intros ->. tauto.
Qed.

Lemma same_outside_refl p n m : same_outside p n m m.
Proof. by intros q _. Qed.

Lemma same_outside_trans p n m1 m2 m3 :
  same_outside p n m1 m2 -> same_outside p n m2 m3 -> same_outside p n m1 m3.
Proof. intros H1 H2 q Hq. rewrite H2, H1; auto. Qed.

Lemma same_outside_mono p n p' n' m m' :
  p' <= p -> p + n <= p' + n' -> same_outside p n m m' -> same_outside p' n' m m'.
Proof. intros Hp Hn H q Hq. apply H. lia. Qed.

#[global] Instance same_outside_preorder p n : PreOrder (same_outside p n).
Proof.
  split; [intros ?; apply same_outside_refl|].
  intros m1 m2 m3. apply same_outside_trans.
Qed.

#[export] Hint Resolve same_outside_refl storeb_same : cint.

(** ** Lemmas on contents *)

Lemma bytes_at_nil m p : bytes_at m p [].
Proof. intros i b H. by rewrite lookup_nil in H. Qed.

Lemma bytes_at_cons m p b l :
  bytes_at m p (b :: l) <-> m !! p = Some b /\ bytes_at m (p + 1) l.
Proof.
  split.
  - intros H. split.
    + specialize (H 0%nat b eq_refl). by rewrite Z.add_0_r in H.
    + intros i c Hi. specialize (H (S i) c Hi).
      by replace (p + 1 + i) with (p + S i) by lia.
  - intros [Hb Hl] [|i] c Hi; simpl in Hi.
    + rewrite Z.add_0_r. congruence.
    + replace (p + S i) with (p + 1 + i) by lia. by apply Hl.
Qed.

Lemma bytes_at_app m p l1 l2 :
  bytes_at m p (l1 ++ l2) <-> bytes_at m p l1 /\ bytes_at m (p + length l1) l2.
Proof.
  revert p. induction l1 as [|b l1 IH]; intros p; simpl.
  - rewrite Z.add_0_r. split; [|tauto]. intros H. split; [apply bytes_at_nil|done].
  - rewrite !bytes_at_cons, IH.
    replace (p + 1 + length l1) with (p + S (length l1)) by lia. tauto.
Qed.

Lemma bytes_at_mapped m p l : bytes_at m p l -> mapped m p (length l).
Proof.
  intros H i Hi. destruct (lookup_lt_is_Some_2 l (Z.to_nat i)) as [b Hb]; [lia|].
  exists b. specialize (H _ _ Hb). by rewrite Z2Nat.id in H by lia.
Qed.

Lemma mapped_at m p n q : mapped m p n -> p <= q < p + n -> is_Some (m !! q).
Proof. intros H Hq. replace q with (p + (q - p)) by lia. apply H. lia. Qed.

Lemma mapped_mono m p n p' n' :
  mapped m p n -> p <= p' -> p' + n' <= p + n -> mapped m p' n'.
Proof.
  intros H Hp Hn i Hi. replace (p' + i) with (p + (p' - p + i)) by lia.
  apply H. lia.
Qed.

(** Distinct mapped addresses are distinct cells: a mapped range is no longer
    than the memory, which is why [mloop]'s bound suffices. *)
Lemma mapped_size m p n : 0 <= n -> mapped m p n -> n <= size m.
Proof.
  intros Hn H.
  assert (Hs : list_to_set (seqZ p n) ⊆@{gset Z} dom m).
  { intros q Hq. apply elem_of_list_to_set, elem_of_seqZ in Hq.
    apply elem_of_dom. replace q with (p + (q - p)) by lia. apply H. lia. }
  apply subseteq_size in Hs. rewrite size_dom in Hs.
  rewrite size_list_to_set in Hs by apply NoDup_seqZ.
  rewrite length_seqZ in Hs. lia.
Qed.

Lemma mapped_same_dom m m' p n : dom m' = dom m -> mapped m p n -> mapped m' p n.
Proof.
  intros Hd H i Hi. apply elem_of_dom. rewrite Hd. apply elem_of_dom. by apply H.
Qed.

Lemma bytes_at_length_size m p l : bytes_at m p l -> (length l <= size m)%nat.
Proof. intros H. apply bytes_at_mapped, mapped_size in H; lia. Qed.

Lemma cstr_nil m p : cstr m p [] <-> m !! p = Some 0.
Proof.
  unfold cstr; simpl. rewrite bytes_at_cons. split; [tauto|].
  intros H. split; [split; [done|apply bytes_at_nil]|constructor].
Qed.

Lemma cstr_cons m p c l :
  cstr m p (c :: l) <-> m !! p = Some c /\ c <> 0 /\ cstr m (p + 1) l.
Proof.
  unfold cstr; simpl. rewrite bytes_at_cons, Forall_cons_iff. tauto.
Qed.

Lemma cstr_app_r m p l1 l2 : cstr m p (l1 ++ l2) -> cstr m (p + length l1) l2.
Proof.
  revert p. induction l1 as [|c l1 IH]; intros p; simpl.
  - by rewrite Z.add_0_r.
  - intros (_ & _ & H)%cstr_cons. apply IH in H.
    by replace (p + S (length l1)) with (p + 1 + length l1) by lia.
Qed.

Lemma cstr_size m p l : cstr m p l -> (length l < size m)%nat.
Proof.
  intros [H _]. apply bytes_at_length_size in H. rewrite length_app in H.
  simpl in H. lia.
Qed.

Lemma mem_ok_range m p b : mem_ok m -> m !! p = Some b -> in_u64 p /\ in_u8 b.
Proof. intros Hm Hp. exact (Hm p b Hp). Qed.

Lemma bytes_at_in_u8 m p l : mem_ok m -> bytes_at m p l -> Forall in_u8 l.
Proof.
  intros Hm H. apply Forall_forall. intros b Hb.
  apply list_elem_of_In, list_elem_of_lookup in Hb as [i Hi].
  by eapply mem_ok_range, H.
Qed.

Lemma cstr_in_u8 m p l : mem_ok m -> cstr m p l -> Forall in_u8 l.
Proof.
  intros Hm [H _]. apply bytes_at_in_u8 in H; [|done]. by apply Forall_app in H as [H _].
Qed.

(** The terminator of a string is at a 64-bit address too. *)
Lemma cstr_end m p l : cstr m p l -> m !! (p + length l) = Some 0.
Proof. intros [H _]. apply bytes_at_app in H as [_ H]. by apply bytes_at_cons in H as [H _]. Qed.

Lemma cstr_start m p l : cstr m p l -> m !! p = Some (default 0 (head l)).
Proof. destruct l; [by rewrite cstr_nil|]. by intros [H _]%cstr_cons. Qed.

Lemma cstr_len m p l : mem_ok m -> cstr m p l -> 0 <= p /\ p + length l < 2 ^ 64.
Proof.
  intros Hm H. pose proof (cstr_end _ _ _ H) as He. pose proof (cstr_start _ _ _ H) as Hs.
  apply (mem_ok_range m) in He as [He _]; [|done]. apply (mem_ok_range m) in Hs as [Hs _]; [|done].
  unfold in_u64 in *. lia.
Qed.

Lemma mem_ok_insert m p b : mem_ok m -> is_Some (m !! p) -> in_u8 b -> mem_ok (<[p := b]> m).
Proof.
  intros Hm [c Hc] Hb q x. destruct (decide (p = q)) as [->|Hne].
  - rewrite lookup_insert_eq. intros [= <-]. by apply (mem_ok_range m) in Hc as [? _].
  - rewrite lookup_insert_ne by done. apply Hm.
Qed.

(** A string has one reading. *)
Lemma cstr_inj m p l1 l2 : cstr m p l1 -> cstr m p l2 -> l1 = l2.
Proof.
  revert p l2. induction l1 as [|c l1 IH]; intros p [|d l2].
  - done.
  - rewrite cstr_nil, cstr_cons. intros ? (? & ? & ?). congruence.
  - rewrite cstr_nil, cstr_cons. intros (? & ? & ?) ?. congruence.
  - rewrite !cstr_cons. intros (? & ? & ?) (? & ? & ?).
    f_equal; [congruence|eauto].
Qed.

(** ** Writing a block *)

Lemma write_bytes_lookup p l m q :
  write_bytes p l m !! q =
    if bool_decide (p <= q < p + length l) then l !! Z.to_nat (q - p) else m !! q.
Proof.
  revert p m. induction l as [|b l IH]; intros p m; cbn [write_bytes].
  - rewrite bool_decide_false; [done|simpl; lia].
  - rewrite IH. cbn [length].
    destruct (decide (q = p)) as [->|Hne].
    + rewrite bool_decide_false by lia. rewrite bool_decide_true by lia.
      rewrite lookup_insert_eq, Z.sub_diag. done.
    + rewrite lookup_insert_ne by done.
      destruct (decide (p <= q < p + S (length l))).
      * rewrite !bool_decide_true by lia.
        replace (Z.to_nat (q - p)) with (S (Z.to_nat (q - (p + 1)))) by lia. done.
      * by rewrite !bool_decide_false by lia.
Qed.

Lemma write_bytes_app p l1 l2 m :
  write_bytes p (l1 ++ l2) m = write_bytes (p + length l1) l2 (write_bytes p l1 m).
Proof.
  revert p m. induction l1 as [|b l1 IH]; intros p m; simpl.
  - by rewrite Z.add_0_r.
  - rewrite IH. f_equal; lia.
Qed.

Lemma write_bytes_cons p b l m :
  <[p := b]> (write_bytes (p + 1) l m) = write_bytes p (b :: l) m.
Proof.
  apply map_eq. intros q. cbn [write_bytes]. rewrite write_bytes_lookup.
  destruct (decide (q = p)) as [->|Hne].
  - by rewrite lookup_insert_eq, bool_decide_false, lookup_insert_eq by lia.
  - by rewrite !lookup_insert_ne, write_bytes_lookup by done.
Qed.

Lemma write_bytes_snoc p l b m :
  write_bytes p (l ++ [b]) m = write_bytes p l (<[p + length l := b]> m).
Proof.
  apply map_eq. intros q. rewrite !write_bytes_lookup, length_app. cbn [length].
  destruct (decide (q = p + length l)) as [->|Hne].
  - rewrite lookup_insert_eq, bool_decide_true, bool_decide_false by lia.
    replace (Z.to_nat (p + length l - p)) with (length l) by lia.
    by rewrite lookup_app_r, Nat.sub_diag by lia.
  - rewrite lookup_insert_ne by done. case_bool_decide.
    + rewrite bool_decide_true by lia. rewrite lookup_app_l by lia. done.
    + by rewrite bool_decide_false by lia.
Qed.

(** Writing what is there, over what was written, and a single byte of it. *)
Lemma write_bytes_id p l m : bytes_at m p l -> write_bytes p l m = m.
Proof.
  intros H. apply map_eq. intros q. rewrite write_bytes_lookup. case_bool_decide; [|done].
  destruct (lookup_lt_is_Some_2 l (Z.to_nat (q - p))) as [b Hb]; [lia|].
  rewrite Hb. symmetry. apply H in Hb. by replace (p + Z.to_nat (q - p)) with q in Hb by lia.
Qed.

Lemma write_bytes_twice p l1 l2 m :
  length l1 = length l2 -> write_bytes p l2 (write_bytes p l1 m) = write_bytes p l2 m.
Proof.
  intros H. apply map_eq. intros q. rewrite !write_bytes_lookup.
  case_bool_decide; [done|]. by rewrite bool_decide_false by lia.
Qed.

Lemma write_bytes_update p l m (i : nat) x :
  bytes_at m p l -> (i < length l)%nat -> <[p + i := x]> m = write_bytes p (<[i := x]> l) m.
Proof.
  intros H Hi. apply map_eq. intros q. rewrite write_bytes_lookup, length_insert.
  destruct (decide (q = p + i)) as [->|Hne].
  - rewrite lookup_insert_eq, bool_decide_true by lia.
    replace (Z.to_nat (p + i - p)) with i by lia. by rewrite list_lookup_insert_eq.
  - rewrite lookup_insert_ne by done. case_bool_decide; [|done].
    rewrite list_lookup_insert_ne by lia.
    destruct (lookup_lt_is_Some_2 l (Z.to_nat (q - p))) as [b Hb]; [lia|].
    rewrite Hb. apply H in Hb. by replace (p + Z.to_nat (q - p)) with q in Hb by lia.
Qed.

Lemma write_bytes_same p l m n :
  length l <= n -> same_outside p n m (write_bytes p l m).
Proof.
  intros Hn q Hq. rewrite write_bytes_lookup, bool_decide_false; [done|lia].
Qed.

Lemma write_bytes_at p l m : bytes_at (write_bytes p l m) p l.
Proof.
  intros i b Hi. pose proof (lookup_lt_Some _ _ _ Hi).
  rewrite write_bytes_lookup, bool_decide_true by lia.
  by replace (Z.to_nat (p + i - p)) with i by lia.
Qed.

Lemma write_bytes_mapped p l m q n :
  mapped m q n -> mapped (write_bytes p l m) q n.
Proof.
  intros H i Hi. rewrite write_bytes_lookup. case_bool_decide; [|by apply H].
  apply lookup_lt_is_Some_2. lia.
Qed.

Lemma write_bytes_dom p l m :
  mapped m p (length l) -> dom (write_bytes p l m) = dom m.
Proof.
  intros H. apply set_eq. intros q. rewrite !elem_of_dom, write_bytes_lookup.
  case_bool_decide as Hq; [|done]. split; intros _.
  - replace q with (p + (q - p)) by lia. apply H. lia.
  - apply lookup_lt_is_Some_2. lia.
Qed.

Lemma write_bytes_size p l m :
  mapped m p (length l) -> size (write_bytes p l m) = size m.
Proof. intros H. rewrite <- !size_dom. f_equal. by apply write_bytes_dom. Qed.

Lemma mem_ok_write m p l :
  mem_ok m -> mapped m p (length l) -> Forall in_u8 l -> mem_ok (write_bytes p l m).
Proof.
  revert m p. induction l as [|b l IH]; intros m p Hm Hp Hl; [done|].
  apply Forall_cons_iff in Hl as [Hb Hl]. cbn [write_bytes length] in *. apply IH; [|..|done].
  - apply mem_ok_insert; [done|eapply mapped_at; [exact Hp|lia]|done].
  - apply (write_bytes_mapped p [b]). eapply mapped_mono; [exact Hp|lia|lia].
Qed.

Lemma bytes_at_write_other p l m q k :
  (q + length k <= p \/ p + length l <= q) ->
  bytes_at (write_bytes p l m) q k <-> bytes_at m q k.
Proof.
  intros Hd. split; intros H i b Hi; pose proof (lookup_lt_Some _ _ _ Hi) as Hlt;
    specialize (H i b Hi); rewrite write_bytes_lookup, bool_decide_false in * by lia; done.
Qed.

Lemma bytes_at_same_outside p n m m' q k :
  same_outside p n m m' -> (q + length k <= p \/ p + n <= q) ->
  bytes_at m q k -> bytes_at m' q k.
Proof.
  intros Hs Hd H i b Hi. pose proof (lookup_lt_Some _ _ _ Hi) as Hlt.
  rewrite Hs by lia. by apply H.
Qed.

(** ** Multi-byte accesses *)

Fixpoint le_value (l : list Z) : Z :=
  match l with
  | [] => 0
  | b :: l' => b + 256 * le_value l'
  end.

Lemma load_le_ok m p l :
  bytes_at m p l -> load_le (length l) p m = Ok (le_value l) m.
Proof.
  revert p. induction l as [|b l IH]; intros p H; [done|].
  apply bytes_at_cons in H as [Hb Hl]. simpl.
  erewrite bind_ok by (by apply loadb_ok).
  erewrite bind_ok by (by apply IH). done.
Qed.

Lemma store_le_ok m p l :
  Forall in_u8 l -> mapped m p (length l) ->
  store_le (length l) p (le_value l) m = Ok tt (write_bytes p l m).
Proof.
  revert p m. induction l as [|b l IH]; intros p m Hl Hm; [done|].
  apply Forall_cons_iff in Hl as [Hb Hl]. simpl.
  assert (Hp : is_Some (m !! p)).
  { rewrite <- (Z.add_0_r p). apply Hm. simpl. lia. }
  erewrite bind_ok by (by apply storeb_ok). unfold in_u8 in Hb.
  replace (u8 (b + 256 * le_value l)) with b.
  2:{ unfold u8. change (2 ^ 8) with 256.
      rewrite (Z.mul_comm 256), Z_mod_plus_full. symmetry. apply Z.mod_small. lia. }
  replace ((b + 256 * le_value l) / 256) with (le_value l).
  2:{ rewrite (Z.mul_comm 256), Z_div_plus_full by lia.
      rewrite Z.div_small by lia. lia. }
  rewrite IH; [done|done|].
  apply (mapped_same_dom m).
  - rewrite dom_insert_L. apply elem_of_dom in Hp. set_solver.
  - eapply mapped_mono; [exact Hm|lia|simpl; lia].
Qed.

Lemma le_value_range l : Forall in_u8 l -> 0 <= le_value l < 256 ^ length l.
Proof.
  induction 1 as [|b l Hb _ IH]; [simpl; lia|]. cbn [le_value length].
  rewrite Nat2Z.inj_succ, Z.pow_succ_r by lia. unfold in_u8 in Hb. lia.
Qed.

(** [n] bytes of a number. *)
Fixpoint le_bytes (n : nat) (v : Z) : list Z :=
  match n with
  | O => []
  | S n' => v mod 256 :: le_bytes n' (v / 256)
  end.

Lemma le_bytes_length n v : length (le_bytes n v) = n.
Proof. revert v. induction n; intros; simpl; auto. Qed.

Lemma le_bytes_in_u8 n v : Forall in_u8 (le_bytes n v).
Proof.
  revert v. induction n as [|n IH]; intros v; simpl; constructor; [|apply IH].
  apply Z.mod_pos_bound. lia.
Qed.

Lemma le_bytes_value l : Forall in_u8 l -> le_bytes (length l) (le_value l) = l.
Proof.
  induction 1 as [|b l Hb Hl IH]; [done|]. unfold in_u8 in Hb. cbn [length le_bytes le_value].
  replace ((b + 256 * le_value l) mod 256) with b.
  2:{ rewrite (Z.mul_comm 256), Z_mod_plus_full. symmetry. apply Z.mod_small. lia. }
  replace ((b + 256 * le_value l) / 256) with (le_value l).
  2:{ rewrite (Z.mul_comm 256), Z_div_plus_full, Z.div_small by lia. lia. }
  by rewrite IH.
Qed.

Lemma le_value_bytes_mod (n : nat) v : le_value (le_bytes n v) = v mod 256 ^ n.
Proof.
  revert v. induction n as [|n IH]; intros v; [simpl; by rewrite Z.mod_1_r|].
  cbn [le_bytes le_value]. rewrite IH, Nat2Z.inj_succ, Z.pow_succ_r, Z.rem_mul_r by lia. done.
Qed.

Lemma le_value_bytes (n : nat) v : 0 <= v < 256 ^ n -> le_value (le_bytes n v) = v.
Proof. intros Hv. rewrite le_value_bytes_mod. by apply Z.mod_small. Qed.

(** ** Decision procedures, for evaluating concrete memories *)

Lemma bytes_at_Forall m p l :
  bytes_at m p l <-> Forall (fun '(q, b) => m !! q = Some b) (zip (seqZ p (length l)) l).
Proof.
  revert p. induction l as [|b l IH]; intros p.
  - split; [constructor|]. intros _. apply bytes_at_nil.
  - cbn [length]. rewrite seqZ_cons by lia. cbn [zip zip_with].
    rewrite Forall_cons_iff, bytes_at_cons, IH.
    by replace (Z.pred (S (length l))) with (Z.of_nat (length l)) by lia.
Qed.

Lemma mapped_Forall m p n :
  mapped m p n <-> Forall (fun q => is_Some (m !! q)) (seqZ p n).
Proof.
  rewrite Forall_forall. split.
  - intros H q Hq. apply list_elem_of_In, elem_of_seqZ in Hq. by eapply mapped_at.
  - intros H i Hi. apply H. apply list_elem_of_In, elem_of_seqZ. lia.
Qed.

#[global] Instance bytes_at_dec m p l : Decision (bytes_at m p l).
Proof.
  refine (cast_if (decide (Forall (fun '(q, b) => m !! q = Some b) (zip (seqZ p (length l)) l))));
    by rewrite bytes_at_Forall.
Defined.

#[global] Instance mapped_dec m p n : Decision (mapped m p n).
Proof.
  refine (cast_if (decide (Forall (fun q => is_Some (m !! q)) (seqZ p n))));
    by rewrite mapped_Forall.
Defined.

#[global] Instance in_u8_dec x : Decision (in_u8 x).
Proof. unfold in_u8. apply _. Defined.

#[global] Instance in_u64_dec x : Decision (in_u64 x).
Proof. unfold in_u64. apply _. Defined.

#[global] Instance mem_ok_dec m : Decision (mem_ok m).
Proof. unfold mem_ok. apply _. Defined.

#[global] Instance cstr_dec m p l : Decision (cstr m p l).
Proof. unfold cstr. apply _. Defined.

(** A memory holding one block. *)
Definition block (p : Z) (l : list Z) : mem := write_bytes p l ∅.

(** Discharge a decidable hypothesis at a concrete memory. *)
Ltac decide_now := apply (bool_decide_unpack _); vm_compute; exact I.
