(* ===== verification/Ctype.v ===== *)
(** * Character classification: libc/src/is*.c, tolower.c, toupper.c

    Each function takes the value of a character as an [int] and answers the
    C truth value of its test. *)

From S2P Require Import Prelude.

Definition isdigit (ch : Z) : Z :=
  match ch with
  | 48 | 49 | 50 | 51 | 52 | 53 | 54 | 55 | 56 | 57 => 1
  | _ => 0
  end.

Definition isprint (ch : Z) : Z := b2z ((32 <=? ch) && (ch <? 127)).

(** space, form feed, newline, carriage return, tab, vertical tab *)
Definition isspace (ch : Z) : Z :=
  match ch with
  | 32 | 12 | 10 | 13 | 9 | 11 => 1
  | _ => 0
  end.

(** The three tests are joined with the bitwise [|] of the source. *)
Definition isxdigit (ch : Z) : Z :=
  Z.lor (Z.lor (b2z ((48 <=? ch) && (ch <=? 57)))
               (b2z ((65 <=? ch) && (ch <=? 70))))
        (b2z ((97 <=? ch) && (ch <=? 102))).

Definition tolower (c : Z) : Z :=
  if (65 <=? c) && (c <=? 90) then c - 65 + 97 else c.

Definition toupper (cha : Z) : Z :=
  if (97 <=? cha) && (cha <=? 122) then cha - 97 + 65 else cha.

Lemma toupper_cases c :
  (97 <= c <= 122 /\ toupper c = c - 32) \/ (~ 97 <= c <= 122 /\ toupper c = c).
Proof. unfold toupper. zcases; simpl; lia. Qed.

Lemma toupper_0 c : toupper c = 0 <-> c = 0.
Proof. destruct (toupper_cases c) as [[? ->]|[? ->]]; lia. Qed.

Lemma toupper_idem c : toupper (toupper c) = toupper c.
Proof.
  destruct (toupper_cases c) as [[? ->]|[? ->]].
  - destruct (toupper_cases (c - 32)) as [[? ?]|[? ->]]; lia.
  - destruct (toupper_cases c) as [[? ?]|[? ->]]; lia.
Qed.

Lemma isdigit_spec ch : isdigit ch = b2z ((48 <=? ch) && (ch <=? 57)).
Proof.
  destruct (decide (48 <= ch <= 57)) as [H|H].
  - assert (ch = 48 \/ ch = 49 \/ ch = 50 \/ ch = 51 \/ ch = 52 \/ ch = 53 \/
            ch = 54 \/ ch = 55 \/ ch = 56 \/ ch = 57) as E by lia.
    destruct_or! E; by subst.
  - replace ((48 <=? ch) && (ch <=? 57)) with false by (zcases; done).
    destruct ch as [|p|p]; try done.
    do 6 (destruct p as [p|p|]; try done); exfalso; lia.
Qed.
