(* ===== verification/LibcMem.v ===== *)
(** * Memory routines: libc/src/mem*.c *)

From S2P Require Import Prelude CMem.

Definition INT_MAX : Z := 2147483647.

(** ** The routines *)

(** First loop of [memcpy]: whole 64-bit words. *)
Definition memcpy_words : Z * Z * Z -> M mem (Z * Z * Z + Z * Z * Z) :=
  fun '(dest, src, n) =>
    if 8 <=? n then
      v ← load64 src; _ ← store64 dest v;
      mret (inl (dest + 8, src + 8, n - 8))
    else mret (inr (dest, src, n)).

(** Second loop: the bytes that are left. *)
Definition memcpy_bytes : Z * Z * Z -> M mem (Z * Z * Z + unit) :=
  fun '(dest, src, n) =>
    if 0 <? n then
      v ← loadb src; _ ← storeb dest v;
      mret (inl (dest + 1, src + 1, n - 1))
    else mret (inr tt).

Definition memcpy (dest src n : Z) : M mem Z :=
  st ← mloop memcpy_words (dest, src, n);
  _ ← mloop memcpy_bytes st;
  mret dest.

(** The backward copy counts with an [int] that is compared with a
    [size_t], so it is converted to unsigned first. *)
Definition memmove_back (n : Z) : Z * Z * Z -> M mem (Z * Z * Z + unit) :=
  fun '(cdest, csrc, i) =>
    if u64 i <? n then
      c ← loadb csrc; _ ← storeb cdest c;
      if i =? INT_MAX then throw UB
      else mret (inl (cdest - 1, csrc - 1, i + 1))
    else mret (inr tt).

Definition memmove (dest src n : Z) : M mem Z :=
  if (src <? dest) && (dest <=? src + n) then
    _ ← mloop (memmove_back n) (dest + n - 1, src + n - 1, 0);
    mret dest
  else memcpy dest src n.

Definition memset_words (c big_c : Z) : Z * Z -> M mem (Z * Z + Z * Z) :=
  fun '(d, size) =>
    if (8 <=? size) && (c =? 0) then
      _ ← store64 d big_c; mret (inl (d + 8, size - 8))
    else mret (inr (d, size)).

Definition memset_bytes (c : Z) : Z * Z -> M mem (Z * Z + unit) :=
  fun '(d, size) =>
    if 0 <? size then
      _ ← storeb d (u8 c); mret (inl (d + 1, size - 1))
    else mret (inr tt).

Definition memset_big_c (c : Z) : Z :=
  if c =? 0 then 0
  else
    let b0 := u64 c in
    let b1 := Z.lor b0 (Z.lor (u64 (Z.shiftl b0 8)) b0) in
    let b2 := Z.lor b1 (Z.lor (u64 (Z.shiftl b1 16)) b1) in
    Z.lor b2 (Z.lor (u64 (Z.shiftl b2 32)) b2).

Definition memset (dest c size : Z) : M mem Z :=
  st ← mloop (memset_words c (memset_big_c c)) (dest, size);
  _ ← mloop (memset_bytes c) st;
  mret dest.

Definition memcmp_step : Z * Z * Z -> M mem (Z * Z * Z + Z) :=
  fun '(p1, p2, n) =>
    if 0 <? n then
      a ← loadb p1; b ← loadb p2;
      if a =? b then mret (inl (p1 + 1, p2 + 1, n - 1))
      else mret (inr (a - b))
    else mret (inr 0).

Definition memcmp (ptr1 ptr2 n : Z) : M mem Z := mloop memcmp_step (ptr1, ptr2, n).

(** A pointer result is an address; [NULL] is 0. *)
Definition memchr_step (ch : Z) : Z * Z -> M mem (Z * Z + Z) :=
  fun '(p, n) =>
    if 0 <? n then
      b ← loadb p;
      if b =? ch then mret (inr p) else mret (inl (p + 1, n - 1))
    else mret (inr 0).

Definition memchr (ptr c n : Z) : M mem Z := mloop (memchr_step (u8 c)) (ptr, n).

(** ** Forward copy *)

(** Source and destination of a forward copy may overlap only with the
    destination below the source. *)
Definition forward_safe (dest src n : Z) : Prop := dest <= src \/ src + n <= dest.

Lemma forward_safe_tail dest src n k :
  0 <= k <= n -> forward_safe dest src n -> forward_safe (dest + k) (src + k) (n - k).
Proof. unfold forward_safe. lia. Qed.

(** Writing the first part of a forward-safe copy leaves the rest of the
    source as it was. *)
Lemma forward_rest m dest src l1 l2 :
  forward_safe dest src (length (l1 ++ l2)) ->
  bytes_at m src (l1 ++ l2) ->
  bytes_at (write_bytes dest l1 m) (src + length l1) l2.
Proof.
  intros Hs H. apply bytes_at_app in H as [_ H].
  apply bytes_at_write_other; [|done].
  unfold forward_safe in Hs. rewrite length_app in Hs. lia.
Qed.

Lemma memcpy_words_ok l m dest src f :
  bytes_at m src l -> Forall in_u8 l -> mapped m dest (length l) ->
  forward_safe dest src (length l) -> (length l < f)%nat ->
  exists l1 l2, l = l1 ++ l2 /\ (length l2 < 8)%nat /\
    loop f memcpy_words (dest, src, Z.of_nat (length l)) m =
      Ok (dest + length l1, src + length l1, Z.of_nat (length l2)) (write_bytes dest l1 m).
Proof.
  revert l m dest src. induction f as [|f IH]; intros l m dest src Hb Hu Hm Hs Hf; [lia|].
  destruct (decide (8 <= length l)%nat) as [H8|H8].
  - rewrite <- (take_drop 8 l) in Hb, Hu, Hs.
    set (c := take 8 l) in *. set (r := drop 8 l) in *.
    assert (Hc : length c = 8%nat) by (subst c; rewrite length_take; lia).
    assert (Hl : length l = (8 + length r)%nat) by (subst r; rewrite length_drop; lia).
    apply Forall_app in Hu as [Huc Hur].
    assert (Hmc : mapped m dest (length c)) by (eapply mapped_mono; [exact Hm|lia|lia]).
    destruct (IH r (write_bytes dest c m) (dest + 8) (src + 8)) as (l1 & l2 & E & Hlt & Hrun).
    + replace 8 with (Z.of_nat (length c)) by lia. by apply forward_rest.
    + done.
    + apply write_bytes_mapped. eapply mapped_mono; [exact Hm|lia|lia].
    + rewrite length_app in Hs. unfold forward_safe in *. lia.
    + lia.
    + exists (c ++ l1), l2. split; [|split; [done|]].
      { rewrite <- app_assoc, <- E. symmetry. apply take_drop. }
      rewrite (loop_continue _ _ _ (dest + 8, src + 8, Z.of_nat (length r)) _ (write_bytes dest c m)).
      * rewrite Hrun, write_bytes_app, length_app, Hc. eq_lia.
      * enter memcpy_words. if_true. unfold load64, store64. rewrite <- Hc.
        apply bytes_at_app in Hb as [Hbc _].
        run_with (by apply load_le_ok). run_with (by apply store_le_ok).
        unfold mret, M_ret. eq_lia.
  - exists [], l. split; [done|]. split; [lia|].
    erewrite loop_break.
    2:{ enter memcpy_words. if_false. reflexivity. }
    simpl. eq_lia.
Qed.

Lemma memcpy_bytes_ok l m dest src f :
  bytes_at m src l -> Forall in_u8 l -> mapped m dest (length l) ->
  forward_safe dest src (length l) -> (length l < f)%nat ->
  loop f memcpy_bytes (dest, src, Z.of_nat (length l)) m = Ok tt (write_bytes dest l m).
Proof.
  revert l m dest src. induction f as [|f IH]; intros l m dest src Hb Hu Hm Hs Hf; [lia|].
  destruct l as [|b l].
  - reflexivity.
  - pose proof (forward_rest m dest src [b] l Hs Hb) as Hrest.
    apply bytes_at_cons in Hb as [Hb Hl]. apply Forall_cons_iff in Hu as [Hub Hul].
    cbn [length] in *.
    rewrite (loop_continue _ _ _ (dest + 1, src + 1, Z.of_nat (length l)) _ (<[dest := b]> m)).
    + cbn [write_bytes]. apply (IH l (<[dest := b]> m)); try done.
      * apply (write_bytes_mapped dest [b]). eapply mapped_mono; [exact Hm|lia|lia].
      * unfold forward_safe in *. lia.
      * lia.
    + enter memcpy_bytes. if_true. run_with (by apply loadb_ok).
      run_with (apply storeb_ok; rewrite <- (Z.add_0_r dest); apply Hm; lia).
      rewrite u8_small by done. unfold mret, M_ret. eq_lia.
Qed.

Lemma mloop_eq {X R} (body : X -> M mem (X + R)) x m :
  mloop body x m = loop (S (size m)) body x m.
Proof. done. Qed.

Lemma memcpy_ok m dest src l :
  bytes_at m src l -> Forall in_u8 l -> mapped m dest (length l) ->
  forward_safe dest src (length l) ->
  memcpy dest src (length l) m = Ok dest (write_bytes dest l m).
Proof.
  intros Hb Hu Hm Hs. pose proof (bytes_at_length_size _ _ _ Hb) as Hsz.
  destruct (memcpy_words_ok l m dest src (S (size m))) as (l1 & l2 & -> & Hlt & Hrun);
    [done..|lia|].
  apply Forall_app in Hu as [Hu1 Hu2]. unfold memcpy.
  run_with (rewrite mloop_eq; exact Hrun).
  rewrite length_app in *.
  rewrite write_bytes_app.
  erewrite bind_ok; [reflexivity|]. rewrite mloop_eq. apply memcpy_bytes_ok.
  - apply forward_rest; [|done]. by rewrite length_app.
  - done.
  - apply write_bytes_mapped. eapply mapped_mono; [exact Hm|lia|lia].
  - unfold forward_safe in *. lia.
  - rewrite write_bytes_size; [lia|]. eapply mapped_mono; [exact Hm|lia|lia].
Qed.

(** ** memmove *)

Lemma memmove_back_ok l1 l2 m dest src f :
  bytes_at m src (l1 ++ l2) -> Forall in_u8 (l1 ++ l2) ->
  mapped m dest (length (l1 ++ l2)) -> src < dest ->
  length (l1 ++ l2) <= INT_MAX -> (length l1 < f)%nat ->
  loop f (memmove_back (length (l1 ++ l2)))
    (dest + length l1 - 1, src + length l1 - 1, Z.of_nat (length l2))
    (write_bytes (dest + length l1) l2 m) = Ok tt (write_bytes dest (l1 ++ l2) m).
Proof.
  unfold INT_MAX. revert l1 l2. induction f as [|f IH]; intros l1 l2 Hb Hu Hm Hlt Hn Hf; [lia|].
  destruct l1 as [|b l1 _] using rev_ind.
  - cbn [app length] in *. rewrite !Z.add_0_r. apply loop_break.
    enter memmove_back. unwrap. by if_false.
  - rewrite <- (app_assoc l1 [b] l2) in *. cbn [app] in *.
    rewrite !length_app in *. cbn [length] in *.
    rewrite <- (IH l1 (b :: l2)); rewrite ?length_app; cbn [length]; try done; [|lia].
    apply loop_continue. enter memmove_back. unfold INT_MAX. unwrap. if_true.
    run_with (apply loadb_ok; rewrite write_bytes_lookup, bool_decide_false by lia;
              apply bytes_at_app in Hb as [_ [Hb _]%bytes_at_cons];
              rewrite <- Hb; f_equal; lia).
    apply Forall_app in Hu as [_ [Hu _]%Forall_cons_iff].
    run_with (apply storeb_ok; eapply mapped_at; [apply write_bytes_mapped, Hm|lia]).
    if_false. unfold mret, M_ret. unfold in_u8 in Hu. rewrite u8_small by lia.
    rewrite <- write_bytes_cons. eq_lia.
Qed.

Lemma memmove_ok m dest src l :
  bytes_at m src l -> Forall in_u8 l -> mapped m dest (length l) ->
  length l <= INT_MAX ->
  memmove dest src (length l) m = Ok dest (write_bytes dest l m).
Proof.
  intros Hb Hu Hm Hn. unfold memmove.
  destruct (Z.ltb_spec src dest); [|apply memcpy_ok; try done; left; lia].
  destruct (Z.leb_spec dest (src + length l)); [|apply memcpy_ok; try done; right; lia].
  simpl. pose proof (bytes_at_length_size _ _ _ Hb).
  pose proof (memmove_back_ok l [] m dest src (S (size m))) as Hrun.
  rewrite app_nil_r in Hrun. run_with (apply Hrun; [done..|lia]). done.
Qed.

(** ** memset *)

Lemma le_value_zero n : le_value (replicate n 0) = 0.
Proof. induction n as [|n IH]; simpl; lia. Qed.

Lemma memset_words_ok n m d f :
  mapped m d (Z.of_nat n) -> (n < f)%nat ->
  exists k r, n = (k + r)%nat /\
    loop f (memset_words 0 0) (d, Z.of_nat n) m =
      Ok (d + k, Z.of_nat r) (write_bytes d (replicate k 0) m).
Proof.
  revert n m d. induction f as [|f IH]; intros n m d Hm Hf; [lia|].
  destruct (decide (8 <= n)%nat) as [H8|H8].
  - destruct (IH (n - 8)%nat (write_bytes d (replicate 8 0) m) (d + 8))
      as (k & r & E & Hrun).
    { apply write_bytes_mapped. eapply mapped_mono; [exact Hm|lia|lia]. }
    { lia. }
    exists (8 + k)%nat, r. split; [lia|].
    rewrite (loop_continue _ _ _ (d + 8, Z.of_nat (n - 8)) _ (write_bytes d (replicate 8 0) m)).
    + rewrite Hrun, replicate_add, write_bytes_app, length_replicate. eq_lia.
    + enter memset_words. if_true. unfold store64.
      run_with (apply (store_le_ok m d (replicate 8 0));
                [repeat constructor; unfold in_u8; lia
                |eapply mapped_mono; [exact Hm|lia|simpl; lia]]).
      unfold mret, M_ret. eq_lia.
  - exists 0%nat, n. split; [done|]. apply loop_break.
    enter memset_words. if_false. unfold mret, M_ret. eq_lia.
Qed.

Lemma memset_bytes_ok n c m d f :
  mapped m d (Z.of_nat n) -> (n < f)%nat ->
  loop f (memset_bytes c) (d, Z.of_nat n) m = Ok tt (write_bytes d (replicate n (u8 c)) m).
Proof.
  revert n m d. induction f as [|f IH]; intros n m d Hm Hf; [lia|].
  destruct n as [|n]; [done|].
  cbn [replicate write_bytes]. rewrite <- IH.
  - apply loop_continue. enter memset_bytes. if_true.
    run_with (apply storeb_ok; eapply mapped_at; [exact Hm|lia]).
    unfold mret, M_ret. rewrite (u8_small (u8 c)) by apply u8_range. eq_lia.
  - apply (write_bytes_mapped d [u8 c]). eapply mapped_mono; [exact Hm|lia|lia].
  - lia.
Qed.

Lemma memset_ok m dest c n :
  mapped m dest (Z.of_nat n) ->
  memset dest c n m = Ok dest (write_bytes dest (replicate n (u8 c)) m).
Proof.
  intros Hm. pose proof (mapped_size m dest n (Nat2Z.is_nonneg n) Hm) as Hsz.
  unfold memset.
  destruct (decide (c = 0)) as [->|Hc].
  - destruct (memset_words_ok n m dest (S (size m))) as (k & r & -> & Hrun); [done|lia|].
    run_with (rewrite mloop_eq; exact Hrun).
    rewrite replicate_add, write_bytes_app, length_replicate.
    erewrite bind_ok; [reflexivity|]. rewrite mloop_eq. apply memset_bytes_ok.
    + apply write_bytes_mapped. eapply mapped_mono; [exact Hm|lia|lia].
    + rewrite write_bytes_size; [lia|].
      rewrite length_replicate. eapply mapped_mono; [exact Hm|lia|lia].
  - erewrite bind_ok.
    2:{ rewrite mloop_eq. apply loop_break. enter memset_words.
        rewrite (proj2 (Z.eqb_neq c 0)), andb_false_r by done. reflexivity. }
    erewrite bind_ok; [reflexivity|]. rewrite mloop_eq. apply memset_bytes_ok; [done|lia].
Qed.

(** ** memcmp and memchr *)

(** The first list is below the second in the lexicographic order of
    unsigned bytes, the difference being at a common position. *)
Definition bytes_lt (l1 l2 : list Z) : Prop :=
  exists p a b s1 s2, l1 = p ++ a :: s1 /\ l2 = p ++ b :: s2 /\ a < b.

Lemma bytes_lt_cons a l1 l2 : bytes_lt (a :: l1) (a :: l2) <-> bytes_lt l1 l2.
Proof.
  split.
  - intros ([|x p] & c & d & s1 & s2 & E1 & E2 & Hlt); simplify_eq/=; [lia|].
    by exists p, c, d, s1, s2.
  - intros (p & c & d & s1 & s2 & -> & -> & Hlt). by exists (a :: p), c, d, s1, s2.
Qed.

Lemma bytes_lt_head a b l1 l2 : a <> b -> bytes_lt (a :: l1) (b :: l2) <-> a < b.
Proof.
  intros Hne. split.
  - intros ([|x p] & c & d & s1 & s2 & E1 & E2 & Hlt); simplify_eq/=; done.
  - intros Hlt. by exists [], a, b, l1, l2.
Qed.

Lemma bytes_lt_nil l : ~ bytes_lt [] l.
Proof. intros ([|] & a & b & s1 & s2 & E & _); discriminate. Qed.

Lemma memcmp_loop l1 l2 m p1 p2 f :
  bytes_at m p1 l1 -> bytes_at m p2 l2 -> length l1 = length l2 -> (length l1 < f)%nat ->
  exists r, loop f memcmp_step (p1, p2, Z.of_nat (length l1)) m = Ok r m /\
    (r = 0 <-> l1 = l2) /\ (r < 0 <-> bytes_lt l1 l2).
Proof.
  revert l1 l2 p1 p2. induction f as [|f IH]; intros l1 l2 p1 p2 H1 H2 Hl Hf; [lia|].
  destruct l1 as [|a l1], l2 as [|b l2]; try discriminate.
  - exists 0. split; [done|]. split; [done|]. pose proof (bytes_lt_nil []). split; [lia|done].
  - apply bytes_at_cons in H1 as [Ha H1]. apply bytes_at_cons in H2 as [Hb H2].
    simpl in Hl. injection Hl as Hl.
    destruct (decide (a = b)) as [->|Hne].
    + destruct (IH l1 l2 (p1 + 1) (p2 + 1)) as (r & Hrun & Hz & Hlt); [done..|simpl in Hf; lia|].
      exists r. split; [|split].
      * rewrite <- Hrun. apply loop_continue. enter memcmp_step. cbn [length]. if_true.
        run_with (by apply loadb_ok). run_with (by apply loadb_ok). if_true.
        unfold mret, M_ret. eq_lia.
      * rewrite Hz. naive_solver.
      * by rewrite Hlt, bytes_lt_cons.
    + exists (a - b). split; [|split].
      * apply loop_break. enter memcmp_step. cbn [length]. if_true.
        run_with (by apply loadb_ok). run_with (by apply loadb_ok). by if_false.
      * split; [lia|congruence].
      * rewrite bytes_lt_head by done. lia.
Qed.

Lemma memchr_loop ch l m p f :
  bytes_at m p l -> (length l < f)%nat ->
  loop f (memchr_step ch) (p, Z.of_nat (length l)) m =
    Ok (match list_find (eq ch) l with Some (i, _) => p + i | None => 0 end) m.
Proof.
  revert l p. induction f as [|f IH]; intros l p H Hf; [lia|].
  destruct l as [|b l]; [done|].
  apply bytes_at_cons in H as [Hb H]. cbn [list_find].
  destruct (decide (ch = b)) as [->|Hne].
  - rewrite Z.add_0_r. apply loop_break. enter memchr_step. cbn [length]. if_true.
    run_with (by apply loadb_ok). by if_true.
  - rewrite (loop_continue _ _ _ (p + 1, Z.of_nat (length l)) _ m).
    + rewrite IH; [|done|simpl in Hf; lia].
      destruct (list_find (eq ch) l) as [[i c]|]; cbn -[Z.of_nat]; eq_lia.
    + enter memchr_step. cbn [length]. if_true. run_with (by apply loadb_ok).
      if_false. unfold mret, M_ret. eq_lia.
Qed.

(** ** Correctness *)

(** [memcpy] copies [n] bytes and touches nothing else, whenever the
    destination is not inside the source above its start: it copies whole
    words first, and its effect is that of the byte-by-byte copy. *)
Theorem memcpy_correct m dest src l :
  bytes_at m src l -> Forall in_u8 l -> mapped m dest (length l) ->
  forward_safe dest src (length l) ->
  exists m', memcpy dest src (length l) m = Ok dest m' /\
    bytes_at m' dest l /\ same_outside dest (length l) m m'.
Proof.
  intros. eexists. split; [by apply memcpy_ok|].
  split; [apply write_bytes_at|by apply write_bytes_same].
Qed.

(** C37: [memmove] copies correctly for every overlap of source and
    destination, up to the [INT_MAX] bytes its [int] counter allows. *)
Theorem memmove_correct m dest src l :
  bytes_at m src l -> Forall in_u8 l -> mapped m dest (length l) ->
  length l <= INT_MAX ->
  exists m', memmove dest src (length l) m = Ok dest m' /\
    bytes_at m' dest l /\ same_outside dest (length l) m m'.
Proof.
  intros. eexists. split; [by apply memmove_ok|].
  split; [apply write_bytes_at|by apply write_bytes_same].
Qed.

(** [memset] stores the low byte of [c] in each of the [n] bytes and
    touches nothing else, for the word path ([c] zero) and the byte path. *)
Theorem memset_correct m dest c (n : nat) :
  mapped m dest n ->
  exists m', memset dest c n m = Ok dest m' /\
    bytes_at m' dest (replicate n (u8 c)) /\ same_outside dest n m m'.
Proof.
  intros. eexists. split; [by apply memset_ok|].
  split; [apply write_bytes_at|apply write_bytes_same; by rewrite length_replicate].
Qed.

(** [memcmp] answers zero exactly for equal blocks and a negative number
    exactly when the first block is lexicographically below the second. *)
Theorem memcmp_correct m p1 p2 l1 l2 :
  bytes_at m p1 l1 -> bytes_at m p2 l2 -> length l1 = length l2 ->
  exists r, memcmp p1 p2 (length l1) m = Ok r m /\
    (r = 0 <-> l1 = l2) /\ (r < 0 <-> bytes_lt l1 l2).
Proof.
  intros H1 H2 Hl. apply memcmp_loop; try done.
  apply bytes_at_length_size in H1. lia.
Qed.

(** [memchr] finds the first occurrence of the byte [c] of the block, or
    answers [NULL] when there is none. *)
Theorem memchr_correct m p c l :
  bytes_at m p l ->
  exists r, memchr p c (length l) m = Ok r m /\
    ((exists i : nat, r = p + i /\ l !! i = Some (u8 c) /\
        forall j, (j < i)%nat -> l !! j <> Some (u8 c))
     \/ (r = 0 /\ u8 c ∉ l)).
Proof.
  intros H. pose proof (bytes_at_length_size _ _ _ H) as Hsz.
  eexists. split; [apply memchr_loop; [done|lia]|].
  destruct (list_find (eq (u8 c)) l) as [[i b]|] eqn:E.
  - left. apply list_find_Some in E as (Hi & <- & Hj). exists i.
    split; [done|]. split; [done|]. intros j Hlt Hl. by apply (Hj j (u8 c)).
  - right. split; [done|]. apply list_find_None in E.
    intros Hin. rewrite Forall_forall in E. eapply E; [by apply list_elem_of_In|done].
Qed.

(** ** Witnesses *)

Definition sample_mem : mem := block 100 [1; 2; 3; 4; 5; 6; 7; 8; 9; 10; 11; 12].

Lemma memcpy_correct_witness :
  bytes_at sample_mem 102 [3; 4; 5; 6; 7; 8; 9; 10; 11; 12] /\
  exists m', memcpy 100 102 10 sample_mem = Ok 100 m' /\
    bytes_at m' 100 [3; 4; 5; 6; 7; 8; 9; 10; 11; 12] /\ same_outside 100 10 sample_mem m'.
Proof.
  split; [decide_now|].
  apply (memcpy_correct sample_mem 100 102 [3; 4; 5; 6; 7; 8; 9; 10; 11; 12]);
    [decide_now|decide_now|decide_now|left; lia].
Defined.

Lemma memmove_correct_witness :
  bytes_at sample_mem 100 [1; 2; 3; 4; 5; 6; 7; 8; 9; 10] /\
  exists m', memmove 102 100 10 sample_mem = Ok 102 m' /\
    bytes_at m' 102 [1; 2; 3; 4; 5; 6; 7; 8; 9; 10] /\ same_outside 102 10 sample_mem m'.
Proof.
  split; [decide_now|].
  apply (memmove_correct sample_mem 102 100 [1; 2; 3; 4; 5; 6; 7; 8; 9; 10]);
    [decide_now|decide_now|decide_now|unfold INT_MAX; simpl; lia].
Defined.

Lemma memset_correct_witness :
  mapped sample_mem 101 9 /\
  exists m', memset 101 (-1) 9 sample_mem = Ok 101 m' /\
    bytes_at m' 101 (replicate 9 255) /\ same_outside 101 9 sample_mem m'.
Proof.
  split; [decide_now|].
  apply (memset_correct sample_mem 101 (-1) 9). decide_now.
Defined.

Lemma memcmp_correct_witness :
  exists r, memcmp 100 101 3 sample_mem = Ok r sample_mem /\
    (r = 0 <-> [1; 2; 3] = [2; 3; 4]) /\ (r < 0 <-> bytes_lt [1; 2; 3] [2; 3; 4]).
Proof.
  apply (memcmp_correct sample_mem 100 101 [1; 2; 3] [2; 3; 4]);
    [decide_now|decide_now|reflexivity].
Defined.

Lemma memchr_correct_witness :
  exists r, memchr 100 259 4 sample_mem = Ok r sample_mem /\
    ((exists i : nat, r = 100 + i /\ [1; 2; 3; 4] !! i = Some (u8 259) /\
        forall j, (j < i)%nat -> [1; 2; 3; 4] !! j <> Some (u8 259))
     \/ (r = 0 /\ u8 259 ∉ [1; 2; 3; 4])).
Proof. apply (memchr_correct sample_mem 100 259 [1; 2; 3; 4]). decide_now. Defined.
