(* ===== verification/LibcStr.v ===== *)
(** * String routines: libc/src/str*.c (the conversions are in Strto.v) *)

From S2P Require Import Prelude CMem Ctype LibcMem.

(** ** Length *)

Definition strlen_step : Z * Z -> M mem (Z * Z + Z) :=
  fun '(s, len) =>
    c ← loadb s;
    if c =? 0 then mret (inr len) else mret (inl (s + 1, u64 (len + 1))).

Definition strlen (s : Z) : M mem Z := mloop strlen_step (s, 0).

Definition strnlen_step : Z * Z * Z -> M mem (Z * Z * Z + Z) :=
  fun '(s, n, len) =>
    c ← loadb s;
    if c =? 0 then mret (inr len)
    else if n =? 0 then mret (inr len)
    else mret (inl (s + 1, n - 1, u64 (len + 1))).

Definition strnlen (s n : Z) : M mem Z := mloop strnlen_step (s, n, 0).

(** ** Comparison

    The loops stop at the first pair of characters where a string ends or the
    characters differ after [conv] (nothing for [strcmp], [toupper] for
    [strcasecmp]). *)

Definition cmp_step (conv : Z -> Z) : Z * Z -> M mem (Z * Z + Z * Z) :=
  fun '(s1, s2) =>
    c1 ← loadb s1;
    if c1 =? 0 then mret (inr (s1, s2)) else
    c2 ← loadb s2;
    if c2 =? 0 then mret (inr (s1, s2)) else
    if negb (conv c1 =? conv c2) then mret (inr (s1, s2))
    else mret (inl (s1 + 1, s2 + 1)).

Definition strcmp (s1 s2 : Z) : M mem Z :=
  '(s1, s2) ← mloop (cmp_step id) (s1, s2);
  a ← loadb s1; b ← loadb s2; mret (a - b).

Definition strcasecmp (s1 s2 : Z) : M mem Z :=
  '(s1, s2) ← mloop (cmp_step toupper) (s1, s2);
  a ← loadb s1; b ← loadb s2; mret (a - b).

Definition ncmp_step (conv : Z -> Z) : Z * Z * Z -> M mem (Z * Z * Z + Z * Z) :=
  fun '(s1, s2, n) =>
    c1 ← loadb s1;
    if c1 =? 0 then mret (inr (s1, s2)) else
    c2 ← loadb s2;
    if c2 =? 0 then mret (inr (s1, s2)) else
    let n := n - 1 in
    if n <=? 0 then mret (inr (s1, s2)) else
    if negb (conv c1 =? conv c2) then mret (inr (s1, s2))
    else mret (inl (s1 + 1, s2 + 1, n)).

Definition strncmp (s1 s2 n : Z) : M mem Z :=
  if n <? 1 then mret 0 else
  '(s1, s2) ← mloop (ncmp_step id) (s1, s2, n);
  a ← loadb s1; b ← loadb s2; mret (a - b).

Definition strncasecmp (s1 s2 n : Z) : M mem Z :=
  if n <? 1 then mret 0 else
  '(s1, s2) ← mloop (ncmp_step toupper) (s1, s2, n);
  a ← loadb s1; b ← loadb s2; mret (toupper a - toupper b).

(** ** Searching *)

Definition strchr_step (cb : Z) : Z -> M mem (Z + Z) := fun s =>
  c ← loadb s;
  if c =? 0 then mret (inr 0)
  else if c =? cb then mret (inr s) else mret (inl (s + 1)).

Definition strchr (s c : Z) : M mem Z := mloop (strchr_step (u8 c)) s.

Definition strrchr_step (cb : Z) : Z * Z -> M mem (Z * Z + Z) :=
  fun '(s, last) =>
    c ← loadb s;
    if c =? 0 then mret (inr last)
    else mret (inl (s + 1, if c =? cb then s else last)).

Definition strrchr (s c : Z) : M mem Z := mloop (strrchr_step (u8 c)) (s, 0).

Definition strstr_step (hay hlen needle nlen : Z) : Z -> M mem (Z + Z) := fun pos =>
  if pos <? hay + hlen then
    r ← strncmp pos needle nlen;
    if r =? 0 then mret (inr pos) else mret (inl (pos + 1))
  else mret (inr 0).

Definition strstr (hay needle : Z) : M mem Z :=
  if (hay =? 0) || (needle =? 0) then mret 0 else
  hlen ← strlen hay;
  nlen ← strlen needle;
  if nlen <? 1 then mret hay
  else mloop (strstr_step hay hlen needle nlen) hay.

(** ** Copying *)

Definition strcpy_step : Z * Z -> M mem (Z * Z + unit) :=
  fun '(ptr, src) =>
    c ← loadb src; _ ← storeb ptr c;
    c' ← loadb src;
    if c' =? 0 then mret (inr tt) else mret (inl (ptr + 1, src + 1)).

Definition strcpy (dst src : Z) : M mem Z :=
  _ ← mloop strcpy_step (dst, src); mret dst.

Definition strncpy_copy : Z * Z * Z -> M mem (Z * Z * Z + Z * Z) :=
  fun '(dst, src, n) =>
    c ← loadb src;
    if negb (c =? 0) && (0 <? n) then
      _ ← storeb dst c; mret (inl (dst + 1, src + 1, n - 1))
    else mret (inr (dst, n)).

Definition strncpy_clear : Z * Z -> M mem (Z * Z + unit) :=
  fun '(dst, n) =>
    if 0 <? n then _ ← storeb dst 0; mret (inl (dst + 1, n - 1))
    else mret (inr tt).

Definition strncpy (dst src n : Z) : M mem Z :=
  st ← mloop strncpy_copy (dst, src, n);
  _ ← mloop strncpy_clear st;
  mret dst.

Definition strcat (dst src : Z) : M mem Z :=
  p ← strlen dst;
  _ ← strcpy (dst + p) src;
  mret dst.

(** ** Tokens

    [nxtTok] is the static variable of [strtok]; the result is the token and
    its new value. *)

Definition strtok_match (src : Z) : Z -> M mem (Z + Z) := fun pp =>
  c ← loadb pp;
  if c =? 0 then mret (inr pp) else
  d ← loadb src;
  if c =? d then mret (inr pp) else mret (inl (pp + 1)).

Definition strtok_step (pattern : Z) : Z * Z -> M mem (Z * Z + Z * Z) :=
  fun '(src, retVal) =>
    c ← loadb src;
    if c =? 0 then mret (inr (src, retVal)) else
    pp ← mloop (strtok_match src) pattern;
    d ← loadb pp;
    if d =? 0 then
      if retVal =? 0 then mret (inl (src + 1, src)) else
      p ← loadb (src - 1);
      if p =? 0 then mret (inr (src, retVal)) else mret (inl (src + 1, retVal))
    else
      _ ← storeb src 0; mret (inl (src + 1, retVal)).

Definition strtok (src pattern nxtTok : Z) : M mem (Z * Z) :=
  let src := if src =? 0 then nxtTok else src in
  if src =? 0 then mret (0, nxtTok) else
  '(src, retVal) ← mloop (strtok_step pattern) (src, 0);
  mret (retVal, src).

(** ** Loop lemmas *)

(** The character a string pointer shows: the terminator at the end. *)
Definition head0 (l : list Z) : Z := match l with [] => 0 | c :: _ => c end.

Lemma cstr_head m p l : cstr m p l -> m !! p = Some (head0 l).
Proof. destruct l; apply cstr_start. Qed.

Lemma cstr_head0_zero m p l : cstr m p l -> head0 l = 0 <-> l = [].
Proof.
  destruct l as [|c l]; [done|]. intros (_ & Hc & _)%cstr_cons. simpl. naive_solver.
Qed.

Lemma cstr_tail m p c l : cstr m p (c :: l) -> cstr m (p + 1) l.
Proof. by intros (_ & _ & H)%cstr_cons. Qed.

Lemma strlen_loop l m s k f :
  cstr m s l -> 0 <= k -> k + length l < 2 ^ 64 -> (length l < f)%nat ->
  loop f strlen_step (s, k) m = Ok (k + length l) m.
Proof.
  revert l s k. induction f as [|f IH]; intros l s k H Hk Hlt Hf; [lia|].
  destruct l as [|c l].
  - apply cstr_nil in H. apply loop_break. enter strlen_step.
    run_with (by apply loadb_ok). simpl. unfold mret, M_ret. eq_lia.
  - cbn [length] in *. rewrite (loop_continue _ _ _ (s + 1, k + 1) _ m).
    + apply cstr_tail in H. rewrite (IH l) by (try done; lia). eq_lia.
    + apply cstr_cons in H as (Hc & Hne & _). enter strlen_step.
      run_with (by apply loadb_ok). if_false. unwrap. done.
Qed.

Lemma strlen_ok m s l : mem_ok m -> cstr m s l -> strlen s m = Ok (Z.of_nat (length l)) m.
Proof.
  intros Hm H. pose proof (cstr_len _ _ _ Hm H). pose proof (cstr_size _ _ _ H).
  apply (strlen_loop l m s 0); [done|lia|lia|lia].
Qed.

Lemma strnlen_loop l m s n k f :
  cstr m s l -> 0 <= k -> k + length l < 2 ^ 64 -> 0 <= n -> (length l < f)%nat ->
  loop f strnlen_step (s, n, k) m = Ok (k + Z.min n (length l)) m.
Proof.
  revert l s n k. induction f as [|f IH]; intros l s n k H Hk Hlt Hn Hf; [lia|].
  destruct l as [|c l].
  - apply cstr_nil in H. apply loop_break. enter strnlen_step.
    run_with (by apply loadb_ok). simpl. unfold mret, M_ret. eq_lia.
  - cbn [length] in *. pose proof (cstr_tail _ _ _ _ H) as Ht.
    apply cstr_cons in H as (Hc & Hne & _).
    destruct (decide (n = 0)) as [->|Hn0].
    + apply loop_break. enter strnlen_step. run_with (by apply loadb_ok).
      if_false. simpl. unfold mret, M_ret. eq_lia.
    + rewrite (loop_continue _ _ _ (s + 1, n - 1, k + 1) _ m).
      * rewrite (IH l) by (try done; lia). eq_lia.
      * enter strnlen_step. run_with (by apply loadb_ok). if_false. if_false.
        unwrap. done.
Qed.

(** Where a comparison loop with at most [n - 1] steps stops. *)
Definition cmp_stops (conv : Z -> Z) (n : nat) (p1 p2 r1 r2 : list Z) : Prop :=
  map conv p1 = map conv p2 /\ (length p1 < n)%nat /\
  (r1 = [] \/ r2 = [] \/ S (length p1) = n \/ conv (head0 r1) <> conv (head0 r2)).

Lemma cmp_stops_cons conv n a b p1 p2 r1 r2 :
  conv a = conv b -> cmp_stops conv n p1 p2 r1 r2 ->
  cmp_stops conv (S n) (a :: p1) (b :: p2) r1 r2.
Proof.
  intros E (Hp & Hl & Hs). split; [simpl; congruence|]. simpl. split; [lia|].
  destruct_or! Hs; auto.
Qed.

Lemma cmp_loop conv l1 l2 m s1 s2 n f :
  cstr m s1 l1 -> cstr m s2 l2 -> (length l1 < n)%nat -> (length l1 < f)%nat ->
  exists p1 p2 r1 r2, l1 = p1 ++ r1 /\ l2 = p2 ++ r2 /\ cmp_stops conv n p1 p2 r1 r2 /\
    loop f (cmp_step conv) (s1, s2) m = Ok (s1 + length p1, s2 + length p2) m.
Proof.
  revert l1 l2 s1 s2 n. induction f as [|f IH]; intros l1 l2 s1 s2 n H1 H2 Hn Hf; [lia|].
  assert (Hstop : forall o, cmp_step conv (s1, s2) m = Ok (inr (s1, s2)) o -> o = m ->
    (l1 = [] \/ l2 = [] \/ conv (head0 l1) <> conv (head0 l2)) ->
    exists p1 p2 r1 r2, l1 = p1 ++ r1 /\ l2 = p2 ++ r2 /\ cmp_stops conv n p1 p2 r1 r2 /\
      loop (S f) (cmp_step conv) (s1, s2) m = Ok (s1 + length p1, s2 + length p2) m).
  { intros o E -> Hs. exists [], [], l1, l2. split; [done|]. split; [done|]. split.
    - split; [done|]. simpl. split; [lia|]. tauto.
    - apply loop_break. rewrite E. simpl. by rewrite !Z.add_0_r. }
  pose proof (cstr_head _ _ _ H1) as C1. pose proof (cstr_head _ _ _ H2) as C2.
  destruct l1 as [|a l1].
  { eapply Hstop; [|reflexivity|by left]. enter cmp_step. run_with (by apply loadb_ok). done. }
  destruct l2 as [|b l2].
  { eapply Hstop; [|reflexivity|by right; left]. enter cmp_step.
    apply cstr_cons in H1 as (_ & Ha & _). simpl in *.
    run_with (by apply loadb_ok). if_false. by run_with (by apply loadb_ok). }
  pose proof (cstr_tail _ _ _ _ H1) as T1. pose proof (cstr_tail _ _ _ _ H2) as T2.
  apply cstr_cons in H1 as (_ & Ha & _). apply cstr_cons in H2 as (_ & Hb & _).
  simpl in C1, C2, Hn, Hf.
  destruct (decide (conv a = conv b)) as [E|E].
  - destruct n as [|n]; [lia|].
    destruct (IH l1 l2 (s1 + 1) (s2 + 1) n) as (p1 & p2 & r1 & r2 & -> & -> & Hs & Hrun);
      [done|done|lia|lia|].
    exists (a :: p1), (b :: p2), r1, r2. split; [done|]. split; [done|].
    split; [by apply cmp_stops_cons|].
    rewrite (loop_continue _ _ _ (s1 + 1, s2 + 1) _ m).
    + rewrite Hrun. cbn [length]. eq_lia.
    + enter cmp_step. run_with (by apply loadb_ok). if_false.
      run_with (by apply loadb_ok). if_false. by if_false.
  - eapply Hstop; [|reflexivity|by right; right]. enter cmp_step.
    run_with (by apply loadb_ok). if_false. run_with (by apply loadb_ok). if_false.
    by if_true.
Qed.

Lemma ncmp_loop conv l1 l2 m s1 s2 (n : nat) f :
  cstr m s1 l1 -> cstr m s2 l2 -> (0 < n)%nat -> (length l1 < f)%nat ->
  exists p1 p2 r1 r2, l1 = p1 ++ r1 /\ l2 = p2 ++ r2 /\ cmp_stops conv n p1 p2 r1 r2 /\
    loop f (ncmp_step conv) (s1, s2, Z.of_nat n) m = Ok (s1 + length p1, s2 + length p2) m.
Proof.
  revert l1 l2 s1 s2 n. induction f as [|f IH]; intros l1 l2 s1 s2 n H1 H2 Hn Hf; [lia|].
  assert (Hstop : ncmp_step conv (s1, s2, Z.of_nat n) m = Ok (inr (s1, s2)) m ->
    (l1 = [] \/ l2 = [] \/ 1%nat = n \/ conv (head0 l1) <> conv (head0 l2)) ->
    exists p1 p2 r1 r2, l1 = p1 ++ r1 /\ l2 = p2 ++ r2 /\ cmp_stops conv n p1 p2 r1 r2 /\
      loop (S f) (ncmp_step conv) (s1, s2, Z.of_nat n) m = Ok (s1 + length p1, s2 + length p2) m).
  { intros E Hs. exists [], [], l1, l2. split; [done|]. split; [done|]. split.
    - split; [done|]. simpl. split; [lia|]. done.
    - apply loop_break. rewrite E. simpl. by rewrite !Z.add_0_r. }
  pose proof (cstr_head _ _ _ H1) as C1. pose proof (cstr_head _ _ _ H2) as C2.
  destruct l1 as [|a l1].
  { eapply Hstop; [|by left]. enter ncmp_step. run_with (by apply loadb_ok). done. }
  destruct l2 as [|b l2].
  { eapply Hstop; [|by right; left]. enter ncmp_step.
    apply cstr_cons in H1 as (_ & Ha & _). simpl in *.
    run_with (by apply loadb_ok). if_false. by run_with (by apply loadb_ok). }
  pose proof (cstr_tail _ _ _ _ H1) as T1. pose proof (cstr_tail _ _ _ _ H2) as T2.
  apply cstr_cons in H1 as (_ & Ha & _). apply cstr_cons in H2 as (_ & Hb & _).
  simpl in C1, C2, Hf.
  destruct (decide (n = 1%nat)) as [->|Hn1].
  { eapply Hstop; [|by right; right; left]. enter ncmp_step.
    run_with (by apply loadb_ok). if_false. run_with (by apply loadb_ok). if_false. by if_true. }
  destruct (decide (conv a = conv b)) as [E|E].
  - destruct n as [|n]; [lia|].
    destruct (IH l1 l2 (s1 + 1) (s2 + 1) n) as (p1 & p2 & r1 & r2 & -> & -> & Hs & Hrun);
      [done|done|lia|lia|].
    exists (a :: p1), (b :: p2), r1, r2. split; [done|]. split; [done|].
    split; [by apply cmp_stops_cons|].
    rewrite (loop_continue _ _ _ (s1 + 1, s2 + 1, Z.of_nat n) _ m).
    + rewrite Hrun. cbn [length]. eq_lia.
    + enter ncmp_step. run_with (by apply loadb_ok). if_false.
      run_with (by apply loadb_ok). if_false. if_false. if_false.
      unfold mret, M_ret. eq_lia.
  - eapply Hstop; [|by right; right; right]. enter ncmp_step.
    run_with (by apply loadb_ok). if_false. run_with (by apply loadb_ok). if_false.
    if_false. by if_true.
Qed.

(** ** What the character difference at the stop means *)

Lemma bytes_lt_app p l1 l2 : bytes_lt (p ++ l1) (p ++ l2) <-> bytes_lt l1 l2.
Proof. induction p as [|a p IH]; [done|]. simpl. by rewrite bytes_lt_cons, IH. Qed.

Lemma bytes_lt_irrefl l : ~ bytes_lt l l.
Proof.
  induction l as [|a l IH]; [apply bytes_lt_nil|]. by rewrite bytes_lt_cons.
Qed.

Definition nonzero (l : list Z) : Prop := Forall (fun c => c <> 0) l.

Lemma nonzero_head0 r : nonzero r -> head0 r = 0 -> r = [].
Proof. destruct r as [|c r]; [done|]. intros [Hc _]%Forall_cons_iff. simpl. done. Qed.

(** Equal characters at the stop: the remainders agree on what is left. *)
Lemma cmp_stops_equal n p1 p2 r1 r2 :
  nonzero r1 -> nonzero r2 -> cmp_stops id n p1 p2 r1 r2 -> head0 r1 = head0 r2 ->
  (r1 = [] /\ r2 = []) \/
  (n = S (length p1) /\ exists c t1 t2, r1 = c :: t1 /\ r2 = c :: t2).
Proof.
  intros N1 N2 (_ & _ & Hs) E. destruct r1 as [|a r1], r2 as [|b r2]; simpl in E.
  - by left.
  - exfalso. apply Forall_cons_iff in N2 as [N2 _]. congruence.
  - exfalso. apply Forall_cons_iff in N1 as [N1 _]. congruence.
  - right. subst b. destruct_or! Hs; [discriminate|discriminate| |done].
    split; [lia|]. by eexists _, _, _.
Qed.

Lemma cmp_zero n p1 p2 r1 r2 :
  nonzero r1 -> nonzero r2 -> cmp_stops id n p1 p2 r1 r2 ->
  head0 r1 - head0 r2 = 0 <-> take n (p1 ++ r1) = take n (p2 ++ r2).
Proof.
  intros N1 N2 Hs. pose proof Hs as (Hp & Hl & _). rewrite !map_id in Hp. subst p2.
  rewrite !take_app_ge by lia. split.
  - intros E. f_equal.
    destruct (cmp_stops_equal n p1 p1 r1 r2) as [[-> ->]|(Hn & c & t1 & t2 & -> & ->)];
      try done; [lia|].
    replace (n - length p1)%nat with 1%nat by lia. done.
  - intros E. apply app_inv_head in E.
    destruct (n - length p1)%nat eqn:En; [lia|].
    destruct r1, r2; simpl in *; simplify_eq; lia.
Qed.

Lemma snoc_head0 r : exists t, r ++ [0] = head0 r :: t /\ (r = [] -> t = []).
Proof. destruct r as [|c r]; [by exists []|]. by exists (r ++ [0]). Qed.

Lemma cmp_less n p1 p2 r1 r2 :
  nonzero r1 -> nonzero r2 -> cmp_stops id n p1 p2 r1 r2 ->
  head0 r1 - head0 r2 < 0 <->
  bytes_lt (take n ((p1 ++ r1) ++ [0])) (take n ((p2 ++ r2) ++ [0])).
Proof.
  intros N1 N2 Hs. pose proof Hs as (Hp & Hl & _). rewrite !map_id in Hp. subst p2.
  rewrite <- !app_assoc, (take_app_ge p1 (r1 ++ [0])), (take_app_ge p1 (r2 ++ [0])) by lia.
  rewrite bytes_lt_app.
  destruct (decide (head0 r1 = head0 r2)) as [E|E].
  - split; [lia|]. intros Hlt. exfalso. revert Hlt.
    destruct (cmp_stops_equal n p1 p1 r1 r2) as [[-> ->]|(Hn & c & t1 & t2 & -> & ->)];
      try done; [apply bytes_lt_irrefl|].
    replace (n - length p1)%nat with 1%nat by lia. apply bytes_lt_irrefl.
  - destruct (snoc_head0 r1) as (t1 & -> & _), (snoc_head0 r2) as (t2 & -> & _).
    destruct (n - length p1)%nat eqn:En; [lia|]. simpl.
    rewrite bytes_lt_head by done. lia.
Qed.

Lemma cstr_nonzero m p l : cstr m p l -> nonzero l.
Proof. by intros [_ H]. Qed.

Lemma strncmp_ok m s1 s2 l1 l2 (n : nat) :
  cstr m s1 l1 -> cstr m s2 l2 ->
  exists r, strncmp s1 s2 n m = Ok r m /\
    (r = 0 <-> take n l1 = take n l2) /\
    (r < 0 <-> bytes_lt (take n (l1 ++ [0])) (take n (l2 ++ [0]))).
Proof.
  intros H1 H2. unfold strncmp. destruct n as [|n].
  { exists 0. split; [done|]. split; [done|]. pose proof (bytes_lt_irrefl []). split; [lia|done]. }
  if_false. pose proof (cstr_size _ _ _ H1) as Hsz.
  destruct (ncmp_loop id l1 l2 m s1 s2 (S n) (S (size m)))
    as (p1 & p2 & r1 & r2 & -> & -> & Hs & Hrun); [done|done|lia|lia|].
  pose proof (cstr_nonzero _ _ _ H1) as [_ N1]%Forall_app.
  pose proof (cstr_nonzero _ _ _ H2) as [_ N2]%Forall_app.
  exists (head0 r1 - head0 r2). split; [|by split; [apply cmp_zero|apply cmp_less]].
  run_with (rewrite mloop_eq; exact Hrun).
  run_with (apply loadb_ok; eapply cstr_head, cstr_app_r, H1).
  by run_with (apply loadb_ok; eapply cstr_head, cstr_app_r, H2).
Qed.

(** ** Searching *)

Lemma strchr_loop cb l m s f :
  cstr m s l -> (length l < f)%nat ->
  loop f (strchr_step cb) s m =
    Ok (match list_find (eq cb) l with Some (i, _) => s + i | None => 0 end) m.
Proof.
  revert l s. induction f as [|f IH]; intros l s H Hf; [lia|].
  destruct l as [|c l].
  - apply cstr_nil in H. apply loop_break. enter strchr_step. by run_with (by apply loadb_ok).
  - pose proof (cstr_tail _ _ _ _ H) as Ht. apply cstr_cons in H as (Hc & Hne & _).
    cbn [list_find]. destruct (decide (cb = c)) as [->|Hcb].
    + rewrite Z.add_0_r. apply loop_break. enter strchr_step.
      run_with (by apply loadb_ok). if_false. by if_true.
    + rewrite (loop_continue _ _ _ (s + 1) _ m).
      * rewrite (IH l); [|done|simpl in Hf; lia].
        destruct (list_find (eq cb) l) as [[i d]|]; cbn -[Z.of_nat]; eq_lia.
      * enter strchr_step. run_with (by apply loadb_ok). if_false. by if_false.
Qed.

(** The last position of [c] in a list, counted from [s], or [last]. *)
Fixpoint last_pos (c s last : Z) (l : list Z) : Z :=
  match l with
  | [] => last
  | b :: l' => last_pos c (s + 1) (if b =? c then s else last) l'
  end.

Lemma strrchr_loop cb l m s last f :
  cstr m s l -> (length l < f)%nat ->
  loop f (strrchr_step cb) (s, last) m = Ok (last_pos cb s last l) m.
Proof.
  revert l s last. induction f as [|f IH]; intros l s last H Hf; [lia|].
  destruct l as [|c l].
  - apply cstr_nil in H. apply loop_break. enter strrchr_step. by run_with (by apply loadb_ok).
  - pose proof (cstr_tail _ _ _ _ H) as Ht. apply cstr_cons in H as (Hc & Hne & _).
    cbn [last_pos]. rewrite <- IH; [|done|simpl in Hf; lia].
    apply loop_continue. enter strrchr_step. run_with (by apply loadb_ok).
    by rewrite (proj2 (Z.eqb_neq c 0)) by done.
Qed.

Lemma last_pos_spec c l s last :
  (exists i : nat, last_pos c s last l = s + i /\ l !! i = Some c /\
     forall j, (i < j)%nat -> l !! j <> Some c)
  \/ (last_pos c s last l = last /\ c ∉ l).
Proof.
  revert s last. induction l as [|b l IH]; intros s last; simpl.
  { right. split; [done|]. apply not_elem_of_nil. }
  destruct (IH (s + 1) (if b =? c then s else last)) as [(i & E & Hi & Hj)|[E Hn]].
  - left. exists (S i). rewrite E. split; [lia|]. split; [done|].
    intros [|j] Hlt; [lia|]. simpl. apply Hj. lia.
  - rewrite E. destruct (Z.eqb_spec b c) as [->|Hne].
    + left. exists 0%nat. split; [lia|]. split; [done|].
      intros [|j] Hlt Hl; [lia|]. simpl in Hl. apply Hn. by eapply list_elem_of_lookup_2.
    + right. split; [done|]. rewrite not_elem_of_cons. done.
Qed.

Lemma strstr_loop k l m hay hlen needle pos f :
  cstr m needle k -> k <> [] -> cstr m pos l -> hay + hlen = pos + length l ->
  (length l < f)%nat ->
  exists r, loop f (strstr_step hay hlen needle (length k)) pos m = Ok r m /\
    ((exists i : nat, r = pos + i /\ k `prefix_of` drop i l /\
        forall j, (j < i)%nat -> ~ k `prefix_of` drop j l)
     \/ (r = 0 /\ forall j, ~ k `prefix_of` drop j l)).
Proof.
  intros Hk Hne. revert l pos. induction f as [|f IH]; intros l pos Hl Hend Hf; [lia|].
  destruct l as [|c l].
  - exists 0. split.
    + apply loop_break. unfold strstr_step. cbn [length] in Hend. by if_false.
    + right. split; [done|]. intros j. rewrite drop_nil. by intros ->%prefix_nil_inv.
  - destruct (strncmp_ok m pos needle (c :: l) k (length k) Hl Hk) as (r & Hrun & Hz & _).
    assert (Hpre : r = 0 <-> k `prefix_of` c :: l).
    { rewrite Hz, (firstn_all k). split.
      - intros E. exists (drop (length k) (c :: l)). rewrite <- E at 1. by rewrite take_drop.
      - intros [t ->]. by rewrite take_app_length. }
    cbn [length] in *. destruct (decide (r = 0)) as [->|Hr].
    + exists pos. split.
      * apply loop_break. unfold strstr_step. if_true. run_with (exact Hrun). done.
      * left. exists 0%nat. split; [lia|]. split; [by apply Hpre|]. lia.
    + destruct (IH l (pos + 1) (cstr_tail _ _ _ _ Hl)) as (r' & Hrun' & Hr'); [lia|lia|].
      exists r'. split.
      * rewrite <- Hrun'. apply loop_continue. unfold strstr_step. if_true.
        run_with (exact Hrun). by if_false.
      * assert (H0 : ~ k `prefix_of` drop 0 (c :: l)) by (simpl; tauto).
        destruct Hr' as [(i & -> & Hi & Hj)|[-> Hj]].
        -- left. exists (S i). split; [lia|]. split; [done|].
           intros [|j] Hlt; [done|]. apply Hj. lia.
        -- right. split; [done|]. intros [|j]; [done|]. apply Hj.
Qed.

(** ** Copying *)

(** A store outside a string leaves it as it was. *)
Lemma cstr_insert m p l q v :
  (q < p \/ p + length l < q) -> cstr m p l -> cstr (<[q := v]> m) p l.
Proof.
  intros Hq [H Hn]. split; [|done].
  apply (bytes_at_write_other q [v] m); [|done]. rewrite length_app. simpl. lia.
Qed.

Lemma cstr_write_other m p l q k :
  (q + length k <= p \/ p + length l < q) -> cstr m p l -> cstr (write_bytes q k m) p l.
Proof.
  intros Hq [H Hn]. split; [|done].
  apply bytes_at_write_other; [|done]. rewrite length_app. simpl. lia.
Qed.

Lemma strcpy_loop l m dst src f :
  cstr m src l -> Forall in_u8 l -> mapped m dst (length l + 1) ->
  forward_safe dst src (length l + 1) -> (length l < f)%nat ->
  loop f strcpy_step (dst, src) m = Ok tt (write_bytes dst (l ++ [0]) m).
Proof.
  unfold forward_safe. revert l m dst src.
  induction f as [|f IH]; intros l m dst src H Hu Hm Hs Hf; [lia|].
  pose proof (cstr_head _ _ _ H) as Hh.
  assert (Hst : storeb dst (head0 l) m = Ok tt (<[dst := head0 l]> m)).
  { rewrite storeb_ok by (eapply mapped_at; [exact Hm|lia]). rewrite u8_small; [done|].
    destruct Hu; simpl; [lia|done]. }
  assert (Hre : loadb src (<[dst := head0 l]> m) = Ok (head0 l) (<[dst := head0 l]> m)).
  { apply loadb_ok. destruct (decide (src = dst)) as [->|Hne];
      [by rewrite lookup_insert_eq|by rewrite lookup_insert_ne]. }
  destruct l as [|c l]; simpl in Hh, Hst, Hre.
  - apply loop_break. enter strcpy_step. run_with (by apply loadb_ok).
    run_with (exact Hst). by run_with (exact Hre).
  - cbn [length] in *. apply Forall_cons_iff in Hu as [Hc Hu].
    pose proof (cstr_tail _ _ _ _ H) as Ht. apply cstr_cons in H as (_ & Hne & _).
    cbn [app write_bytes]. rewrite <- (IH l (<[dst := c]> m) (dst + 1) (src + 1)).
    + apply loop_continue. enter strcpy_step. run_with (by apply loadb_ok).
      run_with (exact Hst). run_with (exact Hre). by if_false.
    + apply cstr_insert; [lia|done].
    + done.
    + apply (write_bytes_mapped dst [c]). eapply mapped_mono; [exact Hm|lia|lia].
    + lia.
    + lia.
Qed.

Lemma strcpy_ok m dst src l :
  mem_ok m -> cstr m src l -> mapped m dst (length l + 1) ->
  forward_safe dst src (length l + 1) ->
  strcpy dst src m = Ok dst (write_bytes dst (l ++ [0]) m).
Proof.
  intros Hok H Hm Hs. pose proof (cstr_size _ _ _ H). unfold strcpy.
  run_with (rewrite mloop_eq; apply (strcpy_loop l); try done; [by eapply cstr_in_u8|lia]).
  done.
Qed.

Lemma strncpy_copy_ok l m dst src (n : nat) f :
  cstr m src l -> Forall in_u8 l -> mapped m dst n ->
  forward_safe dst src (length l + 1) -> (length l < f)%nat ->
  loop f strncpy_copy (dst, src, Z.of_nat n) m =
    Ok (dst + length (take n l), Z.of_nat (n - length l)) (write_bytes dst (take n l) m).
Proof.
  unfold forward_safe. revert l m dst src n.
  induction f as [|f IH]; intros l m dst src n H Hu Hm Hs Hf; [lia|].
  destruct l as [|c l].
  - apply cstr_nil in H. rewrite take_nil. apply loop_break. enter strncpy_copy.
    run_with (by apply loadb_ok). if_false. simpl. unfold mret, M_ret. eq_lia.
  - pose proof (cstr_tail _ _ _ _ H) as Ht. apply cstr_cons in H as (Hc & Hne & _).
    apply Forall_cons_iff in Hu as [Huc Hu]. cbn [length] in *. destruct n as [|n].
    + apply loop_break. enter strncpy_copy. run_with (by apply loadb_ok). if_false.
      simpl. unfold mret, M_ret. eq_lia.
    + rewrite (loop_continue _ _ _ (dst + 1, src + 1, Z.of_nat n) _ (<[dst := c]> m)).
      * cbn [take write_bytes]. rewrite (IH l (<[dst := c]> m)).
        -- cbn [length]. eq_lia.
        -- apply cstr_insert; [lia|done].
        -- done.
        -- apply (write_bytes_mapped dst [c]). eapply mapped_mono; [exact Hm|lia|lia].
        -- lia.
        -- lia.
      * enter strncpy_copy. run_with (by apply loadb_ok). if_true.
        run_with (apply storeb_ok; eapply mapped_at; [exact Hm|lia]).
        unfold in_u8 in Huc. rewrite u8_small by done. unfold mret, M_ret. eq_lia.
Qed.

Lemma strncpy_clear_ok (n : nat) m dst f :
  mapped m dst n -> (n < f)%nat ->
  loop f strncpy_clear (dst, Z.of_nat n) m = Ok tt (write_bytes dst (replicate n 0) m).
Proof.
  revert n m dst. induction f as [|f IH]; intros n m dst Hm Hf; [lia|].
  destruct n as [|n]; [done|]. cbn [replicate write_bytes]. rewrite <- IH.
  - apply loop_continue. enter strncpy_clear. if_true.
    run_with (apply storeb_ok; eapply mapped_at; [exact Hm|lia]).
    unfold mret, M_ret. rewrite u8_small by lia. eq_lia.
  - apply (write_bytes_mapped dst [0]). eapply mapped_mono; [exact Hm|lia|lia].
  - lia.
Qed.

Lemma strncpy_ok m dst src l (n : nat) :
  mem_ok m -> cstr m src l -> mapped m dst n -> forward_safe dst src (length l + 1) ->
  strncpy dst src n m =
    Ok dst (write_bytes dst (take n l ++ replicate (n - length l) 0) m).
Proof.
  intros Hok H Hm Hs. pose proof (cstr_size _ _ _ H).
  pose proof (mapped_size m dst n (Nat2Z.is_nonneg n) Hm).
  pose proof (length_take l n) as Htk. unfold strncpy.
  run_with (rewrite mloop_eq; apply (strncpy_copy_ok l); try done; [by eapply cstr_in_u8|lia]).
  rewrite write_bytes_app. erewrite bind_ok; [reflexivity|]. rewrite mloop_eq.
  apply strncpy_clear_ok.
  - apply write_bytes_mapped. eapply mapped_mono; [exact Hm|lia|lia].
  - rewrite write_bytes_size; [lia|]. eapply mapped_mono; [exact Hm|lia|lia].
Qed.

(** ** Tokens *)

Section strtok.
Context (pattern : Z) (ps : list Z).

(** The delimiters are where the call says, away from the text. *)
Definition delims_apart (m : mem) (src n : Z) : Prop :=
  cstr m pattern ps /\ (pattern + length ps < src \/ src + n < pattern).

Lemma strtok_match_loop qs m src d pp f :
  cstr m pp qs -> m !! src = Some d -> (length qs < f)%nat ->
  exists r e, loop f (strtok_match src) pp m = Ok r m /\
    m !! r = Some e /\ (e = 0 <-> d ∉ qs).
Proof.
  revert qs pp. induction f as [|f IH]; intros qs pp Hq Hd Hf; [lia|].
  destruct qs as [|q qs].
  - exists pp, 0. apply cstr_nil in Hq. split; [|split; [done|]].
    + apply loop_break. unfold strtok_match. by run_with (by apply loadb_ok).
    + split; [|done]. intros _. apply not_elem_of_nil.
  - pose proof (cstr_tail _ _ _ _ Hq) as Ht. apply cstr_cons in Hq as (Hq & Hne & _).
    destruct (decide (q = d)) as [->|Hqd].
    + exists pp, d. split; [|split; [done|]].
      * apply loop_break. unfold strtok_match. run_with (by apply loadb_ok). if_false.
        run_with (by apply loadb_ok). by if_true.
      * split; [done|]. rewrite not_elem_of_cons. naive_solver.
    + destruct (IH qs (pp + 1) Ht Hd) as (r & e & Hrun & He & Hz); [simpl in Hf; lia|].
      exists r, e. split; [|split; [done|]].
      * rewrite <- Hrun. apply loop_continue. unfold strtok_match.
        run_with (by apply loadb_ok). if_false. run_with (by apply loadb_ok). by if_false.
      * rewrite Hz, not_elem_of_cons. naive_solver.
Qed.

(** One round on a delimiter overwrites it. *)
Lemma strtok_step_delim m src c l ret :
  cstr m src (c :: l) -> cstr m pattern ps -> c ∈ ps ->
  strtok_step pattern (src, ret) m = Ok (inl (src + 1, ret)) (<[src := 0]> m).
Proof.
  intros (Hc & Hne & _)%cstr_cons Hp Hin. pose proof (cstr_size _ _ _ Hp).
  destruct (strtok_match_loop ps m src c pattern (S (size m)))
    as (r & e & Hrun & He & Hz); [done|done|lia|].
  enter strtok_step. run_with (by apply loadb_ok). if_false.
  run_with (rewrite mloop_eq; exact Hrun). run_with (by apply loadb_ok).
  assert (e <> 0) by tauto. if_false.
  run_with (apply storeb_ok; by eexists). done.
Qed.

(** One round on another character, by what precedes it. *)
Lemma strtok_step_other m src c l ret :
  cstr m src (c :: l) -> cstr m pattern ps -> c ∉ ps ->
  strtok_step pattern (src, ret) m =
    if ret =? 0 then Ok (inl (src + 1, src)) m else
    match m !! (src - 1) with
    | Some p => Ok (if p =? 0 then inr (src, ret) else inl (src + 1, ret)) m
    | None => Err (Segv (src - 1)) m
    end.
Proof.
  intros (Hc & Hne & _)%cstr_cons Hp Hin. pose proof (cstr_size _ _ _ Hp).
  destruct (strtok_match_loop ps m src c pattern (S (size m)))
    as (r & e & Hrun & He & Hz); [done|done|lia|].
  enter strtok_step. run_with (by apply loadb_ok). if_false.
  run_with (rewrite mloop_eq; exact Hrun). run_with (by apply loadb_ok).
  assert (e = 0) as -> by tauto. simpl. destruct (ret =? 0); [done|].
  destruct (m !! (src - 1)) as [p|] eqn:E.
  - run_with (by apply loadb_ok). by destruct (p =? 0).
  - by erewrite bind_err by (by apply loadb_fault).
Qed.

Lemma strtok_delims ds rest m src ret f :
  cstr m src (ds ++ rest) -> delims_apart m src (length (ds ++ rest)) ->
  Forall (fun c => c ∈ ps) ds ->
  loop (length ds + f) (strtok_step pattern) (src, ret) m =
    loop f (strtok_step pattern) (src + length ds, ret)
      (write_bytes src (replicate (length ds) 0) m).
Proof.
  revert m src. induction ds as [|c ds IH]; intros m src H [Hp Hd] Hds.
  { by rewrite Z.add_0_r. }
  apply Forall_cons_iff in Hds as [Hc Hds]. simpl app in H.
  rewrite length_app in Hd. cbn [length] in *.
  change (S (length ds) + f)%nat with (S (length ds + f)).
  erewrite loop_continue by (by eapply strtok_step_delim).
  rewrite IH; [cbn [replicate write_bytes]; eq_lia| | |done].
  - apply cstr_insert; [lia|by eapply cstr_tail].
  - split; [apply cstr_insert; [lia|done]|]. rewrite length_app. lia.
Qed.

Lemma strtok_token tok rest m src ret p f :
  cstr m src (tok ++ rest) -> cstr m pattern ps ->
  Forall (fun c => c ∉ ps) tok -> ret <> 0 -> m !! (src - 1) = Some p -> p <> 0 ->
  loop (length tok + f) (strtok_step pattern) (src, ret) m =
    loop f (strtok_step pattern) (src + length tok, ret) m.
Proof.
  revert src p. induction tok as [|c tok IH]; intros src p H Hp Htok Hret Hprev Hnz.
  { by rewrite Z.add_0_r. }
  apply Forall_cons_iff in Htok as [Hc Htok]. simpl app in H. cbn [length].
  change (S (length tok) + f)%nat with (S (length tok + f)).
  rewrite (loop_continue _ _ _ (src + 1, ret) _ m).
  - rewrite (IH (src + 1) c); try done.
    + eq_lia.
    + by eapply cstr_tail.
    + apply cstr_cons in H as (Hx & _ & _). rewrite <- Hx. f_equal. lia.
    + by apply cstr_cons in H as (_ & Hx & _).
  - erewrite strtok_step_other by done. rewrite (proj2 (Z.eqb_neq _ _)) by done.
    rewrite Hprev. by rewrite (proj2 (Z.eqb_neq _ _)) by done.
Qed.

(** The scan ends at the end of the text or at the next token. *)
Lemma strtok_stop rest m src ret f :
  cstr m src rest -> cstr m pattern ps -> ret <> 0 ->
  rest = [] \/ (m !! (src - 1) = Some 0 /\ head0 rest ∉ ps) ->
  loop (S f) (strtok_step pattern) (src, ret) m = Ok (src, ret) m.
Proof.
  intros H Hp Hret Hs. apply loop_break. destruct rest as [|c rest].
  - apply cstr_nil in H. enter strtok_step. by run_with (by apply loadb_ok).
  - destruct Hs as [Hs|[Hprev Hc]]; [done|].
    erewrite strtok_step_other by done. rewrite (proj2 (Z.eqb_neq _ _)) by done.
    by rewrite Hprev.
Qed.

(** The memory after a call: the delimiters around the token are cleared. *)
Definition strtok_mem (src : Z) (ds tok ds2 : list Z) (m : mem) : mem :=
  write_bytes (src + length ds + length tok) (replicate (length ds2) 0)
    (write_bytes src (replicate (length ds) 0) m).

(** A text cut at its next token: leading delimiters, the token, delimiters
    that follow, and the rest, which is empty or starts a new token. *)
Definition token_split (ds tok ds2 rest : list Z) : Prop :=
  Forall (fun c => c ∈ ps) ds /\ tok <> [] /\ Forall (fun c => c ∉ ps) tok /\
  Forall (fun c => c ∈ ps) ds2 /\ (rest = [] \/ ds2 <> [] /\ head0 rest ∉ ps).

Lemma strtok_loop ds tok ds2 rest m src f :
  0 < src -> cstr m src (ds ++ tok ++ ds2 ++ rest) ->
  delims_apart m src (length (ds ++ tok ++ ds2 ++ rest)) ->
  token_split ds tok ds2 rest ->
  loop (length ds + (length tok + (length ds2 + S f))) (strtok_step pattern) (src, 0) m =
    Ok (src + length ds + length tok + length ds2, src + length ds)
       (strtok_mem src ds tok ds2 m).
Proof.
  intros Hsrc H [Hp Hd] (Hds & Hne & Htok & Hds2 & Hrest).
  rewrite !length_app in Hd. rewrite strtok_delims with (rest := tok ++ ds2 ++ rest);
    [|done|by split; rewrite ?length_app|done].
  set (m1 := write_bytes src (replicate (length ds) 0) m).
  assert (H1 : cstr m1 (src + length ds) (tok ++ ds2 ++ rest)).
  { apply cstr_write_other; [rewrite length_replicate; lia|by apply cstr_app_r]. }
  assert (Hp1 : cstr m1 pattern ps).
  { apply cstr_write_other; [rewrite length_replicate; lia|done]. }
  assert (H2 : cstr m1 (src + length ds + length tok) (ds2 ++ rest)) by by apply cstr_app_r.
  destruct tok as [|c tok]; [done|]. apply Forall_cons_iff in Htok as [Hc Htok].
  simpl app in H1. cbn [length] in *.
  change (S (length tok) + (length ds2 + S f))%nat with (S (length tok + (length ds2 + S f))).
  rewrite (loop_continue _ _ _ (src + length ds + 1, src + length ds) _ m1)
    by (erewrite strtok_step_other by done; done).
  pose proof (cstr_tail _ _ _ _ H1) as H1t. apply cstr_cons in H1 as (Hx & Hxn & _).
  rewrite strtok_token with (p := c) (rest := ds2 ++ rest); try done; [|lia|].
  2:{ rewrite <- Hx. f_equal. lia. }
  replace (src + length ds + 1 + length tok) with (src + length ds + S (length tok)) by lia.
  rewrite strtok_delims with (rest := rest);
    [|done|split; [done|]; rewrite length_app; lia|done].
  fold m1. change (write_bytes (src + length ds + S (length tok)) _ m1)
    with (strtok_mem src ds (c :: tok) ds2 m).
  rewrite strtok_stop with (rest := rest); [eq_lia|..].
  - apply cstr_write_other; [rewrite length_replicate; cbn [length]; lia|].
    by apply cstr_app_r.
  - apply cstr_write_other; [rewrite length_replicate; cbn [length]; lia|done].
  - lia.
  - destruct Hrest as [Hr|[Hr Hh]]; [by left|right; split; [|done]].
    unfold strtok_mem. rewrite write_bytes_lookup, length_replicate.
    destruct ds2 as [|d ds2]; [done|]. cbn [length].
    rewrite bool_decide_true by lia. apply lookup_replicate_2. lia.
Qed.

Lemma strtok_ok ds tok ds2 rest m src nxt :
  0 < src -> cstr m src (ds ++ tok ++ ds2 ++ rest) ->
  delims_apart m src (length (ds ++ tok ++ ds2 ++ rest)) ->
  token_split ds tok ds2 rest ->
  strtok src pattern nxt m =
    Ok (src + length ds, src + length ds + length tok + length ds2)
       (strtok_mem src ds tok ds2 m).
Proof.
  intros Hsrc H Hd Hs. unfold strtok. if_false. if_false.
  pose proof (cstr_size _ _ _ H) as Hsz. rewrite !length_app in Hsz.
  pose proof (strtok_loop ds tok ds2 rest m src
    (size m - (length ds + (length tok + length ds2)))) as Hrun.
  replace (length ds + (length tok + (length ds2 + _)))%nat with (S (size m)) in Hrun by lia.
  run_with (rewrite mloop_eq; by apply Hrun). done.
Qed.
End strtok.

(** ** Correctness *)

(** [strlen] returns the number of characters before the terminator and
    [strnlen] the smaller of that and [n]. *)
Theorem strlen_strnlen_correct m s l (n : Z) :
  mem_ok m -> cstr m s l -> 0 <= n ->
  strlen s m = Ok (Z.of_nat (length l)) m /\
  strnlen s n m = Ok (Z.min n (length l)) m.
Proof.
  intros Hm H Hn. split; [by apply strlen_ok|].
  pose proof (cstr_len _ _ _ Hm H). pose proof (cstr_size _ _ _ H).
  apply (strnlen_loop l m s n 0); [done|lia|lia|lia|lia].
Qed.

(** [strcmp] answers zero exactly for equal strings, and a negative
    number exactly when the first string comes first in the dictionary order
    of unsigned characters. *)
Theorem strcmp_correct m s1 s2 l1 l2 :
  cstr m s1 l1 -> cstr m s2 l2 ->
  exists r, strcmp s1 s2 m = Ok r m /\
    (r = 0 <-> l1 = l2) /\ (r < 0 <-> bytes_lt (l1 ++ [0]) (l2 ++ [0])).
Proof.
  intros H1 H2. unfold strcmp. pose proof (cstr_size _ _ _ H1) as Hsz.
  destruct (cmp_loop id l1 l2 m s1 s2 (2 + length l1 + length l2) (S (size m)))
    as (p1 & p2 & r1 & r2 & -> & -> & Hs & Hrun); [done|done|lia|lia|].
  pose proof (cstr_nonzero _ _ _ H1) as [_ N1]%Forall_app.
  pose proof (cstr_nonzero _ _ _ H2) as [_ N2]%Forall_app.
  exists (head0 r1 - head0 r2). split; [|split].
  - run_with (rewrite mloop_eq; exact Hrun).
    run_with (apply loadb_ok; eapply cstr_head, cstr_app_r, H1).
    by run_with (apply loadb_ok; eapply cstr_head, cstr_app_r, H2).
  - rewrite (cmp_zero _ p1 p2) by done. by rewrite !take_ge by lia.
  - rewrite (cmp_less _ p1 p2) by done.
    by rewrite !take_ge by (rewrite length_app; simpl; lia).
Qed.

(** [strncmp] is [strcmp] on the first [n] characters, terminator
    included. *)
Theorem strncmp_correct m s1 s2 l1 l2 (n : nat) :
  cstr m s1 l1 -> cstr m s2 l2 ->
  exists r, strncmp s1 s2 n m = Ok r m /\
    (r = 0 <-> take n l1 = take n l2) /\
    (r < 0 <-> bytes_lt (take n (l1 ++ [0])) (take n (l2 ++ [0]))).
Proof. apply strncmp_ok. Qed.

(** [strcasecmp] answers zero exactly for strings that are equal up to
    the case of letters. *)
Theorem strcasecmp_correct m s1 s2 l1 l2 :
  cstr m s1 l1 -> cstr m s2 l2 ->
  exists r, strcasecmp s1 s2 m = Ok r m /\ (r = 0 <-> map toupper l1 = map toupper l2).
Proof.
  intros H1 H2. unfold strcasecmp. pose proof (cstr_size _ _ _ H1) as Hsz.
  destruct (cmp_loop toupper l1 l2 m s1 s2 (2 + length l1 + length l2) (S (size m)))
    as (p1 & p2 & r1 & r2 & -> & -> & (Hp & Hl & Hs) & Hrun); [done|done|lia|lia|].
  pose proof (cstr_app_r _ _ _ _ H1) as T1. pose proof (cstr_app_r _ _ _ _ H2) as T2.
  pose proof (cstr_head0_zero _ _ _ T1). pose proof (cstr_head0_zero _ _ _ T2).
  exists (head0 r1 - head0 r2). split.
  - run_with (rewrite mloop_eq; exact Hrun).
    run_with (by apply loadb_ok, cstr_head). by run_with (by apply loadb_ok, cstr_head).
  - rewrite !map_app, Hp. split.
    + intros E. f_equal.
      assert (r1 = [] /\ r2 = []) as [-> ->]; [|done].
      rewrite !length_app in Hs. destruct_or! Hs; [naive_solver lia..|lia|].
      exfalso. apply Hs. f_equal. lia.
    + intros E%app_inv_head. destruct r1 as [|a r1], r2 as [|b r2]; simplify_eq/=; [done|].
      rewrite !length_app in Hs. cbn [length] in Hs.
      destruct_or! Hs; [done|done|lia|done].
Qed.

(** [strchr] points at the first and [strrchr] at the last occurrence of
    the character [c] before the terminator; both answer [NULL] when there is
    none. *)
Theorem strchr_strrchr_correct m s c l :
  cstr m s l ->
  exists r1 r2, strchr s c m = Ok r1 m /\ strrchr s c m = Ok r2 m /\
    ((exists i : nat, r1 = s + i /\ l !! i = Some (u8 c) /\
        forall j, (j < i)%nat -> l !! j <> Some (u8 c))
     \/ (r1 = 0 /\ u8 c ∉ l)) /\
    ((exists i : nat, r2 = s + i /\ l !! i = Some (u8 c) /\
        forall j, (i < j)%nat -> l !! j <> Some (u8 c))
     \/ (r2 = 0 /\ u8 c ∉ l)).
Proof.
  intros H. pose proof (cstr_size _ _ _ H) as Hsz. do 2 eexists.
  split; [apply (strchr_loop _ l); [done|lia]|].
  split; [apply (strrchr_loop _ l); [done|lia]|].
  split; [|apply last_pos_spec].
  destruct (list_find (eq (u8 c)) l) as [[i b]|] eqn:E.
  - left. apply list_find_Some in E as (Hi & <- & Hj). exists i.
    split; [done|]. split; [done|]. intros j Hlt Hl. by apply (Hj j (u8 c)).
  - right. split; [done|]. apply list_find_None in E.
    intros Hin. rewrite Forall_forall in E. eapply E; [by apply list_elem_of_In|done].
Qed.

(** [strstr] points at the first position of the text where the pattern
    occurs, or answers [NULL] when it does not occur; an empty pattern occurs
    at the start. *)
Theorem strstr_correct m hay needle l k :
  mem_ok m -> 0 < hay -> 0 < needle -> cstr m hay l -> cstr m needle k ->
  exists r, strstr hay needle m = Ok r m /\
    ((exists i : nat, r = hay + i /\ k `prefix_of` drop i l /\
        forall j, (j < i)%nat -> ~ k `prefix_of` drop j l)
     \/ (r = 0 /\ forall j, ~ k `prefix_of` drop j l)).
Proof.
  intros Hm H1 H2 Hl Hk. unfold strstr. pose proof (cstr_size _ _ _ Hl).
  destruct (decide (k = [])) as [->|Hne].
  - exists hay. split; [|left; exists 0%nat; split; [lia|]; split; [apply prefix_nil|lia]].
    if_false. run_with (by apply strlen_ok). by run_with (by apply strlen_ok).
  - destruct (strstr_loop k l m hay (length l) needle hay (S (size m)))
      as (r & Hrun & Hr); [done|done|done|lia|lia|].
    exists r. split; [|done]. if_false.
    run_with (by apply strlen_ok). run_with (by apply strlen_ok).
    destruct k; [done|]. cbn [length] in *. if_false. exact Hrun.
Qed.

(** [strcat] appends the second string to the first, leaving the bytes
    after the result alone, provided the source is not in the way of the
    bytes being written. *)
Theorem strcat_correct m dst src d l :
  mem_ok m -> cstr m dst d -> cstr m src l ->
  mapped m (dst + length d) (length l + 1) ->
  forward_safe (dst + length d) src (length l + 1) ->
  exists m', strcat dst src m = Ok dst m' /\ cstr m' dst (d ++ l) /\
    same_outside (dst + length d) (length l + 1) m m'.
Proof.
  intros Hok Hd Hl Hm Hs. eexists. split; [|split].
  - unfold strcat. run_with (by apply strlen_ok). by run_with (by apply strcpy_ok).
  - split.
    + rewrite <- app_assoc. apply bytes_at_app. split; [|apply write_bytes_at].
      apply bytes_at_write_other; [lia|]. destruct Hd as [Hd _].
      by apply bytes_at_app in Hd as [Hd _].
    + apply Forall_app. split; [by apply (cstr_nonzero m dst)|by apply (cstr_nonzero m src)].
  - apply write_bytes_same. rewrite length_app. simpl. lia.
Qed.

(** [strncpy] writes exactly [n] bytes: the first [n] characters of the
    source, and zeros when the source is shorter. *)
Theorem strncpy_correct m dst src l (n : nat) :
  mem_ok m -> cstr m src l -> mapped m dst n -> forward_safe dst src (length l + 1) ->
  exists m', strncpy dst src n m = Ok dst m' /\
    bytes_at m' dst (take n l ++ replicate (n - length l) 0) /\ same_outside dst n m m'.
Proof.
  intros. eexists. split; [by apply strncpy_ok|]. split; [apply write_bytes_at|].
  apply write_bytes_same. rewrite length_app, length_take, length_replicate. lia.
Qed.

(** a call of [strtok] on a text cuts it at its next token: the token it
    returns is a string of its own, the saved position is the start of the
    rest of the text, which is unchanged, and only the text is written. *)
Theorem strtok_correct m src pattern ps nxt ds tok ds2 rest :
  0 < src -> cstr m src (ds ++ tok ++ ds2 ++ rest) ->
  delims_apart pattern ps m src (length (ds ++ tok ++ ds2 ++ rest)) ->
  token_split ps ds tok ds2 rest ->
  exists m', let save := src + length (ds ++ tok ++ ds2) in
    strtok src pattern nxt m = Ok (src + length ds, save) m' /\
    cstr m' (src + length ds) tok /\ cstr m' save rest /\
    same_outside src (length (ds ++ tok ++ ds2)) m m'.
Proof.
  intros Hsrc H Hd Hs. exists (strtok_mem src ds tok ds2 m). simpl.
  rewrite !length_app in *. split; [|split; [|split]].
  - rewrite (strtok_ok pattern ps ds tok ds2 rest) by (rewrite ?length_app; done). eq_lia.
  - destruct Hs as (_ & _ & _ & _ & Hrest).
    pose proof (cstr_app_r _ _ _ _ H) as [Hb Hn].
    rewrite <- !app_assoc in Hb. apply Forall_app in Hn as [Hn _].
    split; [|done]. apply bytes_at_app in Hb as [Hb Hb2]. apply bytes_at_app. split.
    + apply bytes_at_write_other; [lia|].
      apply bytes_at_write_other; [rewrite length_replicate; lia|done].
    + destruct ds2 as [|e ds2].
      * destruct Hrest as [->|[? _]]; [|done]. unfold strtok_mem. cbn [length replicate write_bytes].
        apply bytes_at_write_other; [rewrite length_replicate; lia|done].
      * apply bytes_at_cons. split; [|apply bytes_at_nil].
        unfold strtok_mem. rewrite write_bytes_lookup, length_replicate.
        cbn [length]. rewrite bool_decide_true by lia.
        apply lookup_replicate_2. lia.
  - apply cstr_write_other; [rewrite length_replicate; lia|].
    apply cstr_write_other; [rewrite length_replicate; lia|].
    apply cstr_app_r, cstr_app_r, cstr_app_r in H.
    by replace (src + (length ds + (length tok + length ds2))%nat)
      with (src + length ds + length tok + length ds2) by lia.
  - etransitivity.
    + apply (write_bytes_same src (replicate (length ds) 0)). rewrite length_replicate. lia.
    + apply (same_outside_mono (src + length ds + length tok) (length ds2)); [lia|lia|].
      apply write_bytes_same. by rewrite length_replicate.
Qed.

(** ** Where the routines leave the C standard *)

(** The comparison [strcasecmp] returns is of the original characters: a and
    B compare as the standard's [strcasecmp] never would, and as
    [strncasecmp] does not. *)
Lemma strcasecmp_order :
  let m := block 10 [97; 0; 66; 0] in
  strcasecmp 10 12 m = Ok 31 m /\ strncasecmp 10 12 9 m = Ok (-1) m.
Proof. vm_compute. done. Qed.

(** The terminator is not found by [strchr]. *)
Lemma strchr_nul : let m := block 10 [97; 0] in strchr 10 0 m = Ok 0 m.
Proof. vm_compute. done. Qed.

(** ** Witnesses *)

(** "ab, cd" at 10, ", " at 30, "b," at 40 and free space at 50 *)
Definition text_mem : mem :=
  write_bytes 10 [97; 98; 44; 32; 99; 100; 0] (write_bytes 30 [44; 32; 0]
    (write_bytes 40 [98; 44; 0] (block 50 [120; 0; 1; 1; 1; 1; 1; 1; 1; 1]))).

Lemma strlen_strnlen_correct_witness :
  cstr text_mem 10 [97; 98; 44; 32; 99; 100] /\
  strlen 10 text_mem = Ok 6 text_mem /\ strnlen 10 4 text_mem = Ok 4 text_mem.
Proof.
  split; [decide_now|].
  apply (strlen_strnlen_correct text_mem 10 [97; 98; 44; 32; 99; 100] 4);
    [decide_now|decide_now|lia].
Defined.

Lemma strncmp_correct_witness :
  exists r, strncmp 11 40 2 text_mem = Ok r text_mem /\
    (r = 0 <-> take 2 [98; 44; 32; 99; 100] = take 2 [98; 44]) /\
    (r < 0 <-> bytes_lt (take 2 ([98; 44; 32; 99; 100] ++ [0])) (take 2 ([98; 44] ++ [0]))).
Proof.
  apply (strncmp_correct text_mem 11 40 [98; 44; 32; 99; 100] [98; 44] 2); decide_now.
Defined.

Lemma strcasecmp_correct_witness :
  exists r, strcasecmp 11 40 text_mem = Ok r text_mem /\
    (r = 0 <-> map toupper [98; 44; 32; 99; 100] = map toupper [98; 44]).
Proof.
  apply (strcasecmp_correct text_mem 11 40 [98; 44; 32; 99; 100] [98; 44]); decide_now.
Defined.

Lemma strstr_correct_witness :
  exists r, strstr 10 40 text_mem = Ok r text_mem /\
    ((exists i : nat, r = 10 + i /\ [98; 44] `prefix_of` drop i [97; 98; 44; 32; 99; 100] /\
        forall j, (j < i)%nat -> ~ [98; 44] `prefix_of` drop j [97; 98; 44; 32; 99; 100])
     \/ (r = 0 /\ forall j, ~ [98; 44] `prefix_of` drop j [97; 98; 44; 32; 99; 100])).
Proof.
  apply (strstr_correct text_mem 10 40 [97; 98; 44; 32; 99; 100] [98; 44]);
    [decide_now|lia|lia|decide_now|decide_now].
Defined.

Lemma strcat_correct_witness :
  exists m', strcat 50 40 text_mem = Ok 50 m' /\ cstr m' 50 [120; 98; 44] /\
    same_outside 51 3 text_mem m'.
Proof.
  apply (strcat_correct text_mem 50 40 [120] [98; 44]);
    [decide_now|decide_now|decide_now|decide_now|right; simpl; lia].
Defined.

Lemma strncpy_correct_witness :
  exists m', strncpy 50 40 5 text_mem = Ok 50 m' /\
    bytes_at m' 50 [98; 44; 0; 0; 0] /\ same_outside 50 5 text_mem m'.
Proof.
  apply (strncpy_correct text_mem 50 40 [98; 44] 5);
    [decide_now|decide_now|decide_now|right; simpl; lia].
Defined.

Lemma strtok_correct_witness :
  exists m', strtok 10 30 0 text_mem = Ok (10, 14) m' /\
    cstr m' 10 [97; 98] /\ cstr m' 14 [99; 100] /\ same_outside 10 4 text_mem m'.
Proof.
  apply (strtok_correct text_mem 10 30 [44; 32] 0 [] [97; 98] [44; 32] [99; 100]).
  - lia.
  - decide_now.
  - split; [decide_now|right; simpl; lia].
  - split; [decide_now|]. split; [done|]. split; [decide_now|]. split; [decide_now|].
    right. split; [done|]. decide_now.
Defined.
