(* ===== verification/Strto.v ===== *)
(** * Number parsing: libc/src/strtoul.c and libc/src/strtol.c

    [*PTR] is threaded as the position reached; the result is the number and
    that position, which the caller stores when [PTR] is not [NULL]. *)

From S2P Require Import Prelude CMem Ctype LibcMem LibcStr.

(** ** The routines *)

(** The value of an alphanumeric digit, or [None] where the scan stops. *)
Definition digit_of (c : Z) : option Z :=
  if (48 <=? c) && (c <=? 57) then Some (c - 48)
  else if (97 <=? c) && (c <=? 122) then Some (c - 97 + 10)
  else if (65 <=? c) && (c <=? 90) then Some (c - 65 + 10)
  else None.

Definition is_blank (c : Z) : bool :=
  (c =? 32) || (c =? 9) || (c =? 10) || (c =? 13).

Definition skip_blanks_step : Z -> M mem (Z + Z) := fun p =>
  c ← loadb p; if is_blank c then mret (inl (p + 1)) else mret (inr p).

(** Does the text at [p] start with 0x?  The second character is read only
    when the first is a zero. *)
Definition at_0x (p : Z) : M mem bool :=
  c ← loadb p;
  if c =? 48 then d ← loadb (p + 1); mret (d =? 120) else mret false.

(** The base to use and where its digits start. *)
Definition strto_base (p base : Z) : M mem (Z * Z) :=
  base ← (if base =? 0 then x ← at_0x p; mret (if x : bool then 16 else 10) else mret base);
  if base =? 16 then x ← at_0x p; mret (if x : bool then (p + 2, base) else (p, base))
  else mret (p, base).

Definition strtoul_step (base : Z) : Z * Z -> M mem (Z * Z + Z * Z) :=
  fun '(p, rval) =>
    c ← loadb p;
    if c =? 0 then mret (inr (rval, p)) else
    match digit_of c with
    | None => mret (inr (rval, p))
    | Some digit =>
        if digit <? base then mret (inl (p + 1, u64 (rval * base + digit)))
        else mret (inr (rval, p))
    end.

Definition strtoul (s base : Z) : M mem (Z * Z) :=
  if (base <? 0) || (36 <? base) then mret (0, s) else
  p ← mloop skip_blanks_step s;
  '(p, base) ← strto_base p base;
  mloop (strtoul_step base) (p, 0).

(** The signed accumulator must not overflow. *)
Definition strtol_step (base : Z) : Z * Z -> M mem (Z * Z + Z * Z) :=
  fun '(p, rval) =>
    c ← loadb p;
    if c =? 0 then mret (inr (rval, p)) else
    match digit_of c with
    | None => mret (inr (rval, p))
    | Some digit =>
        if digit <? base then
          if rval * base + digit <? 2 ^ 63 then mret (inl (p + 1, rval * base + digit))
          else throw UB
        else mret (inr (rval, p))
    end.

Definition strtol (s base : Z) : M mem (Z * Z) :=
  if (base <? 0) || (36 <? base) then mret (0, s) else
  p ← mloop skip_blanks_step s;
  c ← loadb p;
  let negative := c =? 45 in
  let p := if negative then p + 1 else p in
  '(p, base) ← strto_base p base;
  '(rval, p) ← mloop (strtol_step base) (p, 0);
  mret (if negative then rval * -1 else rval, p).

(** ** Reference *)

(** A digit of the base, with its value. *)
Definition base_digit (base c : Z) : option Z :=
  match digit_of c with
  | Some d => if d <? base then Some d else None
  | None => None
  end.

(** The number a list of digits denotes, continuing from [acc]. *)
Fixpoint digits_value (base acc : Z) (ds : list Z) : Z :=
  match ds with
  | [] => acc
  | c :: ds' => digits_value base (acc * base + default 0 (base_digit base c)) ds'
  end.

Definition all_digits (base : Z) (ds : list Z) : Prop :=
  Forall (fun c => is_Some (base_digit base c)) ds.

(** The digits end here. *)
Definition no_digit (base : Z) (tail : list Z) : Prop :=
  base_digit base (head0 tail) = None.

(** ** Lemmas *)

Lemma base_digit_inv base c d : base_digit base c = Some d -> digit_of c = Some d /\ d < base.
Proof.
  unfold base_digit. destruct (digit_of c) as [e|]; [|done].
  destruct (Z.ltb_spec e base); naive_solver.
Qed.

Lemma digit_of_range c d : digit_of c = Some d -> 48 <= c <= 122 /\ 0 <= d < 36.
Proof. unfold digit_of. intros H. repeat case_match; simplify_eq; lia. Qed.

Lemma base_digit_range base c d : base_digit base c = Some d -> c <> 0 /\ 0 <= d < base.
Proof. intros [H1 H2]%base_digit_inv. apply digit_of_range in H1. lia. Qed.

Lemma base_digit_0 base : base_digit base 0 = None.
Proof. done. Qed.

Lemma digits_value_mod base acc ds :
  u64 (digits_value base acc ds) = u64 (digits_value base (u64 acc) ds).
Proof.
  revert acc. induction ds as [|c ds IH]; intros acc; simpl.
  - unfold u64. by rewrite Z.mod_mod by lia.
  - rewrite IH, (IH (u64 acc * base + _)). f_equal. f_equal. unfold u64.
    rewrite <- (Z.add_mod_idemp_l (acc * base)) by lia.
    rewrite <- (Z.add_mod_idemp_l (acc mod 2 ^ 64 * base)) by lia.
    by rewrite Z.mul_mod_idemp_l by lia.
Qed.

Lemma digits_value_app base acc ds ds' :
  digits_value base acc (ds ++ ds') = digits_value base (digits_value base acc ds) ds'.
Proof. revert acc. induction ds as [|c ds IH]; intros acc; simpl; auto. Qed.

Lemma digits_value_mono base acc ds :
  0 <= acc -> 1 <= base -> all_digits base ds -> acc <= digits_value base acc ds.
Proof.
  intros Ha Hb H. revert acc Ha. induction H as [|c ds [d Hd] _ IH]; intros acc Ha; simpl; [lia|].
  rewrite Hd. simpl. apply base_digit_range in Hd. transitivity (acc * base + d); [nia|].
  apply IH. nia.
Qed.

Lemma skip_blanks_loop ws rest m p f :
  cstr m p (ws ++ rest) -> Forall (fun c => is_blank c) ws -> is_blank (head0 rest) = false ->
  (length ws < f)%nat ->
  loop f skip_blanks_step p m = Ok (p + length ws) m.
Proof.
  revert ws p. induction f as [|f IH]; intros ws p H Hw Hr Hf; [lia|].
  destruct ws as [|c ws].
  - simpl app in H. apply cstr_head in H. apply loop_break. unfold skip_blanks_step.
    run_with (by apply loadb_ok). rewrite Hr. simpl. by rewrite Z.add_0_r.
  - apply Forall_cons_iff in Hw as [Hc Hw]. pose proof (cstr_tail _ _ _ _ H) as Ht.
    apply cstr_cons in H as (Hx & _ & _). cbn [length] in *.
    rewrite (loop_continue _ _ _ (p + 1) _ m).
    + rewrite (IH ws) by (done || lia). eq_lia.
    + unfold skip_blanks_step. run_with (by apply loadb_ok).
      by rewrite (Is_true_true_1 _ Hc).
Qed.

Lemma strtoul_loop base ds tail m p acc f :
  cstr m p (ds ++ tail) -> all_digits base ds -> no_digit base tail ->
  0 <= acc < 2 ^ 64 -> (length ds < f)%nat ->
  loop f (strtoul_step base) (p, acc) m = Ok (u64 (digits_value base acc ds), p + length ds) m.
Proof.
  revert ds p acc. induction f as [|f IH]; intros ds p acc H Hd Ht Ha Hf; [lia|].
  destruct ds as [|c ds]; simpl app in H.
  - apply cstr_head in H. apply loop_break. simpl. rewrite u64_small, Z.add_0_r by done.
    enter strtoul_step. run_with (by apply loadb_ok). destruct (head0 tail =? 0); [done|].
    unfold no_digit, base_digit in Ht. destruct (digit_of (head0 tail)); [|done].
    by destruct (_ <? _).
  - apply Forall_cons_iff in Hd as [[d Hc] Hd]. pose proof (cstr_tail _ _ _ _ H) as Htl.
    apply cstr_cons in H as (Hx & Hne & _). cbn [length digits_value] in *. rewrite Hc. simpl default.
    rewrite (loop_continue _ _ _ (p + 1, u64 (acc * base + d)) _ m).
    + rewrite (IH ds) by (done || lia || apply u64_range).
      rewrite <- digits_value_mod. eq_lia.
    + enter strtoul_step. run_with (by apply loadb_ok). if_false.
      apply base_digit_inv in Hc as [-> Hlt]. by if_true.
Qed.

Lemma strtol_loop base ds tail m p acc f :
  cstr m p (ds ++ tail) -> all_digits base ds -> no_digit base tail ->
  1 <= base -> 0 <= acc -> digits_value base acc ds < 2 ^ 63 -> (length ds < f)%nat ->
  loop f (strtol_step base) (p, acc) m = Ok (digits_value base acc ds, p + length ds) m.
Proof.
  revert ds p acc. induction f as [|f IH]; intros ds p acc H Hd Ht Hb Ha Hv Hf; [lia|].
  destruct ds as [|c ds]; simpl app in H.
  - apply cstr_head in H. apply loop_break. simpl. rewrite Z.add_0_r.
    enter strtol_step. run_with (by apply loadb_ok). destruct (head0 tail =? 0); [done|].
    unfold no_digit, base_digit in Ht. destruct (digit_of (head0 tail)); [|done].
    by destruct (_ <? _).
  - apply Forall_cons_iff in Hd as [[d Hc] Hd]. pose proof (cstr_tail _ _ _ _ H) as Htl.
    apply cstr_cons in H as (Hx & Hne & _). cbn [length digits_value] in *.
    rewrite Hc in *. simpl default in *. pose proof (base_digit_range _ _ _ Hc) as [_ Hr].
    assert (Hacc : 0 <= acc * base + d) by nia.
    pose proof (digits_value_mono base _ ds Hacc Hb Hd).
    rewrite (loop_continue _ _ _ (p + 1, acc * base + d) _ m).
    + rewrite (IH ds) by (done || lia). eq_lia.
    + enter strtol_step. run_with (by apply loadb_ok). if_false.
      apply base_digit_inv in Hc as [-> Hlt]. if_true. by if_true.
Qed.

Lemma at_0x_ok m p l :
  cstr m p l -> at_0x p m = Ok (bool_decide ([48; 120] `prefix_of` l)) m.
Proof.
  intros H. unfold at_0x. run_with (by apply loadb_ok, cstr_head).
  destruct l as [|c l]; cbn [head0].
  { by rewrite bool_decide_false by (by intros ?%prefix_nil_inv). }
  destruct (Z.eqb_spec c 48) as [->|Hne].
  2:{ rewrite bool_decide_false; [done|]. intros ?%prefix_cons_inv_1. congruence. }
  run_with (eapply loadb_ok, cstr_head, cstr_tail, H). unfold mret, M_ret. f_equal.
  destruct l as [|d l]; cbn [head0].
  { rewrite bool_decide_false; [done|]. by intros ?%prefix_cons_inv_2%prefix_nil_inv. }
  destruct (Z.eqb_spec d 120) as [->|Hne]; symmetry.
  - apply bool_decide_eq_true. apply prefix_cons, prefix_cons, prefix_nil.
  - apply bool_decide_eq_false. intros H1%prefix_cons_inv_2%prefix_cons_inv_1. congruence.
Qed.

(** The digits a number without a base prefix is made of. *)
Definition plain_number (base : Z) (ds tail : list Z) : Prop :=
  all_digits base ds /\ no_digit base tail /\
  (base = 16 -> ~ [48; 120] `prefix_of` ds ++ tail).

Lemma strto_base_plain m p base ds tail :
  cstr m p (ds ++ tail) -> base <> 0 -> plain_number base ds tail ->
  strto_base p base m = Ok (p, base) m.
Proof.
  intros H Hb (_ & _ & Hx). unfold strto_base. if_false.
  erewrite bind_ok by reflexivity. destruct (Z.eqb_spec base 16) as [->|]; [|done].
  run_with (by eapply at_0x_ok). by rewrite bool_decide_false by auto.
Qed.

(** With base 0 or 16, the prefix 0x selects base 16. *)
Lemma strto_base_0x m p base l :
  cstr m p (48 :: 120 :: l) -> base = 0 \/ base = 16 ->
  strto_base p base m = Ok (p + 2, 16) m.
Proof.
  intros H Hb. unfold strto_base.
  assert (Hx : at_0x p m = Ok true m).
  { erewrite at_0x_ok by exact H.
    by rewrite bool_decide_true by (apply prefix_cons, prefix_cons, prefix_nil). }
  destruct Hb as [-> | ->]; simpl.
  - erewrite bind_ok by (by run_with (exact Hx)). simpl. by run_with (exact Hx).
  - erewrite bind_ok by reflexivity. simpl. by run_with (exact Hx).
Qed.

Lemma no_blank_digits base ds tail :
  all_digits base ds -> is_blank (head0 tail) = false -> is_blank (head0 (ds ++ tail)) = false.
Proof.
  intros Hd Ht. destruct ds as [|c ds]; [done|]. apply Forall_cons_iff in Hd as [[d Hc] _].
  apply base_digit_inv in Hc as [Hc _]. apply digit_of_range in Hc.
  simpl. unfold is_blank. lia.
Qed.

Lemma strtoul_plain m s base ws ds tail :
  2 <= base <= 36 -> cstr m s (ws ++ ds ++ tail) -> Forall (fun c => is_blank c) ws ->
  is_blank (head0 (ds ++ tail)) = false -> plain_number base ds tail ->
  strtoul s base m = Ok (u64 (digits_value base 0 ds), s + length ws + length ds) m.
Proof.
  intros Hb H Hw Hnb Hp. pose proof (cstr_size _ _ _ H) as Hsz. rewrite !length_app in Hsz.
  pose proof (cstr_app_r _ _ _ _ H) as Hn. pose proof Hp as (Hd & Ht & _).
  unfold strtoul. if_false.
  run_with (rewrite mloop_eq; eapply skip_blanks_loop; [exact H|done|done|lia]).
  run_with (eapply strto_base_plain; [exact Hn|lia|done]).
  rewrite mloop_eq. apply (strtoul_loop base ds tail); [done..|lia|lia].
Qed.

(** ** Correctness *)

(** *** The number at the start of a text *)

(** The longest prefix of characters of a kind, and the rest. *)
Fixpoint span (p : Z -> bool) (l : list Z) : list Z * list Z :=
  match l with
  | c :: l' => if p c then let '(a, b) := span p l' in (c :: a, b) else ([], l)
  | [] => ([], [])
  end.

Fixpoint index_of (c : Z) (l : list Z) : option Z :=
  match l with
  | [] => None
  | x :: l => if x =? c then Some 0 else Z.succ <$> index_of c l
  end.

(** The value of a character as a digit, of which there are 36, in either
    case. *)
Definition alphabet : list Z := codes "0123456789abcdefghijklmnopqrstuvwxyz".
Definition capitals : list Z := codes "0123456789ABCDEFGHIJKLMNOPQRSTUVWXYZ".
Definition text_digit (c : Z) : option Z :=
  match index_of c alphabet with Some d => Some d | None => index_of c capitals end.

Definition text_space (c : Z) : bool := existsb (Z.eqb c) [32; 9; 10; 13].
Definition digit_below (base c : Z) : bool :=
  match text_digit c with Some d => d <? base | None => false end.

(** Positional notation. *)
Fixpoint text_value (base acc : Z) (ds : list Z) : Z :=
  match ds with [] => acc | c :: ds => text_value base (acc * base + default 0 (text_digit c)) ds end.

(** The number and how many characters were used: a base that is not 0 to 36
    reads nothing; after the blanks, base 0 is 16 when the text goes on with 0x
    and 10 when not, and base 16 passes over 0x; then the digits. *)
Definition strtoul_text (base : Z) (l : list Z) : Z * Z :=
  if (0 <=? base) && (base <=? 36) then
    let '(blanks, r) := span text_space l in
    let x := bool_decide ([48; 120] `prefix_of` r) in
    let base := if base =? 0 then (if x then 16 else 10) else base in
    let skip := if (base =? 16) && x then 2%nat else 0%nat in
    let '(ds, _) := span (digit_below base) (drop skip r) in
    (text_value base 0 ds mod 2 ^ 64, Z.of_nat (length blanks + skip + length ds))
  else (0, 0).

Lemma span_spec p l : let '(a, b) := span p l in
  l = a ++ b /\ Forall (fun c => p c = true) a /\ (p 0 = false -> p (head0 b) = false).
Proof.
  induction l as [|c l IH]; cbn [span]; [by split_and!|].
  destruct (p c) eqn:Hc; [|by split_and!]. destruct (span p l) as [a b].
  destruct IH as (-> & Ha & Hb). split_and!; [done|by constructor|done].
Qed.

Lemma index_of_bounds c l lo hi :
  forallb (fun x => (lo <=? x) && (x <=? hi)) l = true -> ~ lo <= c <= hi -> index_of c l = None.
Proof.
  intros Hl Hc. induction l as [|x l IH]; cbn [index_of]; [done|].
  cbn [forallb] in Hl. apply andb_prop in Hl as [Hx Hl].
  destruct (Z.eqb_spec x c); [lia|]. by rewrite IH.
Qed.

Lemma digit_of_text c : digit_of c = text_digit c.
Proof.
  destruct (decide (48 <= c <= 122)) as [Hc|Hc].
  - assert (Hall : forallb (fun i : nat => bool_decide (digit_of i = text_digit i)) (seq 48 75) = true)
      by (vm_compute; reflexivity).
    rewrite forallb_forall in Hall. rewrite <- (Z2Nat.id c) by lia.
    eapply bool_decide_eq_true, Hall, in_seq. lia.
  - unfold text_digit. rewrite !(index_of_bounds c _ 48 122) by (vm_compute; reflexivity || done).
    unfold digit_of. repeat case_match; lia || done.
Qed.

Lemma is_blank_text c : is_blank c = text_space c.
Proof. unfold is_blank, text_space. cbn [existsb]. by rewrite orb_false_r, <- !orb_assoc. Qed.

Lemma digit_below_base base c : digit_below base c = true <-> is_Some (base_digit base c).
Proof.
  unfold digit_below, base_digit. rewrite <- digit_of_text. destruct (digit_of c) as [d|].
  - destruct (d <? base); [by split|]. split; [done|by intros []].
  - split; [done|by intros []].
Qed.

Lemma text_value_digits base acc ds : all_digits base ds -> text_value base acc ds = digits_value base acc ds.
Proof.
  intros Hd. revert acc. induction Hd as [|c ds [d Hc] _ IH]; intros acc; cbn [text_value digits_value]; [done|].
  rewrite IH. pose proof (base_digit_inv _ _ _ Hc) as [E _]. rewrite digit_of_text in E. by rewrite Hc, E.
Qed.

Lemma strto_base_text m p base r :
  cstr m p r -> 0 <= base <= 36 ->
  let x := bool_decide ([48; 120] `prefix_of` r) in
  let b := if base =? 0 then (if x then 16 else 10) else base in
  let skip := if (b =? 16) && x then 2%nat else 0%nat in
  strto_base p base m = Ok (p + Z.of_nat skip, b) m /\ cstr m (p + Z.of_nat skip) (drop skip r).
Proof.
  intros H Hb x b skip. pose proof (at_0x_ok m p r H) as Hx. fold x in Hx. split.
  - unfold strto_base. destruct (Z.eqb_spec base 0) as [->|Hne].
    + erewrite bind_ok by (by run_with (exact Hx)). subst b skip. destruct x; cbn.
      * by run_with (exact Hx).
      * by rewrite Z.add_0_r.
    + erewrite bind_ok by reflexivity. subst b skip. destruct (base =? 16); cbn [andb].
      * run_with (exact Hx). destruct x; [done|]. by rewrite Z.add_0_r.
      * by rewrite Z.add_0_r.
  - subst skip. destruct (b =? 16); cbn [andb]; [|by rewrite Z.add_0_r].
    destruct x eqn:Ex; [|by rewrite Z.add_0_r]. subst x. apply bool_decide_eq_true in Ex as [k ->].
    cbn [drop app]. apply cstr_tail, cstr_tail in H. by replace (p + Z.of_nat 2) with (p + 1 + 1) by lia.
Qed.

(** C38: [strtoul] on every string and in every base, valid or not, returns the
    number and the position after it that the text determines: see
    [strtoul_text]; the number is reduced to 64 bits, and memory is not
    changed. *)
Theorem strtoul_correct m s base l :
  cstr m s l ->
  strtoul s base m = Ok ((strtoul_text base l).1, s + (strtoul_text base l).2) m.
Proof.
  intros H. pose proof (cstr_size _ _ _ H) as Hsz. unfold strtoul, strtoul_text.
  destruct (decide (0 <= base <= 36)) as [Hb|Hb].
  2:{ replace ((base <? 0) || (36 <? base)) with true by lia.
      replace ((0 <=? base) && (base <=? 36)) with false by lia. cbn [fst snd]. by rewrite Z.add_0_r. }
  replace ((base <? 0) || (36 <? base)) with false by lia.
  replace ((0 <=? base) && (base <=? 36)) with true by lia.
  pose proof (span_spec text_space l) as Hs. destruct (span text_space l) as [ws r]. destruct Hs as (-> & Hw & Hr).
  rewrite length_app in Hsz. pose proof (cstr_app_r _ _ _ _ H) as Hn.
  assert (Hwb : Forall (fun c => is_blank c) ws).
  { eapply Forall_impl; [|exact Hw]. intros c Hc. by rewrite is_blank_text, Hc. }
  assert (Hrb : is_blank (head0 r) = false) by (rewrite is_blank_text; by apply Hr).
  run_with (rewrite mloop_eq; eapply (skip_blanks_loop ws r); [exact H|done|done|lia]).
  destruct (strto_base_text m (s + length ws) base r Hn Hb) as [Hbase Hd]. cbv zeta in *.
  run_with (exact Hbase). set (b := if base =? 0 then _ else _) in *.
  set (skip := if (b =? 16) && _ then 2%nat else 0%nat) in *.
  pose proof (span_spec (digit_below b) (drop skip r)) as Hs.
  destruct (span (digit_below b) (drop skip r)) as [ds tail]. destruct Hs as (Ed & Hds & Ht). rewrite Ed in Hd.
  assert (Had : all_digits b ds) by (eapply Forall_impl; [|exact Hds]; intros c; by apply digit_below_base).
  assert (Hnd : no_digit b tail).
  { unfold no_digit. specialize (Ht eq_refl). destruct (base_digit b (head0 tail)) eqn:E; [|done].
    exfalso. assert (digit_below b (head0 tail) = true) by (apply digit_below_base; by rewrite E). congruence. }
  pose proof (f_equal length Ed) as El. rewrite length_app, length_drop in El.
  rewrite mloop_eq, (strtoul_loop b ds tail) by (done || lia).
  cbn [fst snd]. rewrite text_value_digits by done. unfold u64. do 2 f_equal. lia.
Qed.

(** With base 0 or 16 a number written 0x and hexadecimal digits is read
    in base 16, its value starting after the prefix. *)
Theorem strtoul_hex_correct m s base ws ds tail :
  base = 0 \/ base = 16 -> cstr m s (ws ++ 48 :: 120 :: ds ++ tail) ->
  Forall (fun c => is_blank c) ws -> all_digits 16 ds -> no_digit 16 tail ->
  strtoul s base m = Ok (u64 (digits_value 16 0 ds), s + length ws + 2 + length ds) m.
Proof.
  intros Hb H Hw Hd Ht. pose proof (cstr_size _ _ _ H) as Hsz.
  rewrite length_app in Hsz. cbn [length] in Hsz. rewrite length_app in Hsz.
  pose proof (cstr_app_r _ _ _ _ H) as Hn. unfold strtoul. if_false.
  run_with (rewrite mloop_eq; eapply skip_blanks_loop; [exact H|done|done|lia]).
  run_with (eapply strto_base_0x; [exact Hn|done]).
  rewrite mloop_eq. apply (strtoul_loop 16 ds tail); [|done|done|lia|lia].
  apply cstr_tail, cstr_tail in Hn. by replace (s + length ws + 2) with (s + length ws + 1 + 1) by lia.
Qed.

(** [strtol] reads an optional minus sign and the digits of the base and
    returns the signed number, as long as its magnitude is below 2^63. *)
Theorem strtol_correct m s base ws (neg : bool) ds tail :
  2 <= base <= 36 ->
  cstr m s (ws ++ (if neg then [45] else []) ++ ds ++ tail) ->
  Forall (fun c => is_blank c) ws ->
  (neg = false -> is_blank (head0 (ds ++ tail)) = false /\ head0 (ds ++ tail) <> 45) ->
  plain_number base ds tail -> digits_value base 0 ds < 2 ^ 63 ->
  strtol s base m =
    Ok ((if neg then -1 else 1) * digits_value base 0 ds,
        s + length ws + b2z neg + length ds) m.
Proof.
  intros Hb H Hw Hneg Hp Hv. pose proof (cstr_size _ _ _ H) as Hsz.
  rewrite !length_app in Hsz. pose proof (cstr_app_r _ _ _ _ H) as Hn.
  pose proof Hp as (Hd & Ht & _). unfold strtol. if_false.
  run_with (rewrite mloop_eq; eapply skip_blanks_loop; [exact H|done| |lia];
            destruct neg; [done|by apply Hneg]).
  run_with (by apply loadb_ok, cstr_head).
  set (q := s + length ws + b2z neg).
  assert (Hq : cstr m q (ds ++ tail)).
  { destruct neg; simpl in Hn; [by apply cstr_tail in Hn|]. unfold q. simpl. by rewrite Z.add_0_r. }
  replace (head0 ((if neg then [45] else []) ++ ds ++ tail) =? 45) with neg.
  2:{ destruct neg; [done|]. symmetry. apply Z.eqb_neq. by apply Hneg. }
  replace (if neg then s + length ws + 1 else s + length ws) with q
    by (unfold q; destruct neg; simpl; lia).
  run_with (eapply strto_base_plain; [exact Hq|lia|done]).
  run_with (rewrite mloop_eq; apply (strtol_loop base ds tail); [done..|lia|lia|done|lia]).
  unfold mret, M_ret. destruct neg; eq_lia.
Qed.

(** ** Witnesses *)

(** " 0x1F;" at 10 and "-42" at 20 *)
Definition number_mem : mem :=
  write_bytes 10 [32; 48; 120; 49; 70; 59; 0] (block 20 [45; 52; 50; 0]).

Lemma strtoul_correct_witness :
  strtoul 10 0 number_mem = Ok (31, 15) number_mem /\ strtoul 10 10 number_mem = Ok (0, 12) number_mem /\
  strtoul 20 37 number_mem = Ok (0, 20) number_mem.
Proof.
  split_and!.
  - apply (strtoul_correct number_mem 10 0 [32; 48; 120; 49; 70; 59]). decide_now.
  - apply (strtoul_correct number_mem 10 10 [32; 48; 120; 49; 70; 59]). decide_now.
  - apply (strtoul_correct number_mem 20 37 [45; 52; 50]). decide_now.
Defined.

Lemma strtoul_hex_correct_witness :
  strtoul 10 0 number_mem = Ok (u64 (digits_value 16 0 [49; 70]), 15) number_mem.
Proof.
  apply (strtoul_hex_correct number_mem 10 0 [32] [49; 70] [59]);
    [by left|decide_now|by repeat constructor| |done].
  repeat constructor; by eexists.
Defined.

Lemma strtol_correct_witness :
  strtol 20 10 number_mem = Ok ((-1) * digits_value 10 0 [52; 50], 23) number_mem.
Proof.
  apply (strtol_correct number_mem 20 10 [] true [52; 50] []);
    [lia|decide_now|constructor|done| |done].
  split; [|split; [done|done]]. repeat constructor; by eexists.
Defined.
