(* ===== verification/Vsnprintf.v ===== *)
(** * Formatted output: libc/src/vsnprintf.c

    [*buffer] is threaded: a routine takes the position to write at and
    returns its C result with the position it reached.  The local arrays
    [formstr] and [sizec] are objects of their own; a store past their end is
    undefined behaviour. *)

From S2P Require Import Prelude CMem Ctype LibcMem LibcStr Strto.

(** ** Local arrays *)

(** [a[i] = v] for a local array of [n] characters. *)
Definition array_set {S} (n : Z) (a : mem) (i v : Z) : M S mem :=
  if i <? n then mret (<[i := u8 v]> a) else throw UB.

(** ** The routines *)

Definition convert (length_mod : Z) : Z :=
  match length_mod with
  | 1 => 0xff
  | 2 => 0xffff
  | 3 => 0xffffff
  | 4 => 0xffffffff
  | 5 => 0xffffffffff
  | 6 => 0xffffffffffff
  | 7 => 0xffffffffffffff
  | 8 => 0xffffffffffffffff
  | _ => 0
  end.

(** The filling loop of [print_fill] and [print_str_fill]: at most [count]
    characters, at most [bufsize] after [bstart]. *)
Definition fill_step (bstart bufsize count c : Z) : Z * Z -> M mem (Z * Z + Z) :=
  fun '(buf, i) =>
    if (i <? count) && (u64 (buf - bstart) <? bufsize) then
      _ ← storeb buf c; mret (inl (buf + 1, i + 1))
    else mret (inr buf).

Definition print_str_fill (buf bufsize : Z) (sizec : mem) (str c : Z) : M mem (Z * Z) :=
  '(sizei, _) ← on_object sizec (strtoul 0 10);
  len ← strlen str;
  if len <? sizei then
    buf' ← mloop (fill_step buf bufsize (sizei - len) c) (buf, 0);
    mret (1, buf')
  else mret (1, buf).

Definition print_str_step (bstart bufsize str : Z) : Z * Z -> M mem (Z * Z + Z) :=
  fun '(buf, i) =>
    len ← strlen str;
    if (i <? len) && (u64 (buf - bstart) <? bufsize) then
      c ← loadb (str + i);
      _ ← storeb buf c; mret (inl (buf + 1, i + 1))
    else mret (inr buf).

Definition print_str (buf bufsize str : Z) : M mem (Z * Z) :=
  buf' ← mloop (print_str_step buf bufsize str) (buf, 0);
  mret (1, buf').

(** A 64-bit number has at most 64 digits in a base of at least two. *)
Definition digit_rounds : nat := 65.

Definition print_intlen_step (base : Z) : Z * Z -> M mem (Z * Z + Z) :=
  fun '(value, i) =>
    if 0 <? value then
      mret (inl (if base =? 16 then Z.shiftr value 4 else value / base, i + 1))
    else mret (inr i).

Definition print_intlen (value base : Z) : M mem Z :=
  i ← loop digit_rounds (print_intlen_step base) (value, 0);
  mret (if i =? 0 then 1 else i).

(** '0' to '9' and 'a' to 'f' *)
Definition zeichen : list Z :=
  [48; 49; 50; 51; 52; 53; 54; 55; 56; 57; 97; 98; 99; 100; 101; 102].

Definition print_itoa_step (buf base : Z) (upper : bool) : Z * Z -> M mem (Z * Z + unit) :=
  fun '(value, i) =>
    let c := nth (Z.to_nat (value mod base)) zeichen 0 in
    let c := if upper then toupper c else c in
    let i := i - 1 in
    _ ← storeb (buf + i) c;
    let value := value / base in
    if value =? 0 then mret (inr tt) else mret (inl (value, i)).

Definition print_itoa (buf bufsize value base : Z) (upper : bool) : M mem (Z * Z) :=
  if (base <=? 2) || (16 <? base) then mret (0, buf) else
  len ← print_intlen value base;
  if bufsize <? u64 len then mret (0, buf) else
  _ ← loop digit_rounds (print_itoa_step buf base upper) (value, len);
  mret (1, buf + len).

Definition print_fill (buf bufsize : Z) (sizec : mem) (size base c optlen : Z) : M mem (Z * Z) :=
  '(n, _) ← on_object sizec (strtoul 0 10);
  let sizei := s32 n in
  l ← print_intlen size base;
  let len := s32 (u32 (l + optlen)) in
  if len <? sizei then
    buf' ← mloop (fill_step buf bufsize (sizei - len) c) (buf, 0);
    mret (0, buf')
  else mret (0, buf).

Record fmt_state := FmtState {
  form : Z;
  buf : Z;
  idx : Z;
  length_mod : Z;
  upper : bool;
  sizec : mem
}.

(** [lit_0x] is where the linker put the string constant 0x. *)
Section vsnprintf.
Context (lit_0x : Z).

Section print_format.
Context (start bufsize sign var : Z) (frm : mem).

(** [bufsize - ( *buffer - start)] *)
Definition room (b : Z) : Z := u64 (bufsize - (b - start)).

(** Padding and digits of a number, at [b]. *)
Definition put_number (sz : mem) (value base : Z) (up : bool) (b : Z) : M mem Z :=
  '(_, b) ← print_fill b (room b) sz value base sign 0;
  '(_, b) ← print_itoa b (room b) value base up;
  mret b.

Definition with_buf (st : fmt_state) (b : Z) : fmt_state :=
  FmtState (form st) b (idx st) (length_mod st) (upper st) (sizec st).

Definition with_length (st : fmt_state) (f n : Z) : fmt_state :=
  FmtState f (buf st) (idx st) n (upper st) (sizec st).

(** [sizec[i] = 0] *)
Definition terminate (st : fmt_state) : M mem fmt_state :=
  sz ← array_set 32 (sizec st) (idx st) 0;
  mret (FmtState (form st) (buf st) (idx st) (length_mod st) (upper st) sz).

Definition fmt_decimal (c : Z) (st : fmt_state) : M mem fmt_state :=
  st ← terminate st;
  let signBit := Z.shiftl 1 (length_mod st * 8 - 1) in
  if negb (c =? 117) && negb (Z.land signBit var =? 0) then
    _ ← storeb (buf st) 45;
    b ← put_number (sizec st) (Z.land (u64 (- var)) (convert (length_mod st))) 10
          (upper st) (buf st + 1);
    mret (with_buf st b)
  else
    b ← put_number (sizec st) var 10 (upper st) (buf st);
    mret (with_buf st b).

(** [x], [X], [o] and [O]: the masked value in base [base]. *)
Definition fmt_unsigned (base : Z) (st : fmt_state) : M mem fmt_state :=
  st ← terminate st;
  b ← put_number (sizec st) (Z.land var (convert (length_mod st))) base (upper st) (buf st);
  mret (with_buf st b).

Definition fmt_pointer (st : fmt_state) : M mem fmt_state :=
  st ← terminate st;
  '(_, b) ← print_fill (buf st) (room (buf st)) (sizec st) var 16 32 2;
  '(_, b) ← print_str b (room b) lit_0x;
  '(_, b) ← print_itoa b (room b) var 16 (upper st);
  mret (with_buf st b).

Definition fmt_char (st : fmt_state) : M mem fmt_state :=
  st ← terminate st;
  '(_, b) ← print_fill (buf st) (room (buf st)) (sizec st) 1 10 32 0;
  _ ← storeb b var;
  mret (with_buf st (b + 1)).

Definition fmt_string (st : fmt_state) : M mem fmt_state :=
  st ← terminate st;
  '(_, b) ← print_str_fill (buf st) (room (buf st)) (sizec st) var 32;
  '(_, b) ← print_str b (room b) var;
  mret (with_buf st b).

(** [l] and [h]: a doubled letter is one modifier. *)
Definition fmt_modifier (c one two : Z) (st : fmt_state) : M mem fmt_state :=
  d ← on_object frm (loadb (form st + 1));
  mret (if d =? c then with_length st (form st + 1) two
        else with_length st (form st) one).

Definition fmt_default (c : Z) (st : fmt_state) : M mem fmt_state :=
  if (48 <=? c) && (c <=? 57) then
    sz ← array_set 32 (sizec st) (idx st) c;
    mret (FmtState (form st) (buf st) (idx st + 1) (length_mod st) (upper st) sz)
  else mret st.

(** The [switch] on the current character of the conversion. *)
Definition fmt_switch (c : Z) (st : fmt_state) : M mem fmt_state :=
  if (c =? 117) || (c =? 100) || (c =? 105) then fmt_decimal c st
  else if c =? 88 then
    fmt_unsigned 16 (FmtState (form st) (buf st) (idx st) (length_mod st) true (sizec st))
  else if c =? 120 then fmt_unsigned 16 st
  else if (c =? 79) || (c =? 111) then fmt_unsigned 8 st
  else if c =? 112 then fmt_pointer st
  else if c =? 99 then fmt_char st
  else if c =? 115 then fmt_string st
  else if c =? 108 then fmt_modifier 108 8 8 st
  else if c =? 104 then fmt_modifier 104 2 1 st
  else if c =? 122 then mret (with_length st (form st) 8)
  else fmt_default c st.

Definition print_format_step : fmt_state -> M mem (fmt_state + Z) := fun st =>
  c ← on_object frm (loadb (form st));
  if negb (c =? 0) && (u64 (buf st - start) <? bufsize) then
    st ← fmt_switch c st;
    mret (inl (FmtState (form st + 1) (buf st) (idx st) (length_mod st) (upper st) (sizec st)))
  else mret (inr (buf st)).
End print_format.

(** [frm] is the caller's [formstr], from its first character on.  Every round
    advances in it. *)
Definition print_format (buf bufsize : Z) (frm : mem) (var : Z) : M mem Z :=
  c ← on_object frm (loadb 1);
  let lead := (c =? 48) || (c =? 46) in
  loop (S (size frm))
    (print_format_step buf bufsize (if lead then 48 else 32) var frm)
    (FmtState (if lead then 2 else 1) buf 0 4 false ∅).

(** The characters that end a conversion specification: d i u x X p c s % O o *)
Definition is_conv (c : Z) : bool :=
  (c =? 100) || (c =? 105) || (c =? 117) || (c =? 120) || (c =? 88)
  || (c =? 112) || (c =? 99) || (c =? 115) || (c =? 37)
  || (c =? 79) || (c =? 111).

Definition formstr_step : Z * Z * mem -> M mem (Z * Z * mem + Z * Z * mem) :=
  fun '(ptr, i, formstr) =>
    c ← loadb ptr;
    formstr ← array_set 20 formstr i c;
    let ptr := ptr + 1 in
    let i := i + 1 in
    c ← loadb ptr;
    if is_conv c then mret (inr (ptr, i, formstr)) else mret (inl (ptr, i, formstr)).

(** A conversion, from its percent sign: where the text goes on, the buffer
    position and the arguments left. *)
Definition vsnprintf_conv (bstart bufsize ptr buffer : Z) (arg : list Z)
    : M mem (Z * Z * list Z) :=
  '(ptr, i, formstr) ← mloop formstr_step (ptr, 0, ∅);
  c ← loadb ptr;
  formstr ← array_set 20 formstr i c;
  formstr ← array_set 20 formstr (i + 1) 0;
  if c =? 37 then
    _ ← storeb buffer 37; mret (ptr + 1, buffer + 1, arg)
  else
    match arg with
    | [] => throw UB
    | v :: arg =>
        buffer ← print_format buffer (u64 (bufsize - (buffer - bstart))) formstr v;
        mret (ptr + 1, buffer, arg)
    end.

Definition vsnprintf_step (bstart bufsize : Z)
    : Z * Z * list Z -> M mem (Z * Z * list Z + Z) :=
  fun '(ptr, buffer, arg) =>
    c ← loadb ptr;
    if negb (c =? 0) && (u64 (buffer - bstart) <? bufsize) then
      if c =? 37 then
        st ← vsnprintf_conv bstart bufsize ptr buffer arg; mret (inl st)
      else
        _ ← storeb buffer c; mret (inl (ptr + 1, buffer + 1, arg))
    else mret (inr buffer).

(** The variable arguments are the 64-bit register images [va_arg] reads. *)
Definition vsnprintf (buffer bufsize format : Z) (arg : list Z) : M mem Z :=
  if (buffer =? 0) || (bufsize =? 0) then mret 0 else
  let bstart := buffer in
  let bufsize := bufsize - 1 in
  buffer ← mloop (vsnprintf_step bstart bufsize) (format, buffer, arg);
  _ ← storeb buffer 0;
  mret (s32 (buffer - bstart)).
End vsnprintf.

(** ** Trying it out *)

(** A memory with the constant 0x at 5, "abc" at 50, a format and a buffer. *)
Definition fmt_mem (fmt : list Z) : mem :=
  write_bytes 5 [48; 120; 0] (write_bytes 50 [97; 98; 99; 0]
    (write_bytes 100 (fmt ++ [0]) (block 200 (replicate 24 255)))).

Definition run_fmt (fmt : list Z) (n : Z) (arg : list Z) : option (Z * list Z) :=
  match vsnprintf 5 200 n 100 arg (fmt_mem fmt) with
  | Ok r m => Some (r, omap (fun q => m !! q) (seqZ 200 24))
  | Err _ _ => None
  end.

(** ** Reference: the text of a number *)

Definition digit_char (up : bool) (d : Z) : Z :=
  let c := nth (Z.to_nat d) zeichen 0 in if up then toupper c else c.

Fixpoint to_digits (fuel : nat) (up : bool) (base v : Z) : list Z :=
  match fuel with
  | O => []
  | S f =>
      if v <? base then [digit_char up v]
      else to_digits f up base (v / base) ++ [digit_char up (v mod base)]
  end.

(** 64 digits suffice for 64 bits in any base. *)
Definition num_text (up : bool) (base v : Z) : list Z := to_digits 64 up base v.

Lemma pow_ge_2 base (f : nat) : 2 <= base -> 2 ^ f <= base ^ f.
Proof. intros. apply Z.pow_le_mono_l. lia. Qed.

Lemma num_fits base v : 2 <= base -> 0 <= v < 2 ^ 64 -> v < base ^ Z.of_nat 64.
Proof. intros Hb Hv. pose proof (pow_ge_2 base 64 Hb). simpl Z.of_nat in *. lia. Qed.

Lemma div_pow_bound base v (f : nat) :
  2 <= base -> 0 <= v < base ^ S f -> 0 <= v / base < base ^ f.
Proof.
  intros Hb Hv. rewrite Nat2Z.inj_succ, Z.pow_succ_r in Hv by lia. split.
  - apply Z.div_pos; lia.
  - apply Z.div_lt_upper_bound; lia.
Qed.

Lemma div_ge_pos base v : 2 <= base <= v -> 0 < v / base.
Proof. intros. apply Z.div_str_pos. lia. Qed.

Lemma to_digits_length_pos f up base v :
  2 <= base -> 0 <= v -> (0 < f)%nat -> (0 < length (to_digits f up base v))%nat.
Proof.
  intros. destruct f; [lia|]. simpl. destruct (v <? base); simpl; [lia|].
  rewrite length_app. simpl. lia.
Qed.

Lemma to_digits_length_le f up base v : (length (to_digits f up base v) <= f)%nat.
Proof.
  revert v. induction f as [|f IH]; intros v; simpl; [lia|].
  destruct (v <? base); simpl; [lia|]. rewrite length_app. simpl. specialize (IH (v / base)). lia.
Qed.

Lemma zeichen_range d : 0 <= d < 16 ->
  48 <= nth (Z.to_nat d) zeichen 0 <= 102.
Proof.
  intros H. assert (Hd : (Z.to_nat d < 16)%nat) by lia. revert Hd. generalize (Z.to_nat d).
  intros n Hn. do 16 (destruct n as [|n]; [simpl; lia|]). lia.
Qed.

Lemma digit_char_in_u8 up d : 0 <= d < 16 -> in_u8 (digit_char up d).
Proof.
  intros H%zeichen_range. unfold digit_char, in_u8. destruct up; [|lia].
  destruct (toupper_cases (nth (Z.to_nat d) zeichen 0)) as [[? ->]|[? ->]]; lia.
Qed.

(** A printed digit reads back as its value. *)
Lemma digit_char_value up base d :
  0 <= d < base -> base <= 16 -> base_digit base (digit_char up d) = Some d.
Proof.
  intros Hd Hb. assert (Hn : (Z.to_nat d < 16)%nat) by lia.
  assert (E : digit_of (digit_char up d) = Some d).
  { unfold digit_char. rewrite <- (Z2Nat.id d) at 3 by lia. revert Hn. generalize (Z.to_nat d).
    intros n Hn. destruct up; do 16 (destruct n as [|n]; [done|]); lia. }
  unfold base_digit. rewrite E. by if_true.
Qed.

Lemma to_digits_all f up base v :
  2 <= base <= 16 -> 0 <= v -> all_digits base (to_digits f up base v).
Proof.
  intros Hb. revert v. induction f as [|f IH]; intros v Hv; simpl; [constructor|].
  destruct (Z.ltb_spec v base).
  - constructor; [|constructor]. rewrite digit_char_value by lia. by eexists.
  - apply Forall_app. split; [apply IH, Z.div_pos; lia|].
    constructor; [|constructor]. pose proof (Z.mod_pos_bound v base).
    rewrite digit_char_value by lia. by eexists.
Qed.

Lemma to_digits_value (f : nat) up base v :
  2 <= base <= 16 -> 0 <= v < base ^ f -> digits_value base 0 (to_digits f up base v) = v.
Proof.
  intros Hb. revert v. induction f as [|f IH]; intros v Hv.
  - change (base ^ 0%nat) with 1 in Hv. simpl. lia.
  - cbn [to_digits]. destruct (Z.ltb_spec v base).
    + simpl. rewrite digit_char_value by lia. simpl. lia.
    + rewrite digits_value_app, IH by (apply div_pow_bound; lia). simpl.
      pose proof (Z.mod_pos_bound v base). rewrite digit_char_value by lia. simpl.
      pose proof (Z.div_mod v base). lia.
Qed.

Lemma to_digits_in_u8 f up base v :
  2 <= base <= 16 -> 0 <= v -> Forall in_u8 (to_digits f up base v).
Proof.
  intros Hb. revert v. induction f as [|f IH]; intros v Hv; simpl; [constructor|].
  destruct (Z.ltb_spec v base).
  - constructor; [|constructor]. apply digit_char_in_u8. lia.
  - apply Forall_app. split; [apply IH, Z.div_pos; lia|].
    constructor; [|constructor]. pose proof (Z.mod_pos_bound v base).
    apply digit_char_in_u8. lia.
Qed.

(** ** The number routines compute it *)

Lemma print_intlen_loop (f : nat) up base v i m :
  2 <= base -> 0 < v < base ^ f ->
  loop (S f) (print_intlen_step base) (v, i) m =
    Ok (i + length (to_digits f up base v)) m.
Proof.
  intros Hb. revert v i. induction f as [|f IH]; intros v i Hv.
  { change (base ^ 0%nat) with 1 in Hv. lia. }
  rewrite (loop_continue _ _ _ (v / base, i + 1) _ m).
  2:{ enter print_intlen_step. if_true. destruct (Z.eqb_spec base 16) as [->|]; [|done].
      by rewrite Z.shiftr_div_pow2 by lia. }
  cbn [to_digits]. destruct (Z.ltb_spec v base).
  - rewrite Z.div_small by lia. destruct f; [simpl; done|]. simpl. done.
  - rewrite IH.
    + rewrite length_app. simpl length. eq_lia.
    + pose proof (div_ge_pos base v). pose proof (div_pow_bound base v f). lia.
Qed.

Lemma print_intlen_ok up base v m :
  2 <= base -> 0 <= v < 2 ^ 64 ->
  print_intlen v base m = Ok (Z.of_nat (length (num_text up base v))) m.
Proof.
  intros Hb Hv. pose proof (num_fits base v Hb Hv). unfold print_intlen, num_text.
  destruct (decide (v = 0)) as [->|Hne].
  - simpl to_digits. by rewrite (proj2 (Z.ltb_lt 0 base)) by lia.
  - run_with (apply (print_intlen_loop 64 up); lia).
    pose proof (to_digits_length_pos 64 up base v Hb). by if_false.
Qed.

Lemma print_itoa_loop (f : nat) up base v buf m :
  2 <= base <= 16 -> 0 <= v < base ^ f -> (0 < f)%nat ->
  mapped m buf (length (to_digits f up base v)) ->
  loop (S f) (print_itoa_step buf base up) (v, Z.of_nat (length (to_digits f up base v))) m =
    Ok tt (write_bytes buf (to_digits f up base v) m).
Proof.
  intros Hb. revert v m. induction f as [|f IH]; intros v m Hv Hf Hm; [lia|].
  cbn [to_digits] in *. pose proof (Z.mod_pos_bound v base). destruct (Z.ltb_spec v base).
  - apply loop_break. enter print_itoa_step. simpl length.
    run_with (apply storeb_ok; eapply mapped_at; [exact Hm|simpl; lia]).
    rewrite Z.div_small, Z.mod_small by lia. simpl.
    pose proof (digit_char_in_u8 up v). rewrite u8_small by (apply digit_char_in_u8; lia).
    unfold mret, M_ret. by rewrite Z.add_0_r.
  - pose proof (div_ge_pos base v). pose proof (div_pow_bound base v f).
    rewrite length_app in *. cbn [length] in *. rewrite write_bytes_snoc.
    destruct f as [|f].
    { simpl in *. rewrite Z.pow_1_r in Hv. lia. }
    rewrite <- IH; [|lia|lia|].
    + apply loop_continue. enter print_itoa_step.
      run_with (apply storeb_ok; eapply mapped_at; [exact Hm|lia]). if_false.
      rewrite u8_small by (apply digit_char_in_u8; lia).
      unfold mret, M_ret. f_equal; [eq_lia|]. f_equal. lia.
    + apply (write_bytes_mapped _ [_]). eapply mapped_mono; [exact Hm|lia|lia].
Qed.

(** [print_itoa] prints the number when it fits and nothing otherwise. *)
Definition itoa_text (up : bool) (base v r : Z) : list Z :=
  let ds := num_text up base v in if length ds <=? r then ds else [].

Lemma print_itoa_ok up base v r buf m :
  3 <= base <= 16 -> 0 <= v < 2 ^ 64 -> mapped m buf (length (itoa_text up base v r)) ->
  exists k, print_itoa buf r v base up m =
    Ok (k, buf + length (itoa_text up base v r)) (write_bytes buf (itoa_text up base v r) m).
Proof.
  intros Hb Hv Hm. unfold print_itoa. if_false.
  run_with (apply (print_intlen_ok up); lia).
  pose proof (to_digits_length_le 64 up base v) as Hle. fold (num_text up base v) in Hle.
  rewrite u64_small by lia. unfold itoa_text in *.
  destruct (Z.leb_spec (length (num_text up base v)) r).
  - exists 1. if_false. pose proof (num_fits base v).
    by run_with (apply print_itoa_loop; [lia|lia|lia|exact Hm]).
  - exists 0. if_true. simpl. by rewrite Z.add_0_r.
Qed.

(** ** Padding and strings *)

Definition fill_text (count r c : Z) : list Z := replicate (Z.to_nat (Z.min count r)) c.

Lemma fill_loop (n i : nat) count r c bstart m f :
  Z.of_nat n = Z.max 0 (Z.min count r) -> r < 2 ^ 64 -> in_u8 c -> (i <= n)%nat ->
  mapped m (bstart + i) (n - i) -> (n - i < f)%nat ->
  loop f (fill_step bstart r count c) (bstart + i, Z.of_nat i) m =
    Ok (bstart + n) (write_bytes (bstart + i) (replicate (n - i) c) m).
Proof.
  intros Hn Hr Hc. revert i m. induction f as [|f IH]; intros i m Hi Hm Hf; [lia|].
  destruct (decide (i = n)) as [->|Hne].
  - rewrite Nat.sub_diag. apply loop_break. enter fill_step.
    replace (bstart + n - bstart) with (Z.of_nat n) by lia. unwrap. by if_false.
  - replace (n - i)%nat with (S (n - S i)) by lia. cbn [replicate write_bytes].
    replace (bstart + i + 1) with (bstart + S i) by lia. rewrite <- IH; [|lia| |lia].
    + apply loop_continue. enter fill_step.
      replace (bstart + i - bstart) with (Z.of_nat i) by lia. unwrap. if_true.
      run_with (apply storeb_ok; eapply mapped_at; [exact Hm|lia]).
      rewrite u8_small by done. unfold mret, M_ret. eq_lia.
    + apply (write_bytes_mapped _ [c]). eapply mapped_mono; [exact Hm|lia|lia].
Qed.

Lemma fill_ok count r c buf m :
  r < 2 ^ 64 -> in_u8 c -> mapped m buf (length (fill_text count r c)) ->
  mloop (fill_step buf r count c) (buf, 0) m =
    Ok (buf + length (fill_text count r c)) (write_bytes buf (fill_text count r c) m).
Proof.
  unfold fill_text. intros Hr Hc Hm. rewrite length_replicate in *. rewrite mloop_eq.
  pose proof (mapped_size m buf _ (Nat2Z.is_nonneg _) Hm).
  pose proof (fill_loop (Z.to_nat (Z.min count r)) 0 count r c buf m (S (size m))) as Hrun.
  rewrite Z.add_0_r, Nat.sub_0_r in Hrun. apply Hrun; [lia|done|done|lia| |lia].
  eapply mapped_mono; [exact Hm|lia|lia].
Qed.

(** The field width: the digits collected in [sizec]. *)
Definition width (ds : list Z) : Z := digits_value 10 0 ds.

Definition width_ok (sz : mem) (ds : list Z) : Prop :=
  cstr sz 0 ds /\ all_digits 10 ds /\ width ds < 2 ^ 31.

Lemma width_nonneg ds : all_digits 10 ds -> 0 <= width ds.
Proof. intros H. by apply (digits_value_mono 10 0 ds). Qed.

Lemma width_read {S} sz ds (s : S) :
  width_ok sz ds -> exists e, on_object sz (strtoul 0 10) s = Ok (width ds, e) s.
Proof.
  intros (Hc & Hd & Hw). pose proof (width_nonneg ds Hd).
  assert (Hrun : strtoul 0 10 sz = Ok (width ds, 0 + 0%nat + length ds) sz).
  { rewrite (strtoul_plain sz 0 10 [] ds []); [|lia| |constructor| |].
    - unfold width in *. by rewrite u64_small by lia.
    - simpl. by rewrite app_nil_r.
    - by apply (no_blank_digits 10).
    - split; [done|]. split; [done|lia]. }
  eexists. unfold on_object. by rewrite Hrun.
Qed.

Lemma print_fill_ok sz ds up base v c optlen r buf m :
  width_ok sz ds -> 2 <= base -> 0 <= v < 2 ^ 64 -> 0 <= optlen <= 2 -> r < 2 ^ 64 -> in_u8 c ->
  let t := fill_text (width ds - (length (num_text up base v) + optlen)) r c in
  mapped m buf (length t) ->
  print_fill buf r sz v base c optlen m = Ok (0, buf + length t) (write_bytes buf t m).
Proof.
  intros Hw Hb Hv Ho Hr Hc t Hm. pose proof Hw as (_ & Hd & Hlt). apply width_nonneg in Hd.
  destruct (width_read sz ds m Hw) as [e He]. unfold print_fill.
  run_with (exact He). run_with (apply (print_intlen_ok up); lia).
  pose proof (to_digits_length_le 64 up base v) as Hle. fold (num_text up base v) in Hle.
  unwrap. destruct (Z.ltb_spec (length (num_text up base v) + optlen) (width ds)).
  - by run_with (by apply fill_ok).
  - subst t. unfold fill_text. rewrite Z2Nat.nonpos by lia. simpl. by rewrite Z.add_0_r.
Qed.

Lemma print_str_loop l (n i : nat) r str bstart m f :
  mem_ok m -> cstr m str l -> Z.of_nat n = Z.max 0 (Z.min (length l) r) -> r < 2 ^ 64 ->
  (str + length l < bstart \/ bstart + n <= str) -> (i <= n)%nat ->
  mapped m (bstart + i) (n - i) -> (n - i < f)%nat ->
  loop f (print_str_step bstart r str) (bstart + i, Z.of_nat i) m =
    Ok (bstart + n) (write_bytes (bstart + i) (take (n - i) (drop i l)) m).
Proof.
  intros Hok H Hn Hr Hap. revert i m Hok H.
  induction f as [|f IH]; intros i m Hok H Hi Hm Hf; [lia|].
  destruct (decide (i = n)) as [->|Hne].
  - rewrite Nat.sub_diag. apply loop_break. enter print_str_step.
    run_with (by apply strlen_ok).
    replace (bstart + n - bstart) with (Z.of_nat n) by lia. unwrap. by if_false.
  - destruct (lookup_lt_is_Some_2 l i) as [c Hc]; [lia|].
    pose proof (cstr_in_u8 _ _ _ Hok H) as Hu.
    assert (Huc : in_u8 c) by (by eapply Forall_lookup_1 in Hu).
    replace (n - i)%nat with (S (n - S i)) by lia. erewrite drop_S by exact Hc.
    cbn [take write_bytes]. replace (bstart + i + 1) with (bstart + S i) by lia.
    rewrite <- IH; [| | |lia| |lia].
    + apply loop_continue. enter print_str_step. run_with (by apply strlen_ok).
      replace (bstart + i - bstart) with (Z.of_nat i) by lia. unwrap. if_true.
      destruct H as [Hb _]. apply bytes_at_app in Hb as [Hb _].
      run_with (apply loadb_ok, Hb, Hc).
      run_with (apply storeb_ok; eapply mapped_at; [exact Hm|lia]).
      rewrite u8_small by done. unfold mret, M_ret. eq_lia.
    + apply mem_ok_insert; [done|eapply mapped_at; [exact Hm|lia]|done].
    + apply cstr_insert; [lia|done].
    + apply (write_bytes_mapped _ [c]). eapply mapped_mono; [exact Hm|lia|lia].
Qed.

(** What of a string fits in [r] characters. *)
Definition str_text (l : list Z) (r : Z) : list Z := take (Z.to_nat r) l.

Lemma print_str_ok l r str buf m :
  mem_ok m -> cstr m str l -> r < 2 ^ 64 ->
  (str + length l < buf \/ buf + length (str_text l r) <= str) ->
  mapped m buf (length (str_text l r)) ->
  print_str buf r str m = Ok (1, buf + length (str_text l r)) (write_bytes buf (str_text l r) m).
Proof.
  unfold str_text. intros Hok H Hr Hap Hm. unfold print_str.
  set (n := length (take (Z.to_nat r) l)) in *.
  assert (Hn : Z.of_nat n = Z.max 0 (Z.min (length l) r)) by (subst n; rewrite length_take; lia).
  pose proof (mapped_size m buf _ (Nat2Z.is_nonneg _) Hm).
  pose proof (print_str_loop l n 0 r str buf m (S (size m))) as Hrun.
  rewrite Z.add_0_r, Nat.sub_0_r, drop_0 in Hrun.
  run_with (rewrite mloop_eq; apply Hrun; [done|done|done|done|lia|lia| |lia];
            eapply mapped_mono; [exact Hm|lia|lia]).
  unfold mret, M_ret. do 2 f_equal. subst n. rewrite length_take.
  destruct (decide (Z.to_nat r <= length l)%nat); [by rewrite Nat.min_l|].
  by rewrite Nat.min_r, !take_ge by lia.
Qed.

Lemma print_str_fill_ok sz ds l c r str buf m :
  mem_ok m -> width_ok sz ds -> cstr m str l -> r < 2 ^ 64 -> in_u8 c ->
  let t := fill_text (width ds - length l) r c in
  mapped m buf (length t) ->
  print_str_fill buf r sz str c m = Ok (1, buf + length t) (write_bytes buf t m).
Proof.
  intros Hok Hw H Hr Hc t Hm. destruct (width_read sz ds m Hw) as [e He].
  unfold print_str_fill. run_with (exact He). run_with (by apply strlen_ok).
  destruct (Z.ltb_spec (length l) (width ds)).
  - by run_with (by apply fill_ok).
  - subst t. unfold fill_text. rewrite Z2Nat.nonpos by lia. simpl. by rewrite Z.add_0_r.
Qed.
