(* ===== verification/VsnprintfSpec.v ===== *)
(** * What vsnprintf prints: a reference and the refinement proof

    The reference renders a format as a list of characters, given the room
    there is; it knows nothing of memory, pointers or positions.  The main
    theorem is that [vsnprintf] writes exactly that list and a terminator. *)

From S2P Require Import Prelude CMem Ctype LibcMem LibcStr Strto Vsnprintf.

(** ** The reference *)

(** Padding and digits of a number in [r] characters of room. *)
Definition number_text (r w pad : Z) (up : bool) (base v : Z) : list Z :=
  let t := fill_text (w - length (num_text up base v)) r pad in
  t ++ itoa_text up base v (r - length t).

Definition pointer_text (r w v : Z) : list Z :=
  let t := fill_text (w - (length (num_text false 16 v) + 2)) r 32 in
  let x := str_text [48; 120] (r - length t) in
  t ++ x ++ itoa_text false 16 v (r - length t - length x).

Definition string_text (r w : Z) (l : list Z) : list Z :=
  let t := fill_text (w - length l) r 32 in
  t ++ str_text l (r - length t).

(** The text of conversion [d] for the argument [v], which is [str] as a
    string; [len] is the size the length modifier selects. *)
Definition conv_text (r w pad len d v : Z) (str : list Z) : list Z :=
  if d =? 117 then number_text r w pad false 10 v
  else if (d =? 100) || (d =? 105) then
    if Z.testbit v (8 * len - 1)
    then 45 :: number_text (r - 1) w pad false 10 ((- v) mod 2 ^ (8 * len))
    else number_text r w pad false 10 v
  else if d =? 88 then number_text r w pad true 16 (v mod 2 ^ (8 * len))
  else if d =? 120 then number_text r w pad false 16 (v mod 2 ^ (8 * len))
  else if (d =? 79) || (d =? 111) then number_text r w pad false 8 (v mod 2 ^ (8 * len))
  else if d =? 112 then pointer_text r w v
  else if d =? 99 then fill_text (w - 1) r 32 ++ [u8 v]
  else if d =? 115 then string_text r w str
  else [].

(** A specification: a leading 0 or . selects zero padding, the digits are
    the width, l h z are sizes and anything else is ignored. *)
Definition spec_lead (sp : list Z) : bool := (head0 sp =? 48) || (head0 sp =? 46).
Definition spec_pad (sp : list Z) : Z := if spec_lead sp then 48 else 32.
Definition spec_body (sp : list Z) : list Z := if spec_lead sp then tail sp else sp.

Definition is_dec (c : Z) : bool := (48 <=? c) && (c <=? 57).
Definition spec_digits (body : list Z) : list Z := List.filter is_dec body.

Fixpoint spec_len (len : Z) (body : list Z) : Z :=
  match body with
  | [] => len
  | c :: b =>
      if c =? 108 then
        match b with
        | c' :: b' => if c' =? 108 then spec_len 8 b' else spec_len 8 b
        | [] => 8
        end
      else if c =? 104 then
        match b with
        | c' :: b' => if c' =? 104 then spec_len 1 b' else spec_len 2 b
        | [] => 2
        end
      else if c =? 122 then spec_len 8 b
      else spec_len len b
  end.

Definition spec_text (r : Z) (sp : list Z) (d v : Z) (str : list Z) : list Z :=
  let body := spec_body sp in
  conv_text r (width (spec_digits body)) (spec_pad sp) (spec_len 4 body) d v str.

(** The text after a percent sign, cut at the character that ends the
    specification. *)
Fixpoint cut_spec (l : list Z) : option (list Z * Z * list Z) :=
  match l with
  | [] => None
  | c :: l' =>
      if is_conv c then Some ([], c, l')
      else match cut_spec l' with
           | Some (sp, d, rest) => Some (c :: sp, d, rest)
           | None => None
           end
  end.

(** A specification the 20 characters of [formstr] can hold, with a width
    that is an [int]. *)
Definition spec_fits (sp : list Z) : bool :=
  (length sp <=? 17) && (width (spec_digits (spec_body sp)) <? 2 ^ 31).

Section reference.
Context (str_of : Z -> list Z).

(** The output for format [fl] in [r] characters of room, [None] where the C
    program has no defined behaviour: a specification that is not ended or
    too long, or a missing argument. *)
Fixpoint render (n : nat) (r : Z) (fl : list Z) (arg : list Z) : option (list Z) :=
  match n, fl with
  | _, [] => Some []
  | O, _ => None
  | S n', c :: fl' =>
      if r <=? 0 then Some []
      else if c =? 37 then
        match cut_spec fl' with
        | None => None
        | Some (sp, d, rest) =>
            if negb (spec_fits sp) then None
            else if d =? 37 then cons 37 <$> render n' (r - 1) rest arg
            else match arg with
                 | [] => None
                 | v :: arg' =>
                     let t := spec_text r sp d v (str_of v) in
                     app t <$> render n' (r - length t) rest arg'
                 end
        end
      else cons c <$> render n' (r - 1) fl' arg
  end.

(** The pointers a format reads strings through. *)
Fixpoint string_args (n : nat) (fl : list Z) (arg : list Z) : list Z :=
  match n, fl with
  | S n', c :: fl' =>
      if c =? 37 then
        match cut_spec fl' with
        | None => []
        | Some (sp, d, rest) =>
            if d =? 37 then string_args n' rest arg
            else match arg with
                 | [] => []
                 | v :: arg' =>
                     if d =? 115 then v :: string_args n' rest arg'
                     else string_args n' rest arg'
                 end
        end
      else string_args n' fl' arg
  | _, _ => []
  end.
End reference.

(** ** Regions that are written *)

(** The bytes from [b] to [e] are writable. *)
Record region (m : mem) (b e : Z) : Prop := {
  region_ok : mem_ok m;
  region_mapped : mapped m b (e - b)
}.

(** A string is not in the region. *)
Definition apart (p : Z) (l : list Z) (b e : Z) : Prop := p + length l < b \/ e <= p.

Lemma region_write m b e l :
  region m b e -> b + length l <= e -> Forall in_u8 l ->
  region (write_bytes b l m) (b + length l) e.
Proof.
  intros [Hok Hm] Hl Hu. split.
  - apply mem_ok_write; [done|eapply mapped_mono; [exact Hm|lia|lia]|done].
  - apply write_bytes_mapped. eapply mapped_mono; [exact Hm|lia|lia].
Qed.

Lemma region_sub m b e n : region m b e -> b + n <= e -> mapped m b n.
Proof. intros [_ H] Hn. eapply mapped_mono; [exact H|lia|lia]. Qed.

Lemma apart_write m p l b e t :
  apart p l b e -> b + length t <= e -> cstr m p l -> cstr (write_bytes b t m) p l.
Proof. intros Ha Ht H. apply cstr_write_other; [|done]. unfold apart in Ha. lia. Qed.

Lemma apart_advance p l b e k : 0 <= k -> apart p l b e -> apart p l (b + k) e.
Proof. unfold apart. lia. Qed.

#[export] Hint Resolve region_sub : cint.

(** ** Bounds of the pieces *)

Lemma fill_text_length w r c : 0 <= r -> length (fill_text w r c) <= r.
Proof. unfold fill_text. rewrite length_replicate. lia. Qed.

Lemma fill_text_in_u8 w r c : in_u8 c -> Forall in_u8 (fill_text w r c).
Proof. intros. by apply Forall_replicate. Qed.

Lemma itoa_text_length up base v r : 0 <= r -> length (itoa_text up base v r) <= r.
Proof. intros. unfold itoa_text. destruct (Z.leb_spec (length (num_text up base v)) r); simpl; lia. Qed.

Lemma itoa_text_in_u8 up base v r :
  2 <= base <= 16 -> 0 <= v -> Forall in_u8 (itoa_text up base v r).
Proof.
  intros. unfold itoa_text. destruct (_ <=? _); [by apply to_digits_in_u8|constructor].
Qed.

Lemma str_text_length l r : 0 <= r -> length (str_text l r) <= r.
Proof. intros. unfold str_text. rewrite length_take. lia. Qed.

Lemma str_text_in_u8 l r : Forall in_u8 l -> Forall in_u8 (str_text l r).
Proof. intros. by apply Forall_take. Qed.

Lemma number_text_length r w pad up base v :
  0 <= r -> length (number_text r w pad up base v) <= r.
Proof.
  intros Hr. unfold number_text. rewrite length_app.
  pose proof (fill_text_length (w - length (num_text up base v)) r pad Hr).
  pose proof (itoa_text_length up base v
    (r - length (fill_text (w - length (num_text up base v)) r pad))). lia.
Qed.

Lemma pointer_text_length r w v : 0 <= r -> length (pointer_text r w v) <= r.
Proof.
  intros Hr. unfold pointer_text. rewrite !length_app.
  set (t := fill_text _ r 32). assert (length t <= r) by by apply fill_text_length.
  pose proof (str_text_length [48; 120] (r - length t)).
  pose proof (itoa_text_length false 16 v (r - length t - length (str_text [48; 120] (r - length t)))).
  lia.
Qed.

Lemma string_text_length r w l : 0 <= r -> length (string_text r w l) <= r.
Proof.
  intros Hr. unfold string_text. rewrite length_app.
  set (t := fill_text _ r 32). assert (length t <= r) by by apply fill_text_length.
  pose proof (str_text_length l (r - length t)). lia.
Qed.

(** Every conversion but [%c] keeps to the room it is given. *)
Lemma conv_text_length r w pad len d v str :
  1 <= r -> d <> 99 -> length (conv_text r w pad len d v str) <= r.
Proof.
  intros Hr Hd. unfold conv_text. repeat case_match; simpl length;
    try (apply number_text_length; lia); try (apply pointer_text_length; lia);
    try (apply string_text_length; lia); try lia.
  pose proof (number_text_length (r - 1) w pad false 10 ((- v) mod 2 ^ (8 * len))). lia.
Qed.

(** A [%c] may need one character more than there is. *)
Lemma conv_text_length_c r w pad len v str :
  1 <= r -> length (conv_text r w pad len 99 v str) <= r + 1.
Proof.
  intros Hr. change (conv_text r w pad len 99 v str) with (fill_text (w - 1) r 32 ++ [u8 v]).
  rewrite length_app. pose proof (fill_text_length (w - 1) r 32). simpl. lia.
Qed.

Lemma number_text_in_u8 r w pad up base v :
  in_u8 pad -> 2 <= base <= 16 -> 0 <= v -> Forall in_u8 (number_text r w pad up base v).
Proof. intros. apply Forall_app. split; [by apply fill_text_in_u8|by apply itoa_text_in_u8]. Qed.

Lemma conv_text_in_u8 r w pad len d v str :
  in_u8 pad -> 0 <= v -> 0 <= len -> (d = 115 -> Forall in_u8 str) ->
  Forall in_u8 (conv_text r w pad len d v str).
Proof.
  intros Hp Hv Hl Hs. assert (H2 : 0 < 2 ^ (8 * len)) by (apply Z.pow_pos_nonneg; lia).
  pose proof (Z.mod_pos_bound v _ H2). pose proof (Z.mod_pos_bound (- v) _ H2).
  assert (in_u8 32 /\ in_u8 45 /\ in_u8 48 /\ in_u8 120) as (? & ? & ? & ?) by (unfold in_u8; lia).
  unfold conv_text. repeat case_match; try (apply number_text_in_u8; done || lia).
  - constructor; [done|]. apply number_text_in_u8; done || lia.
  - unfold pointer_text. rewrite !Forall_app.
    split_and!; [by apply fill_text_in_u8|by apply str_text_in_u8; repeat constructor|].
    apply itoa_text_in_u8; lia.
  - apply Forall_app. split; [by apply fill_text_in_u8|]. repeat constructor; apply u8_range.
  - apply Forall_app. split; [by apply fill_text_in_u8|]. apply str_text_in_u8, Hs. lia.
  - constructor.
Qed.

(** ** Sizes *)

Definition size_mod (len : Z) : Prop := len = 1 \/ len = 2 \/ len = 4 \/ len = 8.

Lemma spec_len_size len body : size_mod len -> size_mod (spec_len len body).
Proof.
  revert len. induction body as [body IH] using (induction_ltof1 _ (@length Z)).
  unfold ltof in IH. intros len Hl. destruct body as [|c b]; [done|]. cbn [spec_len].
  assert (Hs : size_mod 8 /\ size_mod 1 /\ size_mod 2) by (unfold size_mod; auto 10).
  destruct Hs as (H8 & H1 & H2). repeat case_match; subst; eauto; apply IH; simpl; eauto; lia.
Qed.

Lemma size_mod_4 : size_mod 4.
Proof. unfold size_mod. lia. Qed.

Lemma size_mod_pos len : size_mod len -> 0 <= len.
Proof. unfold size_mod. lia. Qed.

Lemma mask_mod v len : size_mod len -> Z.land v (convert len) = v mod 2 ^ (8 * len).
Proof.
  intros H. rewrite <- Z.land_ones by (destruct_or! H; subst; lia).
  f_equal. destruct_or! H; by subst.
Qed.

Lemma mask_neg v len :
  size_mod len -> Z.land (u64 (- v)) (convert len) = (- v) mod 2 ^ (8 * len).
Proof.
  intros H. rewrite mask_mod by done. unfold u64. apply Z.mod_mod_divide.
  exists (2 ^ (64 - 8 * len)). destruct_or! H; by subst.
Qed.

Lemma sign_bit v k : 0 <= k -> negb (Z.land (Z.shiftl 1 k) v =? 0) = Z.testbit v k.
Proof.
  intros Hk. rewrite Z.shiftl_1_l, Z.land_comm, land_pow2 by done. apply negb_involutive.
Qed.

(** A masked value is a 64-bit number. *)
Lemma mask_range v len : size_mod len -> 0 <= v mod 2 ^ (8 * len) < 2 ^ 64.
Proof.
  intros H. assert (0 < 2 ^ (8 * len) <= 2 ^ 64).
  { split; [apply Z.pow_pos_nonneg|apply Z.pow_le_mono_r]; destruct_or! H; subst; lia. }
  pose proof (Z.mod_pos_bound v (2 ^ (8 * len))). lia.
Qed.

(** ** The conversions *)

Section conversions.
Context (lit_0x start bufsize pad var e : Z) (frm : mem).

(** [r] characters of room are left at [b]. *)
Definition has_room (b r : Z) : Prop :=
  start <= b /\ bufsize - (b - start) = r /\ 0 <= r < 2 ^ 64 /\ bufsize < 2 ^ 64.

Lemma has_room_room b r : has_room b r -> room start bufsize b = r.
Proof. intros (? & <- & ?). unfold room. by unwrap. Qed.

Lemma has_room_advance b r k : has_room b r -> 0 <= k <= r -> has_room (b + k) (r - k).
Proof. unfold has_room. lia. Qed.

Hypothesis pad_byte : in_u8 pad.

Lemma put_number_ok sz ds up base v b r m :
  width_ok sz ds -> 3 <= base <= 16 -> 0 <= v < 2 ^ 64 -> has_room b r -> region m b e ->
  let t := number_text r (width ds) pad up base v in
  b + length t <= e ->
  put_number start bufsize pad sz v base up b m = Ok (b + length t) (write_bytes b t m).
Proof.
  intros Hw Hb Hv Hr Hg t He. pose proof (has_room_room _ _ Hr) as Hroom.
  unfold put_number. rewrite Hroom. subst t. unfold number_text in *.
  set (t1 := fill_text _ r pad) in *. pose proof Hr as (_ & _ & Hr0).
  assert (Hl1 : length t1 <= r) by (apply fill_text_length; lia).
  rewrite length_app in He.
  assert (Hm1 : mapped m b (length t1)) by (eapply region_sub; [exact Hg|lia]).
  run_with (apply (print_fill_ok sz ds up); [done|lia|done|lia|lia|done|]; rewrite Z.add_0_r; exact Hm1).
  rewrite Z.add_0_r. fold t1.
  rewrite (has_room_room _ (r - length t1)) by (apply has_room_advance; [done|lia]).
  destruct (print_itoa_ok up base v (r - length t1) (b + length t1) (write_bytes b t1 m))
    as [k Hk]; [lia|done| |].
  - eapply (region_sub _ _ e); [|lia].
    apply region_write; [done|lia|by apply fill_text_in_u8].
  - run_with (exact Hk). unfold mret, M_ret. rewrite write_bytes_app, length_app. eq_lia.
Qed.

(** The state while a specification is read: [ds] are the digits so far. *)
Record parsed (st : fmt_state) (ds : list Z) (b len : Z) (up : bool) : Prop := {
  parsed_digits : bytes_at (sizec st) 0 ds;
  parsed_all : all_digits 10 ds;
  parsed_idx : idx st = length ds;
  parsed_short : length ds < 31;
  parsed_buf : buf st = b;
  parsed_len : length_mod st = len;
  parsed_up : upper st = up
}.

Lemma all_digits_nonzero base ds : all_digits base ds -> Forall (fun c => c <> 0) ds.
Proof. apply Forall_impl. intros c [d Hd]. by eapply base_digit_range. Qed.

Lemma terminate_ok st ds b len up (m : mem) :
  parsed st ds b len up -> width ds < 2 ^ 31 ->
  exists sz, terminate st m = Ok (FmtState (form st) b (idx st) len up sz) m /\ width_ok sz ds.
Proof.
  intros [Hd Ha Hi Hs Hb Hl Hu] Hw. eexists. split.
  - unfold terminate, array_set. if_true. erewrite bind_ok by reflexivity.
    by rewrite Hb, Hl, Hu.
  - split; [split|by split].
    + apply bytes_at_app. rewrite Hi. split.
      * intros i c Hc. pose proof (lookup_lt_Some _ _ _ Hc).
        rewrite lookup_insert_ne by lia. by apply Hd.
      * apply bytes_at_cons. split; [|apply bytes_at_nil]. by rewrite lookup_insert_eq.
    + by eapply all_digits_nonzero.
Qed.

(** The outcome of a conversion that prints [t]. *)
Definition printed (st : fmt_state) (b : Z) (t : list Z) (m : mem)
    (o : outcome mem fmt_state) : Prop :=
  exists st', o = Ok st' (write_bytes b t m) /\ form st' = form st /\ buf st' = b + length t.

Lemma fmt_unsigned_ok st ds b len up base r m :
  parsed st ds b len up -> width ds < 2 ^ 31 -> size_mod len -> 3 <= base <= 16 ->
  has_room b r -> region m b e ->
  let t := number_text r (width ds) pad up base (var mod 2 ^ (8 * len)) in
  b + length t <= e ->
  printed st b t m (fmt_unsigned start bufsize pad var base st m).
Proof.
  intros Hp Hw Hl Hb Hr Hg t He. destruct (terminate_ok st ds b len up m Hp Hw) as (sz & Ht & Hz).
  eexists. split; [|split].
  - unfold fmt_unsigned. run_with (exact Ht). cbn [sizec length_mod upper buf].
    rewrite mask_mod by done.
    run_with (apply (put_number_ok sz ds); [done|lia|by apply mask_range|done|done|done]).
    reflexivity.
  - done.
  - done.
Qed.

Lemma fmt_decimal_ok c st ds b len r m :
  parsed st ds b len false -> width ds < 2 ^ 31 -> size_mod len -> 0 <= var < 2 ^ 64 ->
  c = 117 \/ c = 100 \/ c = 105 -> has_room b r -> 1 <= r -> region m b e ->
  let t := conv_text r (width ds) pad len c var [] in
  b + length t <= e ->
  printed st b t m (fmt_decimal start bufsize pad var c st m).
Proof.
  intros Hp Hw Hl Hv Hc Hr Hr1 Hg t He.
  destruct (terminate_ok st ds b len false m Hp Hw) as (sz & Ht & Hz).
  assert (Hbit : 0 <= len * 8 - 1) by (destruct_or! Hl; subst; lia).
  assert (E : t = if negb (c =? 117) && Z.testbit var (len * 8 - 1)
    then 45 :: number_text (r - 1) (width ds) pad false 10 ((- var) mod 2 ^ (8 * len))
    else number_text r (width ds) pad false 10 var).
  { subst t. rewrite (Z.mul_comm len 8). destruct_or! Hc; by subst c. }
  unfold printed, fmt_decimal. rewrite (bind_ok _ _ _ _ _ Ht). cbn [sizec length_mod upper buf].
  rewrite sign_bit by done. rewrite E in He |- *.
  destruct (negb (c =? 117) && Z.testbit var (len * 8 - 1)).
  - cbn [length] in He. rewrite mask_neg by done.
    run_with (apply storeb_ok; eapply mapped_at; [apply Hg|lia]).
    assert (Hg' : region (<[b := u8 45]> m) (b + 1) e).
    { apply (region_write m b e [u8 45]); [done|simpl; lia|].
      constructor; [apply u8_range|constructor]. }
    run_with (apply (put_number_ok sz ds false 10 _ (b + 1) (r - 1));
              [done|lia|by apply mask_range|apply has_room_advance; [done|lia]|done|lia]).
    eexists. split; [reflexivity|]. split; [done|]. cbn [buf with_buf length]. lia.
  - run_with (apply (put_number_ok sz ds); [done|lia|done|done|done|done]).
    eexists. split; [reflexivity|]. by split.
Qed.

Lemma byte_32 : in_u8 32.
Proof. unfold in_u8. lia. Qed.

Lemma fmt_pointer_ok st ds b len r m :
  parsed st ds b len false -> width ds < 2 ^ 31 -> 0 <= var < 2 ^ 64 ->
  has_room b r -> region m b e ->
  cstr m lit_0x [48; 120] -> apart lit_0x [48; 120] b e ->
  let t := pointer_text r (width ds) var in
  b + length t <= e ->
  printed st b t m (fmt_pointer lit_0x start bufsize var st m).
Proof.
  intros Hp Hw Hv Hr Hg Hx Hax t He.
  destruct (terminate_ok st ds b len false m Hp Hw) as (sz & Ht & Hz).
  unfold printed, fmt_pointer. rewrite (bind_ok _ _ _ _ _ Ht). cbn [sizec length_mod upper buf].
  rewrite (has_room_room _ _ Hr). subst t. unfold pointer_text in *.
  set (t1 := fill_text _ r 32) in *. pose proof Hr as (_ & _ & Hr0).
  assert (Hl1 : length t1 <= r) by (apply fill_text_length; lia).
  pose proof (has_room_advance b r (length t1) Hr ltac:(lia)) as Hr1.
  set (t2 := str_text [48; 120] (r - length t1)) in *.
  assert (Hl2 : length t2 <= r - length t1) by (apply str_text_length; lia).
  pose proof (has_room_advance _ _ (length t2) Hr1 ltac:(lia)) as Hr2.
  rewrite !length_app in He.
  assert (Hg1 : region (write_bytes b t1 m) (b + length t1) e)
    by (apply region_write; [done|lia|apply fill_text_in_u8, byte_32]).
  run_with (apply (print_fill_ok sz ds false); [done|lia|done|lia|lia|apply byte_32|];
            eapply region_sub; [exact Hg|fold t1; lia]).
  fold t1. rewrite (has_room_room _ _ Hr1).
  run_with (apply (print_str_ok [48; 120]);
    [apply Hg1|eapply apart_write; [exact Hax|lia|done]|lia| |eapply region_sub; [exact Hg1|fold t2; lia]];
    unfold apart in Hax; fold t2; lia).
  fold t2. rewrite (has_room_room _ _ Hr2).
  destruct (print_itoa_ok false 16 var (r - length t1 - length t2) (b + length t1 + length t2)
    (write_bytes (b + length t1) t2 (write_bytes b t1 m))) as [k Hk]; [lia|done| |].
  - eapply (region_sub _ _ e); [|lia]. apply region_write; [done|lia|].
    apply str_text_in_u8. repeat constructor; unfold in_u8; lia.
  - run_with (exact Hk). rewrite <- !write_bytes_app, !length_app.
    eexists. split; [reflexivity|]. split; [done|]. cbn [buf with_buf]. lia.
Qed.

Lemma fmt_char_ok st ds b len r m :
  parsed st ds b len false -> width ds < 2 ^ 31 -> has_room b r -> region m b e ->
  let t := fill_text (width ds - 1) r 32 ++ [u8 var] in
  b + length t <= e ->
  printed st b t m (fmt_char start bufsize var st m).
Proof.
  intros Hp Hw Hr Hg t He.
  destruct (terminate_ok st ds b len false m Hp Hw) as (sz & Ht & Hz).
  unfold printed, fmt_char. rewrite (bind_ok _ _ _ _ _ Ht). cbn [sizec length_mod upper buf].
  rewrite (has_room_room _ _ Hr). subst t. set (t1 := fill_text _ r 32) in *.
  pose proof Hr as (_ & _ & Hr0). rewrite length_app in He. cbn [length] in He.
  run_with (apply (print_fill_ok sz ds false 10 1); [done|lia|lia|lia|lia|apply byte_32|];
            eapply region_sub; [exact Hg|change (length (num_text false 10 1) + 0) with 1; fold t1; lia]).
  change (length (num_text false 10 1) + 0) with 1. fold t1.
  run_with (apply storeb_ok; eapply mapped_at;
            [apply write_bytes_mapped, (region_mapped _ _ _ Hg)|lia]).
  rewrite write_bytes_app. eexists. split; [reflexivity|]. split; [done|].
  rewrite length_app. cbn [buf with_buf length]. lia.
Qed.

Lemma fmt_string_ok st ds b len r m l :
  parsed st ds b len false -> width ds < 2 ^ 31 -> has_room b r -> region m b e ->
  cstr m var l -> apart var l b e ->
  let t := string_text r (width ds) l in
  b + length t <= e ->
  printed st b t m (fmt_string start bufsize var st m).
Proof.
  intros Hp Hw Hr Hg Hs Ha t He.
  destruct (terminate_ok st ds b len false m Hp Hw) as (sz & Ht & Hz).
  unfold printed, fmt_string. rewrite (bind_ok _ _ _ _ _ Ht). cbn [sizec length_mod upper buf].
  rewrite (has_room_room _ _ Hr). subst t. unfold string_text in *.
  set (t1 := fill_text _ r 32) in *. pose proof Hr as (_ & _ & Hr0).
  assert (Hl1 : length t1 <= r) by (apply fill_text_length; lia).
  pose proof (has_room_advance b r (length t1) Hr ltac:(lia)) as Hr1.
  rewrite length_app in He. set (t2 := str_text l (r - length t1)) in *.
  assert (Hg1 : region (write_bytes b t1 m) (b + length t1) e)
    by (apply region_write; [done|lia|apply fill_text_in_u8, byte_32]).
  run_with (apply (print_str_fill_ok sz ds l); [apply Hg|done|done|lia|apply byte_32|];
            eapply region_sub; [exact Hg|fold t1; lia]).
  fold t1. rewrite (has_room_room _ _ Hr1).
  run_with (apply (print_str_ok l);
    [apply Hg1|eapply apart_write; [exact Ha|lia|done]|lia| |eapply region_sub; [exact Hg1|fold t2; lia]];
    unfold apart in Ha; fold t2; lia).
  fold t2. rewrite <- write_bytes_app.
  eexists. split; [reflexivity|]. split; [done|]. cbn [buf with_buf]. rewrite length_app. lia.
Qed.

Lemma is_conv_cases d : is_conv d = true -> d <> 37 ->
  (d = 117 \/ d = 100 \/ d = 105) \/ d = 88 \/ d = 120 \/ (d = 79 \/ d = 111) \/
  d = 112 \/ d = 99 \/ d = 115.
Proof. unfold is_conv. lia. Qed.

Lemma fmt_switch_ok d st ds b len r m l :
  parsed st ds b len false -> width ds < 2 ^ 31 -> size_mod len -> 0 <= var < 2 ^ 64 ->
  is_conv d = true -> d <> 37 -> has_room b r -> 1 <= r -> region m b e ->
  cstr m lit_0x [48; 120] /\ apart lit_0x [48; 120] b e ->
  (d = 115 -> cstr m var l /\ apart var l b e) ->
  let t := conv_text r (width ds) pad len d var l in
  b + length t <= e ->
  printed st b t m (fmt_switch lit_0x start bufsize pad var frm d st m).
Proof.
  intros Hp Hw Hl Hv Hc H37 Hr Hr1 Hg [Hx Hax] Hs t He.
  destruct (is_conv_cases d Hc H37) as [Hd|[->|[->|[Hd|[->|[->| ->]]]]]]; subst t.
  - replace (fmt_switch _ _ _ _ _ _ d) with (fmt_decimal start bufsize pad var d)
      by (destruct_or! Hd; by subst d).
    replace (conv_text r (width ds) pad len d var l) with (conv_text r (width ds) pad len d var [])
      in * by (destruct_or! Hd; by subst d).
    by apply fmt_decimal_ok.
  - assert (Hu : parsed (FmtState (form st) (buf st) (idx st) (length_mod st) true (sizec st))
      ds b len true) by (destruct Hp; by split).
    apply (fmt_unsigned_ok _ ds b len true 16 r m Hu); try done; lia.
  - apply (fmt_unsigned_ok st ds b len false 16); try done; lia.
  - replace (conv_text r (width ds) pad len d var l)
      with (number_text r (width ds) pad false 8 (var mod 2 ^ (8 * len))) in *
      by (destruct_or! Hd; by subst d).
    replace (fmt_switch _ _ _ _ _ _ d) with (fmt_unsigned start bufsize pad var 8)
      by (destruct_or! Hd; by subst d).
    apply (fmt_unsigned_ok st ds b len false 8); try done; lia.
  - by apply (fmt_pointer_ok st ds b len).
  - by apply (fmt_char_ok st ds b len).
  - destruct (Hs eq_refl). by apply (fmt_string_ok st ds b len).
Qed.

(** ** Reading the specification *)

(** A character of the specification, before the one that ends it. *)
Lemma step_enter st c rest b r m :
  cstr frm (form st) (c :: rest) -> buf st = b -> has_room b r -> 1 <= r ->
  print_format_step lit_0x start bufsize pad var frm st m =
    (st ← fmt_switch lit_0x start bufsize pad var frm c st;
     mret (inl (FmtState (form st + 1) (buf st) (idx st) (length_mod st) (upper st) (sizec st)))) m.
Proof.
  intros Hf Hb (Hs & Hr & Hr0) Hr1. apply cstr_cons in Hf as (Hc & Hn & _).
  unfold print_format_step. run_with (unfold on_object; by rewrite loadb_ok with (b := c)).
  rewrite Hb. unwrap. by if_true.
Qed.

(** The state after the loop's increment of [form]. *)
Definition next_form (st : fmt_state) : fmt_state :=
  FmtState (form st + 1) (buf st) (idx st) (length_mod st) (upper st) (sizec st).

Lemma parsed_next st ds b len up : parsed st ds b len up -> parsed (next_form st) ds b len up.
Proof. intros []. by split. Qed.

(** The size a letter [c] with its doubling selects for the rest. *)
Definition letter_len (c one two : Z) (body : list Z) : Z :=
  match body with
  | c' :: b' => if c' =? c then spec_len two b' else spec_len one body
  | [] => one
  end.

Lemma parsed_with_length st ds b len up f n :
  parsed st ds b len up -> parsed (with_length st f n) ds b n up.
Proof. intros []. by split. Qed.

(** What reading one character [c], not the last, does: the digits [x] it
    adds, the size [n] it leaves and the text [body'] that is left. *)
Definition reads (st st' : fmt_state) (ds : list Z) (b len : Z) (c : Z) (body : list Z) : Prop :=
  exists n x pre body', body = pre ++ body' /\ form st' = form st + length pre /\
    (length x <= 1)%nat /\ parsed st' (ds ++ x) b n false /\
    spec_digits (c :: body) = x ++ spec_digits body' /\ spec_len len (c :: body) = spec_len n body'.

Lemma fmt_modifier_ok c one two st body d ds b len m :
  is_dec c = false -> c <> d -> cstr frm (form st + 1) (body ++ [d]) ->
  parsed st ds b len false -> spec_len len (c :: body) = letter_len c one two body ->
  exists st', fmt_modifier frm c one two st m = Ok st' m /\ reads st st' ds b len c body.
Proof.
  intros Hdec Hne Hf Hp Hlen. apply cstr_head in Hf. unfold fmt_modifier, reads.
  erewrite bind_ok by (unfold on_object; by rewrite (loadb_ok _ _ _ Hf)).
  rewrite Hlen. eexists. split; [reflexivity|].
  assert (Hcons : spec_digits (c :: body) = spec_digits body) by (simpl; by rewrite Hdec).
  rewrite Hcons. destruct body as [|c' body]; cbn [head0 app letter_len] in *.
  - if_false. exists one, [], [], [].
    split_and!; try done; try (simpl; lia).
    rewrite app_nil_r. by eapply parsed_with_length.
  - destruct (Z.eqb_spec c' c) as [->|].
    + exists two, [], [c], body. simpl. rewrite Hdec.
      split_and!; try done; try (simpl; lia).
    rewrite app_nil_r. by eapply parsed_with_length.
    + exists one, [], [], (c' :: body).
      split_and!; try done; try (simpl; lia).
    rewrite app_nil_r. by eapply parsed_with_length.
Qed.

Lemma is_dec_digit c : is_dec c = true -> is_Some (base_digit 10 c).
Proof.
  unfold is_dec. intros Hc. exists (c - 48). unfold base_digit, digit_of. if_true. by if_true.
Qed.

Lemma fmt_default_ok st c body ds b len m :
  c <> 108 -> c <> 104 -> c <> 122 -> in_u8 c -> parsed st ds b len false -> length ds < 30 ->
  exists st', fmt_default c st m = Ok st' m /\ reads st st' ds b len c body.
Proof.
  intros H1 H2 H3 Hu Hp Hlen. unfold fmt_default, reads. fold (is_dec c).
  assert (Hl : spec_len len (c :: body) = spec_len len body).
  { cbn [spec_len]. by repeat if_false. }
  rewrite Hl. cbn [spec_digits List.filter]. fold (spec_digits body).
  destruct (is_dec c) eqn:Hdec.
  - unfold array_set. rewrite (parsed_idx _ _ _ _ _ Hp). if_true.
    eexists. split; [reflexivity|]. exists len, [c], [], body.
    split_and!; try done; try (simpl; lia). split; cbn [form idx buf length_mod upper sizec].
    + destruct Hp. apply bytes_at_app. rewrite (u8_small c) by done. split.
      * intros i x Hx. pose proof (lookup_lt_Some _ _ _ Hx). rewrite lookup_insert_ne by lia.
        by apply parsed_digits0.
      * apply bytes_at_cons. split; [|apply bytes_at_nil]. by rewrite lookup_insert_eq.
    + apply Forall_app. split; [apply Hp|]. constructor; [|constructor].
      by apply is_dec_digit.
    + rewrite length_app. simpl. lia.
    + rewrite length_app. simpl. lia.
    + apply Hp.
    + apply Hp.
    + apply Hp.
  - eexists. split; [reflexivity|]. exists len, [], [], body.
    split_and!; try done; try (simpl; lia). by rewrite app_nil_r.
Qed.

Lemma fmt_switch_reads st c body d ds b len m :
  is_conv c = false -> is_conv d = true -> in_u8 c ->
  cstr frm (form st + 1) (body ++ [d]) -> parsed st ds b len false -> length ds < 30 ->
  exists st', fmt_switch lit_0x start bufsize pad var frm c st m = Ok st' m /\
    reads st st' ds b len c body.
Proof.
  intros Hc Hd Hu Hf Hp Hlen. unfold is_conv in Hc, Hd. unfold fmt_switch. do 7 if_false.
  destruct (Z.eqb_spec c 108) as [->|]; [|destruct (Z.eqb_spec c 104) as [->|]].
  - by apply (fmt_modifier_ok 108 8 8 st body d); [|lia|..].
  - by apply (fmt_modifier_ok 104 2 1 st body d); [|lia|..].
  - destruct (Z.eqb_spec c 122) as [->|]; [|by apply fmt_default_ok].
    eexists. split; [reflexivity|]. exists 8, [], [], body.
    split_and!; try done; try (simpl; lia).
    rewrite app_nil_r. by eapply parsed_with_length.
Qed.

Lemma parse_loop n d b r m :
  is_conv d = true -> has_room b r -> 1 <= r -> mem_ok frm ->
  forall body f st ds len, (length body <= n)%nat ->
  Forall (fun c => is_conv c = false) body ->
  cstr frm (form st) (body ++ [d]) -> parsed st ds b len false ->
  length ds + length body < 31 ->
  exists f' st', (f <= f')%nat /\ form st' = form st + length body /\
    parsed st' (ds ++ spec_digits body) b (spec_len len body) false /\
    loop (length body + f) (print_format_step lit_0x start bufsize pad var frm) st m =
    loop f' (print_format_step lit_0x start bufsize pad var frm) st' m.
Proof.
  intros Hd Hr Hr1 Hok. induction n as [|n IH]; intros body f st ds len Hn Hnc Hf Hp Hlen;
    (destruct body as [|c body];
     [exists f, st; rewrite app_nil_r, Z.add_0_r; by auto|cbn [length] in *]); [lia|].
  apply Forall_cons_iff in Hnc as [Hc Hnc]. pose proof (cstr_in_u8 _ _ _ Hok Hf) as Hu.
  apply Forall_cons_iff in Hu as [Hu _]. cbn [app] in Hf.
  destruct (fmt_switch_reads st c body d ds b len m)
    as (st1 & Hsw & k & x & pre & body' & -> & Hform & Hx & Hp1 & Ed & El);
    [done|done|done|by eapply cstr_tail|done|lia|].
  rewrite <- app_assoc in Hf. rewrite length_app in *.
  apply Forall_app in Hnc as [_ Hnc].
  destruct (IH body' (length pre + f)%nat (next_form st1) (ds ++ x) k)
    as (f' & st' & Hf' & Hform' & Hp' & Hrun); [lia|done| |by apply parsed_next| |].
  - apply cstr_tail, cstr_app_r in Hf. unfold next_form. cbn [form]. rewrite Hform.
    by replace (form st + length pre + 1) with (form st + 1 + length pre) by lia.
  - rewrite length_app. lia.
  - exists f', st'. split; [lia|]. split; [rewrite Hform'; unfold next_form; cbn [form]; lia|].
    split; [by rewrite Ed, El, app_assoc|]. rewrite <- Hrun.
    replace (S (length pre + length body') + f)%nat
      with (S (length body' + (length pre + f))) by lia.
    apply loop_continue. erewrite step_enter; [|exact Hf|apply Hp|exact Hr|done].
    by run_with (exact Hsw).
Qed.

End conversions.

(** ** A whole specification *)

Lemma spec_pad_byte sp : in_u8 (spec_pad sp).
Proof. unfold spec_pad, in_u8. destruct (spec_lead sp); lia. Qed.

Lemma spec_body_forall (P : Z -> Prop) sp : Forall P sp -> Forall P (spec_body sp).
Proof.
  intros H. unfold spec_body. destruct (spec_lead sp); [|done]. destruct H; simpl; [constructor|done].
Qed.

Lemma spec_body_length sp :
  Z.of_nat (length sp) = length (spec_body sp) + b2z (spec_lead sp).
Proof.
  unfold spec_body. destruct (spec_lead sp) eqn:E; simpl; [|lia].
  destruct sp; [done|simpl; lia].
Qed.

(** Where the digits and sizes start. *)
Lemma spec_start frm sp d :
  is_conv d = true -> cstr frm 0 (37 :: sp ++ [d]) ->
  frm !! 1 = Some (head0 (sp ++ [d])) /\
  (head0 (sp ++ [d]) =? 48) || (head0 (sp ++ [d]) =? 46) = spec_lead sp /\
  cstr frm (if spec_lead sp then 2 else 1) (spec_body sp ++ [d]).
Proof.
  unfold is_conv. intros Hd Hf%cstr_tail. split; [by apply cstr_head in Hf|].
  unfold spec_lead, spec_body. destruct sp as [|c sp]; cbn [app head0 tail] in *.
  - split; [lia|done].
  - split; [done|]. unfold spec_lead. cbn [head0].
    destruct ((c =? 48) || (c =? 46)); [by apply cstr_tail in Hf|done].
Qed.

(** The conversion character and the end of the specification. *)
Lemma convert_last lit_0x start bufsize pad var e frm d st ds b len r m l f :
  in_u8 pad -> parsed st ds b len false -> width ds < 2 ^ 31 -> size_mod len ->
  0 <= var < 2 ^ 64 -> is_conv d = true -> d <> 37 -> has_room start bufsize b r -> 1 <= r ->
  region m b e -> cstr m lit_0x [48; 120] /\ apart lit_0x [48; 120] b e ->
  (d = 115 -> cstr m var l /\ apart var l b e) -> cstr frm (form st) [d] ->
  let t := conv_text r (width ds) pad len d var l in
  b + length t <= e ->
  loop (S (S f)) (print_format_step lit_0x start bufsize pad var frm) st m =
    Ok (b + length t) (write_bytes b t m).
Proof.
  intros Hpad Hp Hw Hl Hv Hc H37 Hr Hr1 Hg Hx Hs Hf t He.
  destruct (fmt_switch_ok lit_0x start bufsize pad var e frm Hpad d st ds b len r m l)
    as (st' & Hrun & Hform & Hbuf); try done.
  pose proof (cstr_tail _ _ _ _ Hf) as Hf1. rewrite cstr_nil in Hf1.
  rewrite (loop_continue _ _ _ (next_form st') _ (write_bytes b t m)).
  2:{ erewrite step_enter; [|exact Hf|apply Hp|exact Hr|done]. by run_with (exact Hrun). }
  apply loop_break. unfold print_format_step, next_form. cbn [form buf].
  run_with (unfold on_object; rewrite Hform; by rewrite (loadb_ok _ _ _ Hf1)).
  if_false. unfold mret, M_ret. by rewrite Hbuf.
Qed.

Lemma print_format_ok lit_0x e frm sp d v l b r m :
  spec_fits sp = true -> Forall (fun c => is_conv c = false) sp -> is_conv d = true -> d <> 37 ->
  mem_ok frm -> cstr frm 0 (37 :: sp ++ [d]) -> 0 <= v < 2 ^ 64 -> 1 <= r < 2 ^ 64 ->
  region m b e -> cstr m lit_0x [48; 120] /\ apart lit_0x [48; 120] b e ->
  (d = 115 -> cstr m v l /\ apart v l b e) ->
  let t := spec_text r sp d v l in
  b + length t <= e ->
  print_format lit_0x b r frm v m = Ok (b + length t) (write_bytes b t m).
Proof.
  intros Hfit Hnc Hd H37 Hok Hf Hv Hr Hg Hx Hs t He.
  destruct (spec_start frm sp d Hd Hf) as (H1 & Hlead & Hbody).
  apply cstr_size in Hf. cbn [length] in Hf. rewrite length_app in Hf. cbn [length] in Hf.
  pose proof (spec_body_length sp) as Hlen. unfold spec_fits in Hfit.
  unfold print_format. run_with (unfold on_object; by rewrite (loadb_ok _ _ _ H1)).
  cbv zeta. rewrite Hlead.
  assert (Hroom : has_room b r b r) by (unfold has_room; lia).
  replace (S (size frm)) with (length (spec_body sp) + S (S (size frm - length (spec_body sp) - 1)))%nat
    by (destruct (spec_lead sp); simpl in Hlen; lia).
  destruct (parse_loop lit_0x b r (spec_pad sp) v frm (length (spec_body sp)) d b r m Hd Hroom
    ltac:(lia) Hok (spec_body sp) (S (S (size frm - length (spec_body sp) - 1)))
    (FmtState (if spec_lead sp then 2 else 1) b 0 4 false ∅) [] 4)
    as (f' & st' & Hf' & Hform & Hp & Hrun); [lia|by apply spec_body_forall|done| | |].
  - split; try done. constructor.
  - destruct (spec_lead sp); simpl in Hlen |- *; lia.
  - fold (spec_pad sp). rewrite Hrun. destruct f' as [|[|f']]; [lia|lia|].
    apply (convert_last _ _ _ _ _ e); try done; try lia.
    + apply spec_pad_byte.
    + apply spec_len_size. unfold size_mod. lia.
    + rewrite Hform. by apply cstr_app_r in Hbody.
Qed.

(** ** The copy of the specification *)

Lemma formstr_loop sp d rest m f c p (k : nat) fs :
  mem_ok m -> cstr m p (c :: sp ++ d :: rest) -> Forall (fun c => is_conv c = false) sp ->
  is_conv d = true -> (k + length sp < 20)%nat -> (length sp < f)%nat ->
  loop f formstr_step (p, Z.of_nat k, fs) m =
    Ok (p + 1 + length sp, k + 1 + length sp, write_bytes k (c :: sp) fs) m.
Proof.
  intros Hok. revert f c p k fs. induction sp as [|c' sp IH]; intros f c p k fs Hf Hnc Hd Hk Hlt;
    (destruct f as [|f]; [simpl in Hlt; lia|]); pose proof (cstr_in_u8 _ _ _ Hok Hf) as Hu;
    apply Forall_cons_iff in Hu as [Hu _]; pose proof (cstr_head _ _ _ Hf) as Hc;
    pose proof (cstr_tail _ _ _ _ Hf) as Hf1; pose proof (cstr_head _ _ _ Hf1) as Hc';
    cbn [head0 app length] in *.
  - apply loop_break. enter formstr_step. run_with (by apply loadb_ok).
    unfold array_set. if_true. erewrite bind_ok by reflexivity. cbv zeta.
    run_with (by apply loadb_ok). rewrite Hd, u8_small by done. unfold mret, M_ret. simpl. eq_lia.
  - apply Forall_cons_iff in Hnc as [Hnc' Hnc].
    change (write_bytes k (c :: c' :: sp) fs)
      with (write_bytes (Z.of_nat k + 1) (c' :: sp) (<[Z.of_nat k := c]> fs)).
    replace (p + 1 + S (length sp)) with (p + 1 + 1 + length sp) by lia.
    replace (k + 1 + S (length sp)) with (S k + 1 + length sp) by lia.
    replace (Z.of_nat k + 1) with (Z.of_nat (S k)) by lia.
    rewrite <- (IH f c' (p + 1) (S k) (<[Z.of_nat k := c]> fs)); [|done|done|done|lia|lia].
    apply loop_continue. enter formstr_step. run_with (by apply loadb_ok).
    unfold array_set. if_true. erewrite bind_ok by reflexivity. cbv zeta.
    run_with (by apply loadb_ok). rewrite Hnc', u8_small by done. unfold mret, M_ret. eq_lia.
Qed.

Lemma mem_ok_fresh l : Forall in_u8 l -> length l < 2 ^ 64 -> mem_ok (write_bytes 0 l ∅).
Proof.
  intros Hl Hn q b. rewrite write_bytes_lookup. case_bool_decide; [|by rewrite lookup_empty].
  intros Hq. split; [unfold in_u64; lia|]. by eapply Forall_lookup_1 in Hq.
Qed.

(** The text from a percent sign on, cut. *)
Lemma cut_spec_sound l sp d rest :
  cut_spec l = Some (sp, d, rest) ->
  l = sp ++ d :: rest /\ Forall (fun c => is_conv c = false) sp /\ is_conv d = true.
Proof.
  revert sp. induction l as [|c l IH]; intros sp; simpl; [done|].
  destruct (is_conv c) eqn:Hc; [by intros [= <- <- <-]|].
  destruct (cut_spec l) as [[[sp' d'] rest']|]; [|done]. intros [= <- -> ->].
  destruct (IH sp' eq_refl) as (-> & Hn & Hd). split; [done|]. split; [by constructor|done].
Qed.

(** The formatting of one conversion in the loop of [vsnprintf]: the copy in
    [formstr] and the character that ends it. *)
Lemma formstr_ok {A} sp d rest m p (k : Z * Z * mem -> M mem A) :
  mem_ok m -> cstr m p (37 :: sp ++ d :: rest) -> Forall (fun c => is_conv c = false) sp ->
  is_conv d = true -> length sp <= 17 ->
  exists frm, mem_ok frm /\ cstr frm 0 (37 :: sp ++ [d]) /\
    (('(ptr, i, formstr) ← mloop formstr_step (p, 0, ∅);
      c ← loadb ptr;
      formstr ← array_set 20 formstr i c;
      formstr ← array_set 20 formstr (i + 1) 0;
      k (ptr, c, formstr)) : M mem A) m = k (p + 1 + length sp, d, frm) m.
Proof.
  intros Hok Hf Hnc Hd Hlen. pose proof (cstr_in_u8 _ _ _ Hok Hf) as Hu.
  pose proof (cstr_size _ _ _ Hf) as Hsz. cbn [length] in Hsz. rewrite length_app in Hsz.
  assert (E : 37 :: sp ++ d :: rest = (37 :: sp ++ [d]) ++ rest) by (simpl; by rewrite <- app_assoc).
  assert (Hdu : in_u8 d).
  { apply Forall_cons_iff in Hu as [_ Hu]. apply Forall_app in Hu as [_ Hu].
    by apply Forall_cons_iff in Hu as [Hu _]. }
  exists (write_bytes 0 ((37 :: sp ++ [d]) ++ [0]) ∅). split; [|split; [split|]].
  - apply mem_ok_fresh; [|rewrite length_app; cbn [length]; rewrite length_app; simpl; lia].
    rewrite E in Hu. apply Forall_app in Hu as [Hu _].
    apply Forall_app. split; [done|]. repeat constructor; lia.
  - apply write_bytes_at.
  - destruct Hf as [_ Hf]. rewrite E in Hf. by apply Forall_app in Hf as [Hf _].
  - assert (Hdm : m !! (p + 1 + length sp) = Some d) by (by apply cstr_tail, cstr_app_r, cstr_head in Hf).
    run_with (rewrite mloop_eq; apply (formstr_loop sp d rest m _ 37 p 0); [done|done|done|done|lia|lia]).
    run_with (by apply loadb_ok). do 2 run_with (unfold array_set; if_true; reflexivity).
    do 2 f_equal.
    change (37 :: sp ++ [d]) with ((37 :: sp) ++ [d]).
    rewrite !write_bytes_app, length_app, (u8_small d) by done. cbn [length write_bytes].
    f_equal; [lia|]. f_equal. lia.
Qed.

Lemma vsnprintf_conv_ok lit_0x bstart bufsize e sp d rest v arg l p b r m :
  region m b e -> cstr m p (37 :: sp ++ d :: rest) -> Forall (fun c => is_conv c = false) sp ->
  is_conv d = true -> d <> 37 -> spec_fits sp = true -> 0 <= v < 2 ^ 64 ->
  has_room bstart bufsize b r -> 1 <= r ->
  cstr m lit_0x [48; 120] /\ apart lit_0x [48; 120] b e ->
  (d = 115 -> cstr m v l /\ apart v l b e) ->
  let t := spec_text r sp d v l in
  b + length t <= e ->
  vsnprintf_conv lit_0x bstart bufsize p b (v :: arg) m =
    Ok (p + 2 + length sp, b + length t, arg) (write_bytes b t m).
Proof.
  intros Hg Hf Hnc Hd H37 Hfit Hv Hr Hr1 Hx Hs t He. unfold vsnprintf_conv.
  destruct (formstr_ok sp d rest m p (fun '(ptr, c, formstr) =>
    if c =? 37 then _ ← storeb b 37; mret (ptr + 1, b + 1, v :: arg)
    else buffer ← print_format lit_0x b (room bstart bufsize b) formstr v;
         mret (ptr + 1, buffer, arg))) as (frm & Hok & Hfrm & Hrun);
    [apply Hg|done|done|done|unfold spec_fits in Hfit; lia|].
  etransitivity; [exact Hrun|]. cbv beta iota. if_false. rewrite (has_room_room _ _ _ _ Hr).
  destruct Hr as (_ & _ & Hr & _). run_with (apply (print_format_ok lit_0x e frm sp d v l); done || lia).
  unfold mret, M_ret. eq_lia.
Qed.

Lemma vsnprintf_percent_ok lit_0x bstart bufsize e sp rest arg p b m :
  region m b e -> cstr m p (37 :: sp ++ 37 :: rest) -> Forall (fun c => is_conv c = false) sp ->
  spec_fits sp = true -> b + 1 <= e ->
  vsnprintf_conv lit_0x bstart bufsize p b arg m =
    Ok (p + 2 + length sp, b + 1, arg) (<[b := 37]> m).
Proof.
  intros Hg Hf Hnc Hfit He. unfold vsnprintf_conv.
  destruct (formstr_ok sp 37 rest m p (fun '(ptr, c, formstr) =>
    if c =? 37 then _ ← storeb b 37; mret (ptr + 1, b + 1, arg)
    else match arg with
         | [] => throw UB
         | v :: arg =>
             buffer ← print_format lit_0x b (room bstart bufsize b) formstr v;
             mret (ptr + 1, buffer, arg)
         end)) as (frm & _ & _ & Hrun);
    [apply Hg|done|done|done|unfold spec_fits in Hfit; lia|].
  etransitivity; [exact Hrun|].
  cbv beta iota. change (37 =? 37) with true. cbv iota.
  run_with (apply storeb_ok; eapply mapped_at; [apply Hg|lia]).
  rewrite u8_small by lia. unfold mret, M_ret. eq_lia.
Qed.

(** ** The whole output *)

Section output.
Context (lit_0x bstart bufsize e : Z) (str_of : Z -> list Z).
Hypothesis size_ok : bufsize < 2 ^ 64 - 1.

(** What is read while [b, e) is still to be written. *)
Record sources (m : mem) (ptr : Z) (fl strs : list Z) (b : Z) : Prop := {
  src_lit : cstr m lit_0x [48; 120] /\ apart lit_0x [48; 120] b e;
  src_format : cstr m ptr fl /\ apart ptr fl b e;
  src_strings : Forall (fun v => cstr m v (str_of v) /\ apart v (str_of v) b e) strs
}.

Lemma sources_write m ptr fl strs b t :
  sources m ptr fl strs b -> b + length t <= e ->
  sources (write_bytes b t m) ptr fl strs (b + length t).
Proof.
  intros [[Hl Al] [Hf Af] Hs] He. assert (0 <= length t) by lia.
  split; [by eauto using apart_write, apart_advance..|].
  eapply Forall_impl; [|exact Hs]. intros v [? ?]. by eauto using apart_write, apart_advance.
Qed.

Lemma sources_app m ptr l fl strs strs' b :
  sources m ptr (l ++ fl) strs b -> incl strs' strs ->
  sources m (ptr + length l) fl strs' b.
Proof.
  intros [Hl [Hf Af] Hs] Hsub. split; [done| |].
  - split; [by apply cstr_app_r|]. unfold apart in *. rewrite length_app in Af. lia.
  - by eapply incl_Forall.
Qed.

Definition left_at (b r : Z) : Prop := bstart <= b /\ bufsize - (b - bstart) = r /\ -1 <= r.

Lemma conv_text_le r w pad len d v str :
  1 <= r -> length (conv_text r w pad len d v str) <= r + 1.
Proof.
  intros Hr. destruct (decide (d = 99)) as [->|].
  - by apply conv_text_length_c.
  - pose proof (conv_text_length r w pad len d v str Hr). lia.
Qed.

(** The text after the specification [sp] and its conversion [d]. *)
Lemma sources_rest m ptr sp d rest strs strs' b :
  sources m ptr (37 :: sp ++ d :: rest) strs b -> incl strs' strs ->
  sources m (ptr + 2 + length sp) rest strs' b.
Proof.
  intros H1 H2. pose proof (sources_app m ptr (37 :: sp ++ [d]) rest strs strs' b) as H.
  cbn [length app] in H. rewrite <- app_assoc, length_app in H.
  replace (ptr + 2 + length sp) with (ptr + S (length sp + length [d])) by (simpl; lia). auto.
Qed.

(** The claim for formats of [n] rounds. *)
Definition renders (n : nat) : Prop := forall fl ptr b r arg m f out,
  left_at b r -> region m b e -> sources m ptr fl (string_args n fl arg) b ->
  Forall in_u64 arg -> render str_of n r fl arg = Some out -> b + length out <= e ->
  (length fl < f)%nat ->
  loop f (vsnprintf_step lit_0x bstart bufsize) (ptr, b, arg) m =
    Ok (b + length out) (write_bytes b out m).

(** One round that prints [t]. *)
Lemma renders_round n t fl' arg' out' ptr' ptr arg b r m f :
  renders n -> left_at b r -> region m b e -> b + length (t ++ out') <= e ->
  vsnprintf_step lit_0x bstart bufsize (ptr, b, arg) m =
    Ok (inl (ptr', b + length t, arg')) (write_bytes b t m) ->
  length t <= r + 1 -> Forall in_u8 t -> (length fl' < f)%nat -> Forall in_u64 arg' ->
  sources m ptr' fl' (string_args n fl' arg') b ->
  render str_of n (r - length t) fl' arg' = Some out' ->
  loop (S f) (vsnprintf_step lit_0x bstart bufsize) (ptr, b, arg) m =
    Ok (b + length (t ++ out')) (write_bytes b (t ++ out') m).
Proof.
  intros IH Hr Hg He Hstep Ht Hu Hfl Ha Hsrc Hren. rewrite length_app in *.
  erewrite loop_continue by exact Hstep.
  rewrite (IH fl' ptr' (b + length t) (r - length t) arg' _ f out'); [| | | |done|done|lia|lia].
  - rewrite write_bytes_app. eq_lia.
  - unfold left_at in *. lia.
  - apply region_write; [done|lia|done].
  - by apply sources_write; [|lia].
Qed.

Lemma round_enter ptr b r arg m c :
  left_at b r -> 1 <= r -> m !! ptr = Some c -> c <> 0 ->
  vsnprintf_step lit_0x bstart bufsize (ptr, b, arg) m =
    (if c =? 37 then st ← vsnprintf_conv lit_0x bstart bufsize ptr b arg; mret (inl st)
     else _ ← storeb b c; mret (inl (ptr + 1, b + 1, arg))) m.
Proof.
  intros Hr Hr1 Hc Hc0. enter vsnprintf_step. run_with (by apply loadb_ok).
  unfold left_at in Hr. rewrite u64_small by lia. by if_true.
Qed.

Lemma renders_percent n sp rest ptr b r arg m f out :
  renders n -> left_at b r -> 1 <= r -> region m b e ->
  sources m ptr (37 :: sp ++ 37 :: rest) (string_args n rest arg) b ->
  Forall (fun c => is_conv c = false) sp -> spec_fits sp = true -> Forall in_u64 arg ->
  render str_of n (r - 1) rest arg = Some out -> b + length (37 :: out) <= e ->
  (length rest < f)%nat ->
  loop (S f) (vsnprintf_step lit_0x bstart bufsize) (ptr, b, arg) m =
    Ok (b + length (37 :: out)) (write_bytes b (37 :: out) m).
Proof.
  intros IH Hr Hr1 Hg Hsrc Hnc Hfit Ha Hren He Hf.
  pose proof (src_format _ _ _ _ _ Hsrc) as [Hfmt _]. pose proof (cstr_head _ _ _ Hfmt) as Hc.
  apply (renders_round n [37] rest arg out (ptr + 2 + length sp) ptr arg b r m f); try done.
  - rewrite (round_enter ptr b r arg m 37) by done. change (37 =? 37) with true. cbv iota. simpl in He.
    by run_with (apply (vsnprintf_percent_ok _ _ _ e sp rest); done || lia).
  - simpl. lia.
  - repeat constructor; lia.
  - eapply sources_rest; [exact Hsrc|apply incl_refl].
Qed.

Lemma renders_conv n sp d rest ptr b r v arg m f out :
  let t := spec_text r sp d v (str_of v) in
  renders n -> left_at b r -> 1 <= r -> region m b e ->
  sources m ptr (37 :: sp ++ d :: rest)
    (if d =? 115 then v :: string_args n rest arg else string_args n rest arg) b ->
  Forall (fun c => is_conv c = false) sp -> is_conv d = true -> d <> 37 ->
  spec_fits sp = true -> Forall in_u64 (v :: arg) ->
  render str_of n (r - length t) rest arg = Some out -> b + length (t ++ out) <= e ->
  (length rest < f)%nat ->
  loop (S f) (vsnprintf_step lit_0x bstart bufsize) (ptr, b, v :: arg) m =
    Ok (b + length (t ++ out)) (write_bytes b (t ++ out) m).
Proof.
  intros t IH Hr Hr1 Hg Hsrc Hnc Hd Hd37 Hfit Ha Hren He Hf.
  pose proof (src_format _ _ _ _ _ Hsrc) as [Hfmt _]. pose proof (cstr_head _ _ _ Hfmt) as Hc.
  apply Forall_cons_iff in Ha as [Hv Ha].
  assert (Hs : d = 115 -> cstr m v (str_of v) /\ apart v (str_of v) b e).
  { intros ->. pose proof (src_strings _ _ _ _ _ Hsrc) as Hs.
    by apply Forall_cons_iff in Hs as [Hs _]. }
  apply (renders_round n t rest arg out (ptr + 2 + length sp) ptr (v :: arg) b r m f); try done.
  - rewrite (round_enter ptr b r _ m 37) by done. change (37 =? 37) with true. cbv iota. rewrite length_app in He.
    run_with (apply (vsnprintf_conv_ok _ _ _ e sp d rest v arg (str_of v) _ _ r); try done;
      [unfold has_room, left_at in *; lia|apply Hsrc|fold t; lia]). done.
  - by apply conv_text_le.
  - apply conv_text_in_u8; [apply spec_pad_byte|unfold in_u64 in Hv; lia| |].
    + apply size_mod_pos, spec_len_size, size_mod_4.
    + intros [Hstr _]%Hs. by eapply cstr_in_u8; [apply Hg|].
  - eapply sources_rest; [exact Hsrc|]. destruct (d =? 115); [apply incl_tl|]; apply incl_refl.
Qed.

Lemma renders_all n : renders n.
Proof.
  induction n as [|n IH]; intros fl ptr b r arg m f out Hr Hg Hsrc Ha Hren He Hf;
    (destruct f as [|f]; [lia|]); pose proof (src_format _ _ _ _ _ Hsrc) as [Hfmt _];
    pose proof (cstr_head _ _ _ Hfmt) as Hc; (destruct fl as [|c fl];
    [injection Hren as <-; apply loop_break; enter vsnprintf_step; run_with (by apply loadb_ok);
     by rewrite Z.add_0_r|]); [done|]; cbn [head0 length] in *.
  pose proof Hfmt as (_ & Hc0 & _)%cstr_cons. cbn [render] in Hren.
  destruct (Z.leb_spec r 0).
  { injection Hren as <-. apply loop_break. enter vsnprintf_step. run_with (by apply loadb_ok).
    unfold left_at in Hr. rewrite u64_small by lia. if_false. by rewrite Z.add_0_r. }
  cbn [string_args] in Hsrc. destruct (Z.eqb_spec c 37) as [->|Hne].
  - destruct (cut_spec fl) as [[[sp d] rest]|] eqn:Hcut; [|done].
    apply cut_spec_sound in Hcut as (-> & Hnc & Hd). rewrite length_app in Hf. cbn [length] in Hf.
    destruct (spec_fits sp) eqn:Hfit; [|done]. cbn [negb] in Hren.
    destruct (Z.eqb_spec d 37) as [->|Hd37].
    + destruct (render str_of n (r - 1) rest arg) as [out'|] eqn:Hren'; [|done].
      injection Hren as <-. apply (renders_percent n sp rest ptr b r); done || lia.
    + destruct arg as [|v arg]; [done|]. destruct (render str_of n _ rest arg) eqn:Hren'; [|done].
      injection Hren as <-. apply (renders_conv n sp d rest); done || lia.
  - destruct (render str_of n (r - 1) fl arg) as [out'|] eqn:Hren'; [|done].
    injection Hren as <-. pose proof (cstr_in_u8 _ _ _ (region_ok _ _ _ Hg) Hfmt) as Hu.
    apply Forall_cons_iff in Hu as [Hu _].
    apply (renders_round n [c] fl arg out' (ptr + 1) ptr arg b r); try done; try lia.
    + rewrite (round_enter ptr b r _ m c) by (done || lia). if_false. simpl in He.
      run_with (apply storeb_ok; eapply mapped_at; [apply Hg|lia]).
      by rewrite u8_small by done.
    + simpl. lia.
    + by constructor.
    + eapply (sources_app m ptr [c]); [exact Hsrc|apply incl_refl].
Qed.
End output.

(** The conversion characters of a format. *)
Fixpoint conversions (n : nat) (fl : list Z) : list Z :=
  match n, fl with
  | S n', c :: fl' =>
      if c =? 37 then
        match cut_spec fl' with
        | Some (_, d, rest) => d :: conversions n' rest
        | None => []
        end
      else conversions n' fl'
  | _, _ => []
  end.

Lemma render_length str_of n : forall r fl arg out,
  ~ In 99 (conversions n fl) -> 0 <= r -> render str_of n r fl arg = Some out -> length out <= r.
Proof.
  induction n as [|n IH]; intros r [|c fl] arg out Hc Hr; cbn [render];
    try (intros [= <-]; simpl; lia).
  destruct (Z.leb_spec r 0); [intros [= <-]; simpl; lia|]. cbn [conversions] in Hc.
  destruct (c =? 37).
  - destruct (cut_spec fl) as [[[sp d] rest]|]; [|done]. cbn [In] in Hc.
    destruct (spec_fits sp); [|done]. cbn [negb]. destruct (d =? 37).
    + destruct (render str_of n (r - 1) rest arg) as [o|] eqn:E; [|done]. intros [= <-].
      apply IH in E; [|tauto|lia]. simpl. lia.
    + destruct arg as [|v arg]; [done|].
      destruct (render str_of n _ rest arg) as [o|] eqn:E; [|done]. intros [= <-].
      assert (length (spec_text r sp d v (str_of v)) <= r)
        by (apply conv_text_length; [lia|intros ->; tauto]).
      apply IH in E; [|tauto|lia]. rewrite length_app. lia.
  - destruct (render str_of n (r - 1) fl arg) as [o|] eqn:E; [|done]. intros [= <-].
    apply IH in E; [|done|lia]. simpl. lia.
Qed.

Lemma vsnprintf_ok lit_0x str_of buffer bufsize format fl arg out m :
  mem_ok m -> 0 < buffer -> 0 < bufsize < 2 ^ 64 -> Forall in_u64 arg ->
  render str_of (length fl) (bufsize - 1) fl arg = Some out ->
  mapped m buffer (length out + 1) ->
  sources lit_0x (buffer + length out + 1) str_of m format fl
    (string_args (length fl) fl arg) buffer ->
  vsnprintf lit_0x buffer bufsize format arg m =
    Ok (s32 (length out)) (write_bytes buffer (out ++ [0]) m).
Proof.
  intros Hok Hb Hn Ha Hren Hm Hsrc. unfold vsnprintf. if_false. cbv zeta.
  pose proof (cstr_size _ _ _ (proj1 (src_format _ _ _ _ _ _ _ _ Hsrc))).
  run_with (rewrite mloop_eq; eapply (renders_all lit_0x buffer (bufsize - 1));
    [lia| | |exact Hsrc|done|exact Hren|lia|lia];
    [unfold left_at; lia|split; [done|]; eapply mapped_mono; [exact Hm|lia|lia]]).
  run_with (apply storeb_ok; eapply mapped_at; [apply write_bytes_mapped, Hm|lia]).
  rewrite write_bytes_app. unfold mret, M_ret. cbn [write_bytes].
  by replace (buffer + length out - buffer) with (Z.of_nat (length out)) by lia.
Qed.

(** C1: [vsnprintf] returns, writes exactly the characters of the reference
    [render] and a terminator, touches nothing else, and answers their number. *)
Theorem vsnprintf_refines lit_0x str_of buffer bufsize format fl arg out m :
  mem_ok m -> 0 < buffer -> 0 < bufsize < 2 ^ 64 -> Forall in_u64 arg ->
  render str_of (length fl) (bufsize - 1) fl arg = Some out ->
  mapped m buffer (length out + 1) ->
  sources lit_0x (buffer + length out + 1) str_of m format fl
    (string_args (length fl) fl arg) buffer ->
  vsnprintf lit_0x buffer bufsize format arg m =
    Ok (s32 (length out)) (write_bytes buffer (out ++ [0]) m).
Proof. apply vsnprintf_ok. Qed.

(** The format %4d|%s, its arguments and the strings of the memory. *)
Definition demo_format : list Z := [37; 52; 100; 124; 37; 115].
Definition demo_strings (p : Z) : list Z := if p =? 50 then [97; 98; 99] else [].

Lemma demo_sources e fl :
  e <= 224 -> cstr (fmt_mem fl) 5 [48; 120] -> cstr (fmt_mem fl) 100 fl -> length fl < 100 ->
  cstr (fmt_mem fl) 50 [97; 98; 99] ->
  sources 5 e demo_strings (fmt_mem fl) 100 fl [50] 200.
Proof.
  intros. split.
  - split; [done|left; simpl; lia].
  - split; [done|left; lia].
  - constructor; [|constructor]. split; [done|left; simpl; lia].
Qed.

Lemma vsnprintf_refines_witness :
  vsnprintf 5 200 24 100 [7; 50] (fmt_mem demo_format) =
    Ok 8 (write_bytes 200 ([32; 32; 32; 55; 124; 97; 98; 99] ++ [0]) (fmt_mem demo_format)).
Proof.
  apply (vsnprintf_refines 5 demo_strings 200 24 100 demo_format [7; 50]
    [32; 32; 32; 55; 124; 97; 98; 99]).
  - decide_now.
  - lia.
  - lia.
  - decide_now.
  - vm_compute. reflexivity.
  - decide_now.
  - apply demo_sources; [simpl; lia|decide_now|decide_now|simpl; lia|decide_now].
Defined.

(** C13: for a format with no [%c], [vsnprintf] keeps to the [bufsize] bytes it
    is given: it leaves a terminated string in them and changes no other. *)
Theorem vsnprintf_in_bounds lit_0x str_of buffer bufsize format fl arg out m :
  mem_ok m -> 0 < buffer -> 0 < bufsize < 2 ^ 64 -> Forall in_u64 arg ->
  ~ In 99 (conversions (length fl) fl) ->
  render str_of (length fl) (bufsize - 1) fl arg = Some out ->
  mapped m buffer bufsize ->
  sources lit_0x (buffer + bufsize) str_of m format fl (string_args (length fl) fl arg) buffer ->
  exists m', vsnprintf lit_0x buffer bufsize format arg m = Ok (s32 (length out)) m' /\
    length out < bufsize /\ bytes_at m' buffer (out ++ [0]) /\ same_outside buffer bufsize m m'.
Proof.
  intros Hok Hb Hn Ha Hc Hren Hm Hsrc.
  assert (Hlen : length out <= bufsize - 1) by (eapply render_length; [exact Hc|lia|exact Hren]).
  eexists. split; [|split; [lia|split; [apply write_bytes_at|apply write_bytes_same]]].
  - eapply vsnprintf_ok; try done; [eapply mapped_mono; [exact Hm|lia|lia]|].
    assert (Hap : forall p l, apart p l buffer (buffer + bufsize) ->
      apart p l buffer (buffer + length out + 1)) by (unfold apart; lia).
    destruct Hsrc as [[] [] Hs]. split; [by auto..|].
    eapply Forall_impl; [|exact Hs]. intros v []. auto.
  - rewrite length_app. simpl. lia.
Qed.

(** Eight bytes hold what fits of the padded text. *)
Lemma vsnprintf_in_bounds_witness :
  exists m', vsnprintf 5 200 8 100 [7; 50] (fmt_mem demo_format) = Ok 7 m' /\
    7%nat < 8 /\ bytes_at m' 200 ([32; 32; 32; 55; 124; 97; 98] ++ [0]) /\
    same_outside 200 8 (fmt_mem demo_format) m'.
Proof.
  apply (vsnprintf_in_bounds 5 demo_strings 200 8 100 demo_format [7; 50]
    [32; 32; 32; 55; 124; 97; 98]).
  - decide_now.
  - lia.
  - lia.
  - decide_now.
  - vm_compute. lia.
  - vm_compute. reflexivity.
  - decide_now.
  - apply demo_sources; [simpl; lia|decide_now|decide_now|simpl; lia|decide_now].
Defined.

(** ** Formats that are safe to print *)

(** How many arguments a format takes, when the C program has a meaning for
    it whatever they are. *)
Fixpoint format_arity (n : nat) (fl : list Z) : option nat :=
  match n, fl with
  | _, [] => Some O
  | O, _ => None
  | S n', c :: fl' =>
      if c =? 37 then
        match cut_spec fl' with
        | None => None
        | Some (sp, d, rest) =>
            if negb (spec_fits sp) then None
            else if d =? 37 then format_arity n' rest
            else S <$> format_arity n' rest
        end
      else format_arity n' fl'
  end.

Lemma render_total str_of n : forall r fl k arg,
  format_arity n fl = Some k -> (k <= length arg)%nat ->
  exists out, render str_of n r fl arg = Some out.
Proof.
  induction n as [|n IH]; intros r [|c fl] k arg Hk Hl; cbn [render]; try done; try (by eexists).
  cbn [format_arity] in Hk. destruct (r <=? 0); [by eexists|]. destruct (c =? 37).
  - destruct (cut_spec fl) as [[[sp d] rest]|]; [|done]. destruct (spec_fits sp); [|done].
    cbn [negb] in *. destruct (d =? 37).
    + destruct (IH (r - 1) rest k arg Hk Hl) as [out ->]. by eexists.
    + destruct (format_arity n rest) as [k'|] eqn:E; [|done]. injection Hk as <-.
      destruct arg as [|v arg]; simpl in Hl; [lia|].
      destruct (IH (r - length (spec_text r sp d v (str_of v))) rest k' arg E) as [out ->]; [lia|].
      by eexists.
  - destruct (IH (r - 1) fl k arg Hk Hl) as [out ->]. by eexists.
Qed.

Lemma digit_char_nonzero up d : 0 <= d < 16 -> digit_char up d <> 0.
Proof.
  intros H%zeichen_range. unfold digit_char. destruct up; [|lia].
  destruct (toupper_cases (nth (Z.to_nat d) zeichen 0)) as [[? ->]|[? ->]]; lia.
Qed.

Abbreviation no_nul := (fun c : Z => c <> 0).

Lemma itoa_text_nonzero up base v r :
  2 <= base <= 16 -> 0 <= v -> Forall no_nul (itoa_text up base v r).
Proof.
  intros Hb Hv. unfold itoa_text. destruct (_ <=? _); [|constructor].
  eapply all_digits_nonzero. by apply to_digits_all.
Qed.

Lemma number_text_nonzero r w pad up base v :
  pad <> 0 -> 2 <= base <= 16 -> 0 <= v -> Forall no_nul (number_text r w pad up base v).
Proof. intros. apply Forall_app. split; [by apply Forall_replicate|by apply itoa_text_nonzero]. Qed.

Lemma conv_text_nonzero r w pad len d v str :
  pad <> 0 -> 0 <= v -> 0 <= len -> d <> 99 -> (d = 115 -> Forall no_nul str) ->
  Forall no_nul (conv_text r w pad len d v str).
Proof.
  intros Hp Hv Hl Hd Hs. assert (H2 : 0 < 2 ^ (8 * len)) by (apply Z.pow_pos_nonneg; lia).
  pose proof (Z.mod_pos_bound v _ H2). pose proof (Z.mod_pos_bound (- v) _ H2).
  unfold conv_text. repeat case_match; try (apply number_text_nonzero; done || lia).
  - constructor; [done|]. apply number_text_nonzero; done || lia.
  - unfold pointer_text. rewrite !Forall_app.
    split_and!; [by apply Forall_replicate|by apply Forall_take; repeat constructor|].
    apply itoa_text_nonzero; lia.
  - lia.
  - apply Forall_app. split; [by apply Forall_replicate|]. apply Forall_take, Hs. lia.
  - constructor.
Qed.

(** A property of the characters of the format and of what each conversion
    prints is one of the output. *)
Lemma render_forall (P : Z -> Prop) (Q : Z -> Prop) str_of n :
  (forall r sp d v, Q d -> in_u64 v -> (d = 115 -> Forall P (str_of v)) ->
     Forall P (spec_text r sp d v (str_of v))) ->
  forall r fl arg out,
  Forall Q (conversions n fl) -> Forall P fl -> Forall in_u64 arg ->
  Forall (fun v => Forall P (str_of v)) (string_args n fl arg) ->
  render str_of n r fl arg = Some out -> Forall P out.
Proof.
  intros HPQ. induction n as [|n IH]; intros r [|c fl] arg out Hc Hf Ha Hs; cbn [render];
    try (intros [= <-]; constructor).
  apply Forall_cons_iff in Hf as [Hc0 Hf].
  destruct (Z.leb_spec r 0); [intros [= <-]; constructor|].
  cbn [conversions string_args] in Hc, Hs. destruct (Z.eqb_spec c 37) as [->|].
  - destruct (cut_spec fl) as [[[sp d] rest]|] eqn:Hcut; [|done].
    apply Forall_cons_iff in Hc as [Hd Hc].
    apply cut_spec_sound in Hcut as (-> & _ & _). apply Forall_app in Hf as [_ Hf].
    apply Forall_cons_iff in Hf as [_ Hf]. destruct (spec_fits sp); [|done]. cbn [negb].
    destruct (d =? 37).
    + destruct (render str_of n (r - 1) rest arg) as [o|] eqn:E; [|done]. intros [= <-].
      apply IH in E; try done. by constructor.
    + destruct arg as [|v arg]; [done|]. apply Forall_cons_iff in Ha as [Hv Ha].
      destruct (render str_of n _ rest arg) as [o|] eqn:E; [|done]. intros [= <-].
      apply Forall_app. split.
      * apply HPQ; [done|done|]. intros ->. by apply Forall_cons_iff in Hs as [Hs _].
      * apply IH in E; try done. destruct (d =? 115); [by apply Forall_cons_iff in Hs as [_ Hs]|done].
  - destruct (render str_of n (r - 1) fl arg) as [o|] eqn:E; [|done]. intros [= <-].
    apply IH in E; try done. by constructor.
Qed.

Lemma spec_text_nonzero str_of r sp d v :
  d <> 99 -> in_u64 v -> (d = 115 -> Forall no_nul (str_of v)) ->
  Forall no_nul (spec_text r sp d v (str_of v)).
Proof.
  intros Hd Hv Hs. apply conv_text_nonzero; try done.
  - unfold spec_pad. destruct (spec_lead sp); lia.
  - unfold in_u64 in Hv. lia.
  - apply size_mod_pos, spec_len_size, size_mod_4.
Qed.

Lemma spec_text_in_u8 str_of r sp d v :
  in_u64 v -> (d = 115 -> Forall in_u8 (str_of v)) -> Forall in_u8 (spec_text r sp d v (str_of v)).
Proof.
  intros Hv Hs. apply conv_text_in_u8; try done.
  - apply spec_pad_byte.
  - unfold in_u64 in Hv. lia.
  - apply size_mod_pos, spec_len_size, size_mod_4.
Qed.

(** A [%9c] in a buffer of four bytes: five are written. *)
Lemma vsnprintf_char_overflow :
  exists m', vsnprintf 5 200 4 100 [65] (fmt_mem [37; 57; 99]) = Ok 4 m' /\
    m' !! 204 = Some 0 /\ fmt_mem [37; 57; 99] !! 204 = Some 255.
Proof. eexists. split; [vm_compute; reflexivity|]. split; reflexivity. Qed.

(** ** Reading a printed number back *)

Lemma digits_no_x ds : all_digits 16 ds -> ~ [48; 120] `prefix_of` ds ++ [].
Proof.
  rewrite app_nil_r. intros H [k ->]. apply Forall_app in H as [H _].
  by repeat (apply Forall_cons_iff in H as [[d Hd] H]; vm_compute in Hd; simplify_eq).
Qed.

(** C36: what [print_itoa] prints, [strtoul] reads back: in every base from 3
    to 16, in either case, for every 64-bit number that fits. *)
Theorem print_itoa_strtoul buf bufsize v base up m :
  3 <= base <= 16 -> 0 <= v < 2 ^ 64 -> length (num_text up base v) <= bufsize ->
  mem_ok m -> mapped m buf (length (num_text up base v) + 1) ->
  exists m' end_, print_itoa buf bufsize v base up m = Ok (1, end_) m' /\
    strtoul buf base (<[end_ := 0]> m') = Ok (v, end_) (<[end_ := 0]> m').
Proof.
  intros Hb Hv Hfit Hok Hm. pose proof (num_fits base v ltac:(lia) Hv) as Hnf.
  pose proof (to_digits_all 64 up base v ltac:(lia) ltac:(lia)) as Hall. fold (num_text up base v) in Hall.
  exists (write_bytes buf (num_text up base v) m), (buf + length (num_text up base v)). split.
  - unfold print_itoa. if_false. run_with (apply (print_intlen_ok up); lia).
    pose proof (to_digits_length_le 64 up base v) as Hle. fold (num_text up base v) in Hle.
    rewrite u64_small by lia. if_false.
    run_with (apply (print_itoa_loop 64); [lia|lia|lia|]; eapply mapped_mono; [exact Hm|lia|fold (num_text up base v); lia]).
    done.
  - set (m' := <[_ := 0]> _).
    assert (Hc : cstr m' buf (num_text up base v)).
    { split; [|by eapply all_digits_nonzero]. subst m'.
      pose proof (write_bytes_app buf (num_text up base v) [0] m) as E. cbn [write_bytes] in E.
      rewrite <- E. apply write_bytes_at. }
    rewrite (strtoul_plain m' buf base [] (num_text up base v) []).
    + unfold num_text at 1. rewrite to_digits_value by (lia || done). rewrite u64_small by lia.
      by rewrite Z.add_0_r.
    + lia.
    + simpl. by rewrite app_nil_r.
    + constructor.
    + by apply (no_blank_digits base).
    + split; [done|]. split; [done|]. intros ->. by apply digits_no_x.
Qed.

Lemma print_itoa_strtoul_witness :
  exists m' end_, print_itoa 200 8 48879 16 true (fmt_mem []) = Ok (1, end_) m' /\
    strtoul 200 16 (<[end_ := 0]> m') = Ok (48879, end_) (<[end_ := 0]> m').
Proof.
  apply (print_itoa_strtoul 200 8 48879 16 true (fmt_mem [])).
  - lia.
  - lia.
  - vm_compute. discriminate.
  - decide_now.
  - decide_now.
Defined.
