(* ===== verification/Console.v ===== *)
(** * The console: lib/console.c, include/io.h, include/microwatt_soc.h

    The firmware drives one of two UARTs through uncached loads and stores.
    The bus and what is behind it are a parameter: a [Bus] instance says how a
    device state answers an access, a [Uart] instance what a serial port
    promises its driver.  The drivers and the character functions are proved
    against the promise; two concrete ports at the end keep it. *)

From S2P Require Import Prelude CMem Ctype LibcMem LibcStr.

(** ** The SoC memory map *)

Definition DRAM_BASE : Z := 0x40000000.
Definition SYSCON_BASE : Z := 0xc0000000.
Definition UART_BASE : Z := 0xc0002000.
Definition SPI_FCTRL_BASE : Z := 0xc0006000.
Definition SPI_FLASH_BASE : Z := 0xf0000000.
Definition DRAM_INIT_BASE : Z := 0xff000000.

Definition SYS_REG_SIGNATURE : Z := 0x00.
Definition SYS_REG_INFO : Z := 0x08.
Definition SYS_REG_INFO_HAS_UART : Z := Z.shiftl 1 0.
Definition SYS_REG_INFO_HAS_DRAM : Z := Z.shiftl 1 1.
Definition SYS_REG_INFO_HAS_BRAM : Z := Z.shiftl 1 2.
Definition SYS_REG_INFO_HAS_SPI_FLASH : Z := Z.shiftl 1 3.
Definition SYS_REG_INFO_HAS_LITEETH : Z := Z.shiftl 1 4.
Definition SYS_REG_INFO_HAS_LARGE_SYSCON : Z := Z.shiftl 1 5.
Definition SYS_REG_INFO_HAS_LITESDCARD : Z := Z.shiftl 1 8.
Definition SYS_REG_BRAMINFO : Z := 0x10.
Definition SYS_REG_BRAMINFO_SIZE_MASK : Z := 0xfffffffffffff.
Definition SYS_REG_DRAMINFO : Z := 0x18.
Definition SYS_REG_DRAMINFO_SIZE_MASK : Z := 0xfffffffffffff.
Definition SYS_REG_CLKINFO : Z := 0x20.
Definition SYS_REG_CLKINFO_FREQ_MASK : Z := 0xffffffffff.
Definition SYS_REG_CTRL : Z := 0x28.
Definition SYS_REG_CTRL_ALT_RESET : Z := Z.shiftl 1 3.
Definition SYS_REG_DRAMINITINFO : Z := 0x30.
Definition SYS_REG_SPI_INFO : Z := 0x38.
Definition SYS_REG_SPI_INFO_FLASH_OFF_MASK : Z := 0xffffffff.
Definition SYS_REG_UART0_INFO : Z := 0x40.
Definition SYS_REG_UART_IS_16550 : Z := Z.shiftl 1 32.
Definition SYS_REG_GIT_INFO : Z := 0x50.

Definition POTATO_CONSOLE_TX : Z := 0x00.
Definition POTATO_CONSOLE_RX : Z := 0x08.
Definition POTATO_CONSOLE_STATUS : Z := 0x10.
Definition POTATO_CONSOLE_STATUS_RX_EMPTY : Z := 0x01.
Definition POTATO_CONSOLE_STATUS_TX_FULL : Z := 0x08.
Definition POTATO_CONSOLE_CLOCK_DIV : Z := 0x18.
Definition POTATO_CONSOLE_IRQ_EN : Z := 0x20.
Definition POTATO_CONSOLE_IRQ_RX : Z := 0x01.
Definition POTATO_CONSOLE_IRQ_TX : Z := 0x02.

Definition UART_REG_RX : Z := 0x00.
Definition UART_REG_TX : Z := 0x00.
Definition UART_REG_DLL : Z := 0x00.
Definition UART_REG_IER : Z := 0x04.
Definition UART_REG_IER_RDI : Z := 0x01.
Definition UART_REG_IER_THRI : Z := 0x02.
Definition UART_REG_DLM : Z := 0x04.
Definition UART_REG_FCR : Z := 0x08.
Definition UART_REG_FCR_EN_FIFO : Z := 0x01.
Definition UART_REG_FCR_CLR_RCVR : Z := 0x02.
Definition UART_REG_FCR_CLR_XMIT : Z := 0x04.
Definition UART_REG_LCR : Z := 0x0c.
Definition UART_REG_LCR_8BIT : Z := 0x03.
Definition UART_REG_LCR_DLAB : Z := 0x80.
Definition UART_REG_MCR : Z := 0x10.
Definition UART_REG_MCR_DTR : Z := 0x01.
Definition UART_REG_MCR_RTS : Z := 0x02.
Definition UART_REG_LSR : Z := 0x14.
Definition UART_REG_LSR_DR : Z := 0x01.
Definition UART_REG_LSR_THRE : Z := 0x20.

Definition UART_BAUDS : Z := 115200.

(** ** The bus *)

(** An access of [n] bytes at an address, on a device state. *)
Class Bus (D : Type) := {
  bus_read : Z -> Z -> D -> Z * D;
  bus_write : Z -> Z -> Z -> D -> D
}.

(** The firmware: its memory, the devices, and the globals of console.c. *)
Record fw (D : Type) := Fw {
  fmem : mem;
  fdev : D;
  uart_is_std : bool;
  uart_base : Z
}.
Arguments Fw {D} _ _ _ _.
Arguments fmem {D} _.
Arguments fdev {D} _.
Arguments uart_is_std {D} _.
Arguments uart_base {D} _.

(** A test of the form [val & MASK]. *)
Definition has_bits (val mask : Z) : bool := negb (Z.land val mask =? 0).

Section console.
Context {D : Type} `{Bus D}.

(** [poll] bounds the busy waiting: the rounds of a wait loop before the
    model gives up with [Fuel]. *)
Context (poll : nat).

Definition with_dev (s : fw D) (d : D) : fw D := Fw (fmem s) d (uart_is_std s) (uart_base s).
Definition with_mem (s : fw D) (m : mem) : fw D := Fw m (fdev s) (uart_is_std s) (uart_base s).

(** A routine that only uses memory. *)
Definition on_mem {A} (c : M mem A) : M (fw D) A := fun s =>
  match c (fmem s) with
  | Ok a m => Ok a (with_mem s m)
  | Err e m => Err e (with_mem s m)
  end.

Definition read_bus (n addr : Z) : M (fw D) Z := fun s =>
  let '(v, d) := bus_read n addr (fdev s) in Ok (v mod 2 ^ (8 * n)) (with_dev s d).

Definition write_bus (n val addr : Z) : M (fw D) unit := fun s =>
  Ok tt (with_dev s (bus_write n addr (val mod 2 ^ (8 * n)) (fdev s))).

Definition readb (addr : Z) : M (fw D) Z := read_bus 1 addr.
Definition readl (addr : Z) : M (fw D) Z := read_bus 4 addr.
Definition readq (addr : Z) : M (fw D) Z := read_bus 8 addr.
Definition writeb (val addr : Z) : M (fw D) unit := write_bus 1 val addr.
Definition writel (val addr : Z) : M (fw D) unit := write_bus 4 val addr.
Definition writeq (val addr : Z) : M (fw D) unit := write_bus 8 val addr.

(** ** The drivers *)

Definition uart_divisor (uart_freq bauds : Z) : Z := uart_freq / (bauds * 16).

Definition potato_uart_reg_read (offset : Z) : M (fw D) Z :=
  base ← gets uart_base; readq (base + offset).

Definition potato_uart_reg_write (offset val : Z) : M (fw D) unit :=
  base ← gets uart_base; writeq val (base + offset).

Definition potato_uart_rx_empty : M (fw D) bool :=
  val ← potato_uart_reg_read POTATO_CONSOLE_STATUS;
  mret (has_bits val POTATO_CONSOLE_STATUS_RX_EMPTY).

Definition potato_uart_tx_full : M (fw D) bool :=
  val ← potato_uart_reg_read POTATO_CONSOLE_STATUS;
  mret (has_bits val POTATO_CONSOLE_STATUS_TX_FULL).

Definition potato_uart_read : M (fw D) Z :=
  val ← potato_uart_reg_read POTATO_CONSOLE_RX;
  mret (u8 (Z.land val 0xff)).

Definition potato_uart_write (c : Z) : M (fw D) unit :=
  potato_uart_reg_write POTATO_CONSOLE_TX (u8 c).

Definition potato_uart_init (uart_freq : Z) : M (fw D) unit :=
  potato_uart_reg_write POTATO_CONSOLE_CLOCK_DIV (u64 (uart_divisor uart_freq UART_BAUDS - 1)).

Definition potato_uart_set_irq_en (rx_irq tx_irq : bool) : M (fw D) unit :=
  let en := if rx_irq then Z.lor 0 POTATO_CONSOLE_IRQ_RX else 0 in
  let en := if tx_irq then Z.lor en POTATO_CONSOLE_IRQ_TX else en in
  potato_uart_reg_write POTATO_CONSOLE_IRQ_EN en.

Definition std_uart_rx_empty : M (fw D) bool :=
  base ← gets uart_base;
  v ← readb (base + UART_REG_LSR);
  mret (negb (has_bits v UART_REG_LSR_DR)).

Definition std_uart_read : M (fw D) Z :=
  base ← gets uart_base; readb (base + UART_REG_RX).

Definition std_uart_tx_full : M (fw D) bool :=
  base ← gets uart_base;
  v ← readb (base + UART_REG_LSR);
  mret (negb (has_bits v UART_REG_LSR_THRE)).

Definition std_uart_write (c : Z) : M (fw D) unit :=
  base ← gets uart_base; writeb (u8 c) (base + UART_REG_TX).

Definition std_uart_set_irq_en (rx_irq tx_irq : bool) : M (fw D) unit :=
  let ier := if tx_irq then Z.lor 0 UART_REG_IER_THRI else 0 in
  let ier := if rx_irq then Z.lor ier UART_REG_IER_RDI else ier in
  base ← gets uart_base; writeb ier (base + UART_REG_IER).

Definition std_uart_init (uart_freq : Z) : M (fw D) unit :=
  let div := uart_divisor uart_freq UART_BAUDS in
  base ← gets uart_base;
  _ ← writeb UART_REG_LCR_DLAB (base + UART_REG_LCR);
  _ ← writeb (Z.land div 0xff) (base + UART_REG_DLL);
  _ ← writeb (Z.shiftr div 8) (base + UART_REG_DLM);
  _ ← writeb UART_REG_LCR_8BIT (base + UART_REG_LCR);
  _ ← writeb (Z.lor UART_REG_MCR_DTR UART_REG_MCR_RTS) (base + UART_REG_MCR);
  writeb (Z.lor (Z.lor UART_REG_FCR_EN_FIFO UART_REG_FCR_CLR_RCVR) UART_REG_FCR_CLR_XMIT)
    (base + UART_REG_FCR).

(** [while (busy()) ;] *)
Definition wait_while (busy : M (fw D) bool) : M (fw D) unit :=
  loop poll (fun _ : unit =>
    b ← busy; mret (if b : bool then inl tt else inr tt)) tt.

(** ** The character functions *)

Definition getchar : M (fw D) Z :=
  is_std ← gets uart_is_std;
  if is_std : bool then _ ← wait_while std_uart_rx_empty; std_uart_read
  else _ ← wait_while potato_uart_rx_empty; potato_uart_read.

Definition putchar (c : Z) : M (fw D) Z :=
  is_std ← gets uart_is_std;
  _ ← (if is_std : bool then _ ← wait_while std_uart_tx_full; std_uart_write c
       else _ ← wait_while potato_uart_tx_full; potato_uart_write c);
  mret c.

Definition puts_step : Z -> M (fw D) (Z + unit) := fun str =>
  c ← on_mem (loadb str);
  if c =? 0 then mret (inr tt) else
  _ ← (if c =? 10 then putchar 13 else mret 0);
  _ ← putchar c;
  mret (inl (str + 1)).

Definition puts (str : Z) : M (fw D) Z := fun s =>
  (_ ← loop (S (size (fmem s))) puts_step str; mret 0) s.

Definition set_uart (std : bool) (base : Z) : M (fw D) unit :=
  modify (fun s => Fw (fmem s) (fdev s) std base).

(** The branch on the kind of UART; [uart_base] is set before the test. *)
Definition console_init : M (fw D) unit :=
  clk ← readq (SYSCON_BASE + SYS_REG_CLKINFO);
  let proc_freq := Z.land clk SYS_REG_CLKINFO_FREQ_MASK in
  sys_info ← readq (SYSCON_BASE + SYS_REG_INFO);
  '(uart_info, uart_freq) ←
    (if has_bits sys_info SYS_REG_INFO_HAS_LARGE_SYSCON then
       uart_info ← readq (SYSCON_BASE + SYS_REG_UART0_INFO);
       mret (uart_info, Z.land uart_info 0xffffffff)
     else mret (0, 0));
  let uart_freq := if uart_freq =? 0 then proc_freq else uart_freq in
  if has_bits uart_info SYS_REG_UART_IS_16550 then
    _ ← set_uart true UART_BASE; std_uart_init proc_freq
  else
    _ ← set_uart false UART_BASE; potato_uart_init proc_freq.

Definition console_set_irq_en (rx_irq tx_irq : bool) : M (fw D) unit :=
  is_std ← gets uart_is_std;
  if is_std : bool then std_uart_set_irq_en rx_irq tx_irq
  else potato_uart_set_irq_en rx_irq tx_irq.
End console.

(** The copy of [strlen] for programs without the C library. *)
Definition console_strlen_step : Z * Z -> M mem (Z * Z + Z) := fun '(s, len) =>
  c ← loadb s; if c =? 0 then mret (inr len) else mret (inl (s + 1, u64 (len + 1))).

Definition console_strlen (s : Z) : M mem Z := mloop console_strlen_step (s, 0).

(** ** What a serial port promises *)

(** Where and how wide its registers are, and how to read its status. *)
Definition io_width (std : bool) : Z := if std then 1 else 8.
Definition status_addr (std : bool) : Z :=
  UART_BASE + (if std then UART_REG_LSR else POTATO_CONSOLE_STATUS).
Definition tx_addr (std : bool) : Z :=
  UART_BASE + (if std then UART_REG_TX else POTATO_CONSOLE_TX).
Definition rx_addr (std : bool) : Z :=
  UART_BASE + (if std then UART_REG_RX else POTATO_CONSOLE_RX).
Definition says_full (std : bool) (v : Z) : bool :=
  if std then negb (Z.testbit v 5) else Z.testbit v 3.
Definition says_empty (std : bool) (v : Z) : bool :=
  if std then negb (Z.testbit v 0) else Z.testbit v 0.

(** The register writes that set the port up at clock [freq]. *)
Definition setup_writes (std : bool) (freq : Z) : list (Z * Z) :=
  let div := freq / (UART_BAUDS * 16) in
  if std then
    [(UART_REG_LCR, 0x80); (UART_REG_DLL, div mod 256); (UART_REG_DLM, div / 256 mod 256);
     (UART_REG_LCR, 3); (UART_REG_MCR, 3); (UART_REG_FCR, 7)]
  else [(POTATO_CONSOLE_CLOCK_DIV, u64 (div - 1))].

Definition run_writes {D} `{Bus D} (n : Z) (l : list (Z * Z)) (d : D) : D :=
  foldl (fun d '(off, v) => bus_write n (UART_BASE + off) v d) d l.

(** A port whose transmitter is free again after at most [max_wait] looks at
    its status, and likewise for a character that has come in. *)
Class Uart (D : Type) `{Bus D} (std : bool) := {
  uart_fresh : D -> Prop;
  uart_inv : D -> Prop;
  sent : D -> list Z;
  pending : D -> list Z;
  tx_wait : D -> nat;
  rx_wait : D -> nat;
  max_wait : nat;
  wait_bound d : uart_inv d -> (tx_wait d <= max_wait /\ rx_wait d <= max_wait)%nat;
  setup_ok d freq : uart_fresh d -> 0 <= freq ->
    let d' := run_writes (io_width std) (setup_writes std freq) d in
    uart_inv d' /\ sent d' = sent d;
  status_ok d : uart_inv d -> exists v d',
    bus_read (io_width std) (status_addr std) d = (v, d') /\ uart_inv d' /\
    sent d' = sent d /\ pending d' = pending d /\
    says_full std v = (0 <? tx_wait d)%nat /\ tx_wait d' = pred (tx_wait d) /\
    says_empty std v = bool_decide (pending d = []) || (0 <? rx_wait d)%nat /\
    rx_wait d' = pred (rx_wait d);
  tx_ok d c : uart_inv d -> tx_wait d = O -> in_u8 c ->
    let d' := bus_write (io_width std) (tx_addr std) c d in
    uart_inv d' /\ sent d' = sent d ++ [c] /\ pending d' = pending d;
  rx_ok d c l : uart_inv d -> rx_wait d = O -> pending d = c :: l -> exists v d',
    bus_read (io_width std) (rx_addr std) d = (v, d') /\ v mod 2 ^ 8 = c /\
    uart_inv d' /\ sent d' = sent d /\ pending d' = l
}.

(** The system controller answers reads from a register file, but for its
    control register, which can be written, and reading it has no effect. *)
Class Syscon (D : Type) `{Bus D} (regs : Z -> Z) := {
  syscon_read off d : 0 <= off < 0x1000 -> off <> SYS_REG_CTRL ->
    bus_read 8 (SYSCON_BASE + off) d = (regs off, d)
}.

(** ** The drivers keep the promise *)

Lemma has_bits_pow2 v k : 0 <= k -> has_bits v (2 ^ k) = Z.testbit v k.
Proof. intros Hk. unfold has_bits. rewrite land_pow2 by done. apply negb_involutive. Qed.

Lemma has_bits_masked v k w : 0 <= k < w -> has_bits (v mod 2 ^ w) (2 ^ k) = Z.testbit v k.
Proof. intros Hk. rewrite has_bits_pow2 by lia. by rewrite Z.mod_pow2_bits_low by lia. Qed.

(** The driver's tests and transfers, chosen by the kind of port. *)
Definition tx_full {D} `{Bus D} (std : bool) : M (fw D) bool :=
  if std then std_uart_tx_full else potato_uart_tx_full.
Definition rx_empty {D} `{Bus D} (std : bool) : M (fw D) bool :=
  if std then std_uart_rx_empty else potato_uart_rx_empty.

Lemma status_run {D} `{Bus D} std (s : fw D) v d' :
  uart_base s = UART_BASE -> bus_read (io_width std) (status_addr std) (fdev s) = (v, d') ->
  tx_full std s = Ok (says_full std v) (with_dev s d') /\
  rx_empty std s = Ok (says_empty std v) (with_dev s d').
Proof.
  intros Hb. unfold tx_full, rx_empty, says_full, says_empty, status_addr, io_width.
  destruct std; intros Hr;
  unfold std_uart_tx_full, std_uart_rx_empty, potato_uart_tx_full, potato_uart_rx_empty,
    potato_uart_reg_read, readb, readq, gets, mbind, M_bind, read_bus, mret, M_ret;
  rewrite Hb, Hr.
  - rewrite <- (has_bits_masked v 5 8), <- (has_bits_masked v 0 8) by lia. done.
  - rewrite <- (has_bits_masked v 3 64), <- (has_bits_masked v 0 64) by lia. done.
Qed.

Lemma write_run {D} `{Bus D} (std : bool) c (s : fw D) :
  uart_base s = UART_BASE ->
  (if std then std_uart_write c else potato_uart_write c) s =
    Ok tt (with_dev s (bus_write (io_width std) (tx_addr std) (u8 c) (fdev s))).
Proof.
  intros Hb. pose proof (u8_range c). destruct std.
  - unfold std_uart_write, gets, mbind, M_bind, writeb, write_bus. rewrite Hb.
    do 3 f_equal. apply Z.mod_small. lia.
  - unfold potato_uart_write, potato_uart_reg_write, gets, mbind, M_bind, writeq, write_bus.
    rewrite Hb. do 3 f_equal. apply Z.mod_small. lia.
Qed.

Lemma read_run {D} `{Bus D} (std : bool) (s : fw D) v d' :
  uart_base s = UART_BASE -> bus_read (io_width std) (rx_addr std) (fdev s) = (v, d') ->
  (if std then std_uart_read else potato_uart_read) s = Ok (v mod 2 ^ 8) (with_dev s d').
Proof.
  intros Hb. unfold io_width, rx_addr. destruct std; intros Hr.
  - unfold std_uart_read, gets, mbind, M_bind, readb, read_bus. by rewrite Hb, Hr.
  - unfold potato_uart_read, potato_uart_reg_read, gets, mbind, M_bind, readq, read_bus.
    rewrite Hb, Hr. unfold mret, M_ret. change (8 * 8) with 64. f_equal. unfold u8. apply Z.bits_inj'. intros i Hi.
    change 0xff with (Z.ones 8). rewrite Z.land_ones by lia.
    rewrite !testbit_mod_pow2 by lia. destruct (Z.ltb_spec i 8); [|done].
    by rewrite (proj2 (Z.ltb_lt i 64)) by lia.
Qed.

Lemma putchar_run {D} `{Bus D} poll std c (s s1 : fw D) d :
  uart_is_std s = std -> uart_base s1 = UART_BASE ->
  wait_while poll (tx_full std) s = Ok tt s1 ->
  bus_write (io_width std) (tx_addr std) (u8 c) (fdev s1) = d ->
  putchar poll c s = Ok c (with_dev s1 d).
Proof.
  intros Hs Hb Hw <-. unfold putchar. erewrite bind_ok by reflexivity. rewrite Hs.
  pose proof (write_run std c s1 Hb) as Hrun. unfold tx_full in Hw.
  erewrite bind_ok; [reflexivity|]. destruct std; by erewrite bind_ok by exact Hw.
Qed.

Lemma getchar_run {D} `{Bus D} poll std (s s1 : fw D) v d :
  uart_is_std s = std -> uart_base s1 = UART_BASE ->
  wait_while poll (rx_empty std) s = Ok tt s1 ->
  bus_read (io_width std) (rx_addr std) (fdev s1) = (v, d) ->
  getchar poll s = Ok (v mod 2 ^ 8) (with_dev s1 d).
Proof.
  intros Hs Hb Hw Hr. unfold getchar. erewrite bind_ok by reflexivity. rewrite Hs.
  pose proof (read_run std s1 v d Hb Hr) as Hrun. unfold rx_empty in Hw.
  destruct std; by erewrite bind_ok by exact Hw.
Qed.

Section driver.
Context {D : Type} `{Bus D} {std : bool} {U : Uart D std}.
Context (poll : nat).
Hypothesis poll_enough : (max_wait < poll)%nat.

(** The console is set up for this port. *)
Record console_ok (s : fw D) : Prop := {
  console_std : uart_is_std s = std;
  console_base : uart_base s = UART_BASE;
  console_inv : uart_inv (fdev s)
}.

(** Only the port has changed: it has sent [t], and [inp] is left to read. *)
Definition traffic (s : fw D) (t inp : list Z) (s' : fw D) : Prop :=
  exists d', s' = with_dev s d' /\ uart_inv d' /\ sent d' = sent (fdev s) ++ t /\ pending d' = inp.

Definition emits (s : fw D) (t : list Z) (s' : fw D) : Prop :=
  traffic s t (pending (fdev s)) s'.

Lemma traffic_ok s t inp s' : console_ok s -> traffic s t inp s' -> console_ok s'.
Proof. intros [] (d' & -> & ? & _ & _). by split. Qed.

Lemma traffic_mem s t inp s' : traffic s t inp s' -> fmem s' = fmem s.
Proof. by intros (d' & -> & _). Qed.

Lemma traffic_trans s s1 s2 t1 i1 t2 i2 :
  traffic s t1 i1 s1 -> traffic s1 t2 i2 s2 -> traffic s (t1 ++ t2) i2 s2.
Proof.
  intros (d1 & -> & _ & H1 & _) (d2 & -> & ? & H2 & ?). exists d2. simpl in H2.
  by rewrite H2, H1, app_assoc.
Qed.

Lemma emits_refl s : console_ok s -> emits s [] s.
Proof. intros []. exists (fdev s). rewrite app_nil_r. by destruct s. Qed.

Lemma emits_trans s s1 s2 t1 t2 : emits s t1 s1 -> emits s1 t2 s2 -> emits s (t1 ++ t2) s2.
Proof.
  intros H1 H2. pose proof H1 as (d1 & -> & _ & _ & Hp). unfold emits in *.
  cbn [fdev with_dev] in H2. rewrite Hp in H2. by eapply traffic_trans.
Qed.

Lemma status_read s : console_ok s -> exists v d',
  bus_read (io_width std) (status_addr std) (fdev s) = (v, d') /\ uart_inv d' /\
  sent d' = sent (fdev s) /\ pending d' = pending (fdev s) /\
  says_full std v = (0 <? tx_wait (fdev s))%nat /\ tx_wait d' = pred (tx_wait (fdev s)) /\
  says_empty std v = bool_decide (pending (fdev s) = []) || (0 <? rx_wait (fdev s))%nat /\
  rx_wait d' = pred (rx_wait (fdev s)).
Proof. intros []. by apply status_ok. Qed.

Lemma wait_tx f s : console_ok s -> (tx_wait (fdev s) < f)%nat ->
  exists d', uart_inv d' /\ tx_wait d' = O /\
  sent d' = sent (fdev s) /\ pending d' = pending (fdev s) /\
  wait_while f (tx_full std) s = Ok tt (with_dev s d').
Proof.
  unfold wait_while. revert s. induction f as [|f IH]; intros s Hs Hlt; [lia|].
  destruct (status_read s Hs) as (v & d' & Hr & Hi & Ho & Hp & Hf & Hw & _ & _).
  pose proof Hs as [_ Hb _]. destruct (status_run std s v d' Hb Hr) as [Hrun _]. rewrite Hf in Hrun.
  destruct (Nat.ltb_spec 0 (tx_wait (fdev s))).
  - destruct (IH (with_dev s d')) as (d2 & ? & ? & Ho2 & Hp2 & Hrun2).
    + destruct Hs. by split.
    + simpl. lia.
    + exists d2. rewrite Ho2, Hp2. split_and!; try done.
      erewrite loop_continue by (by run_with (exact Hrun)). exact Hrun2.
  - exists d'. split_and!; try done; [lia|].
    apply loop_break. by run_with (exact Hrun).
Qed.

Lemma wait_rx f s : console_ok s -> pending (fdev s) <> [] -> (rx_wait (fdev s) < f)%nat ->
  exists d', uart_inv d' /\ rx_wait d' = O /\
  sent d' = sent (fdev s) /\ pending d' = pending (fdev s) /\
  wait_while f (rx_empty std) s = Ok tt (with_dev s d').
Proof.
  unfold wait_while. revert s. induction f as [|f IH]; intros s Hs Hne Hlt; [lia|].
  destruct (status_read s Hs) as (v & d' & Hr & Hi & Ho & Hp & _ & _ & Hf & Hw).
  pose proof Hs as [_ Hb _]. destruct (status_run std s v d' Hb Hr) as [_ Hrun]. rewrite Hf in Hrun.
  rewrite bool_decide_false in Hrun by done. cbn [orb] in Hrun.
  destruct (Nat.ltb_spec 0 (rx_wait (fdev s))).
  - destruct (IH (with_dev s d')) as (d2 & ? & ? & Ho2 & Hp2 & Hrun2).
    + destruct Hs. by split.
    + simpl. by rewrite Hp.
    + simpl. lia.
    + exists d2. rewrite Ho2, Hp2. split_and!; try done.
      erewrite loop_continue by (by run_with (exact Hrun)). exact Hrun2.
  - exists d'. split_and!; try done; [lia|].
    apply loop_break. by run_with (exact Hrun).
Qed.

Lemma putchar_ok c s : console_ok s ->
  exists s', putchar poll c s = Ok c s' /\ emits s [u8 c] s'.
Proof.
  intros Hs. pose proof (wait_bound _ (console_inv _ Hs)) as [Hw _].
  destruct (wait_tx poll s Hs ltac:(lia)) as (d1 & Hi & Hz & Ho & Hp & Hrun).
  destruct (tx_ok d1 (u8 c) Hi Hz (u8_range c)) as (Hi2 & Ho2 & Hp2).
  eexists. split; [eapply (putchar_run poll std c s); [apply Hs| |exact Hrun|reflexivity]; apply Hs|].
  exists (bus_write (io_width std) (tx_addr std) (u8 c) d1). by rewrite Ho2, Hp2, Ho, Hp.
Qed.

Lemma getchar_ok s c l : console_ok s -> pending (fdev s) = c :: l ->
  exists s', getchar poll s = Ok c s' /\ traffic s [] l s'.
Proof.
  intros Hs Hin. pose proof (wait_bound _ (console_inv _ Hs)) as [_ Hw].
  destruct (wait_rx poll s Hs ltac:(by rewrite Hin) ltac:(lia)) as (d1 & Hi & Hz & Ho & Hp & Hrun).
  rewrite Hin in Hp. destruct (rx_ok d1 c l Hi Hz Hp) as (v & d2 & Hr & Hv & Hi2 & Ho2 & Hp2).
  eexists. split.
  - erewrite (getchar_run poll std s); [by rewrite Hv|apply Hs| |exact Hrun|exact Hr]. apply Hs.
  - exists d2. by rewrite Ho2, Ho, app_nil_r.
Qed.

Lemma puts_round c s : console_ok s -> in_u8 c -> exists s1 x,
  ((if c =? 10 then putchar poll 13 else mret 0) ≫= fun _ => putchar poll c) s = Ok x s1 /\
  emits s (if c =? 10 then [13; 10] else [c]) s1.
Proof.
  intros Hs Hu. destruct (Z.eqb_spec c 10) as [->|].
  - destruct (putchar_ok 13 s Hs) as (s1 & Hr1 & H1).
    destruct (putchar_ok 10 s1 (traffic_ok _ _ _ _ Hs H1)) as (s2 & Hr2 & H2).
    exists s2, 10. split; [by run_with (exact Hr1)|]. exact (emits_trans _ _ _ _ _ H1 H2).
  - destruct (putchar_ok c s Hs) as (s1 & Hr1 & H1). rewrite u8_small in H1 by done. by exists s1, c.
Qed.
End driver.

(** What [puts] sends: a carriage return before each line feed. *)
Definition crlf (l : list Z) : list Z :=
  flat_map (fun c => if c =? 10 then [13; 10] else [c]) l.

Lemma crlf_app l1 l2 : crlf (l1 ++ l2) = crlf l1 ++ crlf l2.
Proof. apply flat_map_app. Qed.

Section strings.
Context {D : Type} `{Bus D} {std : bool} {U : Uart D std}.
Context (poll : nat).
Hypothesis poll_enough : (max_wait < poll)%nat.

Lemma on_mem_loadb (s : fw D) p c : fmem s !! p = Some c -> on_mem (loadb p) s = Ok c s.
Proof. intros Hp. unfold on_mem. rewrite (loadb_ok _ _ _ Hp). by destruct s. Qed.

Lemma puts_loop l : forall s str f, console_ok s -> mem_ok (fmem s) -> cstr (fmem s) str l ->
  (length l < f)%nat ->
  exists s', loop f (puts_step poll) str s = Ok tt s' /\ emits s (crlf l) s'.
Proof.
  induction l as [|c l IH]; intros s str f Hs Hok Hstr Hf; (destruct f as [|f]; [simpl in Hf; lia|]).
  - apply cstr_nil in Hstr. exists s. split; [|by apply emits_refl].
    apply loop_break. unfold puts_step. by run_with (by apply on_mem_loadb).
  - pose proof (cstr_in_u8 _ _ _ Hok Hstr) as Hu. apply Forall_cons_iff in Hu as [Hu _].
    apply cstr_cons in Hstr as (Hc & Hc0 & Hstr). cbn [length] in Hf.
    destruct (puts_round poll poll_enough c s Hs Hu) as (s1 & x & Hrun & H1).
    pose proof (traffic_mem _ _ _ _ H1) as Hm.
    destruct (IH s1 (str + 1) f) as (s2 & Hrun2 & H2);
      [by eapply traffic_ok|by rewrite Hm|by rewrite Hm|lia|].
    exists s2. split; [|exact (emits_trans _ _ _ _ _ H1 H2)].
    rewrite <- Hrun2. apply loop_continue. unfold puts_step. run_with (by apply on_mem_loadb).
    if_false. unfold mbind, M_bind in *.
    destruct ((if c =? 10 then putchar poll 13 else mret 0) s); [|done]. by rewrite Hrun.
Qed.

Lemma puts_ok l s str : console_ok s -> mem_ok (fmem s) -> cstr (fmem s) str l ->
  exists s', puts poll str s = Ok 0 s' /\ emits s (crlf l) s'.
Proof.
  intros Hs Hok Hstr. pose proof (cstr_size _ _ _ Hstr) as Hsz.
  destruct (puts_loop l s str (S (size (fmem s))) Hs Hok Hstr ltac:(lia)) as (s' & Hrun & He).
  exists s'. split; [|done]. unfold puts. by run_with (exact Hrun).
Qed.
End strings.

(** ** Setting the console up *)

Lemma setup_run {D} `{Bus D} (std : bool) freq (s : fw D) :
  uart_base s = UART_BASE -> 0 <= freq ->
  (if std then std_uart_init freq else potato_uart_init freq) s =
    Ok tt (with_dev s (run_writes (io_width std) (setup_writes std freq) (fdev s))).
Proof.
  intros Hb Hf. destruct std.
  - unfold std_uart_init, gets, mbind, M_bind, writeb, write_bus. rewrite Hb.
    unfold uart_divisor, run_writes, setup_writes, io_width. cbn [foldl fdev with_dev fmem uart_is_std uart_base].
    change 0xff with (Z.ones 8). rewrite Z.land_ones, Z.shiftr_div_pow2 by lia.
    change (2 ^ (8 * 1)) with 256. change (2 ^ 8) with 256. by rewrite Z.mod_mod by lia.
  - unfold potato_uart_init, potato_uart_reg_write, gets, mbind, M_bind, writeq, write_bus.
    rewrite Hb. unfold run_writes, setup_writes, uart_divisor, u64. cbn [foldl].
    change (2 ^ (8 * 8)) with (2 ^ 64). by rewrite Z.mod_mod by lia.
Qed.

(** What the system controller says of the UART. *)
Definition is_16550 (regs : Z -> Z) : bool :=
  Z.testbit (regs SYS_REG_INFO) 5 && Z.testbit (regs SYS_REG_UART0_INFO) 32.

Section init.
Context {D : Type} `{Bus D} {regs : Z -> Z} `{!Syscon D regs}.

Lemma readq_syscon off (s : fw D) : 0 <= off < 0x1000 -> off <> SYS_REG_CTRL ->
  readq (SYSCON_BASE + off) s = Ok (u64 (regs off)) s.
Proof. intros. unfold readq, read_bus. rewrite syscon_read by done. by destruct s. Qed.

Lemma has_bit_reg off k : 0 <= k < 64 ->
  has_bits (u64 (regs off)) (Z.shiftl 1 k) = Z.testbit (regs off) k.
Proof. intros. rewrite Z.shiftl_1_l. by apply (has_bits_masked _ _ 64). Qed.

Definition proc_freq : Z := Z.land (u64 (regs SYS_REG_CLKINFO)) SYS_REG_CLKINFO_FREQ_MASK.

Lemma proc_freq_range : 0 <= proc_freq < 2 ^ 40.
Proof.
  unfold proc_freq, SYS_REG_CLKINFO_FREQ_MASK. change 0xffffffffff with (Z.ones 40).
  rewrite Z.land_ones by lia. apply Z.mod_pos_bound. lia.
Qed.

Lemma console_init_run (s : fw D) :
  console_init s =
    (if is_16550 regs then std_uart_init proc_freq else potato_uart_init proc_freq)
      (Fw (fmem s) (fdev s) (is_16550 regs) UART_BASE).
Proof.
  unfold console_init. run_with (by apply readq_syscon). cbv zeta. fold proc_freq.
  run_with (by apply readq_syscon). unfold SYS_REG_INFO_HAS_LARGE_SYSCON.
  rewrite has_bit_reg by lia. unfold is_16550. destruct (Z.testbit (regs SYS_REG_INFO) 5).
  - run_with (run_with (by apply readq_syscon); reflexivity).
    unfold SYS_REG_UART_IS_16550. rewrite has_bit_reg by lia. cbn [andb].
    by destruct (Z.testbit (regs SYS_REG_UART0_INFO) 32).
  - by run_with (reflexivity).
Qed.

Lemma console_init_ok `{!Uart D (is_16550 regs)} (s : fw D) :
  uart_fresh (fdev s) -> exists s', console_init s = Ok tt s' /\ console_ok s' /\
    fmem s' = fmem s /\ sent (fdev s') = sent (fdev s).
Proof.
  intros Hf. pose proof proc_freq_range.
  destruct (setup_ok (fdev s) proc_freq Hf ltac:(lia)) as (Hi & Ho).
  eexists. split; [rewrite console_init_run; apply setup_run; [done|lia]|].
  split; [by split|]. done.
Qed.
End init.

(** ** Two concrete ports *)

(** The 16550: the divisor latch shares its addresses with the data and
    interrupt registers and [DLAB] chooses.  A character takes [tx_busy] looks
    at the status to leave, and one to come in. *)
Record port16550 := Port16550 {
  lcr : Z; dll : Z; dlm : Z; ier : Z; mcr : Z; fcr : Z;
  tx_log : list Z; tx_busy : nat; rx_queue : list Z; rx_busy : nat
}.

Definition lsr (p : port16550) : Z :=
  (if (0 <? tx_busy p)%nat then 0 else UART_REG_LSR_THRE) +
  (if bool_decide (rx_queue p = []) || (0 <? rx_busy p)%nat then 0 else UART_REG_LSR_DR).

Definition read16550 (off : Z) (p : port16550) : Z * port16550 :=
  if off =? UART_REG_LSR then
    (lsr p, Port16550 (lcr p) (dll p) (dlm p) (ier p) (mcr p) (fcr p) (tx_log p)
       (pred (tx_busy p)) (rx_queue p) (pred (rx_busy p)))
  else if (off =? UART_REG_RX) && negb (Z.testbit (lcr p) 7) then
    (hd 0 (rx_queue p), Port16550 (lcr p) (dll p) (dlm p) (ier p) (mcr p) (fcr p) (tx_log p)
       (tx_busy p) (tl (rx_queue p)) 1)
  else (0, p).

Definition write16550 (off v : Z) (p : port16550) : port16550 :=
  let 'Port16550 l a b i m f o w q r := p in
  if off =? UART_REG_LCR then Port16550 v a b i m f o w q r
  else if off =? UART_REG_MCR then Port16550 l a b i v f o w q r
  else if off =? UART_REG_FCR then
    Port16550 l a b i m v o w (if Z.testbit v 1 then [] else q) r
  else if off =? UART_REG_DLL then
    if Z.testbit l 7 then Port16550 l v b i m f o w q r
    else Port16550 l a b i m f (o ++ [v]) 2 q r
  else if off =? UART_REG_DLM then
    if Z.testbit l 7 then Port16550 l a v i m f o w q r
    else Port16550 l a b v m f o w q r
  else p.

(** The simpler port: one register per function. *)
Record potato_port := PotatoPort {
  clock_div : Z; irq_en : Z;
  p_log : list Z; p_busy : nat; p_queue : list Z
}.

Definition potato_status (p : potato_port) : Z :=
  (if bool_decide (p_queue p = []) then POTATO_CONSOLE_STATUS_RX_EMPTY else 0) +
  (if (0 <? p_busy p)%nat then POTATO_CONSOLE_STATUS_TX_FULL else 0).

Definition read_potato (off : Z) (p : potato_port) : Z * potato_port :=
  if off =? POTATO_CONSOLE_STATUS then
    (potato_status p, PotatoPort (clock_div p) (irq_en p) (p_log p) (pred (p_busy p)) (p_queue p))
  else if off =? POTATO_CONSOLE_RX then
    (hd 0 (p_queue p), PotatoPort (clock_div p) (irq_en p) (p_log p) (p_busy p) (tl (p_queue p)))
  else (0, p).

Definition write_potato (off v : Z) (p : potato_port) : potato_port :=
  let 'PotatoPort c i o w q := p in
  if off =? POTATO_CONSOLE_TX then PotatoPort c i (o ++ [u8 v]) 3 q
  else if off =? POTATO_CONSOLE_CLOCK_DIV then PotatoPort v i o w q
  else if off =? POTATO_CONSOLE_IRQ_EN then PotatoPort c v o w q
  else p.

(** A board: the system controller at [SYSCON_BASE] and a port. *)
Class Port (P : Type) := {
  port_read : Z -> P -> Z * P;
  port_write : Z -> Z -> P -> P
}.

#[global] Instance port16550_port : Port port16550 :=
  {| port_read := read16550; port_write := write16550 |}.
#[global] Instance potato_port_port : Port potato_port :=
  {| port_read := read_potato; port_write := write_potato |}.

Section board.
Context (regs : Z -> Z) (P : Type) `{Port P}.

Record board := Board { b_port : P }.

Definition in_uart (addr : Z) : bool := (UART_BASE <=? addr) && (addr <? UART_BASE + 0x1000).

#[global] Instance board_bus : Bus board := {|
  bus_read n addr b :=
    if in_uart addr then
      let '(v, p) := port_read (addr - UART_BASE) (b_port b) in (v, Board p)
    else (regs (addr - SYSCON_BASE), b);
  bus_write n addr v b :=
    if in_uart addr then Board (port_write (addr - UART_BASE) v (b_port b)) else b
|}.

#[global] Instance board_syscon : Syscon board regs.
Proof.
  split. intros off d Hoff _. cbn. unfold in_uart, SYSCON_BASE, UART_BASE in *. if_false.
  do 2 f_equal. lia.
Qed.
End board.
Arguments Board {P} _.
Arguments b_port {P} _.

(** The 16550 is ready for characters when [DLAB] is off. *)
Definition ready16550 (p : port16550) : Prop :=
  Z.testbit (lcr p) 7 = false /\ (tx_busy p <= 2)%nat /\ (rx_busy p <= 1)%nat /\
  Forall in_u8 (rx_queue p).

Definition idle16550 (p : port16550) : Prop :=
  (tx_busy p <= 2)%nat /\ (rx_busy p <= 1)%nat /\ Forall in_u8 (rx_queue p).

#[global] Program Instance uart16550 regs : @Uart (board port16550) (board_bus regs port16550) true := {|
  uart_fresh b := idle16550 (b_port b);
  uart_inv b := ready16550 (b_port b);
  sent b := tx_log (b_port b);
  pending b := rx_queue (b_port b);
  tx_wait b := tx_busy (b_port b);
  rx_wait b := rx_busy (b_port b);
  max_wait := 2
|}.
Next Obligation. intros regs [p] (_ & ? & ? & _). simpl in *. lia. Qed.
Next Obligation.
  intros regs [[]] freq (? & ? & ?) Hf. simpl in *. unfold ready16550. simpl. repeat split; done.
Qed.
Next Obligation.
  intros regs [[l a b i m f o w q r]] (Hl & Hw & Hr & Hq). simpl in *.
  do 2 eexists. split; [reflexivity|]. unfold ready16550, lsr. simpl.
  split_and!; try done; try lia; destruct (0 <? w)%nat, (bool_decide (q = []) || (0 <? r)%nat); done.
Qed.
Next Obligation.
  intros regs [[l a b i m f o w q r]] c (Hl & Hw & Hr & Hq) Hz Hc. simpl in *.
  unfold ready16550, port_write, port16550_port, write16550. simpl. rewrite Hl. simpl.
  split_and!; done || lia.
Qed.
Next Obligation.
  intros regs [[l a b i m f o w q r]] c k (Hl & Hw & Hr & Hq) Hz Hp. simpl in *. subst q.
  apply Forall_cons_iff in Hq as [Hc Hq].
  do 2 eexists. split; [unfold read16550; simpl; rewrite Hl; reflexivity|].
  unfold ready16550. simpl. split_and!; try done; try lia. apply Z.mod_small. exact Hc.
Qed.

Definition potato_idle (p : potato_port) : Prop :=
  (p_busy p <= 3)%nat /\ Forall in_u8 (p_queue p).

#[global] Program Instance uart_potato regs : @Uart (board potato_port) (board_bus regs potato_port) false := {|
  uart_fresh b := potato_idle (b_port b);
  uart_inv b := potato_idle (b_port b);
  sent b := p_log (b_port b);
  pending b := p_queue (b_port b);
  tx_wait b := p_busy (b_port b);
  rx_wait b := O;
  max_wait := 3
|}.
Next Obligation. intros regs [p] (? & _). simpl in *. lia. Qed.
Next Obligation. intros regs [[]] freq (? & ?) Hf. simpl in *. done. Qed.
Next Obligation.
  intros regs [[c i o w q]] (Hw & Hq). simpl in *.
  do 2 eexists. split; [reflexivity|]. unfold potato_idle, potato_status. simpl.
  split_and!; try done; try lia; destruct (0 <? w)%nat, (bool_decide (q = [])); done.
Qed.
Next Obligation.
  intros regs [[k i o w q]] c (Hw & Hq) Hz Hc. simpl in *.
  unfold potato_idle. simpl. rewrite u8_small by done. split_and!; done || lia.
Qed.
Next Obligation.
  intros regs [[k i o w q]] c l (Hw & Hq) Hz Hp. simpl in *. subst q.
  apply Forall_cons_iff in Hq as [Hc Hq].
  do 2 eexists. split; [reflexivity|].
  unfold potato_idle. simpl. split_and!; try done; try lia. apply Z.mod_small. exact Hc.
Qed.

(** ** Correctness *)

(** On any port that keeps the promise, [puts] returns zero and sends the
    string with a carriage return before each line feed, one character at a
    time and waiting for the transmitter; memory and input are left alone. *)
Theorem puts_correct {D} `{Bus D} {std} `{!Uart D std} poll l (s : fw D) str :
  (max_wait < poll)%nat -> console_ok s -> mem_ok (fmem s) -> cstr (fmem s) str l ->
  exists s', puts poll str s = Ok 0 s' /\ emits s (crlf l) s'.
Proof. intros. by apply puts_ok. Qed.

(** A board with a 16550 at 100 MHz and one with the simpler port. *)
Definition regs16550 (off : Z) : Z :=
  if off =? SYS_REG_INFO then 33
  else if off =? SYS_REG_UART0_INFO then 2 ^ 32 + 50000000
  else if off =? SYS_REG_CLKINFO then 100000000
  else if off =? SYS_REG_GIT_INFO then 2 ^ 63 + 0xabc0123456789e
  else 0.

Definition new16550 (inp : list Z) : board port16550 :=
  Board (Port16550 128 0 0 0 0 0 [] 2 inp 1).

Definition hello_mem : mem := write_bytes 64 [72; 105; 10; 0] ∅.

Lemma puts_correct_witness :
  let s := @Fw (board port16550) hello_mem
             (Board (Port16550 3 0 0 0 0 0 [] 2 [] 1)) true UART_BASE in
  exists s', @puts _ (board_bus regs16550 port16550) 5 64 s = Ok 0 s' /\
    @emits _ _ _ (uart16550 regs16550) s [72; 105; 13; 10] s'.
Proof.
  intros s.
  apply (@puts_correct _ _ _ (uart16550 regs16550) 5 [72; 105; 10] s 64); [simpl; lia| | |].
  - split; [done|done|]. repeat split; [simpl; lia|simpl; lia|constructor].
  - decide_now.
  - decide_now.
Defined.

(** [getchar] waits for the next character that comes in and returns it;
    nothing is sent and the characters after it stay. *)
Theorem getchar_correct {D} `{Bus D} {std} `{!Uart D std} poll (s : fw D) c l :
  (max_wait < poll)%nat -> console_ok s -> pending (fdev s) = c :: l ->
  exists s', getchar poll s = Ok c s' /\ traffic s [] l s'.
Proof. intros. by apply getchar_ok. Qed.

Lemma getchar_correct_witness :
  let s := @Fw (board potato_port) ∅ (Board (PotatoPort 0 0 [] 0 [88; 89])) false UART_BASE in
  exists s', @getchar _ (board_bus regs16550 potato_port) 5 s = Ok 88 s' /\
    @traffic _ _ _ (uart_potato regs16550) s [] [89] s'.
Proof.
  intros s.
  apply (@getchar_correct _ _ _ (uart_potato regs16550) 5 s 88 [89]); [simpl; lia| |done].
  split; [done|done|]. repeat split; [simpl; lia|]. repeat constructor; lia.
Defined.

(** [console_init] picks the driver the system controller asks for and
    leaves the port it found ready for characters, having sent none. *)
Theorem console_init_correct {D} `{Bus D} {regs} `{!Syscon D regs} `{!Uart D (is_16550 regs)}
    (s : fw D) :
  uart_fresh (fdev s) -> exists s', console_init s = Ok tt s' /\ console_ok s' /\
    fmem s' = fmem s /\ sent (fdev s') = sent (fdev s).
Proof. apply console_init_ok. Qed.

Lemma console_init_correct_witness :
  exists s', @console_init _ (board_bus regs16550 port16550) (Fw ∅ (new16550 [1]) false 0) = Ok tt s' /\
    @console_ok _ _ true (uart16550 regs16550) s' /\ fmem s' = ∅ /\ tx_log (b_port (fdev s')) = [].
Proof.
  apply (@console_init_correct _ _ regs16550 _ (uart16550 regs16550)).
  repeat split; [simpl; lia|simpl; lia|]. repeat constructor; lia.
Defined.

(** On a 16550, [console_init] programs the divisor for 115200 baud from
    the core clock (its low 16 bits), selects eight data bits with the divisor
    latch closed, and no latch byte is sent as a character. *)
Theorem console_init_divisor regs p m std base :
  is_16550 regs = true -> exists s',
    @console_init _ (board_bus regs port16550) (Fw m (Board p) std base) = Ok tt s' /\
    dll (b_port (fdev s')) + 256 * dlm (b_port (fdev s')) =
      (regs SYS_REG_CLKINFO mod 2 ^ 40) / (115200 * 16) mod 2 ^ 16 /\
    lcr (b_port (fdev s')) = 3 /\ tx_log (b_port (fdev s')) = tx_log p.
Proof.
  intros Hk. eexists. split.
  - rewrite (console_init_run (regs := regs)), Hk.
    apply (setup_run true); [done|apply proc_freq_range].
  - destruct p. cbn. split; [|done]. unfold proc_freq, SYS_REG_CLKINFO_FREQ_MASK.
    change 0xffffffffff with (Z.ones 40). rewrite Z.land_ones by lia. unfold u64.
    rewrite Z.mod_mod_divide by (by exists (2 ^ 24)).
    change (UART_BAUDS * 16) with (115200 * 16). set (x := _ / (115200 * 16)).
    change (2 ^ 16) with (256 * 256). by rewrite Z.rem_mul_r by lia.
Qed.

Lemma console_init_divisor_witness :
  exists s', @console_init _ (board_bus regs16550 port16550) (Fw ∅ (new16550 []) false 0) = Ok tt s' /\
    dll (b_port (fdev s')) + 256 * dlm (b_port (fdev s')) = 54 /\
    lcr (b_port (fdev s')) = 3 /\ tx_log (b_port (fdev s')) = [].
Proof.
  apply (console_init_divisor regs16550 (Port16550 128 0 0 0 0 0 [] 2 [] 1) ∅ false 0).
  reflexivity.
Defined.

(** The UART clock the system controller reports is not used: this board says
    50 MHz, and the divisor is that of the 100 MHz core. *)
Lemma console_init_ignores_uart_clock :
  u32 (regs16550 SYS_REG_UART0_INFO) / (115200 * 16) = 27 /\
  exists s', @console_init _ (board_bus regs16550 port16550) (Fw ∅ (new16550 []) false 0) = Ok tt s' /\
    dll (b_port (fdev s')) = 54.
Proof. split; [reflexivity|]. eexists. split; [vm_compute; reflexivity|]. reflexivity. Qed.

(** The interrupt enables land in the bits the port defines. *)
Lemma console_set_irq_en_16550 regs p m rx tx :
  Z.testbit (lcr p) 7 = false -> exists p',
    @console_set_irq_en _ (board_bus regs port16550) rx tx (Fw m (Board p) true UART_BASE) =
      Ok tt (Fw m (Board p') true UART_BASE) /\
    ier p' = b2z rx + 2 * b2z tx /\ tx_log p' = tx_log p.
Proof.
  intros Hl. exists (write16550 UART_REG_IER (b2z rx + 2 * b2z tx) p).
  split; [by destruct rx, tx|]. destruct p. unfold write16550. cbn [lcr] in Hl.
  change (UART_REG_IER =? UART_REG_LCR) with false. cbn -[Z.testbit]. by rewrite Hl.
Qed.

(** The local [strlen] is the C library's. *)
Lemma console_strlen_same s : console_strlen s = strlen s.
Proof. reflexivity. Qed.
