(* ===== verification/Hello.v ===== *)
(** * The demonstration programs: hello_world/hello_world.c and
    rust_lib_demo/hello_world.c

    The banner, the hexadecimal print of the git revision and the echo loop.
    The Rust entry point is a parameter. *)

From S2P Require Import Prelude CMem Ctype LibcMem LibcStr Strto Vsnprintf Console.

Definition mw_logo1 : list Z :=
  [10] ++ codes "   .oOOo.     " ++ [10] ++
  codes " ." ++ [34] ++ codes "      " ++ [34] ++ codes ". " ++ [10] ++
  codes " ;  .mw.  ;   Microwatt, it works." ++ [10] ++
  codes "  . '  ' .    " ++ [10] ++
  codes "   \ || /     HDL Git SHA1: ".

Definition mw_logo2 : list Z :=
  [10] ++ codes "    ;..;      " ++ [10] ++ codes "    ;..;      " ++ [10] ++
  codes "    `ww'      " ++ [10; 10].

Section hello.
Context {D : Type} `{Bus D} (poll : nat).

(** Where the linker put the strings. *)
Context (logo1 logo2 lit_dirty : Z).

(** One round of the [for] loop: the nibble at bit 52 and the shift. *)
Definition git_digit_step : Z * Z -> M (fw D) (Z * Z + Z) := fun '(i, gitinfo) =>
  if i <? 14 then
    let c := u8 (Z.land (Z.shiftr gitinfo 52) 0xf) in
    _ ← (if 10 <=? c then putchar poll (0x61 + c - 10) else putchar poll (0x30 + c));
    mret (inl (i + 1, u64 (Z.shiftl gitinfo 4)))
  else mret (inr gitinfo).

Definition hello_banner : M (fw D) unit :=
  _ ← console_init;
  _ ← puts poll logo1;
  gitinfo ← readq (SYSCON_BASE + SYS_REG_GIT_INFO);
  let dirty := negb (Z.shiftr gitinfo 63 =? 0) in
  _ ← loop 15 git_digit_step (0, gitinfo);
  _ ← (if dirty then puts poll lit_dirty else mret 0);
  _ ← puts poll logo2;
  mret tt.

(** One round of the echo loop, which never ends. *)
Definition echo_round : M (fw D) unit :=
  c ← getchar poll;
  let c := u8 c in
  _ ← putchar poll c;
  if c =? 13 then _ ← putchar poll 10; mret tt else mret tt.

Fixpoint echo_rounds (n : nat) : M (fw D) unit :=
  match n with
  | O => mret tt
  | S n' => _ ← echo_round; echo_rounds n'
  end.

(** [main] up to the [n]th round of its endless loop. *)
Definition hello_main (n : nat) : M (fw D) unit := _ ← hello_banner; echo_rounds n.
End hello.

(** ** The Rust demonstration *)

Section rust_demo.
Context {D : Type} `{Bus D} (poll : nat).
Context (_bss _ebss lit_hello : Z) (rust_main : M (fw D) unit).

(** Clears four bytes at a time. *)
Definition init_bss_step : Z -> M mem (Z + unit) := fun p =>
  if p <? _ebss then _ ← store_le 4 p 0; mret (inl (p + 4)) else mret (inr tt).

Definition init_bss : M mem unit := mloop init_bss_step _bss.

(** A jump to an address that is not mapped. *)
Definition crash : M (fw D) unit := throw (Segv 0xdeadbeef).

Definition rust_demo_main : M (fw D) unit :=
  _ ← on_mem init_bss;
  _ ← console_init;
  _ ← puts poll lit_hello;
  _ ← rust_main;
  crash.
End rust_demo.

(** ** The revision *)

(** The 14 hexadecimal digits of the low 56 bits. *)
Definition git_digits (g : Z) : list Z :=
  map (fun i : nat => digit_char false (g / 16 ^ (13 - i) mod 16)) (seq 0 14).

(** What the program says before it echoes. *)
Definition banner_text (g : Z) : list Z :=
  crlf mw_logo1 ++ git_digits g ++
  (if Z.testbit g 63 then codes "-dirty" else []) ++ crlf mw_logo2.

Definition echo_text (l : list Z) : list Z :=
  flat_map (fun c => if c =? 13 then [13; 10] else [c]) l.

(** The nibble the loop prints in round [i]. *)
Lemma git_nibble g (i : nat) : (i < 14)%nat ->
  Z.land (Z.shiftr (u64 (Z.shiftl g (4 * i))) 52) 0xf = g / 16 ^ (13 - i) mod 16.
Proof.
  intros Hi. change 0xf with (Z.ones 4). change 16 with (2 ^ 4).
  rewrite <- Z.pow_mul_r, <- Z.shiftr_div_pow2, Z.land_ones by lia.
  apply Z.bits_inj'. intros n Hn. rewrite !testbit_mod_pow2 by lia.
  destruct (Z.ltb_spec n 4); [|done]. cbn [andb]. unfold u64.
  rewrite !Z.shiftr_spec, testbit_mod_pow2, (proj2 (Z.ltb_lt (n + 52) 64)) by lia. cbn [andb].
  rewrite Z.shiftl_spec by lia. f_equal. lia.
Qed.

Lemma git_shift g (i : nat) :
  u64 (Z.shiftl (u64 (Z.shiftl g (4 * i))) 4) = u64 (Z.shiftl g (4 * S i)).
Proof.
  apply Z.bits_inj'. intros n Hn. unfold u64. rewrite !testbit_mod_pow2 by lia.
  destruct (Z.ltb_spec n 64); [|done]. cbn [andb]. rewrite !Z.shiftl_spec by lia.
  destruct (decide (n < 4)).
  - rewrite !(Z.testbit_neg_r _ (n - _)) by lia. done.
  - rewrite testbit_mod_pow2, (proj2 (Z.ltb_lt (n - 4) 64)), Z.shiftl_spec by lia. cbn [andb].
    by replace (n - 4 - 4 * i) with (n - 4 * S i) by lia.
Qed.

Lemma hex_char c : 0 <= c < 16 -> (if 10 <=? c then 0x61 + c - 10 else 0x30 + c) = digit_char false c.
Proof.
  intros Hc. rewrite <- (Z2Nat.id c) by lia. assert (Hn : (Z.to_nat c < 16)%nat) by lia.
  revert Hn. generalize (Z.to_nat c). intros n Hn. do 16 (destruct n as [|n]; [done|]). lia.
Qed.

Section banner.
Context {D : Type} `{Bus D} {regs : Z -> Z} `{!Syscon D regs} `{!Uart D (is_16550 regs)}.
Context (poll : nat).
Hypothesis poll_enough : (max_wait < poll)%nat.

Lemma git_digit_ok g (i : nat) (s : fw D) : console_ok s -> (i < 14)%nat -> exists s',
  git_digit_step poll (Z.of_nat i, u64 (Z.shiftl g (4 * i))) s =
    Ok (inl (Z.of_nat (S i), u64 (Z.shiftl g (4 * S i)))) s' /\
  emits s [digit_char false (g / 16 ^ (13 - i) mod 16)] s'.
Proof.
  intros Hs Hi. set (c := g / 16 ^ (13 - i) mod 16).
  assert (Hc : 0 <= c < 16) by (apply Z.mod_pos_bound; lia).
  pose proof (digit_char_in_u8 false c Hc) as Hu.
  destruct (putchar_ok poll poll_enough (digit_char false c) s Hs) as (s' & Hrun & He).
  rewrite u8_small in He by done. exists s'. split; [|done].
  enter git_digit_step. if_true. rewrite git_nibble by done. fold c. rewrite u8_small by lia.
  rewrite git_shift. rewrite <- (hex_char c Hc) in Hrun.
  destruct (10 <=? c); erewrite bind_ok by exact Hrun; unfold mret, M_ret; eq_lia.
Qed.

Lemma git_loop g k : forall (i : nat) (s : fw D), console_ok s -> (i + k = 14)%nat ->
  exists s' r, loop (S k) (git_digit_step poll) (Z.of_nat i, u64 (Z.shiftl g (4 * i))) s = Ok r s' /\
  emits s (map (fun i : nat => digit_char false (g / 16 ^ (13 - i) mod 16)) (seq i k)) s'.
Proof.
  induction k as [|k IH]; intros i s Hs Hi.
  - exists s. eexists. split; [|by apply emits_refl]. apply loop_break. enter git_digit_step.
    by if_false.
  - destruct (git_digit_ok g i s Hs ltac:(lia)) as (s1 & Hrun & H1).
    destruct (IH (S i) s1 (traffic_ok _ _ _ _ Hs H1) ltac:(lia)) as (s2 & r & Hrun2 & H2).
    exists s2, r. split; [|exact (emits_trans _ _ _ _ _ H1 H2)].
    rewrite <- Hrun2. by apply loop_continue.
Qed.

Lemma git_digits_u64 g : git_digits (u64 g) = git_digits g.
Proof.
  apply map_ext_in. intros i Hi%in_seq. f_equal.
  rewrite <- !git_nibble by lia. f_equal. f_equal. apply Z.bits_inj'. intros n Hn.
  unfold u64. rewrite !testbit_mod_pow2 by lia. destruct (Z.ltb_spec n 64); [|done]. cbn [andb].
  rewrite !Z.shiftl_spec by lia. destruct (decide (n < 4 * i)).
  - by rewrite !(Z.testbit_neg_r _ (n - _)) by lia.
  - rewrite testbit_mod_pow2 by lia. by rewrite (proj2 (Z.ltb_lt _ _)) by lia.
Qed.

Lemma dirty_bit g : negb (Z.shiftr (u64 g) 63 =? 0) = Z.testbit g 63.
Proof.
  pose proof (u64_range g) as Hr.
  assert (0 <= u64 g / 2 ^ 63 < 2) by (split; [apply Z.div_pos|apply Z.div_lt_upper_bound]; lia).
  assert (E : Z.b2z (Z.testbit (u64 g) 63) = Z.shiftr (u64 g) 63)
    by (rewrite Z.testbit_spec', Z.shiftr_div_pow2, Z.mod_small by lia; done).
  rewrite <- E. unfold u64. rewrite testbit_mod_pow2 by lia. by destruct (Z.testbit g 63).
Qed.

Lemma echo_round_ok (s : fw D) c l : console_ok s -> pending (fdev s) = c :: l -> exists s',
  echo_round poll s = Ok tt s' /\ traffic s (if c =? 13 then [13; 10] else [c]) l s'.
Proof.
  intros Hs Hp. destruct (getchar_ok poll poll_enough s c l Hs Hp) as (s1 & Hr1 & H1).
  assert (Hc : u8 c = c).
  { pose proof (wait_bound _ (console_inv _ Hs)) as [_ Hw].
    destruct (wait_rx poll poll_enough poll s Hs ltac:(by rewrite Hp) ltac:(lia)) as (d1 & Hi & Hz & _ & Hq & _).
    rewrite Hp in Hq. destruct (rx_ok d1 c l Hi Hz Hq) as (v & d2 & _ & <- & _).
    apply u8_small, u8_range. }
  pose proof (traffic_ok _ _ _ _ Hs H1) as Hs1.
  destruct (putchar_ok poll poll_enough c s1 Hs1) as (s2 & Hr2 & H2). rewrite Hc in H2.
  pose proof (traffic_ok _ _ _ _ Hs1 H2) as Hs2.
  assert (Hl : pending (fdev s1) = l) by (by destruct H1 as (? & -> & _ & _ & ?)).
  unfold emits in H2. rewrite Hl in H2. pose proof (traffic_trans _ _ _ _ _ _ _ H1 H2) as H12.
  unfold echo_round. erewrite bind_ok by exact Hr1. cbv zeta. rewrite Hc.
  erewrite bind_ok by exact Hr2. destruct (Z.eqb_spec c 13) as [->|]; [|by eauto].
  destruct (putchar_ok poll poll_enough 10 s2 Hs2) as (s3 & Hr3 & H3).
  exists s3. split; [by run_with (exact Hr3)|].
  assert (Hl2 : pending (fdev s2) = l) by (by destruct H12 as (? & -> & _ & _ & ?)).
  unfold emits in H3. rewrite Hl2 in H3. exact (traffic_trans _ _ _ _ _ _ _ H12 H3).
Qed.

Lemma echo_rounds_ok l : forall (s : fw D) rest, console_ok s -> pending (fdev s) = l ++ rest ->
  exists s', echo_rounds poll (length l) s = Ok tt s' /\ traffic s (echo_text l) rest s'.
Proof.
  induction l as [|c l IH]; intros s rest Hs Hp.
  - exists s. split; [done|]. simpl in Hp. rewrite <- Hp. by apply emits_refl.
  - destruct (echo_round_ok s c (l ++ rest) Hs Hp) as (s1 & Hr1 & H1).
    destruct (IH s1 rest (traffic_ok _ _ _ _ Hs H1)) as (s2 & Hr2 & H2).
    { by destruct H1 as (? & -> & _ & _ & ?). }
    exists s2. split; [|exact (traffic_trans _ _ _ _ _ _ _ H1 H2)].
    simpl. by run_with (exact Hr1).
Qed.

(** The strings of the program are in memory. *)
Record hello_strings (m : mem) (logo1 logo2 lit_dirty : Z) : Prop := {
  hs_mem : mem_ok m;
  hs_logo1 : cstr m logo1 mw_logo1;
  hs_logo2 : cstr m logo2 mw_logo2;
  hs_dirty : cstr m lit_dirty (codes "-dirty")
}.

Lemma hello_banner_ok logo1 logo2 lit_dirty (s : fw D) :
  uart_fresh (fdev s) -> hello_strings (fmem s) logo1 logo2 lit_dirty -> exists s',
  hello_banner poll logo1 logo2 lit_dirty s = Ok tt s' /\ console_ok s' /\
  sent (fdev s') = sent (fdev s) ++ banner_text (regs SYS_REG_GIT_INFO).
Proof.
  intros Hf [Hok Hl1 Hl2 Hd]. destruct (console_init_ok s Hf) as (s0 & Hr0 & Hs0 & Hm0 & Ho0).
  unfold hello_banner. erewrite bind_ok by exact Hr0.
  destruct (puts_ok poll poll_enough mw_logo1 s0 logo1 Hs0) as (s1 & Hr1 & H1); [by rewrite Hm0..|].
  pose proof (traffic_ok _ _ _ _ Hs0 H1) as Hs1. pose proof (traffic_mem _ _ _ _ H1) as Hm1.
  erewrite bind_ok by exact Hr1. erewrite bind_ok by (by apply readq_syscon). cbv zeta.
  set (g := regs SYS_REG_GIT_INFO).
  destruct (git_loop (u64 g) 14 0 s1 Hs1 eq_refl) as (s2 & r & Hr2 & H2). fold (git_digits (u64 g)) in H2.
  rewrite git_digits_u64 in H2. pose proof (traffic_ok _ _ _ _ Hs1 H2) as Hs2.
  pose proof (traffic_mem _ _ _ _ H2) as Hm2.
  change (u64 (Z.shiftl (u64 g) (4 * 0%nat))) with (u64 (u64 g)) in Hr2.
  rewrite (u64_small (u64 g)) in Hr2 by apply u64_range. erewrite bind_ok by exact Hr2.
  assert (H3 : exists s3 x, ((if negb (Z.shiftr (u64 g) 63 =? 0) then puts poll lit_dirty else mret 0) : M (fw D) Z) s2 = Ok x s3 /\
    emits s2 (if Z.testbit g 63 then codes "-dirty" else []) s3).
  { rewrite dirty_bit. destruct (Z.testbit g 63).
    - destruct (puts_ok poll poll_enough (codes "-dirty") s2 lit_dirty Hs2) as (s3 & ? & ?);
        [by rewrite Hm2, Hm1, Hm0..|]. by exists s3, 0.
    - exists s2, 0. split; [done|by apply emits_refl]. }
  destruct H3 as (s3 & x & Hr3 & H3). erewrite bind_ok by exact Hr3.
  pose proof (traffic_ok _ _ _ _ Hs2 H3) as Hs3. pose proof (traffic_mem _ _ _ _ H3) as Hm3.
  destruct (puts_ok poll poll_enough mw_logo2 s3 logo2 Hs3) as (s4 & Hr4 & H4);
    [by rewrite Hm3, Hm2, Hm1, Hm0..|].
  exists s4. split; [by erewrite bind_ok by exact Hr4|]. split; [by eapply traffic_ok|].
  destruct (emits_trans _ _ _ _ _ H1 (emits_trans _ _ _ _ _ H2 (emits_trans _ _ _ _ _ H3 H4)))
    as (? & -> & _ & Ho & _). simpl. by rewrite Ho, Ho0.
Qed.
End banner.

(** C35: the demonstration program sends its banner with the git revision as 14
    hexadecimal digits, marked when the tree was dirty, and then echoes what
    it receives with a line feed after each carriage return. *)
Theorem hello_world_correct {D} `{Bus D} {regs} `{!Syscon D regs} `{!Uart D (is_16550 regs)}
    poll logo1 logo2 lit_dirty (s : fw D) :
  (max_wait < poll)%nat -> uart_fresh (fdev s) ->
  hello_strings (fmem s) logo1 logo2 lit_dirty -> exists s1,
    hello_banner poll logo1 logo2 lit_dirty s = Ok tt s1 /\
    sent (fdev s1) = sent (fdev s) ++ banner_text (regs SYS_REG_GIT_INFO) /\
    forall l rest, pending (fdev s1) = l ++ rest -> exists s2,
      hello_main poll logo1 logo2 lit_dirty (length l) s = Ok tt s2 /\
      sent (fdev s2) = sent (fdev s1) ++ echo_text l /\ pending (fdev s2) = rest.
Proof.
  intros Hp Hf Hm. destruct (hello_banner_ok poll Hp _ _ _ s Hf Hm) as (s1 & Hr & Hs1 & Ho).
  exists s1. split_and!; [done..|]. intros l rest Hin.
  destruct (echo_rounds_ok poll Hp l s1 rest Hs1 Hin) as (s2 & Hr2 & (d & -> & _ & Ho2 & Hi2)).
  eexists. split; [unfold hello_main; by run_with (exact Hr)|]. done.
Qed.

Definition hello_world_mem : mem :=
  write_bytes 1000 (mw_logo1 ++ [0])
    (write_bytes 2000 (mw_logo2 ++ [0]) (write_bytes 3000 (codes "-dirty" ++ [0]) ∅)).

(** A potato board: the 16550 bit of its register file is off. *)
Definition regs_potato (off : Z) : Z :=
  if off =? SYS_REG_UART0_INFO then 0 else regs16550 off.

Lemma hello_world_correct_witness :
  let s := Fw hello_world_mem (Board (PotatoPort 0 0 [] 0 [97; 13; 98])) true 0 in
  exists s1, @hello_banner _ (board_bus regs_potato potato_port) 9 1000 2000 3000 s = Ok tt s1 /\
    p_log (b_port (fdev s1)) = banner_text (2 ^ 63 + 0xabc0123456789e) /\
    forall l rest, p_queue (b_port (fdev s1)) = l ++ rest -> exists s2,
      @hello_main _ (board_bus regs_potato potato_port) 9 1000 2000 3000 (length l) s = Ok tt s2 /\
      p_log (b_port (fdev s2)) = p_log (b_port (fdev s1)) ++ echo_text l /\
      p_queue (b_port (fdev s2)) = rest.
Proof.
  intros s.
  apply (@hello_world_correct _ _ regs_potato _ (uart_potato regs_potato) 9 1000 2000 3000 s).
  - simpl. lia.
  - split; [simpl; lia|]. repeat constructor; lia.
  - split; decide_now.
Defined.

(** ** Clearing the uninitialised data *)

Lemma store_zero_4 m p : mapped m p 4 -> store_le 4 p 0 m = Ok tt (write_bytes p (replicate 4 0) m).
Proof. intros Hm. apply (store_le_ok m p (replicate 4 0)); [repeat constructor; lia|done]. Qed.

Lemma init_bss_loop (k : nat) : forall e p m (f : nat), p + 4 * (k - 1) < e <= p + 4 * k ->
  mapped m p (4 * k) -> (k < f)%nat ->
  loop f (init_bss_step e) p m = Ok tt (write_bytes p (replicate (4 * k) 0) m).
Proof.
  induction k as [|k IH]; intros e p m f He Hm Hf; (destruct f as [|f]; [lia|]).
  - apply loop_break. unfold init_bss_step. by if_false.
  - replace (4 * S k)%nat with (4 + 4 * k)%nat by lia.
    rewrite replicate_add, write_bytes_app, length_replicate.
    rewrite <- (IH e (p + 4%nat) _ f); [|lia| |lia].
    + apply loop_continue. unfold init_bss_step. if_true.
      by run_with (apply store_zero_4; eapply mapped_mono; [exact Hm|lia|lia]).
    + apply write_bytes_mapped. eapply mapped_mono; [exact Hm|lia|lia].
Qed.

(** [init_bss] returns with the words from [_bss] up to [_ebss] zero and
    every other byte unchanged. *)
Theorem init_bss_correct b e (k : nat) m :
  b + 4 * (k - 1) < e <= b + 4 * k -> mapped m b (4 * k) ->
  init_bss b e m = Ok tt (write_bytes b (replicate (4 * k) 0) m).
Proof.
  intros He Hm. unfold init_bss. rewrite mloop_eq.
  pose proof (mapped_size m b (4 * k) ltac:(lia) Hm). apply init_bss_loop; [done|done|lia].
Qed.

Lemma init_bss_correct_witness :
  init_bss 16 22 (block 16 (replicate 9 255)) =
    Ok tt (write_bytes 16 (replicate (4 * 2) 0) (block 16 (replicate 9 255))).
Proof. apply (init_bss_correct 16 22 2); [lia|decide_now]. Defined.
