(* ===== verification/Simulate.v ===== *)
(** * Forward simulation

    One machine follows another: whatever the second does without failing, the
    first does too, with the same result, and the states stay related.  The test
    programs are compared with ideal machines in this way. *)

From S2P Require Import Prelude.

Section simulate.
Context {V S : Type} (R : V -> S -> Prop).

Definition simulates {A} (ca : M V A) (cs : M S A) : Prop := forall a s, R a s ->
  forall x a', ca a = Ok x a' -> exists s', cs s = Ok x s' /\ R a' s'.

Lemma sim_ret {A} (x : A) : simulates (mret x) (mret x).
Proof. intros a s Hf y a' [= <- <-]. by exists s. Qed.

Lemma sim_throw {A} e (cs : M S A) : simulates (throw e) cs.
Proof. intros a s Hf y a' [=]. Qed.

Lemma sim_bind {A B} (ca : M V A) cs (ka : A -> M V B) ks :
  simulates ca cs -> (forall x, simulates (ka x) (ks x)) -> simulates (ca ≫= ka) (cs ≫= ks).
Proof.
  intros Hc Hk a s Hf y a2 Hr. apply bind_inv in Hr as (x & a1 & E1 & E2).
  destruct (Hc a s Hf x a1 E1) as (s1 & R1 & F1). destruct (Hk x a1 s1 F1 y a2 E2) as (s2 & R2 & F2).
  exists s2. split; [|done]. by rewrite (bind_ok _ _ _ _ _ R1).
Qed.

Lemma sim_loop {X T} (ba : X -> M V (X + T)) bs f x :
  (forall x, simulates (ba x) (bs x)) -> simulates (loop f ba x) (loop f bs x).
Proof.
  intros Hb. revert x. induction f as [|f IH]; intros x a s Hf y a' Hr; [done|]. cbn [loop] in *.
  destruct (ba x a) as [[x1|r] a1|e a1] eqn:E; [..|done]; destruct (Hb x a s Hf _ _ E) as (s1 & R1 & F1); rewrite R1.
  - by apply (IH x1 a1 s1 F1).
  - injection Hr as <- <-. by exists s1.
Qed.
End simulate.

(** The steps that are the same for every machine. *)
Ltac sim_core :=
  lazymatch goal with
  | |- simulates _ (mbind _ _) (mbind _ _) => apply sim_bind; [|intros ?]
  | |- simulates _ (mret _) (mret _) => apply sim_ret
  | |- simulates _ (throw _) _ => apply sim_throw
  | |- simulates _ (loop _ _ _) (loop _ _ _) => apply sim_loop; intros ?
  end.
