(* ===== verification/Mmu.v ===== *)
(** * Address translation: mmu.vhdl and the translation buffers around it

    The test program of the MMU is verified against the hardware it tests.  The
    radix tree walk is translated from mmu.vhdl, state by state; how an access
    uses the translation buffers and what a failed one leaves in the registers
    from loadstore1.vhdl, dcache.vhdl and fetch1.vhdl.  Which entries a buffer
    keeps is its own affair: the buffers are a parameter, with a contract. *)

From S2P Require Import Prelude CMem.

(** ** Big-endian doublewords

    The tables in memory are big endian. *)

Definition be_bytes (v : Z) : list Z := rev (le_bytes 8 v).
Definition bswap64 (v : Z) : Z := le_value (be_bytes v).

Definition load_be (p : Z) : M mem Z := v ← load64 p; mret (bswap64 v).
Definition store_be (p v : Z) : M mem unit := store64 p (bswap64 v).

(** ** The walk *)

(** The kind of access: instruction or data, and store or load. *)
Record access := Access { iside : bool; store : bool; priv : bool }.

Inductive fault := Invalid | Badtree | Segerror | Perm_error | Rc_error.

#[global] Instance fault_eq_dec : EqDecision fault.
Proof. solve_decision. Defined.

(** The registers: an option is a value with its valid bit. *)
Record mmu := Mmu { ptcr : Z; pid : Z; prtbl : option Z; pgtbl0 : option Z; pgtbl3 : option Z }.

Definition mmu_reset : mmu := Mmu 0 0 None None None.

(** [addrshifter], [addrmaskgen] and [finalmaskgen]. *)
Definition addrsh (addr shift : Z) : Z :=
  let sh1 := if bit_range shift 5 4 =? 0 then bit_range addr 42 12
             else if bit_range shift 5 4 =? 1 then bit_range addr 58 28
             else bit_range addr 61 44 in
  let sh2 := if bit_range shift 3 2 =? 0 then bit_range sh1 18 0
             else if bit_range shift 3 2 =? 1 then bit_range sh1 22 4
             else if bit_range shift 3 2 =? 2 then bit_range sh1 26 8
             else bit_range sh1 30 12 in
  if bit_range shift 1 0 =? 0 then bit_range sh2 15 0
  else if bit_range shift 1 0 =? 1 then bit_range sh2 16 1
  else if bit_range shift 1 0 =? 2 then bit_range sh2 17 2
  else bit_range sh2 18 3.

Definition addrmask (mask_size : Z) : Z := Z.ones (Z.max 5 (Z.min 16 mask_size)).
Definition finalmask (shift : Z) : Z := Z.ones (Z.min 44 shift).

(** [a] where the mask [m] is clear and [b] where it is set. *)
Definition mux (m a b : Z) : Z := Z.lor (Z.ldiff a m) (Z.land b m).

Definition prtable_addr (prtbl effpid : Z) : Z :=
  let fm := Z.land (finalmask (bit_range prtbl 4 0)) (Z.ones 24) in
  Z.shiftl (bit_range prtbl 55 36) 36 +
  Z.shiftl (mux fm (bit_range prtbl 35 12) (bit_range effpid 31 8)) 12 +
  Z.shiftl (bit_range effpid 7 0) 4.

Definition pgtable_addr (pgbase addr shift mask_size : Z) : Z :=
  Z.shiftl (bit_range pgbase 55 19) 19 +
  Z.shiftl (mux (addrmask mask_size) (bit_range pgbase 18 3) (addrsh addr shift)) 3.

(** The entry that goes to a translation buffer. *)
Definition tlb_pte (pde addr shift : Z) : Z :=
  Z.shiftl (mux (finalmask shift) (bit_range pde 55 12) (bit_range addr 55 12)) 12 + bit_range pde 11 0.

(** What the permission and reference bits of an entry allow. *)
Definition perm_ok (q : access) (pte : Z) : bool :=
  (priv q || negb (Z.testbit pte 3)) &&
  (if iside q then Z.testbit pte 0 && negb (Z.testbit pte 5)
   else Z.testbit pte 1 || (Z.testbit pte 2 && negb (store q))).
Definition rc_ok (q : access) (pte : Z) : bool :=
  Z.testbit pte 8 && (Z.testbit pte 7 || negb (store q)).

(** [RADIX_LOOKUP] and [RADIX_READ_WAIT].  The fuel counts the levels. *)
Fixpoint radix_walk (fuel : nat) (q : access) (addr shift mask_size pgbase : Z) : M mem (fault + Z) :=
  match fuel with
  | O => throw Fuel
  | S fuel =>
      data ← load_be (pgtable_addr pgbase addr shift mask_size);
      if negb (Z.testbit data 63) then mret (inl Invalid)
      else if Z.testbit data 62 then
        if perm_ok q data && rc_ok q data then mret (inr (tlb_pte data addr shift))
        else mret (inl (if perm_ok q data then Rc_error else Perm_error))
      else
        let mbits := bit_range data 4 0 in
        if (mbits <? 5) || (16 <? mbits) || (shift <? mbits) then mret (inl Badtree)
        else radix_walk fuel q addr (shift - mbits) mbits (Z.shiftl (bit_range data 55 8) 8)
  end.

(** Every level takes at least five of at most 63 bits. *)
Definition levels : nat := 13.

(** [SEGMENT_CHECK], for the entry [pgtbl] of the process table. *)
Definition walk_from (pgtbl : Z) (q : access) (addr : Z) : M mem (fault + Z) :=
  let rts := bit_range pgtbl 62 61 * 8 + bit_range pgtbl 7 5 in
  let mbits := bit_range pgtbl 4 0 in
  if mbits =? 0 then mret (inl Invalid)
  else if negb (Bool.eqb (Z.testbit addr 63) (Z.testbit addr 62)) ||
          negb (Z.ldiff (bit_range addr 61 31) (finalmask rts) =? 0) then mret (inl Segerror)
  else if (mbits <? 5) || (16 <? mbits) || (rts + 19 <? mbits) then mret (inl Badtree)
  else radix_walk levels q addr ((rts + 19 - mbits) mod 64) mbits (Z.shiftl (bit_range pgtbl 55 8) 8).

Definition with_pgtbl (r : mmu) (addr v : Z) : mmu :=
  if Z.testbit addr 63 then Mmu (ptcr r) (pid r) (prtbl r) (pgtbl0 r) (Some v)
  else Mmu (ptcr r) (pid r) (prtbl r) (Some v) (pgtbl3 r).

(** [PROC_TBL_READ] and [PROC_TBL_WAIT]. *)
Definition proc_table (r : mmu) (base addr : Z) : M mem (Z * mmu) :=
  let effpid := if Z.testbit addr 63 then 0 else pid r in
  v ← load_be (prtable_addr base effpid);
  mret (v, with_pgtbl r addr v).

(** [IDLE], [PART_TBL_READ] and [PART_TBL_WAIT]: the entry of the process table
    that is in force, from the registers or from memory. *)
Definition root_of (r : mmu) (addr : Z) : M mem (Z * mmu) :=
  match prtbl r, (if Z.testbit addr 63 then pgtbl3 r else pgtbl0 r) with
  | None, _ =>
      base ← load_be (Z.shiftl (bit_range (ptcr r) 55 12) 12 + 8);
      proc_table (Mmu (ptcr r) (pid r) (Some base) (pgtbl0 r) (pgtbl3 r)) base addr
  | Some base, None => proc_table r base addr
  | Some _, Some v => mret (v, r)
  end.

Definition mmu_lookup (r : mmu) (q : access) (addr : Z) : M mem ((fault + Z) * mmu) :=
  '(v, r) ← root_of r addr;
  res ← walk_from v q addr;
  mret (res, r).

(** [mtspr] to PTCR and to PID. *)
Definition mmu_mtptcr (v : Z) (r : mmu) : mmu := Mmu v (pid r) None None None.
Definition mmu_mtpid (v : Z) (r : mmu) : mmu := Mmu (ptcr r) (u32 v) (prtbl r) None (pgtbl3 r).

(** Whether a [tlbie] is for all pages. *)
Definition tlbie_all (addr : Z) : bool :=
  Z.testbit addr 11 || Z.testbit addr 10 || Z.testbit addr 7 || Z.testbit addr 6 || Z.testbit addr 5.

(** ** The translation buffers *)

(** One for instructions and one for data, by effective page number. *)
Class Tlb (T : Type) := {
  tlb_lookup : bool -> Z -> T -> option Z;
  tlb_load : bool -> Z -> Z -> T -> T;
  tlb_inval : Z -> T -> T;
  tlb_inval_all : T -> T
}.

(** An entry that is loaded is there for the access that wanted it; any other
    may be lost at any time, but none comes back or changes. *)
Class TlbOk (T : Type) `{Tlb T} := {
  tlb_load_same i p v t : tlb_lookup i p (tlb_load i p v t) = Some v;
  tlb_load_other i p v t i' p' : (i', p') <> (i, p) ->
    tlb_lookup i' p' (tlb_load i p v t) = tlb_lookup i' p' t \/ tlb_lookup i' p' (tlb_load i p v t) = None;
  tlb_inval_same p t i : tlb_lookup i p (tlb_inval p t) = None;
  tlb_inval_other p t i p' : p' <> p ->
    tlb_lookup i p' (tlb_inval p t) = tlb_lookup i p' t \/ tlb_lookup i p' (tlb_inval p t) = None;
  tlb_inval_all_none t i p : tlb_lookup i p (tlb_inval_all t) = None
}.

(** What the buffer lets through without asking the MMU: for instructions an
    entry is there only if execution is allowed. *)
Definition tlb_permits (q : access) (pte : Z) : bool :=
  if iside q then priv q || negb (Z.testbit pte 3) else perm_ok q pte && rc_ok q pte.

Definition real_addr (pte ea : Z) : Z := Z.shiftl (bit_range pte 55 12) 12 + bit_range ea 11 0.

(** An access that the buffer does not let through: the result of the walk is
    loaded.  An entry that forbids the access does not settle it, in case the
    table has been updated. *)
Definition walk_and_load {T} `{Tlb T} (q : access) (ea : Z) (r : mmu) (t : T) : M mem ((fault + Z) * (mmu * T)) :=
  '(res, r) ← mmu_lookup r q ea;
  match res with
  | inl e => mret (inl e, (r, t))
  | inr pte => mret (inr (real_addr pte ea), (r, tlb_load (iside q) (Z.shiftr ea 12) pte t))
  end.

Definition translate {T} `{Tlb T} (q : access) (ea : Z) (r : mmu) (t : T) : M mem ((fault + Z) * (mmu * T)) :=
  match tlb_lookup (iside q) (Z.shiftr ea 12) t with
  | Some pte =>
      if tlb_permits q pte then mret (inr (real_addr pte ea), (r, t)) else walk_and_load q ea r t
  | None => walk_and_load q ea r t
  end.

(** ** Interrupts *)

(** DSISR after a data storage interrupt. *)
Definition dsisr_of (e : fault) (store : bool) : Z :=
  (match e with
   | Invalid => 0x40000000 | Perm_error => 0x08000000 | Badtree => 0x00080000 | Rc_error => 0x00040000
   | Segerror => 0
   end) + (if store then 0x02000000 else 0).

(** The bits of SRR1 after an instruction storage interrupt, and the rest, which
    is the MSR. *)
Definition isi_bits (e : fault) : Z :=
  match e with
  | Invalid => 0x40000000 | Perm_error => 0x10000000 | Badtree => 0x00080000 | Rc_error => 0x00040000
  | Segerror => 0
  end.
Definition srr1_of (msr bits : Z) : Z := Z.lor (Z.ldiff msr 0x783f0000) bits.
