(* ===== verification/MmuTest.v ===== *)
(** * The test program of the MMU: tests/mmu/mmu.c and head.S

    The tests are written over a machine, an interface with the operations they
    use: translated and untranslated accesses, the special registers, the page
    table and the console.  The program is that interface implemented by the
    page table code of mmu.c in memory, the MMU and its buffers, and the console
    driver. *)

From S2P Require Import Prelude CMem Console Mmu.

Definition MSR_LE : Z := 0x1.
Definition MSR_DR : Z := 0x10.
Definition MSR_IR : Z := 0x20.
Definition MSR_HV : Z := 0x1000000000000000.
Definition MSR_SF : Z := 0x8000000000000000.

Definition DSISR : Z := 18.
Definition DAR : Z := 19.
Definition SRR0 : Z := 26.
Definition SRR1 : Z := 27.
Definition PID : Z := 48.
Definition PTCR : Z := 464.

Definition PERM_EX : Z := 0x001.
Definition PERM_WR : Z := 0x002.
Definition PERM_RD : Z := 0x004.
Definition PERM_PRIV : Z := 0x008.
Definition ATTR_NC : Z := 0x020.
Definition CHG : Z := 0x080.
Definition REF : Z := 0x100.
Definition DFLT_PERM : Z := Z.lor (Z.lor (Z.lor PERM_WR PERM_RD) REF) CHG.

(** The string constants. *)
Inductive lit := L_test | L_pass | L_fail | L_dar | L_dsisr | L_srr0 | L_srr1 | L_nl.

Definition lit_text (l : lit) : list Z :=
  match l with
  | L_test => codes "test "
  | L_pass => codes "PASS" ++ [13; 10]
  | L_fail => codes "FAIL "
  | L_dar => codes " DAR="
  | L_dsisr => codes " DSISR="
  | L_srr0 => codes " SRR0="
  | L_srr1 => codes " SRR1="
  | L_nl => [13; 10]
  end.

(** ** The interface of the tests *)

Class Machine (S : Type) := {
  xlate : access -> Z -> M S (fault + Z);
  phys_load : nat -> Z -> M S Z;
  phys_store : nat -> Z -> Z -> M S unit;
  mfspr : Z -> M S Z;
  mtspr : Z -> Z -> M S unit;
  map : Z -> Z -> Z -> M S unit;
  unmap : Z -> M S unit;
  unmap_all : M S unit;
  test_putchar : Z -> M S unit;
  print_string : lit -> M S unit;
  get_fail : M S Z;
  set_fail : M S unit
}.

Definition data_load : access := Access false false true.
Definition data_store : access := Access false true true.
Definition fetch : access := Access true false true.

Section tests.
Context {S : Type} `{Machine S}.

(** The MSR of the program, and the addresses of the three instructions of
    head.S that may fault. *)
Context (msr test_read_ld test_write_std test_dcbz_dcbz : Z).

(** ** head.S *)

(** An access by the instruction at [pc].  The interrupt handler skips the
    instruction and the next one; a segment interrupt stops the machine. *)
Definition data_access (q : access) (pc ea : Z) : M S (option Z) :=
  r ← xlate q ea;
  match r with
  | inr pa => mret (Some pa)
  | inl Segerror => throw (Exit 0x380)
  | inl e =>
      _ ← mtspr DAR ea;
      _ ← mtspr DSISR (dsisr_of e (store q));
      _ ← mtspr SRR0 (u64 (pc + 8));
      _ ← mtspr SRR1 (srr1_of (Z.lor msr MSR_DR) 0);
      mret None
  end.

(** A doubleword that is not aligned is accessed in two parts. *)
Definition first_part (ea : Z) : nat := Z.to_nat (8 - ea mod 8).
Definition second_part (ea : Z) : Z := u64 (ea - ea mod 8 + 8).

Definition ld (pc ea : Z) : M S (option Z) :=
  p ← data_access data_load pc ea;
  match p with
  | None => mret None
  | Some pa =>
      lo ← phys_load (first_part ea) pa;
      if ea mod 8 =? 0 then mret (Some lo) else
      p ← data_access data_load pc (second_part ea);
      match p with
      | None => mret None
      | Some pa =>
          hi ← phys_load (8 - first_part ea) pa;
          mret (Some (lo + 256 ^ first_part ea * hi))
      end
  end.

Definition std (pc v ea : Z) : M S bool :=
  p ← data_access data_store pc ea;
  match p with
  | None => mret false
  | Some pa =>
      _ ← phys_store (first_part ea) pa v;
      if ea mod 8 =? 0 then mret true else
      p ← data_access data_store pc (second_part ea);
      match p with
      | None => mret false
      | Some pa => _ ← phys_store (8 - first_part ea) pa (v / 256 ^ first_part ea); mret true
      end
  end.

(** [test_read]: the result, and what is stored at [ret]. *)
Definition test_read (addr init : Z) : M S (Z * Z) :=
  r ← ld test_read_ld addr;
  mret (match r with Some v => (1, v) | None => (0, init) end).

Definition test_write (addr val : Z) : M S Z :=
  r ← std test_write_std val addr; mret (b2z r).

Definition test_dcbz (addr : Z) : M S Z :=
  p ← data_access data_store test_dcbz_dcbz addr;
  match p with
  | None => mret 0
  | Some pa => _ ← phys_store 64 (pa - pa mod 64) 0; mret 1
  end.

(** The page that is executed from, at the addresses it is linked at. *)
Inductive insn := Nop | Cmpdi (n : Z) | Beq (target : Z) | B (target : Z) | Li (n : Z) | Sc.

Definition test_return : Z := 0x1018.
Definition test_1 : Z := 0x1ff8.
Definition test_2 : Z := 0x1ffc.

Definition test_start : list (Z * insn) :=
  [(0x1000, Nop); (0x1004, Nop); (0x1008, Cmpdi 1); (0x100c, Beq test_1); (0x1010, Cmpdi 2);
   (0x1014, Beq test_2); (test_return, Li 1); (0x101c, Sc);
   (test_1, B test_return); (test_2, Nop); (0x2000, B test_return)].

(** One instruction: the program counter, r3 and the result of the last
    comparison.  The vector of the instruction storage interrupt clears r3 and
    returns; that of the system call returns. *)
Definition exec_step (xmsr : Z) : Z * Z * bool -> M S (Z * Z * bool + Z) := fun '(pc, r3, eq) =>
  r ← xlate fetch pc;
  match r with
  | inl Segerror => throw (Exit 0x480)
  | inl e => _ ← mtspr SRR0 pc; _ ← mtspr SRR1 (srr1_of xmsr (isi_bits e)); mret (inr 0)
  | inr pa =>
      match list_find (fun x => x.1 = pa) test_start with
      | None => throw UB
      | Some (_, (_, i)) =>
          let next := u64 (pc + 4) in
          match i with
          | Nop => mret (inl (next, r3, eq))
          | Cmpdi n => mret (inl (next, r3, r3 =? n))
          | Beq target => mret (inl (if eq : bool then u64 (pc + target - pa) else next, r3, eq))
          | B target => mret (inl (u64 (pc + target - pa), r3, eq))
          | Li n => mret (inl (next, n, eq))
          | Sc => _ ← mtspr SRR0 next; _ ← mtspr SRR1 (srr1_of xmsr 0); mret (inr r3)
          end
      end
  end.

(** No path through the page is longer than twelve instructions. *)
Definition test_exec (testno pc xmsr : Z) : M S Z :=
  _ ← mtspr SRR0 pc;
  _ ← mtspr SRR1 xmsr;
  loop 16 (exec_step xmsr) (pc, testno, false).

(** ** The tests *)

Definition load_long (p : Z) : M S Z := phys_load 8 p.
Definition store_long (p v : Z) : M S unit := phys_store 8 p v.

(** [if (cond) return n;] *)
Definition return_if (b : bool) (n : Z) (k : M S Z) : M S Z := if b then mret n else k.

(** [mfspr(a) != x || mfspr(b) != y] *)
Definition sprs_differ (a x b y : Z) : M S bool :=
  v ← mfspr a;
  if negb (v =? x) then mret true else
  v ← mfspr b; mret (negb (v =? y)).

Definition EXEC_MSR : Z := Z.lor (Z.lor (Z.lor MSR_SF MSR_HV) MSR_IR) MSR_LE.

Definition mmu_test_1 : M S Z :=
  let ptr := 0x123000 in
  '(r, val) ← test_read ptr 0xdeadbeefd00d;
  return_if (negb (r =? 0)) 1 (
  return_if (negb (val =? 0xdeadbeefd00d)) 2 (
  d ← sprs_differ DAR ptr DSISR 0x40000000;
  return_if d 3 (mret 0))).

Definition mmu_test_2 : M S Z :=
  let mem := 0x8000 in let ptr := 0x124000 in let ptr2 := 0x1124000 in
  _ ← map ptr mem DFLT_PERM;
  _ ← store_long (mem + 8 * 33) 0xbadc0ffee;
  '(r, val) ← test_read (ptr + 8 * 33) 0xdeadbeefd00d;
  return_if (r =? 0) 1 (
  return_if (negb (val =? 0xbadc0ffee)) 2 (
  _ ← map ptr2 mem DFLT_PERM;
  '(r, val) ← test_read (ptr2 + 8 * 33) 0xdeadbeefd00d;
  return_if (r =? 0) 3 (
  return_if (negb (val =? 0xbadc0ffee)) 4 (
  '(r, val) ← test_read (ptr + 8 * 33) 0xdeadbeefd00d;
  return_if (r =? 0) 5 (
  return_if (negb (val =? 0xbadc0ffee)) 6 (mret 0)))))).

Definition mmu_test_3 : M S Z :=
  let mem := 0x9000 in let ptr := 0x14a000 in
  _ ← map ptr mem DFLT_PERM;
  _ ← store_long (mem + 8 * 45) 0xfee1800d4ea;
  '(r, val) ← test_read (ptr + 8 * 45) 0xdeadbeefd0d0;
  return_if (r =? 0) 1 (
  return_if (negb (val =? 0xfee1800d4ea)) 2 (
  _ ← unmap ptr;
  '(r, val) ← test_read (ptr + 8 * 45) 0xdeadbeefd0d0;
  return_if (negb (r =? 0)) 3 (
  return_if (negb (val =? 0xdeadbeefd0d0)) 4 (
  d ← sprs_differ DAR (ptr + 8 * 45) DSISR 0x40000000;
  return_if d 5 (mret 0))))).

Definition mmu_test_4 : M S Z :=
  let mem := 0xa000 in let ptr := 0x10b000 in let ptr2 := 0x110b000 in
  _ ← map ptr mem DFLT_PERM;
  _ ← store_long (mem + 8 * 27) 0xf00f00f00f00;
  r ← test_write (ptr + 8 * 27) 0xe44badc0ffee;
  return_if (r =? 0) 1 (
  v ← load_long (mem + 8 * 27);
  return_if (negb (v =? 0xe44badc0ffee)) 2 (
  _ ← map ptr2 mem DFLT_PERM;
  r ← test_write (ptr2 + 8 * 27) 0x6e11ae;
  return_if (r =? 0) 3 (
  v ← load_long (mem + 8 * 27);
  return_if (negb (v =? 0x6e11ae)) 4 (
  '(r, val) ← test_read (ptr + 8 * 27) 0xdeadbeefd00d;
  return_if (r =? 0) 5 (
  return_if (negb (val =? 0x6e11ae)) 6 (mret 0)))))).

Definition mmu_test_5 : M S Z :=
  let mem := 0xbffd in let ptr := 0x39fffd in
  _ ← map ptr mem DFLT_PERM;
  '(r, val) ← test_read ptr 0xdeadbeef0dd0;
  return_if (negb (r =? 0)) 1 (
  return_if (negb (val =? 0xdeadbeef0dd0)) 2 (
  d ← sprs_differ DAR (Z.land ptr (Z.lnot 0xfff) + 0x1000) DSISR 0x40000000;
  return_if d 3 (mret 0))).

Definition mmu_test_6 : M S Z :=
  let mem := 0xbffd in let ptr := 0x39fffd in
  _ ← map ptr mem DFLT_PERM;
  _ ← store_long mem 0x123456789abcdef0;
  r ← test_write ptr 0xdeadbeef0dd0;
  return_if (negb (r =? 0)) 1 (
  d ← sprs_differ DAR (Z.land ptr (Z.lnot 0xfff) + 0x1000) DSISR 0x42000000;
  return_if d 2 (mret 0)).

Definition mmu_test_7 : M S Z :=
  let mem := 0x8000 in let ptr := 0x124000 in
  _ ← store_long mem 0x123456789abcdef0;
  _ ← map ptr mem (Z.lor PERM_RD PERM_WR);
  '(r, val) ← test_read ptr 0xdeadd00dbeef;
  return_if (negb (r =? 0)) 1 (
  return_if (negb (val =? 0xdeadd00dbeef)) 2 (
  d ← sprs_differ DAR ptr DSISR 0x00040000;
  return_if d 3 (
  r ← test_write ptr 0xdeadbeef0dd0;
  return_if (negb (r =? 0)) 4 (
  d ← sprs_differ DAR ptr DSISR 0x02040000;
  return_if d 5 (
  v ← load_long mem;
  return_if (negb (v =? 0x123456789abcdef0)) 6 (mret 0)))))).

Definition mmu_test_8 : M S Z :=
  let mem := 0x8000 in let ptr := 0x124000 in
  _ ← store_long mem 0x123456789abcdef0;
  _ ← map ptr mem (Z.lor (Z.lor REF PERM_RD) PERM_WR);
  '(r, val) ← test_read ptr 0xdeadd00dbeef;
  return_if (r =? 0) 1 (
  r ← test_write ptr 0xdeadbeef0dd1;
  return_if (negb (r =? 0)) 2 (
  d ← sprs_differ DAR ptr DSISR 0x02040000;
  return_if d 3 (
  v ← load_long mem;
  return_if (negb (v =? 0x123456789abcdef0)) 4 (mret 0)))).

Definition mmu_test_9 : M S Z :=
  let mem := 0x8000 in let ptr := 0x124000 in
  _ ← store_long mem 0x123456789abcdef0;
  _ ← map ptr mem REF;
  '(r, val) ← test_read ptr 0xdeadd00dbeef;
  return_if (negb (r =? 0)) 1 (
  return_if (negb (val =? 0xdeadd00dbeef)) 2 (
  d ← sprs_differ DAR ptr DSISR 0x08000000;
  return_if d 3 (
  r ← test_write ptr 0xdeadbeef0dd1;
  return_if (negb (r =? 0)) 4 (
  d ← sprs_differ DAR ptr DSISR 0x0a000000;
  return_if d 5 (
  v ← load_long mem;
  return_if (negb (v =? 0x123456789abcdef0)) 6 (mret 0)))))).

Definition mmu_test_10 : M S Z :=
  let mem := 0x8000 in let ptr := 0x124000 in
  _ ← store_long mem 0x123456789abcdef0;
  _ ← map ptr mem (Z.lor REF PERM_RD);
  '(r, val) ← test_read ptr 0xdeadd00dbeef;
  return_if (r =? 0) 1 (
  r ← test_write ptr 0xdeadbeef0dd1;
  return_if (negb (r =? 0)) 2 (
  d ← sprs_differ DAR ptr DSISR 0x0a000000;
  return_if d 3 (
  v ← load_long mem;
  return_if (negb (v =? 0x123456789abcdef0)) 4 (mret 0)))).

Definition mmu_test_11 : M S Z :=
  let ptr := 0x523000 in
  r ← test_exec 0 ptr EXEC_MSR;
  return_if (negb (r =? 0)) 1 (
  d ← sprs_differ SRR0 ptr SRR1 (Z.lor EXEC_MSR 0x40000000);
  return_if d 2 (mret 0)).

Definition mmu_test_12 : M S Z :=
  let mem := 0x1000 in let ptr := 0x324000 in let ptr2 := 0x1324000 in
  _ ← map ptr mem (Z.lor PERM_EX REF);
  r ← test_exec 0 ptr EXEC_MSR;
  return_if (r =? 0) 1 (
  _ ← map ptr2 mem (Z.lor PERM_EX REF);
  r ← test_exec 0 ptr2 EXEC_MSR;
  return_if (r =? 0) 2 (mret 0)).

Definition mmu_test_13 : M S Z :=
  let mem := 0x1000 in let ptr := 0x349000 in let ptr2 := 0x34a000 in
  _ ← map ptr mem (Z.lor PERM_EX REF);
  r ← test_exec 1 ptr EXEC_MSR;
  return_if (r =? 0) 1 (
  _ ← unmap ptr;
  _ ← map ptr2 mem (Z.lor PERM_EX REF);
  r ← test_exec 1 ptr EXEC_MSR;
  return_if (negb (r =? 0)) 2 (
  d ← sprs_differ SRR0 ptr SRR1 (Z.lor EXEC_MSR 0x40000000);
  return_if d 3 (mret 0))).

Definition mmu_test_14 : M S Z :=
  let mem := 0x1000 in let mem2 := 0x2000 in let ptr := 0x30a000 in let ptr2 := 0x30b000 in
  _ ← map ptr mem (Z.lor PERM_EX REF);
  r ← test_exec 2 ptr EXEC_MSR;
  return_if (negb (r =? 0)) 1 (
  d ← sprs_differ SRR0 ptr2 SRR1 (Z.lor EXEC_MSR 0x40000000);
  return_if d 2 (
  _ ← map ptr2 mem2 (Z.lor PERM_EX REF);
  r ← test_exec 2 ptr EXEC_MSR;
  return_if (r =? 0) 3 (mret 0))).

Definition mmu_test_15 : M S Z :=
  let mem := 0x1000 in let ptr := 0x324000 in
  _ ← map ptr mem DFLT_PERM;
  r ← test_exec 0 ptr EXEC_MSR;
  return_if (negb (r =? 0)) 1 (
  d ← sprs_differ SRR0 ptr SRR1 (Z.lor EXEC_MSR 0x10000000);
  return_if d 2 (mret 0)).

Definition mmu_test_16 : M S Z :=
  let mem := 0x1000 in let mem2 := 0x2000 in let ptr := 0x30a000 in let ptr2 := 0x30b000 in
  _ ← map ptr mem (Z.lor PERM_EX REF);
  _ ← map ptr2 mem2 (Z.lor PERM_RD REF);
  r ← test_exec 2 ptr EXEC_MSR;
  return_if (negb (r =? 0)) 1 (
  d ← sprs_differ SRR0 ptr2 SRR1 (Z.lor EXEC_MSR 0x10000000);
  return_if d 2 (
  _ ← map ptr2 mem2 (Z.lor (Z.lor PERM_RD PERM_EX) REF);
  r ← test_exec 2 ptr EXEC_MSR;
  return_if (r =? 0) 3 (mret 0))).

Definition mmu_test_17 : M S Z :=
  let mem := 0x1000 in let ptr := 0x349000 in
  _ ← map ptr mem PERM_EX;
  r ← test_exec 2 ptr EXEC_MSR;
  return_if (negb (r =? 0)) 1 (
  d ← sprs_differ SRR0 ptr SRR1 (Z.lor EXEC_MSR 0x00040000);
  return_if d 2 (
  _ ← unmap ptr;
  _ ← map ptr mem 0;
  r ← test_exec 2 ptr EXEC_MSR;
  return_if (negb (r =? 0)) 1 (
  d ← sprs_differ SRR0 ptr SRR1 (Z.lor EXEC_MSR 0x10000000);
  return_if d 2 (mret 0)))).

Definition mmu_test_18 : M S Z :=
  let mem := 0x8000 in let ptr := 0x124000 in let ptr2 := 0x1124000 in
  _ ← map ptr mem DFLT_PERM;
  r ← test_dcbz (ptr + 8 * 129);
  return_if (r =? 0) 1 (
  _ ← map ptr2 mem DFLT_PERM;
  r ← test_dcbz (ptr2 + 8 * 130);
  return_if (r =? 0) 2 (mret 0)).

Definition mmu_test_19 : M S Z :=
  let mem := 0x8000 in let ptr := 0x124000 in
  _ ← store_long mem 0x123456789abcdef0;
  _ ← map ptr mem (Z.lor REF PERM_RD);
  r ← test_write ptr 0xdeadbeef0dd1;
  return_if (negb (r =? 0)) 1 (
  d ← sprs_differ DAR ptr DSISR 0x0a000000;
  return_if d 2 (
  _ ← map ptr mem (Z.lor (Z.lor (Z.lor REF CHG) PERM_RD) PERM_WR);
  r ← test_write ptr 0xdeadbeef0dd1;
  return_if (r =? 0) 3 (mret 0))).

(** ** The report *)

Definition print_hex_step (val : Z) : Z -> M S (Z + unit) := fun i =>
  if i <? 0 then mret (inr tt) else
  let x := Z.land (Z.shiftr val i) 0xf in
  _ ← test_putchar (if 10 <=? x then x + 97 - 10 else x + 48);
  mret (inl (i - 4)).

Definition print_hex (val : Z) : M S unit := loop 17 (print_hex_step val) 60.

Definition print_test_number (i : Z) : M S unit :=
  _ ← print_string L_test;
  _ ← test_putchar (48 + i / 10);
  _ ← test_putchar (48 + i mod 10);
  test_putchar 58.

Definition print_spr (l : lit) (n : Z) : M S unit := _ ← print_string l; v ← mfspr n; print_hex v.

Definition do_test (num : Z) (test : M S Z) : M S unit :=
  _ ← mtspr DSISR 0;
  _ ← mtspr DAR 0;
  _ ← unmap_all;
  _ ← print_test_number num;
  ret ← test;
  if ret =? 0 then print_string L_pass else
  _ ← set_fail;
  _ ← print_string L_fail;
  _ ← test_putchar (ret + 48);
  _ ← (if (num <=? 10) || (num =? 19) then _ ← print_spr L_dar DAR; print_spr L_dsisr DSISR
       else _ ← print_spr L_srr0 SRR0; print_spr L_srr1 SRR1);
  print_string L_nl.

Definition mmu_tests : list (M S Z) :=
  [mmu_test_1; mmu_test_2; mmu_test_3; mmu_test_4; mmu_test_5; mmu_test_6; mmu_test_7; mmu_test_8;
   mmu_test_9; mmu_test_10; mmu_test_11; mmu_test_12; mmu_test_13; mmu_test_14; mmu_test_15;
   mmu_test_16; mmu_test_17; mmu_test_18; mmu_test_19].

Fixpoint do_tests (num : Z) (l : list (M S Z)) : M S unit :=
  match l with
  | [] => mret tt
  | test :: l => _ ← do_test num test; do_tests (num + 1) l
  end.

Definition run_tests : M S Z := _ ← do_tests 1 mmu_tests; get_fail.
End tests.

(** ** Page tables in memory *)

Definition CACHE_LINE_SIZE : Z := 64.

(** A cache line of zeros. *)
Definition dcbz (p : Z) : M mem unit := store_le 64 (p - p mod 64) 0.

Definition zero_lines_step (nl : Z) : Z * Z -> M mem (Z * Z + unit) := fun '(p, i) =>
  if i <? nl then _ ← dcbz p; mret (inl (p + CACHE_LINE_SIZE, i + 1)) else mret (inr tt).

Definition zero_bytes_step (ptr nb : Z) : Z -> M mem (Z + unit) := fun i =>
  if i <? nb then _ ← storeb (ptr + i) 0; mret (inl (i + 1)) else mret (inr tt).

Definition zero_step : Z * Z -> M mem (Z * Z + unit) := fun '(ptr, nbytes) =>
  if nbytes =? 0 then mret (inr tt) else
  let nb := Z.land (u64 (- ptr)) (CACHE_LINE_SIZE - 1) in
  nb ← (if (nb =? 0) && (CACHE_LINE_SIZE <=? nbytes) then
          let nl := nbytes / CACHE_LINE_SIZE in
          _ ← loop (S (Z.to_nat nl)) (zero_lines_step nl) (ptr, 0);
          mret (nl * CACHE_LINE_SIZE)
        else
          let nb := if nbytes <? nb then nbytes else nb in
          _ ← loop (S (Z.to_nat nb)) (zero_bytes_step ptr nb) 0;
          mret nb);
  mret (inl (ptr + nb, nbytes - nb)).

(** A round that clears nothing is repeated for ever. *)
Definition zero_memory (ptr nbytes : Z) : M mem unit := loop (S (Z.to_nat nbytes)) zero_step (ptr, nbytes).

Definition pgdir : Z := 0x10000.
Definition proc_tbl : Z := 0x12000.
Definition part_tbl : Z := 0x13000.
Definition store_pte (p pte : Z) : M mem unit := store_be p pte.

Definition read_pgd (i : Z) : M mem Z :=
  ret ← load_be (pgdir + i * 8); mret (Z.land ret 0x00ffffffffffff00).

(** The indices of an address in the two levels. *)
Definition pgd_index (ea : Z) : Z := Z.land (Z.shiftr (Z.shiftr ea 12) 9) 0x3ff.
Definition pte_index (ea : Z) : Z := Z.land (Z.shiftr ea 12) 0x1ff.

Definition make_pte (pa perm_attr : Z) : Z :=
  Z.lor (Z.lor 0xc000000000000000 (Z.land pa 0x00fffffffffff000)) perm_attr.

(** A table for the directory entry, from the free memory, if it has none. *)
Definition ensure_table (i free_ptr : Z) : M mem Z :=
  e ← load64 (pgdir + 8 * i);
  if e =? 0 then
    _ ← zero_memory free_ptr (512 * 8);
    _ ← store_pte (pgdir + 8 * i) (Z.lor (Z.lor 0x8000000000000000 free_ptr) 9);
    mret (u64 (free_ptr + 512 * 8))
  else mret free_ptr.

Definition map_page (ea pa perm_attr free_ptr : Z) : M mem Z :=
  let i := pgd_index ea in
  let j := pte_index ea in
  free_ptr ← ensure_table i free_ptr;
  ptep ← read_pgd i;
  _ ← store_pte (ptep + 8 * j) (make_pte pa perm_attr);
  mret free_ptr.

(** Whether there was a table, so that the buffers need to be told. *)
Definition unmap_page (ea : Z) : M mem bool :=
  let i := pgd_index ea in
  let j := pte_index ea in
  e ← load64 (pgdir + 8 * i);
  if e =? 0 then mret false else
  ptep ← read_pgd i;
  _ ← store64 (ptep + 8 * j) 0;
  mret true.

(** ** The program *)

(** The special registers the tests read. *)
Record sprs := Sprs { r_dsisr : Z; r_dar : Z; r_srr0 : Z; r_srr1 : Z }.

Definition get_spr (n : Z) (r : sprs) : Z :=
  if n =? DSISR then r_dsisr r else if n =? DAR then r_dar r
  else if n =? SRR0 then r_srr0 r else if n =? SRR1 then r_srr1 r else 0.

Definition set_spr (n v : Z) (r : sprs) : sprs :=
  let 'Sprs a b c d := r in
  if n =? DSISR then Sprs (u32 v) b c d else if n =? DAR then Sprs a v c d
  else if n =? SRR0 then Sprs a b v d else if n =? SRR1 then Sprs a b c v else r.

(** The firmware, the MMU with its buffers, the special registers, and the
    globals of mmu.c. *)
Record mt (D T : Type) := Mt {
  m_fw : fw D; m_mmu : mmu; m_tlb : T; m_sprs : sprs;
  free_ptr : Z; eas_mapped : list Z; neas_mapped : Z; m_fail : Z
}.
Arguments Mt {D T}. Arguments m_fw {D T}. Arguments m_mmu {D T}. Arguments m_tlb {D T}. Arguments m_sprs {D T}.
Arguments free_ptr {D T}. Arguments eas_mapped {D T}. Arguments neas_mapped {D T}. Arguments m_fail {D T}.

Section program.
Context {D T : Type} `{Bus D} `{Tlb T} (poll : nat) (lits : lit -> Z).

Definition with_fw (f : fw D) (s : mt D T) : mt D T :=
  Mt f (m_mmu s) (m_tlb s) (m_sprs s) (free_ptr s) (eas_mapped s) (neas_mapped s) (m_fail s).
Definition with_core (r : mmu) (t : T) (s : mt D T) : mt D T :=
  Mt (m_fw s) r t (m_sprs s) (free_ptr s) (eas_mapped s) (neas_mapped s) (m_fail s).
Definition with_spr (n v : Z) (s : mt D T) : mt D T :=
  Mt (m_fw s) (m_mmu s) (m_tlb s) (set_spr n v (m_sprs s)) (free_ptr s) (eas_mapped s) (neas_mapped s) (m_fail s).
Definition with_free (v : Z) (s : mt D T) : mt D T :=
  Mt (m_fw s) (m_mmu s) (m_tlb s) (m_sprs s) v (eas_mapped s) (neas_mapped s) (m_fail s).
Definition with_eas (l : list Z) (n : Z) (s : mt D T) : mt D T :=
  Mt (m_fw s) (m_mmu s) (m_tlb s) (m_sprs s) (free_ptr s) l n (m_fail s).

Definition on_fw {A} (c : M (fw D) A) : M (mt D T) A := fun s =>
  match c (m_fw s) with
  | Ok a f => Ok a (with_fw f s)
  | Err e f => Err e (with_fw f s)
  end.

Definition in_memory {A} (c : M mem A) : M (mt D T) A := on_fw (on_mem c).

Definition do_tlbie (rb : Z) : M (mt D T) unit := modify (fun s =>
  with_core (m_mmu s) (if tlbie_all rb then tlb_inval_all (m_tlb s) else tlb_inval (Z.shiftr rb 12) (m_tlb s)) s).

Definition program_mtspr (n v : Z) : M (mt D T) unit := modify (fun s =>
  if n =? PTCR then with_core (mmu_mtptcr v (m_mmu s)) (tlb_inval_all (m_tlb s)) s
  else if n =? PID then with_core (mmu_mtpid v (m_mmu s)) (tlb_inval_all (m_tlb s)) s
  else with_spr n v s).

Definition init_mmu : M (mt D T) unit :=
  _ ← in_memory (store_pte (part_tbl + 8 * 1) proc_tbl);
  _ ← in_memory (zero_memory proc_tbl (512 * 8));
  _ ← program_mtspr PTCR part_tbl;
  _ ← program_mtspr PID 1;
  _ ← in_memory (zero_memory pgdir (1024 * 8));
  _ ← in_memory (store_pte (proc_tbl + 8 * (2 * 1)) (Z.lor pgdir 10));
  do_tlbie 0xc00.

Definition program_map (ea pa perm_attr : Z) : M (mt D T) unit :=
  free ← gets free_ptr;
  free ← in_memory (map_page ea pa perm_attr free);
  _ ← modify (with_free free);
  n ← gets neas_mapped;
  l ← gets eas_mapped;
  if (0 <=? n) && (n <? 4) then modify (with_eas (<[Z.to_nat n := ea]> l) (n + 1)) else throw UB.

Definition program_unmap (ea : Z) : M (mt D T) unit :=
  there ← in_memory (unmap_page ea);
  if there : bool then do_tlbie (Z.land ea (u64 (Z.lnot 0xfff))) else mret tt.

Definition unmap_all_step : Z -> M (mt D T) (Z + unit) := fun i =>
  n ← gets neas_mapped;
  if i <? n then
    l ← gets eas_mapped;
    match l !! Z.to_nat i with
    | Some ea => _ ← program_unmap ea; mret (inl (i + 1))
    | None => throw UB
    end
  else mret (inr tt).

Definition program_unmap_all : M (mt D T) unit :=
  n ← gets neas_mapped;
  _ ← loop (S (Z.to_nat n)) unmap_all_step 0;
  l ← gets eas_mapped;
  modify (with_eas l 0).

Definition print_string_step : Z -> M (fw D) (Z + unit) := fun str =>
  c ← on_mem (loadb str);
  if c =? 0 then mret (inr tt) else
  _ ← putchar poll c;
  mret (inl (str + 1)).

Definition program_print_string (str : Z) : M (fw D) unit := fun s =>
  loop (S (size (fmem s))) print_string_step str s.

#[export] Instance program : Machine (mt D T) := {
  xlate q ea := fun s =>
    match translate q ea (m_mmu s) (m_tlb s) (fmem (m_fw s)) with
    | Ok (res, (r, t)) _ => Ok res (with_core r t s)
    | Err e _ => Err e s
    end;
  phys_load n p := in_memory (load_le n p);
  phys_store n p v := in_memory (store_le n p v);
  mfspr n := gets (fun s => get_spr n (m_sprs s));
  mtspr := program_mtspr;
  map := program_map;
  unmap := program_unmap;
  unmap_all := program_unmap_all;
  test_putchar c := _ ← on_fw (putchar poll c); mret tt;
  print_string l := on_fw (program_print_string (lits l));
  get_fail := gets m_fail;
  set_fail := modify (fun s =>
    Mt (m_fw s) (m_mmu s) (m_tlb s) (m_sprs s) (free_ptr s) (eas_mapped s) (neas_mapped s) 1)
}.

Context (msr test_read_ld test_write_std test_dcbz_dcbz : Z).

Definition mmu_main : M (mt D T) Z :=
  _ ← on_fw console_init;
  _ ← init_mmu;
  run_tests msr test_read_ld test_write_std test_dcbz_dcbz.
End program.
