(* ===== verification/MmuTables.v ===== *)
(** * The page tables of the MMU test

    What [zero_memory] does, and when it does not end; what the two levels of
    tables in memory mean, as a finite map from pages to entries; that the
    functions of mmu.c change that map as they should; and that the walk of the
    MMU finds in memory what the map says. *)

From S2P Require Import Prelude CMem Console Mmu MmuTest.

(** ** Big-endian doublewords in memory *)

Definition be_at (m : mem) (p v : Z) : Prop := bytes_at m p (be_bytes v).

Lemma be_bytes_length v : length (be_bytes v) = 8%nat.
Proof. unfold be_bytes. by rewrite length_rev, le_bytes_length. Qed.

Lemma be_bytes_in_u8 v : Forall in_u8 (be_bytes v).
Proof. unfold be_bytes. apply Forall_rev, le_bytes_in_u8. Qed.

Lemma be_bytes_bswap v : le_bytes 8 (bswap64 v) = be_bytes v.
Proof. unfold bswap64. rewrite <- (be_bytes_length v) at 1. apply le_bytes_value, be_bytes_in_u8. Qed.

Lemma bswap64_bswap64 v : in_u64 v -> bswap64 (bswap64 v) = v.
Proof.
  intros Hv. unfold bswap64 at 1, be_bytes. rewrite be_bytes_bswap. unfold be_bytes. rewrite rev_involutive.
  apply le_value_bytes. exact Hv.
Qed.

Lemma bswap64_zero v : in_u64 v -> (bswap64 v =? 0) = (v =? 0).
Proof.
  intros Hv. destruct (Z.eqb_spec v 0) as [->|Hne]; [done|]. apply Z.eqb_neq. intros E. apply Hne.
  rewrite <- (bswap64_bswap64 v Hv), E. done.
Qed.

Lemma load64_be m p v : be_at m p v -> load64 p m = Ok (bswap64 v) m.
Proof. intros H. unfold load64. rewrite <- (be_bytes_length v). by apply load_le_ok. Qed.

Lemma load_be_ok m p v : be_at m p v -> in_u64 v -> load_be p m = Ok v m.
Proof. intros H Hv. unfold load_be. run_with (by apply load64_be). unfold mret, M_ret. by rewrite bswap64_bswap64. Qed.

Lemma store_be_ok m p v : mapped m p 8 -> store_be p v m = Ok tt (write_bytes p (be_bytes v) m).
Proof.
  intros Hm. unfold store_be, store64, bswap64. rewrite <- (be_bytes_length v) at 1.
  apply store_le_ok; [apply be_bytes_in_u8|by rewrite be_bytes_length].
Qed.

Lemma store_zero_ok m p : mapped m p 8 -> store64 p 0 m = Ok tt (write_bytes p (be_bytes 0) m).
Proof. exact (store_be_ok m p 0). Qed.

Lemma be_at_write m p v : be_at (write_bytes p (be_bytes v) m) p v.
Proof. apply write_bytes_at. Qed.

Lemma be_at_other m p l q v : q + 8 <= p \/ p + length l <= q -> be_at m q v -> be_at (write_bytes p l m) q v.
Proof. intros Hd H. apply bytes_at_write_other; [rewrite be_bytes_length; lia|done]. Qed.

(** ** Clearing memory *)

Definition zeroed (p n : Z) (m : mem) : mem := write_bytes p (replicate (Z.to_nat n) 0) m.

Lemma zeroed_add p a b m : 0 <= a -> 0 <= b -> zeroed (p + a) b (zeroed p a m) = zeroed p (a + b) m.
Proof.
  intros Ha Hb. unfold zeroed. rewrite Z2Nat.inj_add, replicate_add, write_bytes_app, length_replicate by lia.
  by rewrite Z2Nat.id by lia.
Qed.

Lemma zeroed_mapped p n m q k : mapped m q k -> mapped (zeroed p n m) q k.
Proof. apply write_bytes_mapped. Qed.

Lemma dcbz_ok m p : p mod 64 = 0 -> mapped m p 64 -> dcbz p m = Ok tt (zeroed p 64 m).
Proof.
  intros Hp Hm. unfold dcbz. rewrite Hp, Z.sub_0_r. apply (store_le_ok m p (replicate 64 0)); [|done].
  apply Forall_replicate. unfold in_u8. lia.
Qed.

Lemma zero_lines_loop (k : nat) : forall m p i nl (f : nat), p mod 64 = 0 -> i + k = nl -> mapped m p (64 * k) ->
  (k < f)%nat -> loop f (zero_lines_step nl) (p, i) m = Ok tt (zeroed p (64 * k) m).
Proof.
  induction k as [|k IH]; intros m p i nl f Hp Hi Hm Hf; (destruct f as [|f]; [lia|]).
  - apply loop_break. enter zero_lines_step. by if_false.
  - replace (64 * S k) with (64 + 64 * k) by lia. rewrite <- zeroed_add by lia.
    rewrite <- (IH _ (p + 64) (i + 1) nl f); [|rewrite <- Zplus_mod_idemp_l, Hp; done|lia| |lia].
    + apply loop_continue. enter zero_lines_step. if_true.
      by run_with (apply dcbz_ok; [done|eapply mapped_mono; [exact Hm|lia|lia]]).
    + apply zeroed_mapped. eapply mapped_mono; [exact Hm|lia|lia].
Qed.

Lemma zero_bytes_loop (k : nat) : forall m p i nb (f : nat), 0 <= i -> i + k = nb -> mapped m (p + i) k ->
  (k < f)%nat -> loop f (zero_bytes_step p nb) i m = Ok tt (zeroed (p + i) k m).
Proof.
  induction k as [|k IH]; intros m p i nb f Hi Hk Hm Hf; (destruct f as [|f]; [lia|]).
  - apply loop_break. enter zero_bytes_step. by if_false.
  - replace (Z.of_nat (S k)) with (1 + Z.of_nat k) by lia. rewrite <- zeroed_add by lia.
    rewrite <- Z.add_assoc, <- (IH _ p (i + 1) nb f); [|lia|lia| |lia].
    + apply loop_continue. enter zero_bytes_step. if_true.
      run_with (apply storeb_ok; eapply mapped_at; [exact Hm|lia]). done.
    + rewrite Z.add_assoc. apply zeroed_mapped. eapply mapped_mono; [exact Hm|lia|lia].
Qed.

(** The bytes up to the next line. *)
Definition to_line (ptr : Z) : Z := (- ptr) mod 64.

Lemma to_line_land ptr : Z.land (u64 (- ptr)) (CACHE_LINE_SIZE - 1) = to_line ptr.
Proof.
  unfold CACHE_LINE_SIZE, to_line, u64. change (64 - 1) with (Z.ones 6). rewrite Z.land_ones by lia.
  change (2 ^ 6) with 64. Z.div_mod_to_equations. lia.
Qed.

(** One round: the bytes it clears. *)
Definition round_size (ptr n : Z) : Z :=
  if (to_line ptr =? 0) && (64 <=? n) then n / 64 * 64 else Z.min n (to_line ptr).

Lemma zero_step_ok m ptr n : 0 < n -> mapped m ptr n ->
  zero_step (ptr, n) m = Ok (inl (ptr + round_size ptr n, n - round_size ptr n)) (zeroed ptr (round_size ptr n) m).
Proof.
  intros Hn Hm. assert (Hl : 0 <= to_line ptr < 64) by (apply Z.mod_pos_bound; lia).
  enter zero_step. if_false. rewrite to_line_land. unfold round_size, CACHE_LINE_SIZE.
  destruct ((to_line ptr =? 0) && (64 <=? n)) eqn:E.
  - assert (Hp : ptr mod 64 = 0) by (unfold to_line in E; Z.div_mod_to_equations; lia).
    assert (Hd : 0 <= n / 64 /\ n / 64 * 64 <= n) by (Z.div_mod_to_equations; lia).
    pose proof (zero_lines_loop (Z.to_nat (n / 64)) m ptr 0 (n / 64) (S (Z.to_nat (n / 64)))) as Hz.
    rewrite Z2Nat.id, (Z.mul_comm 64) in Hz by lia.
    erewrite bind_ok; [|erewrite bind_ok; [reflexivity|apply Hz; [done|lia| |lia]]]; [done|].
    eapply mapped_mono; [exact Hm|lia|lia].
  - replace (if n <? to_line ptr then n else to_line ptr) with (Z.min n (to_line ptr))
      by (destruct (Z.ltb_spec n (to_line ptr)); lia).
    set (k := Z.min n (to_line ptr)).
    pose proof (zero_bytes_loop (Z.to_nat k) m ptr 0 k (S (Z.to_nat k))) as Hz.
    rewrite Z2Nat.id, !Z.add_0_r in Hz by lia.
    erewrite bind_ok; [|erewrite bind_ok; [reflexivity|apply Hz; [lia|lia| |lia]]]; [done|].
    eapply mapped_mono; [exact Hm|lia|lia].
Qed.

(** The areas that [zero_memory] gets to the end of: those that end at a line,
    or before the first one. *)
Definition zero_ends (ptr n : Z) : Prop := n = 0 \/ (ptr + n) mod 64 = 0 \/ n < to_line ptr.

Lemma round_size_cases ptr n : 0 < n ->
  (to_line ptr = 0 /\ 64 <= n /\ round_size ptr n = n / 64 * 64) \/
  ((to_line ptr <> 0 \/ n < 64) /\ round_size ptr n = Z.min n (to_line ptr)).
Proof.
  intros Hn. unfold round_size. destruct (Z.eqb_spec (to_line ptr) 0), (Z.leb_spec 64 n); cbn [andb]; lia.
Qed.

Lemma zero_round m ptr n f : 0 < n -> mapped m ptr n ->
  loop (S f) zero_step (ptr, n) m =
  loop f zero_step (ptr + round_size ptr n, n - round_size ptr n) (zeroed ptr (round_size ptr n) m).
Proof. intros Hn Hm. apply loop_continue. by apply zero_step_ok. Qed.

Lemma zero_done m ptr f : loop (S f) zero_step (ptr, 0) m = Ok tt m.
Proof. by apply loop_break. Qed.

(** A round that clears all there is. *)
Lemma zero_whole m ptr n f : 0 < n -> mapped m ptr n -> round_size ptr n = n ->
  loop (S (S f)) zero_step (ptr, n) m = Ok tt (zeroed ptr n m).
Proof. intros Hn Hm E. by rewrite zero_round, E, Z.sub_diag, zero_done by done. Qed.

Lemma zero_memory_ok m ptr n : 0 <= n -> zero_ends ptr n -> mapped m ptr n ->
  zero_memory ptr n m = Ok tt (zeroed ptr n m).
Proof.
  intros Hn He Hm. unfold zero_memory. destruct (decide (n = 0)) as [->|Hne]; [apply zero_done|].
  assert (Hl : 0 <= to_line ptr < 64) by (apply Z.mod_pos_bound; lia).
  destruct (round_size_cases ptr n ltac:(lia)) as [(Hp & Hn64 & E)|(Hp & E)].
  - replace (Z.to_nat n) with (S (pred (Z.to_nat n))) by lia. apply zero_whole; [lia|done|]. rewrite E.
    unfold zero_ends, to_line in *. Z.div_mod_to_equations. lia.
  - destruct (decide (n <= to_line ptr)).
    { replace (Z.to_nat n) with (S (pred (Z.to_nat n))) by lia. apply zero_whole; [lia|done|lia]. }
    assert (He' : (ptr + n) mod 64 = 0) by (unfold zero_ends in He; lia).
    assert (E2 : n - to_line ptr >= 64 /\ (n - to_line ptr) mod 64 = 0 /\ to_line (ptr + to_line ptr) = 0)
      by (unfold to_line in *; Z.div_mod_to_equations; lia).
    rewrite zero_round, E by (done || lia). replace (Z.min n (to_line ptr)) with (to_line ptr) by lia.
    replace (Z.to_nat n) with (S (S (Z.to_nat (n - 2)))) by lia.
    rewrite zero_whole; [|lia|apply zeroed_mapped; eapply mapped_mono; [exact Hm|lia|lia]|].
    + rewrite zeroed_add by lia. do 2 f_equal. lia.
    + unfold round_size. destruct E2 as (? & ? & ->). if_true. Z.div_mod_to_equations. lia.
Qed.

(** Any other is cleared up to its last line, and then the loop goes round for
    ever. *)
Lemma zero_stuck_round ptr n : 0 <= n -> ~ zero_ends ptr n ->
  0 < n /\ 0 <= round_size ptr n < n /\ ~ zero_ends (ptr + round_size ptr n) (n - round_size ptr n).
Proof.
  intros Hn He. assert (Hl : 0 <= to_line ptr < 64) by (apply Z.mod_pos_bound; lia).
  assert (Hpos : 0 < n) by (unfold zero_ends in He; lia). split; [done|].
  destruct (round_size_cases ptr n Hpos) as [(Hp & Hn64 & E)|(Hp & E)].
  - rewrite E. split.
    + unfold zero_ends, to_line in *. Z.div_mod_to_equations. lia.
    + intros Hz. apply He. unfold zero_ends, to_line in *. Z.div_mod_to_equations. lia.
  - assert (round_size ptr n = to_line ptr) as -> by (unfold zero_ends in He; lia). split.
    + unfold zero_ends, to_line in *. Z.div_mod_to_equations. lia.
    + intros Hz. apply He. unfold zero_ends, to_line in *. Z.div_mod_to_equations. lia.
Qed.

Lemma zero_memory_stuck f : forall m ptr n, 0 <= n -> ~ zero_ends ptr n -> mapped m ptr n ->
  exists m', loop f zero_step (ptr, n) m = Err Fuel m'.
Proof.
  induction f as [|f IH]; intros m ptr n Hn He Hm; [by exists m|].
  destruct (zero_stuck_round ptr n Hn He) as (Hpos & Hr & He'). rewrite zero_round by done.
  apply IH; [lia|done|]. apply zeroed_mapped. eapply mapped_mono; [exact Hm|lia|lia].
Qed.

(** ** The arithmetic of the walk *)

Lemma bit_range_div w hi lo : 0 <= lo -> bit_range w hi lo = w / 2 ^ lo mod 2 ^ (hi - lo + 1).
Proof. intros. unfold bit_range. by rewrite Z.shiftr_div_pow2. Qed.

Lemma bit_range_bits w hi lo i : 0 <= lo <= hi + 1 -> 0 <= i ->
  Z.testbit (bit_range w hi lo) i = (i <? hi - lo + 1) && Z.testbit w (i + lo).
Proof. intros Hl Hi. unfold bit_range. rewrite testbit_mod_pow2, Z.shiftr_spec by lia. done. Qed.

Lemma addrsh_0 addr : addrsh addr 0 = bit_range addr 27 12.
Proof.
  apply Z.bits_inj'. intros i Hi.
  change (addrsh addr 0) with (bit_range (bit_range (bit_range addr 42 12) 18 0) 15 0).
  rewrite !bit_range_bits by lia. zcases; cbn [andb]; try done; f_equal; lia.
Qed.

Lemma addrsh_9 addr : addrsh addr 9 = bit_range addr 36 21.
Proof.
  apply Z.bits_inj'. intros i Hi.
  change (addrsh addr 9) with (bit_range (bit_range (bit_range addr 42 12) 26 8) 16 1).
  rewrite !bit_range_bits by lia. zcases; cbn [andb]; try done; f_equal; lia.
Qed.

Lemma mux_low k c x : 0 <= k -> mux (Z.ones k) (c * 2 ^ k) x = c * 2 ^ k + x mod 2 ^ k.
Proof.
  intros Hk. unfold mux. rewrite Z.land_ones, Z.ldiff_ones_r by lia.
  rewrite Z.shiftr_div_pow2, Z.div_mul, Z.shiftl_mul_pow2 by lia. apply lor_shifted; [done|].
  apply Z.mod_pos_bound. lia.
Qed.

(** The address of an entry, in a table that is aligned to its size. *)
Lemma pgtable_addr_ok c k addr shift : 5 <= k <= 16 -> 0 <= c -> c * 2 ^ (k + 3) < 2 ^ 56 ->
  pgtable_addr (c * 2 ^ (k + 3)) addr shift k = c * 2 ^ (k + 3) + 8 * (addrsh addr shift mod 2 ^ k).
Proof.
  intros Hk Hc Hb. unfold pgtable_addr, addrmask. replace (Z.max 5 (Z.min 16 k)) with k by lia.
  assert (E : bit_range (c * 2 ^ (k + 3)) 18 3 = (c mod 2 ^ (16 - k)) * 2 ^ k).
  { rewrite bit_range_div, Z.pow_add_r, Z.mul_assoc, Z.div_mul by lia. change (18 - 3 + 1) with 16.
    rewrite <- Z.mul_mod_distr_r, <- Z.pow_add_r by lia. do 2 f_equal. lia. }
  rewrite E, mux_low by lia. rewrite bit_range_div, Z.mod_small, !Z.shiftl_mul_pow2; try lia.
  - assert (E2 : c * 2 ^ (k + 3) = c / 2 ^ (16 - k) * 2 ^ 19 + c mod 2 ^ (16 - k) * 2 ^ k * 2 ^ 3).
    { rewrite (Z.div_mod c (2 ^ (16 - k))) at 1 by lia.
      replace (2 ^ 19) with (2 ^ (16 - k) * 2 ^ (k + 3)) by (rewrite <- Z.pow_add_r by lia; f_equal; lia).
      rewrite (Z.pow_add_r 2 k 3) by lia. ring. }
    replace (c * 2 ^ (k + 3) / 2 ^ 19) with (c / 2 ^ (16 - k)).
    + rewrite E2. change (2 ^ 3) with 8. ring.
    + replace (2 ^ 19) with (2 ^ (16 - k) * 2 ^ (k + 3)) by (rewrite <- Z.pow_add_r by lia; f_equal; lia).
      by rewrite Z.div_mul_cancel_r by lia.
  - split; [apply Z.div_pos; lia|]. apply Z.div_lt_upper_bound; [lia|]. exact Hb.
Qed.

Lemma tlb_pte_page pde addr : tlb_pte pde addr 0 = pde mod 2 ^ 56.
Proof.
  unfold tlb_pte, finalmask. change (Z.min 44 0) with 0. rewrite (bit_range_div pde 55), (bit_range_div pde 11) by lia.
  change (55 - 12 + 1) with 44. change (11 - 0 + 1) with 12. rewrite <- (Z.mul_1_r (pde / 2 ^ 12 mod 2 ^ 44)).
  change 1 with (2 ^ 0) at 1. rewrite mux_low, Z.shiftl_mul_pow2 by lia. change (2 ^ 0) with 1.
  rewrite Z.mod_1_r, Z.div_1_r. change (2 ^ 56) with (2 ^ 12 * 2 ^ 44). rewrite Z.rem_mul_r by lia. ring.
Qed.

(** ** What the tables mean *)

(** The number of a page in the 2GB the tables cover. *)
Definition vpn (ea : Z) : Z := Z.shiftr ea 12 mod 2 ^ 19.

Lemma index_vpn ea : 512 * pgd_index ea + pte_index ea = vpn ea /\
  0 <= pgd_index ea < 1024 /\ 0 <= pte_index ea < 512.
Proof.
  unfold vpn, pgd_index, pte_index. change 0x3ff with (Z.ones 10). change 0x1ff with (Z.ones 9).
  rewrite !Z.land_ones, !Z.shiftr_div_pow2 by lia. change (2 ^ 9) with 512. change (2 ^ 10) with 1024.
  change (2 ^ 19) with (512 * 1024). generalize (ea / 2 ^ 12). intros x. Z.div_mod_to_equations. lia.
Qed.

Lemma vpn_index e : 0 <= e < 2 ^ 19 -> (512 * (e / 512) + e mod 512 = e) /\ 0 <= e / 512 < 1024.
Proof. intros He. change (2 ^ 19) with 524288 in He. Z.div_mod_to_equations. lia. Qed.

Lemma index_split i j : 0 <= j < 512 -> (512 * i + j) / 512 = i /\ (512 * i + j) mod 512 = j.
Proof. intros Hj. Z.div_mod_to_equations. lia. Qed.

Definition dir_entry (o : option Z) : Z :=
  match o with Some fp => Z.lor (Z.lor 0x8000000000000000 fp) 9 | None => 0 end.

(** A leaf that the walk accepts. *)
Definition leaf (pte : Z) : Prop := in_u64 pte /\ Z.testbit pte 63 = true /\ Z.testbit pte 62 = true.

Definition first_table : Z := 0x14000.

(** Memory [m] has the tables of the map [pm] from pages to leaves; [d] has the
    second-level tables, which are taken from memory in order. *)
Record tables (N : nat) (m : mem) (d pm : gmap Z Z) (free : Z) : Prop := {
  tb_part : be_at m (part_tbl + 8) proc_tbl;
  tb_proc0 : be_at m proc_tbl 0;
  tb_proc : be_at m (proc_tbl + 16) (Z.lor pgdir 10);
  tb_dir i : 0 <= i < 1024 -> be_at m (pgdir + 8 * i) (dir_entry (d !! i));
  tb_page i fp : d !! i = Some fp ->
    0 <= i < 1024 /\ exists k, 0 <= k < size d /\ fp = first_table + 4096 * k;
  tb_inj i i' fp : d !! i = Some fp -> d !! i' = Some fp -> i = i';
  tb_entry i fp j : d !! i = Some fp -> 0 <= j < 512 -> be_at m (fp + 8 * j) (default 0 (pm !! (512 * i + j)));
  tb_leaf e pte : pm !! e = Some pte -> 0 <= e < 2 ^ 19 /\ is_Some (d !! (e / 512)) /\ leaf pte;
  tb_free : free = first_table + 4096 * size d;
  tb_size : (size d <= N)%nat /\ 4096 * N < 2 ^ 32;
  tb_mapped : mapped m pgdir (0x4000 + 4096 * N)
}.

Arguments tb_part {N m d pm free}. Arguments tb_proc0 {N m d pm free}. Arguments tb_proc {N m d pm free}.
Arguments tb_dir {N m d pm free}. Arguments tb_page {N m d pm free}. Arguments tb_inj {N m d pm free}.
Arguments tb_entry {N m d pm free}. Arguments tb_leaf {N m d pm free}. Arguments tb_free {N m d pm free}.
Arguments tb_size {N m d pm free}. Arguments tb_mapped {N m d pm free}.

(** The area of the tables. *)
Definition table_area (N : nat) : Z := 0x4000 + 4096 * N.

Lemma make_pte_leaf pa perm : in_u64 pa -> in_u64 perm -> leaf (make_pte pa perm).
Proof.
  intros Ha Hp. unfold make_pte. split_and!.
  - apply lor_u64; [apply lor_u64; [done|by apply land_u64]|done].
  - by rewrite !Z.lor_spec.
  - by rewrite !Z.lor_spec.
Qed.

Lemma dir_entry_value fp : 0 <= fp < 2 ^ 40 -> fp mod 4096 = 0 ->
  dir_entry (Some fp) = 2 ^ 63 + fp + 9.
Proof.
  intros Hf Hm. unfold dir_entry. assert (E : fp = fp / 4096 * 2 ^ 12) by (Z.div_mod_to_equations; lia).
  change 0x8000000000000000 with (1 * 2 ^ 63). rewrite lor_shifted by lia.
  assert (E2 : 1 * 2 ^ 63 + fp = (2 ^ 51 + fp / 4096) * 2 ^ 12) by (change (2 ^ 63) with (2 ^ 51 * 2 ^ 12); lia).
  rewrite E2, lor_shifted by lia. lia.
Qed.

Section tables_facts.
Context {N : nat} {m : mem} {d pm : gmap Z Z} {free : Z} (Ht : tables N m d pm free).

Lemma table_page i fp : d !! i = Some fp ->
  0 <= i < 1024 /\ first_table <= fp /\ fp + 4096 <= free /\ fp mod 4096 = 0 /\ free <= 2 ^ 33.
Proof.
  intros Hd. destruct (tb_page Ht i fp Hd) as (Hi & k & Hk & ->). pose proof (tb_free Ht).
  pose proof (tb_size Ht) as [? ?]. unfold first_table in *. split_and!; try lia.
  Z.div_mod_to_equations. lia.
Qed.

(** Two tables are apart. *)
Lemma tables_apart i i' fp fp' : d !! i = Some fp -> d !! i' = Some fp' -> i <> i' ->
  fp + 4096 <= fp' \/ fp' + 4096 <= fp.
Proof.
  intros H1 H2 Hne. destruct (tb_page Ht i fp H1) as (_ & k & Hk & ->).
  destruct (tb_page Ht i' fp' H2) as (_ & k' & Hk' & ->).
  destruct (decide (k = k')) as [->|]; [|lia]. by destruct Hne; eapply (tb_inj Ht).
Qed.

Lemma dir_entry_u64 i : in_u64 (dir_entry (d !! i)).
Proof.
  unfold in_u64. destruct (d !! i) as [fp|] eqn:E; [|done]. apply table_page in E as (? & ? & ? & ? & ?).
  rewrite dir_entry_value; unfold first_table in *; lia.
Qed.

Lemma dir_entry_zero i : (dir_entry (d !! i) =? 0) = bool_decide (d !! i = None).
Proof.
  destruct (d !! i) as [fp|] eqn:E; [|done]. apply table_page in E as (? & ? & ? & ? & ?).
  rewrite bool_decide_false by done. rewrite dir_entry_value; unfold first_table in *; lia.
Qed.

Lemma entry_u64 e : in_u64 (default 0 (pm !! e)).
Proof. destruct (pm !! e) as [pte|] eqn:E; [|done]. by apply (tb_leaf Ht) in E as (_ & _ & [? _]). Qed.

Lemma load_dir i : 0 <= i < 1024 -> load64 (pgdir + 8 * i) m = Ok (bswap64 (dir_entry (d !! i))) m.
Proof. intros Hi. apply load64_be. by apply (tb_dir Ht). Qed.

Lemma read_pgd_ok i fp : d !! i = Some fp -> read_pgd i m = Ok fp m.
Proof.
  intros Hd. pose proof (table_page i fp Hd) as (Hi & Hf1 & Hf2 & Hf3 & Hf4).
  unfold read_pgd. rewrite (Z.mul_comm i 8).
  run_with (apply load_be_ok; [by apply (tb_dir Ht)|apply dir_entry_u64]). unfold mret, M_ret. f_equal.
  rewrite Hd, dir_entry_value by (unfold first_table in *; lia).
  change 0x00ffffffffffff00 with (Z.ones 48 * 2 ^ 8). rewrite <- Z.shiftl_mul_pow2 by lia.
  apply Z.bits_inj'. intros b Hb. rewrite Z.land_spec, Z.shiftl_spec, Z.testbit_ones by lia.
  assert (Hlow : fp mod 2 ^ 12 = 0) by (change (2 ^ 12) with 4096; done).
  assert (E : 2 ^ 63 + fp + 9 = Z.lor (Z.lor (2 ^ 63) fp) 9)
    by (symmetry; apply (dir_entry_value fp); [unfold first_table in *; lia|done]).
  rewrite E, !Z.lor_spec. destruct (decide (b < 8)).
  - rewrite (proj2 (Z.leb_gt 0 (b - 8))) by lia. cbn [andb]. rewrite andb_false_r. symmetry.
    assert (Hm : Z.testbit (fp mod 2 ^ 12) b = Z.testbit fp b) by (by rewrite Z.mod_pow2_bits_low by lia).
    by rewrite <- Hm, Hlow, Z.bits_0.
  - rewrite (testbit_above 9 4 b) by lia. rewrite orb_false_r. destruct (decide (b < 56)).
    + rewrite Z.pow2_bits_false by lia. replace (0 <=? b - 8) with true by lia. replace (b - 8 <? 48) with true by lia.
      cbn [andb orb]. by rewrite andb_true_r.
    + replace (b - 8 <? 48) with false by lia. rewrite !andb_false_r. symmetry.
      apply (testbit_above fp 34); unfold first_table in *; lia.
Qed.
End tables_facts.

(** ** Changing the tables *)

Lemma be_at_zeroed m p n q : p <= q -> q + 8 <= p + n -> be_at (zeroed p n m) q 0.
Proof.
  intros Hp Hn i b Hi. pose proof (lookup_lt_Some _ _ _ Hi) as Hl. rewrite be_bytes_length in Hl.
  unfold zeroed. rewrite write_bytes_lookup, length_replicate, bool_decide_true by lia.
  rewrite lookup_replicate_2 by lia. change (be_bytes 0) with (replicate 8 0) in Hi.
  by apply lookup_replicate_1 in Hi as [-> _].
Qed.

Lemma be_at_zeroed_other m p n q v : 0 <= n -> q + 8 <= p \/ p + n <= q -> be_at m q v -> be_at (zeroed p n m) q v.
Proof. intros Hn Hd. apply be_at_other. rewrite length_replicate. lia. Qed.

Ltac area := unfold pgdir, proc_tbl, part_tbl, first_table in *; lia.

(** An entry of a second-level table. *)
Lemma set_entry N m d pm free i fp j (o : option Z) :
  tables N m d pm free -> d !! i = Some fp -> 0 <= j < 512 -> (forall pte, o = Some pte -> leaf pte) ->
  tables N (write_bytes (fp + 8 * j) (be_bytes (default 0 o)) m) d
    (partial_alter (fun _ => o) (512 * i + j) pm) free.
Proof.
  intros Ht Hd Hj Ho. pose proof (table_page Ht i fp Hd) as (Hi & Hf1 & Hf2 & Hf3 & Hf4).
  split.
  - apply be_at_other; [area|apply (tb_part Ht)].
  - apply be_at_other; [area|apply (tb_proc0 Ht)].
  - apply be_at_other; [area|apply (tb_proc Ht)].
  - intros i' Hi'. apply be_at_other; [area|by apply (tb_dir Ht)].
  - apply (tb_page Ht).
  - apply (tb_inj Ht).
  - intros i' fp' j' Hd' Hj'. destruct (decide (i' = i)) as [->|Hne].
    + rewrite Hd in Hd'. injection Hd' as <-. destruct (decide (j' = j)) as [->|Hne].
      * rewrite lookup_partial_alter_eq. apply be_at_write.
      * rewrite lookup_partial_alter_ne by lia. apply be_at_other; [rewrite be_bytes_length; lia|by apply (tb_entry Ht)].
    + destruct (tables_apart Ht i i' fp fp' Hd Hd' ltac:(done));
        (rewrite lookup_partial_alter_ne by lia; apply be_at_other; [rewrite be_bytes_length; lia|by apply (tb_entry Ht)]).
  - intros e pte. destruct (decide (e = 512 * i + j)) as [->|Hne].
    + rewrite lookup_partial_alter_eq. intros E. destruct (index_split i j Hj) as [-> _].
      split_and!; [lia|lia|by exists fp|by apply Ho..].
    + rewrite lookup_partial_alter_ne by done. apply (tb_leaf Ht).
  - apply (tb_free Ht).
  - apply (tb_size Ht).
  - apply write_bytes_mapped, (tb_mapped Ht).
Qed.

(** A new table. *)
Lemma add_table N m d pm free i :
  tables N m d pm free -> d !! i = None -> 0 <= i < 1024 -> (size d < N)%nat ->
  tables N (write_bytes (pgdir + 8 * i) (be_bytes (dir_entry (Some free))) (zeroed free 4096 m))
    (<[i := free]> d) pm (free + 4096).
Proof.
  intros Ht Hd Hi Hs. pose proof (tb_free Ht) as Hfree. pose proof (tb_size Ht) as [_ HN].
  assert (Hnew : forall i' fp, d !! i' = Some fp -> i' <> i /\ first_table <= fp /\ fp + 4096 <= free).
  { intros i' fp E. apply (table_page Ht) in E as E'. split_and!; [congruence|lia..]. }
  split.
  - apply be_at_other; [rewrite be_bytes_length; area|]. apply be_at_zeroed_other; [lia|area|apply (tb_part Ht)].
  - apply be_at_other; [rewrite be_bytes_length; area|]. apply be_at_zeroed_other; [lia|area|apply (tb_proc0 Ht)].
  - apply be_at_other; [rewrite be_bytes_length; area|]. apply be_at_zeroed_other; [lia|area|apply (tb_proc Ht)].
  - intros i' Hi'. destruct (decide (i' = i)) as [->|Hne].
    + rewrite lookup_insert_eq. apply be_at_write.
    + rewrite lookup_insert_ne by done. apply be_at_other; [rewrite be_bytes_length; lia|].
      apply be_at_zeroed_other; [lia|area|by apply (tb_dir Ht)].
  - intros i' fp. rewrite map_size_insert_None by done. rewrite lookup_insert_Some. intros [[<- <-]|[_ E]].
    + split; [done|]. exists (size d). split; [lia|done].
    + destruct (tb_page Ht i' fp E) as (? & k & ? & ?). split; [done|]. exists k. split; [lia|done].
  - intros i1 i2 fp. rewrite !lookup_insert_Some. intros [[<- <-]|[_ E1]] [[<- E]|[_ E2]]; try done.
    + apply Hnew in E2. lia.
    + subst fp. apply Hnew in E1. lia.
    + by eapply (tb_inj Ht).
  - intros i' fp j E Hj. apply be_at_other.
    { right. rewrite be_bytes_length. apply lookup_insert_Some in E as [[<- <-]|[_ E]]; [area|apply Hnew in E; area]. }
    apply lookup_insert_Some in E as [[<- <-]|[_ E]].
    + assert (pm !! (512 * i + j) = None) as ->.
      { destruct (pm !! (512 * i + j)) as [pte|] eqn:Ep; [|done].
        apply (tb_leaf Ht) in Ep as (_ & [fp Hfp] & _). destruct (index_split i j Hj) as [Hq _].
        rewrite Hq, Hd in Hfp. done. }
      apply be_at_zeroed; lia.
    + apply be_at_zeroed_other; [lia|apply Hnew in E; lia|by apply (tb_entry Ht)].
  - intros e pte E. apply (tb_leaf Ht) in E as (He & [fp Hfp] & Hl).
    split; [done|]. split; [|done]. exists fp. rewrite lookup_insert_ne; [done|]. congruence.
  - rewrite map_size_insert_None by done. lia.
  - rewrite map_size_insert_None by done. lia.
  - apply write_bytes_mapped, zeroed_mapped, (tb_mapped Ht).
Qed.

Lemma in_area N m p n : mapped m pgdir (table_area N) -> pgdir <= p -> p + n <= pgdir + table_area N -> mapped m p n.
Proof. intros Hm Hp Hn. eapply mapped_mono; [exact Hm|lia|lia]. Qed.

Lemma area_write N m p l : pgdir <= p -> p + length l <= pgdir + table_area N ->
  same_outside pgdir (table_area N) m (write_bytes p l m).
Proof. intros Hp Hl. eapply same_outside_mono; [exact Hp|exact Hl|by apply write_bytes_same]. Qed.

Lemma ensure_table_ok N m d pm free i :
  tables N m d pm free -> 0 <= i < 1024 -> is_Some (d !! i) \/ (size d < N)%nat -> exists m' d' fp free',
  ensure_table i free m = Ok free' m' /\ tables N m' d' pm free' /\ d' !! i = Some fp /\
  dom d' = {[ i ]} ∪ dom d /\ same_outside pgdir (table_area N) m m'.
Proof.
  intros Ht Hi Hroom. unfold ensure_table. erewrite bind_ok by (by apply (load_dir Ht)).
  rewrite bswap64_zero, (dir_entry_zero Ht) by (by apply (dir_entry_u64 Ht)).
  pose proof (tb_free Ht) as Hfree. pose proof (tb_size Ht) as [HN HN2].
  destruct (d !! i) as [fp|] eqn:Hd.
  - rewrite bool_decide_false by done. exists m, d, fp, free. split_and!; try done.
    apply elem_of_dom_2 in Hd. set_solver +Hd.
  - rewrite bool_decide_true by done. assert (Hs : (size d < N)%nat) by (by destruct Hroom as [[? ?]|?]).
    assert (Hz : zero_ends free 4096).
    { right. left. rewrite Hfree. unfold first_table. Z.div_mod_to_equations. lia. }
    run_with (apply zero_memory_ok; [lia|done|]; eapply (in_area N); [apply (tb_mapped Ht)|area|unfold table_area; area]).
    run_with (apply store_be_ok, zeroed_mapped; eapply (in_area N); [apply (tb_mapped Ht)|lia|unfold table_area; area]).
    do 2 eexists. exists free, (u64 (free + 4096)). split; [reflexivity|].
    rewrite u64_small by (unfold first_table in *; lia).
    split; [by apply add_table|]. split; [apply lookup_insert_eq|]. split; [by rewrite dom_insert_L|].
    etrans; apply area_write; rewrite ?length_replicate, ?be_bytes_length; unfold table_area; area.
Qed.

Lemma map_page_ok N m d pm free ea pa perm :
  tables N m d pm free -> in_u64 pa -> in_u64 perm -> is_Some (d !! pgd_index ea) \/ (size d < N)%nat ->
  exists m' d' free', map_page ea pa perm free m = Ok free' m' /\
  tables N m' d' (<[vpn ea := make_pte pa perm]> pm) free' /\
  dom d' = {[ pgd_index ea ]} ∪ dom d /\ same_outside pgdir (table_area N) m m'.
Proof.
  intros Ht Ha Hp Hroom. destruct (index_vpn ea) as (Ev & Hi & Hj).
  destruct (ensure_table_ok N m d pm free (pgd_index ea) Ht Hi Hroom) as (m1 & d1 & fp & free1 & E1 & T1 & Hd1 & Hdom & S1).
  pose proof (table_page T1 _ _ Hd1) as (_ & Hf1 & Hf2 & _). pose proof (tb_free T1). pose proof (tb_size T1) as [? _].
  unfold map_page. cbv zeta. run_with (exact E1). run_with (by apply (read_pgd_ok T1)).
  run_with (apply store_be_ok; eapply (in_area N); [apply (tb_mapped T1)|area|unfold table_area; area]).
  do 3 eexists. split; [reflexivity|]. split; [|split; [exact Hdom|]].
  - rewrite <- Ev. apply (set_entry N m1 d1 pm free1 _ fp _ (Some (make_pte pa perm))); try done.
    intros pte [= <-]. by apply make_pte_leaf.
  - etrans; [exact S1|]. apply area_write; rewrite ?be_bytes_length; unfold table_area; area.
Qed.

Lemma unmap_page_ok N m d pm free ea : tables N m d pm free -> exists m',
  unmap_page ea m = Ok (bool_decide (is_Some (d !! pgd_index ea))) m' /\
  tables N m' d (delete (vpn ea) pm) free /\ same_outside pgdir (table_area N) m m'.
Proof.
  intros Ht. destruct (index_vpn ea) as (Ev & Hi & Hj). unfold unmap_page. cbv zeta.
  erewrite bind_ok by (by apply (load_dir Ht)).
  rewrite bswap64_zero, (dir_entry_zero Ht) by (by apply (dir_entry_u64 Ht)).
  pose proof (tb_free Ht). pose proof (tb_size Ht) as [? _].
  destruct (d !! pgd_index ea) as [fp|] eqn:Hd.
  - rewrite (bool_decide_false (_ = None)), bool_decide_true by done.
    pose proof (table_page Ht _ _ Hd) as (_ & Hf1 & Hf2 & _).
    run_with (by apply (read_pgd_ok Ht)).
    run_with (apply store_zero_ok; eapply (in_area N); [apply (tb_mapped Ht)|area|unfold table_area; area]).
    eexists. split; [reflexivity|]. split.
    + rewrite <- Ev. by apply (set_entry N m d pm free _ fp _ None).
    + apply area_write; rewrite ?be_bytes_length; unfold table_area; area.
  - rewrite (bool_decide_true (None = None)), bool_decide_false by (done || by intros []).
    exists m. split; [done|]. split; [|done]. rewrite delete_id; [done|].
    destruct (pm !! vpn ea) as [pte|] eqn:E; [|done]. apply (tb_leaf Ht) in E as (_ & [fp E] & _).
    destruct (index_split (pgd_index ea) (pte_index ea) Hj) as [Hq _]. rewrite <- Ev, Hq, Hd in E. done.
Qed.

(** The tables [init_mmu] makes. *)
Definition empty_tables (m : mem) : mem :=
  write_bytes (proc_tbl + 16) (be_bytes (Z.lor pgdir 10))
    (zeroed pgdir 8192 (zeroed proc_tbl 4096 (write_bytes (part_tbl + 8) (be_bytes proc_tbl) m))).

Lemma empty_tables_ok N m : mapped m pgdir (table_area N) -> 4096 * N < 2 ^ 32 ->
  tables N (empty_tables m) ∅ ∅ first_table /\ same_outside pgdir (table_area N) m (empty_tables m).
Proof.
  intros Hm HN. unfold empty_tables. split.
  - split; try done.
    + apply be_at_other; [rewrite be_bytes_length; area|]. do 2 (apply be_at_zeroed_other; [lia|area|]). apply be_at_write.
    + apply be_at_other; [rewrite be_bytes_length; area|]. apply be_at_zeroed_other; [lia|area|]. apply be_at_zeroed; area.
    + apply be_at_write.
    + intros i Hi. rewrite lookup_empty. apply be_at_other; [rewrite be_bytes_length; area|]. apply be_at_zeroed; area.
    + rewrite map_size_empty. lia.
    + by apply write_bytes_mapped, zeroed_mapped, zeroed_mapped, write_bytes_mapped.
  - etrans; [|apply area_write; rewrite ?be_bytes_length; unfold table_area; area].
    etrans; [|apply area_write; rewrite ?length_replicate; unfold table_area; area].
    etrans; [|apply area_write; rewrite ?length_replicate; unfold table_area; area].
    apply area_write; rewrite ?be_bytes_length; unfold table_area; area.
Qed.

(** ** The walk finds what the map says *)

Definition lookup_page (pm : gmap Z Z) (q : access) (ea : Z) : fault + Z :=
  if Z.testbit ea 63 then inl Invalid
  else if 2 ^ 31 <=? ea then inl Segerror
  else match pm !! vpn ea with
       | None => inl Invalid
       | Some pte =>
           if perm_ok q pte && rc_ok q pte then inr (pte mod 2 ^ 56)
           else inl (if perm_ok q pte then Rc_error else Perm_error)
       end.

(** The registers are set up for the tables, and what the MMU keeps of them is
    what they say. *)
Record mmu_ready (r : mmu) : Prop := {
  mr_ptcr : ptcr r = part_tbl;
  mr_pid : pid r = 1;
  mr_prtbl : forall v, prtbl r = Some v -> v = proc_tbl;
  mr_pgtbl0 : forall v, pgtbl0 r = Some v -> v = Z.lor pgdir 10;
  mr_pgtbl3 : forall v, pgtbl3 r = Some v -> v = 0
}.

Lemma testbit_div a n : 0 <= n -> Z.b2z (Z.testbit a n) = a / 2 ^ n mod 2.
Proof. apply Z.testbit_spec'. Qed.

(** The test of the segment, when the tables cover 31 bits. *)
Lemma segment_ok ea : in_u64 ea -> Z.testbit ea 63 = false ->
  negb (Bool.eqb false (Z.testbit ea 62)) || negb (Z.ldiff (bit_range ea 61 31) (finalmask 0) =? 0) = (2 ^ 31 <=? ea).
Proof.
  intros He H63. unfold in_u64 in He. change (finalmask 0) with 0. rewrite Z.ldiff_0_r, bit_range_div by lia.
  change (61 - 31 + 1) with 31. pose proof (testbit_div ea 63 ltac:(lia)) as E63. rewrite H63 in E63. cbn [Z.b2z] in E63.
  pose proof (testbit_div ea 62 ltac:(lia)) as E62.
  destruct (Z.testbit ea 62); cbn [Bool.eqb negb orb Z.b2z] in *; Z.div_mod_to_equations; lia.
Qed.

Section walk.
Context {N : nat} {m : mem} {d pm : gmap Z Z} {free : Z} (Ht : tables N m d pm free).

Lemma pgd_addr ea : pgtable_addr 0x10000 ea 9 10 = pgdir + 8 * pgd_index ea.
Proof.
  change 0x10000 with (8 * 2 ^ (10 + 3)). rewrite pgtable_addr_ok, addrsh_9, bit_range_div by lia.
  unfold pgdir, pgd_index. change 0x3ff with (Z.ones 10). rewrite Z.land_ones, !Z.shiftr_div_pow2, Z.div_div by lia.
  change (2 ^ 12 * 2 ^ 9) with (2 ^ 21). change (36 - 21 + 1) with 16. change (8 * 2 ^ (10 + 3)) with 0x10000.
  generalize (ea / 2 ^ 21). intros x. change (2 ^ 16) with 65536. change (2 ^ 10) with 1024.
  Z.div_mod_to_equations. lia.
Qed.

Lemma pte_addr i fp ea : d !! i = Some fp -> pgtable_addr fp ea 0 9 = fp + 8 * pte_index ea.
Proof.
  intros Hd. destruct (table_page Ht i fp Hd) as (_ & Hf1 & Hf2 & Hf3 & Hf4).
  assert (E : fp = fp / 4096 * 2 ^ (9 + 3)) by (change (2 ^ (9 + 3)) with 4096; Z.div_mod_to_equations; lia).
  rewrite E at 1. rewrite pgtable_addr_ok; [|lia|apply Z.div_pos; area|rewrite <- E; area].
  rewrite <- E, addrsh_0, bit_range_div by lia. unfold pte_index. change 0x1ff with (Z.ones 9).
  rewrite Z.land_ones, Z.shiftr_div_pow2 by lia. change (27 - 12 + 1) with 16. generalize (ea / 2 ^ 12). intros x.
  change (2 ^ 16) with 65536. change (2 ^ 9) with 512. Z.div_mod_to_equations. lia.
Qed.

(** A directory entry, as the walk reads it. *)
Lemma dir_entry_bits i fp : d !! i = Some fp -> let v := dir_entry (Some fp) in
  Z.testbit v 63 = true /\ Z.testbit v 62 = false /\ bit_range v 4 0 = 9 /\ Z.shiftl (bit_range v 55 8) 8 = fp.
Proof.
  intros Hd. destruct (table_page Ht i fp Hd) as (_ & Hf1 & Hf2 & Hf3 & Hf4). cbv zeta.
  rewrite dir_entry_value by area. unfold first_table in *. set (v := 2 ^ 63 + fp + 9).
  pose proof (testbit_div v 63 ltac:(lia)) as E63. pose proof (testbit_div v 62 ltac:(lia)) as E62.
  assert (Z.b2z (Z.testbit v 63) = 1 /\ Z.b2z (Z.testbit v 62) = 0) as [H63 H62]
    by (rewrite E63, E62; unfold v; Z.div_mod_to_equations; lia).
  split_and!.
  - by destruct (Z.testbit v 63).
  - by destruct (Z.testbit v 62).
  - rewrite bit_range_div by lia. unfold v. change (2 ^ (4 - 0 + 1)) with 32. Z.div_mod_to_equations. lia.
  - rewrite bit_range_div, Z.shiftl_mul_pow2 by lia. unfold v. change (55 - 8 + 1) with 48. Z.div_mod_to_equations. lia.
Qed.

Lemma walk_from_ok q ea : in_u64 ea -> Z.testbit ea 63 = false ->
  walk_from (Z.lor pgdir 10) q ea m = Ok (lookup_page pm q ea) m.
Proof.
  intros He H63. unfold walk_from, lookup_page. rewrite H63. change (Z.lor pgdir 10) with 0x1000a.
  change (bit_range 0x1000a 62 61 * 8 + bit_range 0x1000a 7 5) with 0. change (bit_range 0x1000a 4 0) with 10.
  cbv zeta. rewrite (segment_ok ea He H63). cbn [Z.eqb]. destruct (2 ^ 31 <=? ea); [done|].
  change ((10 <? 5) || (16 <? 10) || (0 + 19 <? 10)) with false. cbv iota.
  change ((0 + 19 - 10) mod 64) with 9. change (Z.shiftl (bit_range 0x1000a 55 8) 8) with 0x10000.
  destruct (index_vpn ea) as (Ev & Hi & Hj). unfold levels. cbn [radix_walk]. rewrite pgd_addr.
  erewrite bind_ok by (apply load_be_ok; [by apply (tb_dir Ht)|apply (dir_entry_u64 Ht)]).
  destruct (d !! pgd_index ea) as [fp|] eqn:Hd.
  - destruct (dir_entry_bits _ fp Hd) as (-> & -> & -> & ->). cbn [negb].
    change ((9 <? 5) || (16 <? 9) || (9 <? 9)) with false. cbv iota. change (9 - 9) with 0.
    rewrite (pte_addr _ fp ea Hd).
    erewrite bind_ok by (apply load_be_ok; [by apply (tb_entry Ht)|rewrite Ev; apply (entry_u64 Ht)]).
    rewrite Ev. destruct (pm !! vpn ea) as [pte|] eqn:E; [|done]. cbn [default from_option id].
    apply (tb_leaf Ht) in E as (_ & _ & _ & -> & ->). cbn [negb]. rewrite tlb_pte_page.
    by destruct (perm_ok q pte && rc_ok q pte).
  - cbn [dir_entry]. rewrite Z.bits_0. cbn [negb]. destruct (pm !! vpn ea) as [pte|] eqn:E; [|done].
    apply (tb_leaf Ht) in E as (_ & [fp E] & _). destruct (index_split (pgd_index ea) (pte_index ea) Hj) as [Hq _].
    rewrite <- Ev, Hq, Hd in E. done.
Qed.

Lemma proc_table_ok r ea : pid r = 1 ->
  proc_table r proc_tbl ea m =
    let v := if Z.testbit ea 63 then 0 else Z.lor pgdir 10 in Ok (v, with_pgtbl r ea v) m.
Proof.
  intros Hp. unfold proc_table. rewrite Hp. destruct (Z.testbit ea 63).
  - change (prtable_addr proc_tbl 0) with proc_tbl. by run_with (apply load_be_ok; [apply (tb_proc0 Ht)|done]).
  - change (prtable_addr proc_tbl 1) with (proc_tbl + 16). by run_with (apply load_be_ok; [apply (tb_proc Ht)|done]).
Qed.

Lemma ready_with r ea : mmu_ready r -> mmu_ready (with_pgtbl r ea (if Z.testbit ea 63 then 0 else Z.lor pgdir 10)).
Proof.
  intros [H1 H2 H3 H4 H5]. unfold with_pgtbl. destruct (Z.testbit ea 63); split; try done; by intros v [= <-].
Qed.

Lemma root_of_ok r ea : mmu_ready r -> exists r',
  root_of r ea m = Ok (if Z.testbit ea 63 then 0 else Z.lor pgdir 10, r') m /\ mmu_ready r'.
Proof.
  intros Hr. pose proof Hr as [H1 H2 H3 H4 H5]. unfold root_of. destruct (prtbl r) as [base|] eqn:Eb.
  - rewrite (H3 base eq_refl). destruct (if Z.testbit ea 63 then pgtbl3 r else pgtbl0 r) as [v|] eqn:Ev.
    + exists r. split; [|done]. destruct (Z.testbit ea 63); [by rewrite (H5 v Ev)|by rewrite (H4 v Ev)].
    + eexists. split; [by apply proc_table_ok|]. by apply ready_with.
  - rewrite H1. change (Z.shiftl (bit_range part_tbl 55 12) 12 + 8) with (part_tbl + 8).
    erewrite bind_ok by (apply load_be_ok; [apply (tb_part Ht)|done]).
    eexists. split; [by apply proc_table_ok|]. apply ready_with. split; try done. by intros v [= <-].
Qed.

Lemma mmu_lookup_ok r q ea : mmu_ready r -> in_u64 ea -> exists r',
  mmu_lookup r q ea m = Ok (lookup_page pm q ea, r') m /\ mmu_ready r'.
Proof.
  intros Hr He. destruct (root_of_ok r ea Hr) as (r' & E & Hr'). exists r'. split; [|done].
  unfold mmu_lookup. run_with (exact E). destruct (Z.testbit ea 63) eqn:H63.
  - unfold lookup_page. rewrite H63. by run_with reflexivity.
  - by run_with (by apply walk_from_ok).
Qed.
End walk.
