(* ===== verification/MmuRun.v ===== *)
(** * The MMU test passes

    The test program is compared with itself on an ideal machine, without tables
    and without translation buffers, which has a map from pages to leaves.  The
    ideal run is computed; that the program follows it, whatever the buffers
    keep, is a forward simulation, operation by operation. *)

From S2P Require Import Prelude Simulate CMem Console Mmu MmuTest MmuTables.

(** ** Leaves and what buffers keep of them *)

(** The bits that may be added to a leaf without telling the buffers: the three
    permissions, changed and referenced. *)
Definition soft_bits : Z := 0x187.

(** [b] allows at least what [a] does, for the same page. *)
Definition le_pte (a b : Z) : Prop := forall i, 0 <= i ->
  if Z.testbit soft_bits i then Z.testbit a i = true -> Z.testbit b i = true
  else Z.testbit a i = Z.testbit b i.

Definition le_pteb (a b : Z) : bool := (Z.lor a b =? b) && (Z.ldiff (Z.lxor a b) soft_bits =? 0).

Lemma le_pteb_spec a b : le_pteb a b = true -> le_pte a b.
Proof.
  unfold le_pteb. intros [H1%Z.eqb_eq H2%Z.eqb_eq]%andb_prop i Hi.
  apply (f_equal (fun z => Z.testbit z i)) in H1, H2. rewrite Z.lor_spec in H1.
  rewrite Z.ldiff_spec, Z.lxor_spec, Z.bits_0 in H2.
  destruct (Z.testbit soft_bits i), (Z.testbit a i), (Z.testbit b i); done.
Qed.

Lemma le_pte_refl a : le_pte a a.
Proof. intros i Hi. by destruct (Z.testbit soft_bits i). Qed.

Lemma le_pte_trans a b c : le_pte a b -> le_pte b c -> le_pte a c.
Proof.
  intros H1 H2 i Hi. specialize (H1 i Hi). specialize (H2 i Hi).
  destruct (Z.testbit soft_bits i); [auto|congruence].
Qed.

Lemma le_pte_mod a b : le_pte a b -> le_pte (a mod 2 ^ 56) (b mod 2 ^ 56).
Proof.
  intros H i Hi. specialize (H i Hi). rewrite !testbit_mod_pow2 by lia.
  destruct (i <? 56); cbn [andb]; destruct (Z.testbit soft_bits i); done.
Qed.

Lemma perm_ok_mod q a : perm_ok q (a mod 2 ^ 56) = perm_ok q a /\ rc_ok q (a mod 2 ^ 56) = rc_ok q a.
Proof. unfold perm_ok, rc_ok. by rewrite !testbit_mod_pow2 by lia. Qed.

Lemma le_pte_permits q a b : le_pte a b -> perm_ok q a && rc_ok q a = true -> perm_ok q b && rc_ok q b = true.
Proof.
  intros H. unfold perm_ok, rc_ok. rewrite (H 3 ltac:(lia)), (H 5 ltac:(lia)).
  pose proof (H 0 ltac:(lia)) as H0. pose proof (H 1 ltac:(lia)) as H1. pose proof (H 2 ltac:(lia)) as H2.
  pose proof (H 7 ltac:(lia)) as H7. pose proof (H 8 ltac:(lia)) as H8.
  change (Z.testbit soft_bits 0) with true in H0. change (Z.testbit soft_bits 1) with true in H1.
  change (Z.testbit soft_bits 2) with true in H2. change (Z.testbit soft_bits 7) with true in H7.
  change (Z.testbit soft_bits 8) with true in H8. cbv iota in H0, H1, H2, H7, H8.
  destruct (iside q), (store q), (priv q), (Z.testbit a 0), (Z.testbit a 1), (Z.testbit a 2), (Z.testbit a 7), (Z.testbit a 8);
    cbn [negb andb orb]; rewrite ?H0, ?H1, ?H2, ?H7, ?H8 by done; cbn [negb andb orb];
    repeat match goal with |- context [Z.testbit b ?k] => destruct (Z.testbit b k) end; done.
Qed.

Lemma le_pte_real a b ea : le_pte a b -> real_addr a ea = real_addr b ea.
Proof.
  intros H. unfold real_addr. do 2 f_equal. apply Z.bits_inj'. intros i Hi. rewrite !bit_range_bits by lia.
  destruct (Z.ltb_spec i (55 - 12 + 1)); [|done]. cbn [andb]. specialize (H (i + 12) ltac:(lia)).
  replace (Z.testbit soft_bits (i + 12)) with false in H; [done|]. symmetry. apply (testbit_above _ 9); [done|lia].
Qed.

(** ** The ideal machine *)

(** The leaves by page, the parts of the address space that have had a table,
    the data memory that was written, and the rest of the program's state. *)
Record vm := Vm {
  v_pm : gmap Z Z; v_dirs : gset Z; v_wr : gmap Z Z; v_sprs : sprs;
  v_eas : list Z; v_out : list Z; v_fail : Z
}.

(** The memory the tests use, and the number of tables there is room for. *)
Definition data_lo : Z := 0x8000.
Definition data_hi : Z := 0xc010.
Definition in_data (p n : Z) : bool := (data_lo <=? p) && (p + n <=? data_hi).
Definition capacity : nat := 4.

Definition u64b (x : Z) : bool := (0 <=? x) && (x <? 2 ^ 64).

Section ideal.
(** What memory held at first. *)
Context (init : Z -> Z).

Definition v_byte (s : vm) (p : Z) : Z := default (init p) (v_wr s !! p).

Definition v_put (l : list Z) (s : vm) : vm :=
  Vm (v_pm s) (v_dirs s) (v_wr s) (v_sprs s) (v_eas s) (v_out s ++ l) (v_fail s).

Definition v_unmapped (ea : Z) (pm : gmap Z Z) : gmap Z Z := delete (vpn ea) pm.

(** Whether a leaf can be put in place of what is there: [map] leaves the
    buffers alone, so what they hold of an old leaf must still be right. *)
Definition replaceable (old : option Z) (pte : Z) : bool :=
  match old with None => true | Some old => le_pteb old pte end.

(** The calls of [map] this machine has an answer for.  The code takes others
    too: it has room for the addresses of four pages only, tables are taken from
    memory as long as it lasts, the tree has 2 GB, and a leaf that is replaced by
    another one may stay in the buffers.  What then happens is not described by a
    map of pages, and such a call is an error here. *)
Definition v_may_map (s : vm) (ea pa perm : Z) : bool :=
  (0 <=? ea) && (ea <? 2 ^ 31) && u64b pa && u64b perm && (length (v_eas s) <? 4)%nat &&
  (bool_decide (pgd_index ea ∈ v_dirs s) || (size (v_dirs s) <? capacity)%nat) &&
  replaceable (v_pm s !! vpn ea) (make_pte pa perm).

#[export] Instance ideal : Machine vm := {
  xlate q ea := fun s =>
    if u64b ea && negb (iside q && store q) then
      Ok (match lookup_page (v_pm s) q ea with inl e => inl e | inr pte => inr (real_addr pte ea) end) s
    else Err UB s;
  phys_load n p := fun s =>
    if in_data p n then Ok (le_value (List.map (fun i : nat => v_byte s (p + i)) (seq 0 n))) s else Err (Segv p) s;
  phys_store n p v := fun s =>
    if in_data p n then
      Ok tt (Vm (v_pm s) (v_dirs s) (write_bytes p (le_bytes n v) (v_wr s)) (v_sprs s) (v_eas s) (v_out s) (v_fail s))
    else Err (Segv p) s;
  mfspr n := gets (fun s => get_spr n (v_sprs s));
  mtspr n v := fun s =>
    if (n =? PTCR) || (n =? PID) then Err UB s else
    Ok tt (Vm (v_pm s) (v_dirs s) (v_wr s) (set_spr n v (v_sprs s))
             (v_eas s) (v_out s) (v_fail s));
  map ea pa perm := fun s =>
    if v_may_map s ea pa perm then
      Ok tt (Vm (<[vpn ea := make_pte pa perm]> (v_pm s)) ({[ pgd_index ea ]} ∪ v_dirs s) (v_wr s) (v_sprs s)
               (v_eas s ++ [ea]) (v_out s) (v_fail s))
    else Err UB s;
  unmap ea := fun s =>
    if (0 <=? ea) && (ea <? 2 ^ 31) then
      Ok tt (Vm (v_unmapped ea (v_pm s)) (v_dirs s) (v_wr s) (v_sprs s) (v_eas s) (v_out s) (v_fail s))
    else Err UB s;
  unmap_all := modify (fun s =>
    Vm (foldl (fun pm ea => v_unmapped ea pm) (v_pm s) (v_eas s)) (v_dirs s) (v_wr s) (v_sprs s) [] (v_out s) (v_fail s));
  test_putchar c := modify (v_put [u8 c]);
  print_string l := modify (v_put (lit_text l));
  get_fail := gets v_fail;
  set_fail := modify (fun s => Vm (v_pm s) (v_dirs s) (v_wr s) (v_sprs s) (v_eas s) (v_out s) 1)
}.
End ideal.

(** What the program prints: a line for each test that passed. *)
Definition pass_line (num : Z) : list Z :=
  codes "test " ++ [48 + num / 10; 48 + num mod 10; 58] ++ codes "PASS" ++ [13; 10].
Definition report : list Z := concat (List.map pass_line (seqZ 1 19)).

(** The ideal run, whatever memory and the registers held and wherever the
    program is: the part of its outcome that does not depend on these is
    computed. *)
Lemma ideal_run init msr pc1 pc2 pc3 dsisr dar srr0 srr1 : exists a,
  @run_tests _ (ideal init) msr pc1 pc2 pc3 (Vm ∅ ∅ ∅ (Sprs dsisr dar srr0 srr1) [] [] 0) = Ok 0 a /\ v_out a = report.
Proof.
  assert (E : match @run_tests _ (ideal init) msr pc1 pc2 pc3 (Vm ∅ ∅ ∅ (Sprs dsisr dar srr0 srr1) [] [] 0) with
    | Ok r a => Some (r, v_out a)
    | Err _ _ => None
    end = Some (0, report)) by (vm_compute; reflexivity).
  destruct (run_tests msr pc1 pc2 pc3 _) as [r a|e a]; [|done]. injection E as -> <-. by exists a.
Qed.

(** ** The program follows the ideal machine *)

Lemma store_le_bytes (n : nat) : forall m p v, mapped m p n -> store_le n p v m = Ok tt (write_bytes p (le_bytes n v) m).
Proof.
  induction n as [|n IH]; intros m p v Hm; [done|]. cbn [store_le le_bytes write_bytes].
  run_with (apply storeb_ok; eapply mapped_at; [exact Hm|lia]). apply IH.
  apply (write_bytes_mapped p [u8 v]). eapply mapped_mono; [exact Hm|lia|lia].
Qed.

Lemma u64b_spec x : u64b x = true -> in_u64 x.
Proof. unfold u64b, in_u64. lia. Qed.

Section simulation.
Context {D : Type} `{Bus D} {uart : bool} {U : Uart D uart} {T : Type} `{TlbOk T}.
Context (poll : nat) (lits : lit -> Z) (init : Z -> Z) (out0 : list Z).
Hypothesis poll_enough : (max_wait < poll)%nat.

(** The constants are neither in the data nor in the tables. *)
Definition lits_apart : Prop := forall l, let e := lits l + length (lit_text l) + 1 in
  (e <= data_lo \/ data_hi <= lits l) /\ (e <= pgdir \/ pgdir + table_area capacity <= lits l).
Hypothesis apart : lits_apart.

(** An entry of a buffer is a leaf of the map, or was before bits were added to
    it; in the buffer for instructions it allows execution. *)
Definition tlb_agrees (pm : gmap Z Z) (t : T) : Prop := forall i p pte, tlb_lookup i p t = Some pte ->
  0 <= p < 2 ^ 19 /\ (exists leaf, pm !! p = Some leaf /\ le_pte pte (leaf mod 2 ^ 56)) /\
  (i = true -> forall pr, priv pr || negb (Z.testbit pte 3) = true -> iside pr = true -> store pr = false ->
     perm_ok pr pte && rc_ok pr pte = true).

Record follows (a : vm) (s : mt D T) : Prop := {
  fo_tables : exists d, tables capacity (fmem (m_fw s)) d (v_pm a) (free_ptr s) /\ dom d = v_dirs a;
  fo_ready : mmu_ready (m_mmu s);
  fo_tlb : tlb_agrees (v_pm a) (m_tlb s);
  fo_data : forall p, data_lo <= p < data_hi -> fmem (m_fw s) !! p = Some (v_byte init a p);
  fo_lits : forall l, cstr (fmem (m_fw s)) (lits l) (lit_text l);
  fo_sprs : m_sprs s = v_sprs a;
  fo_eas : take (length (v_eas a)) (eas_mapped s) = v_eas a /\ neas_mapped s = length (v_eas a) /\
           length (eas_mapped s) = 4%nat /\ Forall (fun ea => 0 <= ea < 2 ^ 31) (v_eas a);
  fo_console : console_ok (m_fw s);
  fo_out : sent (fdev (m_fw s)) = out0 ++ v_out a;
  fo_fail : m_fail s = v_fail a
}.

(** The program does what the ideal machine does when that does not fail. *)
Local Abbreviation sim := (simulates follows).

(** *** Memory *)

Definition with_memory (m : mem) (s : mt D T) : mt D T := with_fw (with_mem (m_fw s) m) s.

Lemma in_memory_ok {A} (c : M mem A) (s : mt D T) x m : c (fmem (m_fw s)) = Ok x m -> in_memory c s = Ok x (with_memory m s).
Proof. intros E. unfold in_memory, on_fw, on_mem. by rewrite E. Qed.

Lemma data_area_apart p n : in_data p n = true -> data_lo <= p /\ p + n <= data_hi.
Proof. unfold in_data. lia. Qed.

Lemma lit_kept m m' l p n : (lits l + length (lit_text l) + 1 <= p \/ p + n <= lits l) ->
  same_outside p n m m' -> cstr m (lits l) (lit_text l) -> cstr m' (lits l) (lit_text l).
Proof.
  clear poll_enough apart. intros Hd Hs [Hb Hn]. split; [|done]. eapply bytes_at_same_outside; [exact Hs| |done].
  rewrite length_app. cbn [length]. lia.
Qed.

Lemma be_at_kept m m' p v : (forall q, pgdir <= q < pgdir + table_area capacity -> m' !! q = m !! q) ->
  pgdir <= p -> p + 8 <= pgdir + table_area capacity -> be_at m p v -> be_at m' p v.
Proof.
  intros Hm Hp Hn Hb i b Hi. pose proof (lookup_lt_Some _ _ _ Hi) as Hl. rewrite be_bytes_length in Hl.
  rewrite Hm by lia. by apply Hb.
Qed.

(** The tables depend on their area only. *)
Lemma tables_kept m m' d pm free : (forall q, pgdir <= q < pgdir + table_area capacity -> m' !! q = m !! q) ->
  tables capacity m d pm free -> tables capacity m' d pm free.
Proof.
  intros Hm Ht. pose proof (tb_free Ht) as Hfree. pose proof (tb_size Ht) as [Hs _].
  assert (Hk : forall p v, pgdir <= p -> p + 8 <= pgdir + table_area capacity -> be_at m p v -> be_at m' p v)
    by (intros p v; by apply be_at_kept).
  unfold table_area, capacity in *.
  split.
  - apply Hk; [area|area|apply (tb_part Ht)].
  - apply Hk; [area|area|apply (tb_proc0 Ht)].
  - apply Hk; [area|area|apply (tb_proc Ht)].
  - intros i Hi. apply Hk; [area|area|by apply (tb_dir Ht)].
  - apply (tb_page Ht).
  - apply (tb_inj Ht).
  - intros i fp j Hd Hj. pose proof (table_page Ht i fp Hd) as (_ & ? & ? & _).
    apply Hk; [area|area|by apply (tb_entry Ht)].
  - apply (tb_leaf Ht).
  - done.
  - apply (tb_size Ht).
  - intros i Hi. rewrite Hm by area. by apply (tb_mapped Ht).
Qed.
(** New contents of the data. *)
Lemma follows_store a s m' wr :
  follows a s -> (forall q, ~ (data_lo <= q < data_hi) -> m' !! q = fmem (m_fw s) !! q) ->
  (forall p, data_lo <= p < data_hi -> m' !! p = Some (default (init p) (wr !! p))) ->
  follows (Vm (v_pm a) (v_dirs a) wr (v_sprs a) (v_eas a) (v_out a) (v_fail a)) (with_memory m' s).
Proof.
  intros [(d & Ht & Hd) Hr Ht2 Hdata Hl Hs He Hc Ho Hf] Hout Hin. split; try done.
  - exists d. split; [|done]. eapply tables_kept; [|exact Ht]. intros q Hq. apply Hout.
    unfold table_area, capacity, pgdir, data_hi, data_lo in *. lia.
  - intros l. destruct (apart l) as [Hd1 _]. destruct (Hl l) as [Hb Hn]. split; [|done].
    intros i b Hi. pose proof (lookup_lt_Some _ _ _ Hi) as Hlt. rewrite length_app in Hlt. cbn [length] in Hlt.
    cbn. rewrite Hout by lia. by apply Hb.
  - by destruct Hc.
Qed.

Lemma with_memory_same s : with_memory (fmem (m_fw s)) s = s.
Proof. by destruct s as [[] ? ? ? ? ? ? ?]. Qed.

Local Abbreviation prog := (program (D := D) (T := T) poll lits).
Local Abbreviation idl := (ideal init).

Lemma sim_phys_load n p : sim (phys_load (Machine := idl) n p) (phys_load (Machine := prog) n p).
Proof.
  intros a s Hf x a'. cbn. destruct (in_data p n) eqn:E; [|done]. intros [= <- <-]. apply data_area_apart in E.
  set (l := List.map (fun i : nat => v_byte init a (p + i)) (seq 0 n)).
  assert (Hl : length l = n) by (unfold l; by rewrite List.length_map, length_seq).
  exists s. split; [|done]. rewrite <- (with_memory_same s) at 2. apply in_memory_ok. rewrite <- Hl at 1.
  apply load_le_ok. intros i b Hi. pose proof (lookup_lt_Some _ _ _ Hi) as Hlt.
  unfold l in Hi. rewrite list_lookup_fmap, lookup_seq_lt in Hi by lia. injection Hi as <-.
  rewrite (fo_data _ _ Hf) by lia. done.
Qed.

Lemma sim_phys_store n p v : sim (phys_store (Machine := idl) n p v) (phys_store (Machine := prog) n p v).
Proof.
  intros a s Hf x a'. cbn. destruct (in_data p n) eqn:E; [|done]. intros [= <- <-]. apply data_area_apart in E.
  eexists. split.
  - apply in_memory_ok, store_le_bytes. intros i Hi. rewrite (fo_data _ _ Hf) by lia. by eexists.
  - apply follows_store; [done|..].
    + intros q Hq. rewrite write_bytes_lookup, bool_decide_false; [done|]. rewrite le_bytes_length. lia.
    + intros q Hq. rewrite !write_bytes_lookup. case_bool_decide.
      * rewrite le_bytes_length in *. destruct (lookup_lt_is_Some_2 (le_bytes n v) (Z.to_nat (q - p))) as [b Hb].
        { rewrite le_bytes_length. lia. }
        by rewrite Hb.
      * by apply (fo_data _ _ Hf).
Qed.

(** *** Translation *)

Lemma follows_core a s r t : follows a s -> mmu_ready r -> tlb_agrees (v_pm a) t -> follows a (with_core r t s).
Proof. intros [? ? ? ? ? ? ? ? ? ?] ? ?. by split. Qed.

Lemma shiftr_vpn ea : 0 <= ea < 2 ^ 31 -> Z.shiftr ea 12 = vpn ea /\ 0 <= vpn ea < 2 ^ 19.
Proof.
  intros He. unfold vpn. rewrite Z.shiftr_div_pow2 by lia.
  assert (0 <= ea / 2 ^ 12 < 2 ^ 19) by (Z.div_mod_to_equations; lia). by rewrite Z.mod_small.
Qed.

(** Loading the result of a walk. *)
Lemma tlb_load_agrees pm (t : T) q ea pte :
  tlb_agrees pm t -> in_u64 ea -> iside q && store q = false -> lookup_page pm q ea = inr pte ->
  tlb_agrees pm (tlb_load (iside q) (Z.shiftr ea 12) pte t).
Proof.
  intros Ht He Hq Hl. unfold lookup_page in Hl. destruct (Z.testbit ea 63); [done|].
  destruct (Z.leb_spec (2 ^ 31) ea); [done|]. destruct (pm !! vpn ea) as [l|] eqn:El; [|done].
  destruct (perm_ok q l && rc_ok q l) eqn:Ep; [|done]. injection Hl as <-.
  destruct (shiftr_vpn ea) as [Ev Hv]; [unfold in_u64 in He; lia|]. intros i p v Hlook.
  destruct (decide ((i, p) = (iside q, Z.shiftr ea 12))) as [[= -> ->]|Hne].
  - rewrite tlb_load_same in Hlook. injection Hlook as <-. rewrite Ev. split; [done|]. split.
    + exists l. split; [done|]. apply le_pte_refl.
    + intros Hi pr Hp Hpi Hps. rewrite Hi in *. cbn [andb] in Hq. destruct (perm_ok_mod pr l) as [-> ->].
      rewrite testbit_mod_pow2 in Hp by lia. cbn [andb Z.ltb Z.compare Pos.compare Pos.compare_cont] in Hp.
      unfold perm_ok, rc_ok in *. rewrite Hi, Hq in Ep. rewrite Hpi, Hps, Hp. cbn [andb].
      destruct (priv q || negb (Z.testbit l 3)); [done|discriminate Ep].
  - destruct (tlb_load_other (iside q) (Z.shiftr ea 12) (l mod 2 ^ 56) t i p Hne) as [E|E]; rewrite E in Hlook; [|done].
    by apply Ht.
Qed.

(** What a buffer lets through, the walk would. *)
Lemma tlb_hit_ok pm (t : T) q ea pte :
  tlb_agrees pm t -> in_u64 ea -> iside q && store q = false ->
  tlb_lookup (iside q) (Z.shiftr ea 12) t = Some pte -> tlb_permits q pte = true ->
  exists pte', lookup_page pm q ea = inr pte' /\ real_addr pte ea = real_addr pte' ea.
Proof.
  intros Ht He Hq Hlook Hperm. destruct (Ht _ _ _ Hlook) as (Hp & (l & Hl & Hle) & Hx).
  unfold in_u64 in He. rewrite Z.shiftr_div_pow2 in Hp, Hl by lia.
  assert (He31 : 0 <= ea < 2 ^ 31) by (Z.div_mod_to_equations; lia).
  destruct (shiftr_vpn ea He31) as [Ev _]. rewrite Z.shiftr_div_pow2 in Ev by lia. rewrite Ev in Hl.
  assert (Hok : perm_ok q l && rc_ok q l = true).
  { destruct (perm_ok_mod q l) as [<- <-]. eapply le_pte_permits; [exact Hle|].
    unfold tlb_permits in Hperm. destruct (iside q) eqn:Ei; [|done]. by apply Hx. }
  exists (l mod 2 ^ 56). split; [|by apply le_pte_real]. unfold lookup_page.
  rewrite (testbit_above ea 31 63) by lia. rewrite (proj2 (Z.leb_gt _ _)) by lia. by rewrite Hl, Hok.
Qed.

Lemma walk_and_load_ok a s q ea : follows a s -> in_u64 ea -> iside q && store q = false -> exists r t,
  walk_and_load q ea (m_mmu s) (m_tlb s) (fmem (m_fw s)) =
    Ok (match lookup_page (v_pm a) q ea with inl e => inl e | inr pte => inr (real_addr pte ea) end, (r, t)) (fmem (m_fw s)) /\
  mmu_ready r /\ tlb_agrees (v_pm a) t.
Proof.
  intros [(d & Ht & _) Hr Htlb _ _ _ _ _ _ _] He Hq. destruct (mmu_lookup_ok Ht (m_mmu s) q ea Hr He) as (r & E & Hr').
  unfold walk_and_load. destruct (lookup_page (v_pm a) q ea) as [e|pte] eqn:El.
  - exists r, (m_tlb s). split; [by run_with (exact E)|done].
  - exists r. eexists. split; [run_with (exact E); reflexivity|]. split; [done|]. by apply tlb_load_agrees.
Qed.

Lemma sim_xlate q ea : sim (xlate (Machine := idl) q ea) (xlate (Machine := prog) q ea).
Proof.
  intros a s Hf x a'. cbn [xlate ideal program]. destruct (u64b ea && negb (iside q && store q)) eqn:E; [|done].
  apply andb_prop in E as [He%u64b_spec Hq%negb_true_iff]. intros [= <- <-].
  destruct (walk_and_load_ok a s q ea Hf He Hq) as (r & t & Ew & Hr & Ht).
  unfold translate. destruct (tlb_lookup (iside q) (Z.shiftr ea 12) (m_tlb s)) as [pte|] eqn:El.
  - destruct (tlb_permits q pte) eqn:Ep.
    + destruct (tlb_hit_ok _ _ q ea pte (fo_tlb _ _ Hf) He Hq El Ep) as (pte' & -> & Ereal).
      eexists. unfold mret, M_ret. rewrite Ereal. split; [reflexivity|].
      apply follows_core; [done|apply (fo_ready _ _ Hf)|apply (fo_tlb _ _ Hf)].
    + eexists. rewrite Ew. split; [reflexivity|]. by apply follows_core.
  - eexists. rewrite Ew. split; [reflexivity|]. by apply follows_core.
Qed.
(** *** Registers and flags *)

Lemma sim_mfspr n : sim (mfspr (Machine := idl) n) (mfspr (Machine := prog) n).
Proof. intros a s Hf x a' [= <- <-]. exists s. split; [|done]. cbn. unfold gets. by rewrite (fo_sprs _ _ Hf). Qed.

Lemma sim_mtspr n v : sim (mtspr (Machine := idl) n v) (mtspr (Machine := prog) n v).
Proof.
  intros a s Hf x a'. cbn. unfold program_mtspr, modify. destruct (n =? PTCR); [done|].
  destruct (n =? PID); [done|]. cbn [orb]. intros [= <- <-]. eexists. split; [reflexivity|].
  destruct Hf as [? ? ? ? ? Hs ? ? ? ?]. split; try done. cbn. by rewrite Hs.
Qed.

Lemma sim_get_fail : sim (get_fail (Machine := idl)) (get_fail (Machine := prog)).
Proof. intros a s Hf x a' [= <- <-]. exists s. split; [|done]. cbn. unfold gets. by rewrite (fo_fail _ _ Hf). Qed.

Lemma sim_set_fail : sim (set_fail (Machine := idl)) (set_fail (Machine := prog)).
Proof.
  intros a s Hf x a' [= <- <-]. eexists. split; [reflexivity|]. destruct Hf as [? ? ? ? ? ? ? ? ? ?]. by split.
Qed.

(** *** The console *)

Lemma follows_say a s f t : follows a s -> emits (m_fw s) t f -> follows (v_put t a) (with_fw f s).
Proof.
  intros [? ? ? ? ? ? ? Hc Ho ?] He. pose proof (traffic_ok _ _ _ _ Hc He) as Hc'. destruct He as (d & -> & Hu & Hs & _).
  split; try done. cbn. rewrite Hs, Ho. by rewrite app_assoc.
Qed.

Lemma sim_putchar c : sim (test_putchar (Machine := idl) c) (test_putchar (Machine := prog) c).
Proof.
  intros a s Hf x a' [= <- <-]. destruct (putchar_ok poll poll_enough c (m_fw s) (fo_console _ _ Hf)) as (f & E & He).
  exists (with_fw f s). split; [|by apply follows_say]. cbn. unfold on_fw, mbind, M_bind. by rewrite E.
Qed.

Lemma print_string_loop l : forall (s : fw D) str f, console_ok s -> cstr (fmem s) str l -> Forall in_u8 l ->
  (length l < f)%nat -> exists s', loop f (print_string_step poll) str s = Ok tt s' /\ emits s l s'.
Proof.
  induction l as [|c l IH]; intros s str f Hs Hstr Hu Hf; (destruct f as [|f]; [cbn in Hf; lia|]).
  - apply cstr_nil in Hstr. exists s. split; [|by apply emits_refl]. apply loop_break. unfold print_string_step.
    by run_with (by apply on_mem_loadb).
  - apply Forall_cons_iff in Hu as [Hc Hu]. apply cstr_cons in Hstr as (Hch & Hc0 & Hstr). cbn [length] in Hf.
    destruct (putchar_ok poll poll_enough c s Hs) as (s1 & E1 & Hs1). rewrite u8_small in Hs1 by done.
    pose proof (traffic_mem _ _ _ _ Hs1) as Hm.
    destruct (IH s1 (str + 1) f) as (s2 & E2 & Hs2); [by eapply traffic_ok|by rewrite Hm|done|lia|].
    exists s2. split; [|exact (emits_trans _ _ _ _ _ Hs1 Hs2)]. rewrite <- E2. apply loop_continue.
    unfold print_string_step. run_with (by apply on_mem_loadb). if_false. by run_with (exact E1).
Qed.

Lemma sim_print_string l : sim (print_string (Machine := idl) l) (print_string (Machine := prog) l).
Proof.
  intros a s Hf x a' [= <- <-]. pose proof (fo_lits _ _ Hf l) as Hl. pose proof (cstr_size _ _ _ Hl) as Hsz.
  assert (Hu : Forall in_u8 (lit_text l)) by (destruct l; repeat constructor; done).
  destruct (print_string_loop (lit_text l) (m_fw s) (lits l) (S (size (fmem (m_fw s)))) (fo_console _ _ Hf) Hl Hu ltac:(lia))
    as (f & E & He).
  exists (with_fw f s). split; [|by apply follows_say]. cbn. unfold on_fw, program_print_string. by rewrite E.
Qed.

(** *** The map *)

Lemma agrees_insert pm (t : T) p pte : replaceable (pm !! p) pte = true -> tlb_agrees pm t -> tlb_agrees (<[p := pte]> pm) t.
Proof.
  intros Hr Ht i p' v Hl. destruct (Ht i p' v Hl) as (Hp & (l & El & Hle) & Hx). split; [done|]. split; [|done].
  destruct (decide (p' = p)) as [->|Hne]; [|exists l; by rewrite lookup_insert_ne].
  exists pte. rewrite lookup_insert_eq. split; [done|]. rewrite El in Hr. cbn [replaceable] in Hr.
  eapply le_pte_trans; [exact Hle|]. by apply le_pte_mod, le_pteb_spec.
Qed.

Lemma agrees_inval pm (t : T) p : tlb_agrees pm t -> tlb_agrees (delete p pm) (tlb_inval p t).
Proof.
  intros Ht i p' v Hl. destruct (decide (p' = p)) as [->|Hne]; [by rewrite tlb_inval_same in Hl|].
  destruct (tlb_inval_other p t i p' Hne) as [E|E]; rewrite E in Hl; [|done].
  destruct (Ht i p' v Hl) as (Hp & (l & El & Hle) & Hx). split; [done|]. split; [|done].
  exists l. by rewrite lookup_delete_ne.
Qed.

(** New tables. *)
Lemma follows_tables a s m' d pm dirs free t :
  follows a s -> same_outside pgdir (table_area capacity) (fmem (m_fw s)) m' ->
  tables capacity m' d pm free -> dom d = dirs -> tlb_agrees pm t ->
  follows (Vm pm dirs (v_wr a) (v_sprs a) (v_eas a) (v_out a) (v_fail a))
    (with_core (m_mmu s) t (with_free free (with_memory m' s))).
Proof.
  intros [_ Hr _ Hdata Hl ? ? Hc ? ?] Hs Ht Hd Htlb. split; try done.
  - by exists d.
  - intros p Hp. cbn. rewrite Hs; [by apply Hdata|]. unfold data_hi, pgdir in *. lia.
  - intros l. destruct (apart l) as [_ Ha]. cbn. eapply lit_kept; [|exact Hs|apply Hl]. exact Ha.
  - by destruct Hc.
Qed.

Lemma eas_insert (l eas : list Z) x : length l = 4%nat -> (length eas < 4)%nat -> take (length eas) l = eas ->
  take (S (length eas)) (<[length eas := x]> l) = eas ++ [x].
Proof.
  intros Hl Hn Ht. rewrite (take_S_r _ (length eas) x) by (apply list_lookup_insert_eq; lia).
  by rewrite take_insert_ge, Ht by lia.
Qed.

Lemma sim_map ea pa perm : sim (map (Machine := idl) ea pa perm) (map (Machine := prog) ea pa perm).
Proof.
  intros a s Hf x a'. cbn [map ideal]. destruct (v_may_map a ea pa perm) eqn:E; [|done]. intros [= <- <-].
  unfold v_may_map in E. rewrite !andb_true_iff in E. destruct E as [[[[[[He1 He2] Hpa] Hpe] Hn] Hroom] Hrep].
  apply u64b_spec in Hpa, Hpe. apply Nat.ltb_lt in Hn.
  pose proof Hf as [(d & Ht & Hd) Hr Htlb Hdata Hl Hs (Heas & Hneas & Hlen & Hr31) Hc Ho Hfl].
  assert (Hroom' : is_Some (d !! pgd_index ea) \/ (size d < capacity)%nat).
  { rewrite <- Hd in Hroom. apply orb_prop in Hroom as [Hx%bool_decide_eq_true|Hx%Nat.ltb_lt].
    - left. by apply elem_of_dom.
    - right. by rewrite <- size_dom. }
  destruct (map_page_ok capacity _ d (v_pm a) _ ea pa perm Ht Hpa Hpe Hroom') as (m' & d' & free' & E & Ht' & Hd' & Hout).
  pose proof (follows_tables a s m' d' _ _ free' (m_tlb s) Hf Hout Ht' Hd' (agrees_insert _ _ _ _ Hrep Htlb)) as Hnew.
  eexists. split.
  - cbn [map program]. unfold program_map. erewrite bind_ok by reflexivity.
    erewrite bind_ok by (by apply in_memory_ok). do 3 (erewrite bind_ok by reflexivity).
    cbn [neas_mapped with_free with_memory with_fw]. rewrite Hneas. if_true. reflexivity.
  - rewrite Hd in Hnew. destruct Hnew as [? ? ? ? ? ? _ ? ? ?]. split; try done. cbn. rewrite Nat2Z.id, length_app. cbn [length].
    split_and!.
    + rewrite Nat.add_1_r. by apply eas_insert.
    + lia.
    + by rewrite length_insert.
    + apply Forall_app. split; [done|]. constructor; [lia|done].
Qed.

(** A page without its leaf. *)
Definition unmapped (ea : Z) (a : vm) : vm :=
  Vm (v_unmapped ea (v_pm a)) (v_dirs a) (v_wr a) (v_sprs a) (v_eas a) (v_out a) (v_fail a).

Lemma tlbie_page ea : 0 <= ea < 2 ^ 31 ->
  tlbie_all (Z.land ea (u64 (Z.lnot 0xfff))) = false /\ Z.shiftr (Z.land ea (u64 (Z.lnot 0xfff))) 12 = vpn ea.
Proof.
  intros He. change (u64 (Z.lnot 0xfff)) with (Z.shiftl (Z.ones 52) 12). split.
  - unfold tlbie_all. rewrite !Z.land_spec, !(Z.shiftl_spec_low _ 12) by lia. by rewrite !andb_false_r.
  - rewrite Z.shiftr_land, Z.shiftr_shiftl_l, Z.shiftl_0_r, Z.land_ones by lia.
    destruct (shiftr_vpn ea He) as [-> ?]. apply Z.mod_small. lia.
Qed.

Lemma program_unmap_ok a s ea : follows a s -> 0 <= ea < 2 ^ 31 -> exists s',
  program_unmap ea s = Ok tt s' /\ follows (unmapped ea a) s'.
Proof.
  intros Hf He. pose proof Hf as [(d & Ht & Hd) _ Htlb _ _ _ _ _ _ _].
  destruct (unmap_page_ok capacity _ d (v_pm a) _ ea Ht) as (m' & E & Ht' & Hout).
  unfold program_unmap. erewrite bind_ok by (by apply in_memory_ok).
  destruct (decide (is_Some (d !! pgd_index ea))) as [Hi|Hi].
  - rewrite bool_decide_true by done. destruct (tlbie_page ea He) as [E1 E2].
    eexists. split; [unfold do_tlbie; rewrite E1, E2; reflexivity|].
    pose proof (follows_tables a s m' d _ _ (free_ptr s) _ Hf Hout Ht' Hd (agrees_inval _ _ (vpn ea) Htlb)) as Hn.
    by destruct s.
  - rewrite bool_decide_false by done. eexists. split; [reflexivity|].
    assert (Hnone : v_pm a !! vpn ea = None).
    { destruct (v_pm a !! vpn ea) as [l|] eqn:El; [|done]. apply (tb_leaf Ht) in El as (_ & Hx & _).
      destruct (index_vpn ea) as (Ev & _ & Hj). destruct (index_split (pgd_index ea) (pte_index ea) Hj) as [Hq _].
      rewrite <- Ev, Hq in Hx. done. }
    assert (Htlb' : tlb_agrees (delete (vpn ea) (v_pm a)) (m_tlb s)) by (by rewrite delete_id).
    pose proof (follows_tables a s m' d _ _ (free_ptr s) (m_tlb s) Hf Hout Ht' Hd Htlb') as Hn. by destruct s.
Qed.

Lemma sim_unmap ea : sim (unmap (Machine := idl) ea) (unmap (Machine := prog) ea).
Proof.
  intros a s Hf x a'. cbn [unmap ideal program]. destruct ((0 <=? ea) && (ea <? 2 ^ 31)) eqn:E; [|done].
  intros [= <- <-]. apply program_unmap_ok; [done|lia].
Qed.

Lemma unmap_all_loop (k : nat) : forall (i f : nat) a s, follows a s -> (i + k = length (v_eas a))%nat -> (k < f)%nat ->
  exists s', loop f unmap_all_step (Z.of_nat i) s = Ok tt s' /\
  follows (foldl (fun a ea => unmapped ea a) a (drop i (v_eas a))) s'.
Proof.
  induction k as [|k IH]; intros i f a s Hf Hi Hlt; (destruct f as [|f]; [lia|]);
    pose proof (fo_eas _ _ Hf) as (Heas & Hneas & Hlen & Hr31).
  - exists s. rewrite drop_ge by lia. split; [|done]. apply loop_break. enter unmap_all_step.
    erewrite bind_ok by reflexivity. rewrite Hneas. by if_false.
  - destruct (lookup_lt_is_Some_2 (v_eas a) i) as [ea Hea]; [lia|].
    assert (He : 0 <= ea < 2 ^ 31) by (rewrite Forall_lookup in Hr31; by eapply Hr31).
    destruct (program_unmap_ok a s ea Hf He) as (s1 & E1 & F1).
    destruct (IH (S i) f (unmapped ea a) s1 F1) as (s2 & E2 & F2); [cbn; lia|lia|].
    exists s2. rewrite (drop_S _ _ _ Hea). split; [|exact F2]. rewrite <- E2.
    replace (Z.of_nat (S i)) with (Z.of_nat i + 1) by lia. apply loop_continue. enter unmap_all_step.
    erewrite bind_ok by reflexivity. rewrite Hneas. if_true. erewrite bind_ok by reflexivity. rewrite Nat2Z.id.
    assert (El : eas_mapped s !! i = Some ea) by (rewrite <- Heas, lookup_take in Hea by lia; by case_decide).
    rewrite El. by run_with (exact E1).
Qed.

Lemma foldl_unmapped l : forall a, foldl (fun a ea => unmapped ea a) a l =
  Vm (foldl (fun pm ea => v_unmapped ea pm) (v_pm a) l) (v_dirs a) (v_wr a) (v_sprs a) (v_eas a) (v_out a) (v_fail a).
Proof. induction l as [|ea l IH]; intros a; [by destruct a|]. cbn [foldl]. by rewrite IH. Qed.

Lemma sim_unmap_all : sim (unmap_all (Machine := idl)) (unmap_all (Machine := prog)).
Proof.
  intros a s Hf x a' [= <- <-]. pose proof (fo_eas _ _ Hf) as (Heas & Hneas & Hlen & Hr31).
  destruct (unmap_all_loop (length (v_eas a)) 0 (S (Z.to_nat (neas_mapped s))) a s Hf ltac:(lia) ltac:(lia)) as (s1 & E1 & F1).
  rewrite drop_0, foldl_unmapped in F1. exists (with_eas (eas_mapped s1) 0 s1). split.
  - cbn [unmap_all program]. unfold program_unmap_all. erewrite bind_ok by reflexivity.
    run_with (exact E1). by erewrite bind_ok by reflexivity.
  - destruct F1 as [? ? ? ? ? ? (_ & _ & Hlen' & _) ? ? ?]. split; try done.
Qed.
(** *** The tests *)

Ltac sim_steps :=
  repeat first [sim_core | lazymatch goal with
  | |- sim (xlate _ _) _ => apply sim_xlate
  | |- sim (phys_load _ _) _ => apply sim_phys_load
  | |- sim (phys_store _ _ _) _ => apply sim_phys_store
  | |- sim (mfspr _) _ => apply sim_mfspr
  | |- sim (mtspr _ _) _ => apply sim_mtspr
  | |- sim (map _ _ _) _ => apply sim_map
  | |- sim (unmap _) _ => apply sim_unmap
  | |- sim unmap_all _ => apply sim_unmap_all
  | |- sim (test_putchar _) _ => apply sim_putchar
  | |- sim (print_string _) _ => apply sim_print_string
  | |- sim get_fail _ => apply sim_get_fail
  | |- sim set_fail _ => apply sim_set_fail
  | |- sim (match ?x with _ => _ end) _ => destruct x
  end].

Context (msr pc1 pc2 pc3 : Z).

Lemma sim_data_access q pc ea : sim (data_access (H := idl) msr q pc ea) (data_access (H := prog) msr q pc ea).
Proof. unfold data_access. sim_steps. Qed.

Lemma sim_test_read addr v : sim (test_read (H := idl) msr pc1 addr v) (test_read (H := prog) msr pc1 addr v).
Proof.
  unfold test_read, ld. apply sim_bind; [|intros r; sim_steps]. apply sim_bind; [apply sim_data_access|intros [pa|]; [|sim_steps]].
  sim_steps. apply sim_data_access.
Qed.

Lemma sim_test_write addr v : sim (test_write (H := idl) msr pc2 addr v) (test_write (H := prog) msr pc2 addr v).
Proof.
  unfold test_write, std. apply sim_bind; [|intros r; sim_steps]. apply sim_bind; [apply sim_data_access|intros [pa|]; [|sim_steps]].
  sim_steps. apply sim_data_access.
Qed.

Lemma sim_test_dcbz addr : sim (test_dcbz (H := idl) msr pc3 addr) (test_dcbz (H := prog) msr pc3 addr).
Proof. unfold test_dcbz. apply sim_bind; [apply sim_data_access|intros [pa|]; sim_steps]. Qed.

Lemma sim_test_exec n pc xmsr : sim (test_exec (H := idl) n pc xmsr) (test_exec (H := prog) n pc xmsr).
Proof. unfold test_exec. sim_steps. unfold exec_step. sim_steps. Qed.

Lemma sim_sprs_differ n x n' y : sim (sprs_differ (H := idl) n x n' y) (sprs_differ (H := prog) n x n' y).
Proof. unfold sprs_differ. sim_steps. Qed.

Ltac sim_test := cbv zeta; unfold return_if, load_long, store_long; sim_steps;
  repeat first [apply sim_test_read|apply sim_test_write|apply sim_test_dcbz|apply sim_test_exec|apply sim_sprs_differ].

Lemma sim_tests : Forall2 sim (mmu_tests (H := idl) msr pc1 pc2 pc3) (mmu_tests (H := prog) msr pc1 pc2 pc3).
Proof.
  unfold mmu_tests. repeat (apply List.Forall2_cons); [..|apply List.Forall2_nil].
  - unfold mmu_test_1. sim_test.
  - unfold mmu_test_2. sim_test.
  - unfold mmu_test_3. sim_test.
  - unfold mmu_test_4. sim_test.
  - unfold mmu_test_5. sim_test.
  - unfold mmu_test_6. sim_test.
  - unfold mmu_test_7. sim_test.
  - unfold mmu_test_8. sim_test.
  - unfold mmu_test_9. sim_test.
  - unfold mmu_test_10. sim_test.
  - unfold mmu_test_11. sim_test.
  - unfold mmu_test_12. sim_test.
  - unfold mmu_test_13. sim_test.
  - unfold mmu_test_14. sim_test.
  - unfold mmu_test_15. sim_test.
  - unfold mmu_test_16. sim_test.
  - unfold mmu_test_17. sim_test.
  - unfold mmu_test_18. sim_test.
  - unfold mmu_test_19. sim_test.
Qed.

Lemma sim_print_spr l n : sim (print_spr (H := idl) l n) (print_spr (H := prog) l n).
Proof. unfold print_spr, print_hex. sim_steps. unfold print_hex_step. sim_steps. Qed.

Lemma sim_do_test num ta ts : sim ta ts -> sim (do_test (H := idl) num ta) (do_test (H := prog) num ts).
Proof.
  intros Ht. unfold do_test, print_test_number. sim_steps; first [exact Ht|apply sim_print_spr].
Qed.

Lemma sim_do_tests la ls : Forall2 sim la ls -> forall num, sim (do_tests (H := idl) num la) (do_tests (H := prog) num ls).
Proof.
  induction 1 as [|ta ts la ls Ht _ IH]; intros num; cbn [do_tests]; [apply sim_ret|].
  apply sim_bind; [by apply sim_do_test|]. intros _. apply IH.
Qed.

Lemma sim_run : sim (run_tests (H := idl) msr pc1 pc2 pc3) (run_tests (H := prog) msr pc1 pc2 pc3).
Proof. unfold run_tests. apply sim_bind; [apply sim_do_tests, sim_tests|]. intros _. apply sim_get_fail. Qed.
End simulation.

(** ** From reset *)

(** Memory before the program: its constants, the memory the tests use and the
    memory for the tables. *)
Record mmu_memory (lits : lit -> Z) (m : mem) : Prop := {
  mm_apart : lits_apart lits;
  mm_lits : forall l, cstr m (lits l) (lit_text l);
  mm_data : mapped m data_lo (data_hi - data_lo);
  mm_tables : mapped m pgdir (table_area capacity)
}.

(** The globals of mmu.c, as they are initialised. *)
Record mmu_globals {D T} (s : mt D T) : Prop := {
  mg_free : free_ptr s = 0x14000;
  mg_eas : eas_mapped s = [0; 0; 0; 0];
  mg_neas : neas_mapped s = 0;
  mg_fail : m_fail s = 0
}.

Section reset.
Context {D : Type} `{Bus D} {uart : bool} {U : Uart D uart} {T : Type} `{TlbOk T} (lits : lit -> Z).

Definition initial_bytes (s : mt D T) (p : Z) : Z := default 0 (fmem (m_fw s) !! p).
Definition empty_vm (s : mt D T) : vm := Vm ∅ ∅ ∅ (m_sprs s) [] [] 0.

(** The program with other memory, registers of the MMU and buffers. *)
Definition setup (s : mt D T) (m : mem) (r : mmu) (t : T) : mt D T := with_core r t (with_memory m s).

Lemma setup_memory {A} (c : M mem A) s m r t x m' : c m = Ok x m' -> in_memory c (setup s m r t) = Ok x (setup s m' r t).
Proof. intros E. exact (in_memory_ok c (setup s m r t) x m' E). Qed.

Lemma setup_mtspr s m r t :
  program_mtspr PTCR part_tbl (setup s m r t) = Ok tt (setup s m (mmu_mtptcr part_tbl r) (tlb_inval_all t)) /\
  program_mtspr PID 1 (setup s m r t) = Ok tt (setup s m (mmu_mtpid 1 r) (tlb_inval_all t)) /\
  do_tlbie 0xc00 (setup s m r t) = Ok tt (setup s m r (tlb_inval_all t)).
Proof. done. Qed.

Lemma setup_same s : setup s (fmem (m_fw s)) (m_mmu s) (m_tlb s) = s.
Proof. by destruct s as [[] ? ? ? ? ? ? ?]. Qed.

Lemma init_mmu_run (s : mt D T) : mapped (fmem (m_fw s)) pgdir (table_area capacity) -> exists r t,
  init_mmu s = Ok tt (setup s (empty_tables (fmem (m_fw s))) r t) /\
  mmu_ready r /\ forall i p, tlb_lookup i p t = None.
Proof.
  intros Hm. exists (mmu_mtpid 1 (mmu_mtptcr part_tbl (m_mmu s))), (tlb_inval_all (tlb_inval_all (tlb_inval_all (m_tlb s)))).
  split; [|split; [by split|intros i p; apply tlb_inval_all_none]].
  unfold empty_tables, init_mmu, store_pte. rewrite <- (setup_same s) at 1.
  generalize (fmem (m_fw s)) as m, (m_mmu s) as r, (m_tlb s) as t, Hm. clear Hm. intros m r t Hm.
  assert (Hin : forall m p n, mapped m pgdir (table_area capacity) -> pgdir <= p -> p + n <= pgdir + 0x4000 -> mapped m p n)
    by (intros m1 p n Hx Hp Hn; eapply mapped_mono; [exact Hx|lia|unfold table_area, capacity; lia]).
  pose proof (write_bytes_mapped (part_tbl + 8) (be_bytes proc_tbl) m _ _ Hm) as Hm1.
  rewrite (bind_ok _ _ _ _ _ (setup_memory _ s _ _ _ _ _ (store_be_ok m (part_tbl + 8) proc_tbl ltac:(apply Hin; [done|area|area])))).
  generalize dependent (write_bytes (part_tbl + 8) (be_bytes proc_tbl) m). clear m Hm. intros m Hm.
  pose proof (zeroed_mapped proc_tbl 4096 m _ _ Hm) as Hm1.
  rewrite (bind_ok _ _ _ _ _ (setup_memory _ s _ _ _ _ _ (zero_memory_ok m proc_tbl 4096 ltac:(lia) ltac:(by right; left) ltac:(apply Hin; [done|area|area])))).
  generalize dependent (zeroed proc_tbl 4096 m). clear m Hm. intros m Hm.
  rewrite (bind_ok _ _ _ _ _ (proj1 (setup_mtspr s _ _ _))), (bind_ok _ _ _ _ _ (proj1 (proj2 (setup_mtspr s _ _ _)))).
  pose proof (zeroed_mapped pgdir 8192 m _ _ Hm) as Hm1.
  rewrite (bind_ok _ _ _ _ _ (setup_memory _ s _ _ _ _ _ (zero_memory_ok m pgdir 8192 ltac:(lia) ltac:(by right; left) ltac:(apply Hin; [done|area|area])))).
  generalize dependent (zeroed pgdir 8192 m). clear m Hm. intros m Hm.
  rewrite (bind_ok _ _ _ _ _ (setup_memory _ s _ _ _ _ _ (store_be_ok m (proc_tbl + 16) (Z.lor pgdir 10) ltac:(apply Hin; [done|area|area])))).
  apply setup_mtspr.
Qed.

(** After [init_mmu] the program follows the ideal machine, with nothing mapped. *)
Lemma init_mmu_follows (s : mt D T) :
  console_ok (m_fw s) -> mmu_memory lits (fmem (m_fw s)) -> mmu_globals s -> exists s', init_mmu s = Ok tt s' /\
    follows lits (initial_bytes s) (sent (fdev (m_fw s))) (empty_vm s) s'.
Proof.
  intros Hc [Ha Hl Hd Ht] [Hfree He Hn Hf]. destruct (init_mmu_run s Ht) as (r & t & E & Hr & Hnone).
  destruct (empty_tables_ok capacity _ Ht ltac:(unfold capacity; lia)) as [Htb Hs].
  exists (setup s (empty_tables (fmem (m_fw s))) r t). split; [exact E|]. revert Htb Hs.
  generalize (empty_tables (fmem (m_fw s))) as m. intros m Htb Hs. split; cbn; try done.
  - exists ∅. split; [by rewrite Hfree|]. by rewrite dom_empty_L.
  - intros i p pte. by rewrite Hnone.
  - intros p Hp. unfold data_lo, data_hi in *. rewrite Hs by (unfold pgdir; lia). unfold v_byte, initial_bytes. cbn.
    rewrite lookup_empty. cbn. destruct (mapped_at _ _ _ p Hd ltac:(lia)) as [b ->]. done.
  - intros l. destruct (Ha l) as [_ Hap]. eapply lit_kept; [exact Hap|exact Hs|apply Hl].
  - by rewrite He, Hn.
  - by destruct Hc.
  - by rewrite app_nil_r.
Qed.
End reset.

(** ** Sequences of operations on the map *)

(** What the tests do to the address space: pages are mapped and unmapped, and
    addresses are translated, which fills the buffers. *)
Inductive map_op := MapPage (ea pa perm : Z) | UnmapPage (ea : Z) | UnmapAll | Translate (q : access) (ea : Z).

Fixpoint run_ops {S} `{Machine S} (ops : list map_op) : M S (list (fault + Z)) :=
  match ops with
  | [] => mret []
  | MapPage ea pa perm :: ops => _ ← map ea pa perm; run_ops ops
  | UnmapPage ea :: ops => _ ← unmap ea; run_ops ops
  | UnmapAll :: ops => _ ← unmap_all; run_ops ops
  | Translate q ea :: ops => r ← xlate q ea; rs ← run_ops ops; mret (r :: rs)
  end.

Section theorems.
Context {D : Type} `{Bus D} {uart : bool} {U : Uart D uart} {T : Type} `{TlbOk T}.
Context (poll : nat) (lits : lit -> Z) (init : Z -> Z) (out0 : list Z).

Lemma sim_ops ops : (max_wait < poll)%nat -> lits_apart lits ->
  simulates (follows lits init out0) (run_ops (H := ideal init) ops) (run_ops (H := program (D := D) (T := T) poll lits) ops).
Proof.
  intros Hp Ha. induction ops as [|[ea pa perm|ea| |q ea] ops IH]; cbn [run_ops].
  - apply sim_ret.
  - apply sim_bind; [by apply sim_map|done].
  - apply sim_bind; [by apply sim_unmap|done].
  - apply sim_bind; [by apply sim_unmap_all|done].
  - apply sim_bind; [by apply sim_xlate|]. intros r. apply sim_bind; [done|]. intros rs. apply sim_ret.
Qed.
End theorems.
