(* ===== verification/MmuCorrect.v ===== *)
(** * The theorems about the MMU test and its page tables

    The program from its entry, the page tables under any sequence of the
    operations the tests use, and the clearing of memory, each with the setting
    of a board it is applied to. *)

From S2P Require Import Prelude CMem Console Hello Mmu MmuTest MmuTables MmuRun.

(** ** The theorems *)

(** C3: the MMU test passes: from its entry the program sets up the console and
    the tables, runs the nineteen tests, prints a line that says PASS for each
    and returns 0, on any board with a UART, whatever memory held, wherever the
    program is linked, and whichever entries the translation buffers keep. *)
Theorem mmu_tests_pass {D} `{Bus D} {regs} `{!Syscon D regs} `{!Uart D (is_16550 regs)} {T} `{TlbOk T}
  poll lits msr pc1 pc2 pc3 (s : mt D T) :
  (max_wait < poll)%nat -> uart_fresh (fdev (m_fw s)) ->
  mmu_memory lits (fmem (m_fw s)) -> mmu_globals s ->
  exists s', mmu_main poll lits msr pc1 pc2 pc3 s = Ok 0 s' /\
    sent (fdev (m_fw s')) = sent (fdev (m_fw s)) ++ report.
Proof.
  intros Hp Hu Hm Hg. destruct (console_init_ok (m_fw s) Hu) as (f & E & Hc & Ef & Es). rewrite <- Ef in Hm.
  destruct (init_mmu_follows lits (with_fw f s) Hc Hm ltac:(by destruct Hg)) as (s1 & E1 & F1).
  destruct (m_sprs s) as [dsisr dar srr0 srr1] eqn:Er.
  destruct (ideal_run (initial_bytes (with_fw f s)) msr pc1 pc2 pc3 dsisr dar srr0 srr1) as (a & Ra & Oa).
  unfold empty_vm in F1. cbn [m_sprs with_fw] in F1. rewrite Er in F1.
  destruct (sim_run poll lits _ _ Hp (mm_apart _ _ Hm) msr pc1 pc2 pc3 _ _ F1 _ _ Ra) as (s2 & E2 & F2).
  exists s2. split.
  - unfold mmu_main. rewrite (bind_ok _ _ s tt (with_fw f s)) by (unfold on_fw; by rewrite E).
    by rewrite (bind_ok _ _ _ _ _ E1).
  - rewrite (fo_out _ _ _ _ _ F2), Oa. by rewrite <- Es.
Qed.

(** C4: the page tables refine a map from pages to leaves, for the operations
    the map allows ([v_may_map] of [ideal]): addresses below 2 GB, at most four
    pages mapped between two [unmap_all]s, at most four second-level tables, and
    a page that is mapped is mapped again only to add permission, reference or
    change bits to its leaf, since [map] does not invalidate the buffers.  For
    every sequence of such operations, with translations of any address at any
    point of it, whose results the buffers may keep or lose at any time, the
    code of mmu.c on the tables in memory, with the walk of the MMU, gives every
    translation the result that the map has. *)
Theorem page_tables_refine {D} `{Bus D} {uart} {U : Uart D uart} {T} `{TlbOk T} poll lits (s : mt D T) ops rs a' :
  (max_wait < poll)%nat -> console_ok (m_fw s) -> mmu_memory lits (fmem (m_fw s)) -> mmu_globals s ->
  run_ops (H := ideal (initial_bytes s)) ops (empty_vm s) = Ok rs a' ->
  exists s1 s', init_mmu s = Ok tt s1 /\
    run_ops (H := program poll lits) ops s1 = Ok rs s' /\
    follows lits (initial_bytes s) (sent (fdev (m_fw s))) a' s'.
Proof.
  intros Hp Hc Hm Hg Hr. destruct (init_mmu_follows lits s Hc Hm Hg) as (s1 & E1 & F1). exists s1.
  destruct (sim_ops poll lits _ _ ops Hp (mm_apart _ _ Hm) _ _ F1 _ _ Hr) as (s' & E & F). by exists s'.
Qed.

(** C33: [zero_memory] clears exactly the bytes it is given when the area ends at
    the end of a cache line or before the first, as every area of the program
    does; any other area is cleared in whole lines, and then the loop goes round
    for ever, for no number of rounds is enough. *)
Theorem zero_memory_correct ptr n m : 0 <= n -> mapped m ptr n ->
  (zero_ends ptr n -> zero_memory ptr n m = Ok tt (zeroed ptr n m)) /\
  (~ zero_ends ptr n -> forall f, exists m', loop f zero_step (ptr, n) m = Err Fuel m').
Proof.
  intros Hn Hm. split; [intros He; by apply zero_memory_ok|]. intros He f. by apply zero_memory_stuck.
Qed.

(** ** A board *)

(** Buffers that never lose an entry unless they are told to. *)
#[export] Instance keep_tlb : Tlb (gmap (bool * Z) Z) := {
  tlb_lookup i p t := t !! (i, p);
  tlb_load i p v t := <[(i, p) := v]> t;
  tlb_inval p t := delete (true, p) (delete (false, p) t);
  tlb_inval_all _ := ∅
}.

#[export] Instance keep_tlb_ok : TlbOk (gmap (bool * Z) Z).
Proof.
  split; cbn.
  - intros. apply lookup_insert_eq.
  - intros i p v t i' p' Hne. left. by rewrite lookup_insert_ne.
  - intros p t []; [apply lookup_delete_eq|]. rewrite lookup_delete_ne by done. apply lookup_delete_eq.
  - intros p t i p' Hne. left. by rewrite !lookup_delete_ne by congruence.
  - intros. apply lookup_empty.
Qed.

Definition all_lits : list lit := [L_test; L_pass; L_fail; L_dar; L_dsisr; L_srr0; L_srr1; L_nl].
Definition lit_addr (l : lit) : Z :=
  match l with
  | L_test => 0x3000 | L_pass => 0x3020 | L_fail => 0x3040 | L_dar => 0x3060
  | L_dsisr => 0x3080 | L_srr0 => 0x30a0 | L_srr1 => 0x30c0 | L_nl => 0x30e0
  end.

Definition lit_memory : mem := foldr (fun l => write_bytes (lit_addr l) (lit_text l ++ [0])) ∅ all_lits.
Definition board_memory : mem := zeroed data_lo (data_hi - data_lo) (zeroed pgdir (table_area capacity) lit_memory).

Definition mmu_board : mt (board potato_port) (gmap (bool * Z) Z) :=
  Mt (Fw board_memory (Board (PotatoPort 0 0 [] 0 [])) false UART_BASE) mmu_reset ∅ (Sprs 0 0 0 0) 0x14000 [0; 0; 0; 0] 0 0.

Lemma zeroed_there p n m : 0 <= n -> mapped (zeroed p n m) p n.
Proof.
  intros Hn. replace n with (Z.of_nat (length (replicate (Z.to_nat n) 0))) at 2 by (rewrite length_replicate; lia).
  apply bytes_at_mapped, write_bytes_at.
Qed.

Lemma board_memory_ok : mmu_memory lit_addr board_memory.
Proof.
  split.
  - intros []; vm_compute; split; (left + right); discriminate.
  - intros l. assert (Hl : cstr lit_memory (lit_addr l) (lit_text l)) by (destruct l; decide_now).
    destruct Hl as [Hl Hn]. split; [|done]. unfold board_memory, zeroed.
    assert (Hlow : lit_addr l + length (lit_text l ++ [0]) <= data_lo) by (destruct l; vm_compute; discriminate).
    assert (Hlow' : lit_addr l + length (lit_text l ++ [0]) <= pgdir) by (unfold data_lo, pgdir in *; lia).
    apply bytes_at_write_other; [by left|]. by apply bytes_at_write_other; [left|].
  - by apply zeroed_there.
  - by apply zeroed_mapped, zeroed_there.
Qed.

Lemma mmu_tests_pass_witness : exists s',
  mmu_main (H := board_bus regs_potato potato_port) 9 lit_addr 0x9000000000000001 0x400 0x420 0x440 mmu_board = Ok 0 s' /\
  p_log (b_port (fdev (m_fw s'))) = report.
Proof.
  apply (mmu_tests_pass (regs := regs_potato) (Uart0 := uart_potato regs_potato) 9 lit_addr 0x9000000000000001 0x400 0x420 0x440 mmu_board).
  - simpl. lia.
  - split; [simpl; lia|constructor].
  - apply board_memory_ok.
  - by split.
Defined.

(** Mapping, a use, an added permission, unmapping, and what each leaves. *)
Definition some_ops : list map_op :=
  [MapPage 0x124000 0x8000 (Z.lor REF PERM_RD); Translate data_load 0x124010; Translate data_store 0x124010;
   MapPage 0x124000 0x8000 DFLT_PERM; Translate data_store 0x124010;
   UnmapPage 0x124000; Translate data_load 0x124010; MapPage 0x1124000 0x9000 DFLT_PERM;
   Translate data_load 0x1124ff8; UnmapAll; Translate data_load 0x1124ff8; Translate data_load (2 ^ 31)].
Definition some_results : list (fault + Z) :=
  [inr 0x8010; inl Perm_error; inr 0x8010; inl Invalid; inr 0x9ff8; inl Invalid; inl Segerror].

Lemma some_ops_run init regs : exists a',
  run_ops (H := ideal init) some_ops (Vm ∅ ∅ ∅ regs [] [] 0) = Ok some_results a'.
Proof.
  assert (E : match run_ops (H := ideal init) some_ops (Vm ∅ ∅ ∅ regs [] [] 0) with
    | Ok rs _ => Some rs
    | Err _ _ => None
    end = Some some_results) by (vm_compute; reflexivity).
  destruct (run_ops some_ops _) as [rs a'|e a']; [|done]. injection E as ->. by exists a'.
Qed.

Lemma page_tables_refine_witness : exists s1 s', init_mmu mmu_board = Ok tt s1 /\
  run_ops (H := program (H := board_bus regs_potato potato_port) 9 lit_addr) some_ops s1 = Ok some_results s'.
Proof.
  destruct (some_ops_run (initial_bytes mmu_board) (m_sprs mmu_board)) as [a' E].
  destruct (page_tables_refine (U := uart_potato regs_potato) 9 lit_addr mmu_board some_ops some_results a') as (s1 & s' & E1 & E2 & _).
  - simpl. lia.
  - split; [done|done|]. split; [simpl; lia|constructor].
  - apply board_memory_ok.
  - by split.
  - exact E.
  - exact (ex_intro _ s1 (ex_intro _ s' (conj E1 E2))).
Defined.

(** Outside of these operations the claim would be false: a page that was used
    and is mapped to another frame without being unmapped still translates to
    the old one. *)
Definition remap_ops : list map_op :=
  [MapPage 0x124000 0x8000 DFLT_PERM; Translate data_load 0x124010;
   MapPage 0x124000 0x9000 DFLT_PERM; Translate data_load 0x124010].

Example remap_is_stale :
  match (_ ← init_mmu; run_ops (H := program (H := board_bus regs_potato potato_port) 9 lit_addr) remap_ops) mmu_board with
  | Ok rs _ => rs = [inr 0x8010; inr 0x8010]
  | Err _ _ => False
  end.
Proof. vm_compute. reflexivity. Qed.

Lemma zero_memory_correct_witness :
  zero_memory 60 68 (zeroed 0 256 ∅) = Ok tt (zeroed 60 68 (zeroed 0 256 ∅)) /\
  forall f, exists m', loop f zero_step (64, 10) (zeroed 0 256 ∅) = Err Fuel m'.
Proof.
  split.
  - apply (zero_memory_correct 60 68 (zeroed 0 256 ∅)); [lia|decide_now|by right; left].
  - apply (zero_memory_correct 64 10 (zeroed 0 256 ∅)); [lia|decide_now|]. unfold zero_ends. vm_compute. by intros [|[|]].
Defined.
