(* ===== verification/Xics.v ===== *)
(** * The interrupt controller: xics.vhdl

    The presenter and the source unit, clock by clock, in the configuration of
    soc.vhdl: one processor, sixteen sources, three bits of priority.  The test
    program of the interrupts is verified against it. *)

From S2P Require Import Prelude CMem.

(** ** The source unit *)

Definition pri_masked : Z := 7.

Definition prio_pack (pri8 : Z) : Z := if 7 <=? pri8 then pri_masked else bit_range pri8 2 0.
Definition prio_unpack (pri : Z) : Z := if pri =? pri_masked then 0xff else pri.
Definition prio_decode (pri : Z) : Z := Z.shiftl 1 pri.

(** The number of the only bit that is set in both a value and its negation. *)
Definition count_right_zeroes (v : Z) : Z := Z.log2 (Z.land v (- v)).
Definition priority_encoder (v nbits : Z) : Z := count_right_zeroes (Z.lor v (Z.shiftl 1 (2 ^ nbits - 1))).

(** [f i] for each source, or'ed together. *)
Definition or_sources (f : nat -> Z) : Z := foldr (fun i v => Z.lor (f i) v) 0 (seq 0 16).

Definition xive_pri (xives : list Z) (i : nat) : Z := default pri_masked (xives !! i).

Definition irq_gen (xives : list Z) (int_level : Z) : Z * Z :=
  let pending_pri := or_sources (fun i => if Z.testbit int_level i then prio_decode (xive_pri xives i) else 0) in
  let max_pri := priority_encoder pending_pri 3 in
  let pending_at_pri :=
    or_sources (fun i => if Z.testbit int_level i && (xive_pri xives i =? max_pri) then Z.shiftl 1 i else 0) in
  (priority_encoder pending_at_pri 4, prio_unpack max_pri).

(** A request on the bus: address in words, byte lanes. *)
Record wb := Wb { wb_adr : Z; wb_we : bool; wb_sel : Z; wb_dat : Z }.

Definition bswap (v : Z) : Z := le_value (rev (le_bytes 4 v)).

Definition reg_idx (q : wb) : nat := Z.to_nat (bit_range (wb_adr q) 3 0).
Definition reg_is_xive (q : wb) : bool := Z.testbit (wb_adr q) 9.

Definition get_config : Z := 16 + Z.shiftl 3 24.

(** [reg_read], for the request [q]. *)
Definition ics_read (q : wb) (xives : list Z) (level : Z) : Z :=
  let adr := bit_range (wb_adr q) 9 0 in
  let in_bit := b2z (Z.testbit level (reg_idx q)) in
  bswap (if reg_is_xive q then Z.shiftl in_bit 31 + Z.shiftl in_bit 29 + prio_unpack (xive_pri xives (reg_idx q))
         else if adr =? 0 then get_config
         else if adr =? 1 then let '(src, pri) := irq_gen xives level in Z.shiftl src 16 + pri
         else 0).

(** [reg_write] *)
Definition ics_write (q : wb) (xives : list Z) : list Z :=
  if wb_we q && reg_is_xive q && Z.testbit (wb_sel q) 3 then
    <[reg_idx q := prio_pack (bit_range (bswap (wb_dat q)) 7 0)]> xives
  else xives.

(** ** The presenter *)

Record icp := Icp { xisr : Z; cppr : Z; mfrr : Z; irq : bool }.

Inductive icp_reg := XIRR_POLL | XIRR | RESV0 | MFRR.

(** The register a request is for, if it is for this processor. *)
Definition icp_reg_of (q : wb) : option icp_reg :=
  if bit_range (wb_adr q) 5 2 =? 0 then
    let r := bit_range (wb_adr q) 1 0 in
    Some (if r =? 0 then XIRR_POLL else if r =? 1 then XIRR else if r =? 2 then RESV0 else MFRR)
  else None.

(** The source that would be presented, and its priority. *)
Definition icp_pending (mfrr src pri : Z) : Z * Z :=
  let '(s, p) := if pri =? 0xff then (0, 0xff) else (16 + src, pri) in
  if mfrr <? p then (2, mfrr) else (s, p).

Definition icp_accepts (q : wb) : bool :=
  negb (wb_we q) && match icp_reg_of q with Some XIRR => wb_sel q =? 0xf | _ => false end.

Definition icp_write (q : wb) (r : icp) : icp :=
  let v := bit_range (bswap (wb_dat q)) 31 24 in
  if wb_we q then
    match icp_reg_of q with
    | Some XIRR_POLL | Some XIRR => Icp (xisr r) v (mfrr r) (irq r)
    | Some MFRR => Icp (xisr r) (cppr r) v (irq r)
    | _ => r
    end
  else r.

Definition icp_read (q : wb) (r : icp) : Z :=
  bswap (match icp_reg_of q with
         | Some XIRR_POLL | Some XIRR => Z.shiftl (cppr r) 24 + xisr r
         | Some MFRR => Z.shiftl (mfrr r) 24
         | _ => 0
         end).

(** [comb], with what the source unit presents. *)
Definition icp_comb (req : option wb) (src pri : Z) (r : icp) : icp :=
  let v := match req with Some q => icp_write q r | None => r end in
  let accept := match req with Some q => icp_accepts q | None => false end in
  let '(s, p) := icp_pending (mfrr r) src pri in
  let c := if accept then p else cppr v in
  Icp s c (mfrr v) (p <? c).

(** ** The controller *)

Record xics := Xics {
  x_icp : icp; core_irq : bool; xives : list Z; int_level_l : Z; icp_out : Z * Z
}.

(** What is asked of the units in a clock cycle. *)
Inductive request := Idle | ToIcp (q : wb) | ToIcs (q : wb).

Definition xics_cycle (level : Z) (req : request) (x : xics) : xics :=
  Xics (icp_comb (match req with ToIcp q => Some q | _ => None end) (icp_out x).1 (icp_out x).2 (x_icp x))
       (irq (x_icp x))
       (match req with ToIcs q => ics_write q (xives x) | _ => xives x end)
       level
       (irq_gen (xives x) (int_level_l x)).

Definition xics_reset : xics := Xics (Icp 0 0 0xff false) false (replicate 16 pri_masked) 0 (0, 0xff).

Fixpoint idle (n : nat) (level : Z) (x : xics) : xics :=
  match n with
  | O => x
  | S n => idle n level (xics_cycle level Idle x)
  end.

(** The answer to a request is latched in the cycle after it. *)
Definition xics_answer (req : request) (x : xics) : Z :=
  match req with
  | ToIcp q => icp_read q (x_icp x)
  | ToIcs q => ics_read q (xives x) (int_level_l x)
  | Idle => 0
  end.

(** ** The most favoured interrupt *)

Lemma odd_part (p : positive) : exists k m, 0 <= k /\ 0 <= m /\ Z.pos p = Z.shiftl (2 * m + 1) k.
Proof.
  induction p as [p _|p (k & m & Hk & Hm & E)|].
  - exists 0, (Z.pos p). rewrite Z.shiftl_0_r. lia.
  - exists (k + 1), m. split_and!; [lia|lia|]. rewrite Pos2Z.inj_xO, E, !Z.shiftl_mul_pow2, Z.pow_add_r by lia. ring.
  - exists 0, 0. rewrite Z.shiftl_0_r. lia.
Qed.

Lemma land_opp_odd m : Z.land (2 * m + 1) (- (2 * m + 1)) = 1.
Proof.
  replace (- (2 * m + 1)) with (Z.lnot (2 * m)) by (unfold Z.lnot; lia). apply Z.bits_inj'. intros i Hi.
  rewrite Z.land_spec, Z.lnot_spec by done. destruct (decide (i = 0)) as [->|Hne].
  - by rewrite Z.testbit_odd_0, Z.testbit_even_0.
  - replace i with (Z.succ (i - 1)) by lia. rewrite Z.testbit_odd_succ, Z.testbit_even_succ by lia.
    change 1 with (2 * 0 + 1) at 3. rewrite Z.testbit_odd_succ, Z.bits_0 by lia. apply andb_negb_r.
Qed.

(** The encoder finds the lowest bit that is set. *)
Lemma count_right_zeroes_ok v : 0 < v ->
  0 <= count_right_zeroes v /\ Z.testbit v (count_right_zeroes v) = true /\
  forall j, 0 <= j -> Z.testbit v j = true -> count_right_zeroes v <= j.
Proof.
  intros Hv. destruct v as [|p|p]; try lia. destruct (odd_part p) as (k & m & Hk & Hm & ->).
  assert (E : count_right_zeroes (Z.shiftl (2 * m + 1) k) = k).
  { unfold count_right_zeroes. replace (- Z.shiftl (2 * m + 1) k) with (Z.shiftl (- (2 * m + 1)) k)
      by (rewrite !Z.shiftl_mul_pow2 by lia; ring).
    rewrite <- Z.shiftl_land, land_opp_odd, Z.shiftl_1_l, Z.log2_pow2 by lia. done. }
  rewrite E. split; [done|]. split.
  - by rewrite Z.shiftl_spec, Z.sub_diag, Z.testbit_odd_0 by lia.
  - intros j Hj Ht. destruct (Z.le_gt_cases k j); [done|]. by rewrite Z.shiftl_spec_low in Ht by lia.
Qed.

Lemma or_sources_bit f k : 0 <= k ->
  Z.testbit (or_sources f) k = true <-> exists i, (i < 16)%nat /\ Z.testbit (f i) k = true.
Proof.
  intros Hk. unfold or_sources.
  assert (Hin : forall i, (i < 16)%nat <-> i ∈ seq 0 16) by (intros i; rewrite elem_of_seq; lia).
  setoid_rewrite Hin. clear Hin. induction (seq 0 16) as [|i l IH]; cbn [foldr].
  - rewrite Z.bits_0. split; [done|]. intros (i & Hi & _). by apply not_elem_of_nil in Hi.
  - rewrite Z.lor_spec, orb_true_iff, IH. setoid_rewrite elem_of_cons. split.
    + intros [Hb|(j & Hj & Hb)]; [exists i; auto|exists j; auto].
    + intros (j & [->|Hj] & Hb); [by left|right; by exists j].
Qed.

Lemma or_sources_nonneg f : (forall i, 0 <= f i) -> 0 <= or_sources f.
Proof.
  intros Hf. unfold or_sources. induction (seq 0 16) as [|i l IH]; [done|]. cbn [foldr].
  apply Z.lor_nonneg. split; [apply Hf|done].
Qed.

Lemma priority_encoder_ok v n : 0 <= v -> 0 <= n -> let k := priority_encoder v n in
  0 <= k <= 2 ^ n - 1 /\ (k < 2 ^ n - 1 -> Z.testbit v k = true) /\
  forall j, 0 <= j -> Z.testbit v j = true -> k <= j.
Proof.
  intros Hv Hn k. assert (0 < 2 ^ n) by lia.
  assert (Ek : k = count_right_zeroes (Z.lor v (2 ^ (2 ^ n - 1)))) by (unfold k, priority_encoder; by rewrite Z.shiftl_1_l).
  assert (Hb : forall j, Z.testbit (Z.lor v (2 ^ (2 ^ n - 1))) j = Z.testbit v j || (2 ^ n - 1 =? j))
    by (intros j; by rewrite Z.lor_spec, Z.pow2_bits_eqb by lia).
  assert (Hp : 0 < Z.lor v (2 ^ (2 ^ n - 1))).
  { assert (0 <= Z.lor v (2 ^ (2 ^ n - 1))) by (apply Z.lor_nonneg; lia).
    assert (Z.lor v (2 ^ (2 ^ n - 1)) <> 0); [|lia]. intros E. pose proof (Hb (2 ^ n - 1)) as Hx.
    rewrite E, Z.bits_0, Z.eqb_refl, orb_true_r in Hx. done. }
  destruct (count_right_zeroes_ok _ Hp) as (H0 & H1 & H2). rewrite <- Ek in H0, H1, H2. clearbody k. split_and!; [done| | |].
  - apply H2; [lia|]. by rewrite Hb, Z.eqb_refl, orb_true_r.
  - intros Hk. rewrite Hb in H1. replace (2 ^ n - 1 =? k) with false in H1 by lia. by rewrite orb_false_r in H1.
  - intros j Hj Ht. apply H2; [done|]. by rewrite Hb, Ht.
Qed.

(** Source [i] has an interrupt of priority [p]. *)
Definition pends (xives : list Z) (level : Z) (i : nat) (p : Z) : Prop :=
  (i < 16)%nat /\ Z.testbit level i = true /\ xive_pri xives i = p /\ p <> pri_masked.

Definition xives_ok (xives : list Z) : Prop := length xives = 16%nat /\ Forall (fun p => 0 <= p <= pri_masked) xives.

Lemma xive_pri_range xives i : xives_ok xives -> 0 <= xive_pri xives i <= 7.
Proof.
  intros [_ H]. unfold xive_pri. destruct (xives !! i) as [p|] eqn:E; cbn; [|unfold pri_masked; lia].
  by apply (Forall_lookup_1 _ _ _ _ H E).
Qed.

Lemma bool_bit (b : bool) (a k : Z) : 0 <= a -> 0 <= k -> Z.testbit (if b then Z.shiftl 1 a else 0) k = true <-> b = true /\ k = a.
Proof.
  intros Ha Hk. destruct b; [|rewrite Z.bits_0; split; [done|by intros [? _]]].
  rewrite Z.shiftl_1_l, Z.pow2_bits_eqb, Z.eqb_eq by done. split; [auto|by intros [_ ->]].
Qed.

(** What the source unit presents: the lowest number of the most favoured
    priority, or nothing. *)
Lemma irq_gen_ok xives level : xives_ok xives -> let '(src, pri) := irq_gen xives level in
  0 <= src < 16 /\
  (pri = 0xff /\ (forall i p, ~ pends xives level i p) \/
   pri < 7 /\ pends xives level (Z.to_nat src) pri /\
   forall i p, pends xives level i p -> pri < p \/ (pri = p /\ src <= i)).
Proof.
  intros Hx. unfold irq_gen.
  set (f := fun i : nat => if Z.testbit level i then prio_decode (xive_pri xives i) else 0).
  assert (Hf : forall i k, 0 <= k -> Z.testbit (f i) k = true <-> Z.testbit level i = true /\ k = xive_pri xives i)
    by (intros i k Hk; apply bool_bit; [apply (xive_pri_range _ i Hx)|done]).
  assert (Hf0 : 0 <= or_sources f).
  { apply or_sources_nonneg. intros i. unfold f. destruct (Z.testbit level i); [|done]. apply Z.shiftl_nonneg. lia. }
  destruct (priority_encoder_ok _ 3 Hf0 ltac:(lia)) as (Hr & Hset & Hmin).
  set (pri := priority_encoder (or_sources f) 3) in *. change (2 ^ 3 - 1) with 7 in *.
  set (g := fun i : nat => if Z.testbit level i && (xive_pri xives i =? pri) then Z.shiftl 1 i else 0).
  assert (Hg : forall i k, 0 <= k -> Z.testbit (g i) k = true <-> (Z.testbit level i = true /\ xive_pri xives i = pri) /\ k = i)
    by (intros i k Hk; unfold g; rewrite bool_bit, andb_true_iff, Z.eqb_eq by lia; done).
  assert (Hg0 : 0 <= or_sources g).
  { apply or_sources_nonneg. intros i. unfold g. destruct (_ && _); [|done]. apply Z.shiftl_nonneg. lia. }
  destruct (priority_encoder_ok _ 4 Hg0 ltac:(lia)) as (Hr4 & Hset4 & Hmin4).
  set (src := priority_encoder (or_sources g) 4) in *. change (2 ^ 4 - 1) with 15 in *. split; [lia|].
  assert (Hlow : forall i p, pends xives level i p -> pri <= p).
  { intros i p (Hi & Hl & Hp & Hm). pose proof (xive_pri_range xives i Hx). apply Hmin; [lia|].
    apply or_sources_bit; [lia|]. exists i. split; [done|]. by apply Hf; [lia|]. }
  unfold prio_unpack, pri_masked. destruct (Z.eqb_spec pri 7) as [E|E].
  - left. split; [done|]. intros i p Hp. pose proof (Hlow i p Hp). destruct Hp as (Hi & _ & Hp & Hm).
    pose proof (xive_pri_range xives i Hx). unfold pri_masked in Hm. lia.
  - right. split; [lia|].
    assert (Hone : exists i, (i < 16)%nat /\ Z.testbit level i = true /\ xive_pri xives i = pri).
    { specialize (Hset ltac:(lia)). apply or_sources_bit in Hset as (i & Hi & Hb); [|lia].
      apply Hf in Hb as [Hl Hp]; [|lia]. by exists i. }
    destruct Hone as (i0 & Hi0 & Hl0 & Hp0).
    assert (Hle : forall i, (i < 16)%nat -> Z.testbit level i = true -> xive_pri xives i = pri -> src <= i).
    { intros i Hi Hl Hp. apply Hmin4; [lia|]. apply or_sources_bit; [lia|]. exists i. split; [done|]. by apply Hg; [lia|]. }
    split.
    + destruct (decide (src < 15)) as [Hs|Hs].
      * specialize (Hset4 Hs). apply or_sources_bit in Hset4 as (i & Hi & Hb); [|lia].
        apply Hg in Hb as [[Hl Hp] Ei]; [|lia]. rewrite Ei, Nat2Z.id. by split_and!.
      * pose proof (Hle i0 Hi0 Hl0 Hp0). replace (Z.to_nat src) with i0 by lia. by split_and!.
    + intros i p Hp. pose proof (Hlow i p Hp). destruct Hp as (Hi & Hl & Hp & Hm).
      destruct (decide (pri = p)) as [Ep|]; [|lia]. right. split; [done|]. apply Hle; [done|done|congruence].
Qed.

(** ** At rest *)

(** The controller once everything has settled, for its registers and lines. *)
Definition rest (level c m : Z) (xs : list Z) : xics :=
  let out := irq_gen xs level in
  let q := icp_pending m out.1 out.2 in
  Xics (Icp q.1 c m (q.2 <? c)) (q.2 <? c) xs level out.

Definition x_cppr (x : xics) : Z := cppr (x_icp x).
Definition x_mfrr (x : xics) : Z := mfrr (x_icp x).

Lemma icp_comb_idle src pri r : let q := icp_pending (mfrr r) src pri in
  icp_comb None src pri r = Icp q.1 (cppr r) (mfrr r) (q.2 <? cppr r).
Proof. unfold icp_comb. by destruct (icp_pending (mfrr r) src pri). Qed.

Lemma rest_idle level c m xs n : idle n level (rest level c m xs) = rest level c m xs.
Proof.
  induction n as [|n IH]; [done|]. cbn [idle]. rewrite <- IH at 2. f_equal. unfold rest, xics_cycle. by rewrite icp_comb_idle.
Qed.

(** Four cycles are enough: one for the lines, one for the source unit, one for
    the presenter and one for the processor's line. *)
Lemma idle_rest n level x : (4 <= n)%nat -> idle n level x = rest level (x_cppr x) (x_mfrr x) (xives x).
Proof.
  intros Hn. replace n with (4 + (n - 4))%nat by lia. generalize (n - 4)%nat as k. intros k. cbn [Nat.add idle].
  rewrite <- (rest_idle _ _ _ _ k). f_equal. destruct x as [[s c m i] ci xs lv [o1 o2]].
  unfold xics_cycle. by rewrite !icp_comb_idle.
Qed.

(** The source a processor is to be told of, and its priority: the most favoured
    one, the one of the processor's own only if it is more favoured than all. *)
Inductive presented (xs : list Z) (level m : Z) : Z -> Z -> Prop :=
  | P_none : (forall i p, ~ pends xs level i p) -> m = 0xff -> presented xs level m 0 0xff
  | P_source i p : pends xs level i p -> p <= m ->
      (forall j q, pends xs level j q -> p < q \/ (p = q /\ (i <= j)%nat)) -> presented xs level m (16 + i) p
  | P_ipi : m < 0xff -> (forall j q, pends xs level j q -> m < q) -> presented xs level m 2 m.

Lemma icp_pending_ok xs level m : xives_ok xs -> 0 <= m <= 0xff ->
  let out := irq_gen xs level in let '(s, p) := icp_pending m out.1 out.2 in presented xs level m s p.
Proof.
  intros Hx Hm. pose proof (irq_gen_ok xs level Hx) as Ho. destruct (irq_gen xs level) as [src pri]. cbn [fst snd].
  destruct Ho as (Hs & [(-> & Hnone)|(Hp & Hpend & Hmin)]); unfold icp_pending.
  - cbn. destruct (Z.ltb_spec m 0xff); [|by constructor; [|lia]]. apply P_ipi; [done|]. intros j q Hq. by apply Hnone in Hq.
  - replace (pri =? 255) with false by lia. destruct (Z.ltb_spec m pri) as [Hlt|Hge].
    + apply P_ipi; [lia|]. intros j q Hq. destruct (Hmin j q Hq); lia.
    + replace (16 + src) with (16 + Z.of_nat (Z.to_nat src)) by lia. apply P_source; [done|done|].
      intros j q Hq. destruct (Hmin j q Hq); [by left|right; lia].
Qed.

(** ** Lines that move *)

(** [n] cycles without an access from cycle [t] on, with the lines of each. *)
Fixpoint idle_levels (level : nat -> Z) (n t : nat) (x : xics) : xics :=
  match n with
  | O => x
  | S n => idle_levels level n (S t) (xics_cycle (level t) Idle x)
  end.

(** What is presented for the lines at [level]. *)
Definition pending_at (xs : list Z) (m level : Z) : Z * Z :=
  let out := irq_gen xs level in icp_pending m out.1 out.2.

Lemma idle_levels_regs level n : forall t x, let x' := idle_levels level n t x in
  x_cppr x' = x_cppr x /\ x_mfrr x' = x_mfrr x /\ xives x' = xives x.
Proof.
  induction n as [|n IH]; intros t x; [done|]. cbn [idle_levels].
  destruct (IH (S t) (xics_cycle (level t) Idle x)) as (-> & -> & ->).
  unfold xics_cycle, x_cppr, x_mfrr. cbn [x_icp xives]. by rewrite icp_comb_idle.
Qed.

Lemma idle_levels_add level n k : forall t x,
  idle_levels level (n + k) t x = idle_levels level k (t + n) (idle_levels level n t x).
Proof.
  induction n as [|n IH]; intros t x; cbn [Nat.add idle_levels]; [by rewrite Nat.add_0_r|].
  rewrite IH. by rewrite Nat.add_succ_comm.
Qed.

(** After four cycles every stage has what the lines said one to four cycles
    before; the registers are as they were. *)
Lemma idle_levels_ok level n t x : (4 <= n)%nat -> exists t0 t1 t2 t3 : nat,
  let c := x_cppr x in let q := pending_at (xives x) (x_mfrr x) in
  idle_levels level n t x =
    Xics (Icp (q (level t1)).1 c (x_mfrr x) ((q (level t1)).2 <? c)) ((q (level t0)).2 <? c) (xives x)
         (level t3) (irq_gen (xives x) (level t2)).
Proof.
  intros Hn. replace n with (n - 4 + 4)%nat by lia. rewrite idle_levels_add.
  destruct (idle_levels_regs level (n - 4) t x) as (E1 & E2 & E3). set (x1 := idle_levels level (n - 4) t x) in *.
  set (u := (t + (n - 4))%nat). exists u, (S u), (S (S u)), (S (S (S u))). cbv zeta. rewrite <- E1, <- E2, <- E3.
  destruct x1 as [[s c m i] ci xs lv [o1 o2]]. cbn [idle_levels]. unfold xics_cycle. by rewrite !icp_comb_idle.
Qed.

(** The sources of the other devices, 1 to 4, are masked. *)
Definition quiet (xs : list Z) : bool := forallb (fun i => xive_pri xs i =? pri_masked) [1; 2; 3; 4]%nat.

Lemma pends_quiet xs u l i p : quiet xs = true -> 0 <= l < 16 ->
  pends xs (b2z u + 2 * l) i p <-> pends xs (b2z u) i p.
Proof.
  intros Hq Hl. unfold pends. unfold quiet in Hq. rewrite forallb_forall in Hq.
  destruct (decide (i = 0%nat)) as [->|H0].
  { assert (E : Z.testbit (b2z u + 2 * l) 0%nat = Z.testbit (b2z u) 0%nat).
    { change (Z.of_nat 0) with 0. destruct u; cbn [b2z].
      - rewrite Z.add_comm, Z.testbit_odd_0. done.
      - rewrite Z.add_0_l, Z.testbit_even_0. done. }
    by rewrite E. }
  destruct (decide (i <= 4)%nat) as [H4|H4].
  - assert (Hm : xive_pri xs i = pri_masked) by (apply Z.eqb_eq, Hq; simpl; lia).
    split; intros (_ & _ & Hp & Hne); congruence.
  - rewrite !(testbit_above _ 5 i); [done|destruct u; cbn [b2z]; lia|lia|destruct u; cbn [b2z]; lia|lia].
Qed.

Lemma presented_unique xs level m s p s' p' : presented xs level m s p -> presented xs level m s' p' -> (s, p) = (s', p').
Proof.
  intros [Hn Hm|i q Hi Hq Hmin|Hm Hlow] [Hn' Hm'|i' q' Hi' Hq' Hmin'|Hm' Hlow']; try done; try lia.
  - by apply Hn in Hi'.
  - by apply Hn' in Hi.
  - destruct (Hmin _ _ Hi') as [?|[? ?]], (Hmin' _ _ Hi) as [?|[? ?]]; try lia. assert (i = i') as -> by lia. congruence.
  - pose proof (Hlow' _ _ Hi). lia.
  - pose proof (Hlow _ _ Hi'). lia.
Qed.

Lemma presented_level xs m l l' s p : (forall i q, pends xs l i q <-> pends xs l' i q) ->
  presented xs l m s p -> presented xs l' m s p.
Proof.
  intros Hp [Hn Hm|i q Hi Hq Hmin|Hm Hlow].
  - apply P_none; [|done]. intros i q Hi. by apply (Hn i q), Hp.
  - apply P_source; [by apply Hp|done|]. intros j k Hj. by apply Hmin, Hp.
  - apply P_ipi; [done|]. intros j k Hj. by apply (Hlow j k), Hp.
Qed.

(** Masked lines make no difference to what is presented. *)
Lemma pending_quiet xs m u l : xives_ok xs -> 0 <= m <= 0xff -> quiet xs = true -> 0 <= l < 16 ->
  pending_at xs m (b2z u + 2 * l) = pending_at xs m (b2z u).
Proof.
  intros Hx Hm Hq Hl. unfold pending_at. cbv zeta.
  pose proof (icp_pending_ok xs (b2z u + 2 * l) m Hx Hm) as H1. pose proof (icp_pending_ok xs (b2z u) m Hx Hm) as H2.
  cbv zeta in H1, H2. destruct (icp_pending m (irq_gen xs (b2z u + 2 * l)).1 _) as [s p].
  destruct (icp_pending m (irq_gen xs (b2z u)).1 _) as [s' p'].
  eapply presented_unique; [|exact H2]. eapply presented_level; [|exact H1]. intros i q. by apply pends_quiet.
Qed.

Lemma pending_range xs m level : xives_ok xs -> 0 <= m <= 0xff ->
  0 <= (pending_at xs m level).1 < 2 ^ 24 /\ 0 <= (pending_at xs m level).2 < 256.
Proof.
  intros Hx Hm. unfold pending_at. pose proof (icp_pending_ok xs level m Hx Hm) as Hp. cbv zeta in *.
  destruct (icp_pending _ _ _) as [s p]. cbn.
  destruct Hp as [_ _|i p Hi Hp _|_ _]; [lia| |lia]. destruct Hi as (Hi & _ & E & _). pose proof (xive_pri_range _ i Hx). lia.
Qed.
