(* ===== verification/XicsIsr.v ===== *)
(** * The interrupt vector of the interrupt test: tests/xics/head.S

    The code around the handler saves the registers of the program that was
    interrupted on its stack, calls [isr] and puts them back.  The memory of the
    model is that of the firmware; what the processor does when an interrupt is
    taken and at [rfid] is from execute1.vhdl. *)

From S2P Require Import Prelude CMem.

(** ** The processor *)

(** The general registers and the link, count and condition registers. *)
Record cpu := Cpu { gpr : list Z; lr : Z; ctr : Z; cr : Z }.

#[export] Instance cpu_eq_dec : EqDecision cpu.
Proof. solve_decision. Defined.

Definition r (i : nat) (c : cpu) : Z := nth i (gpr c) 0.

(** What an interrupt leaves in the MSR: 64-bit mode and little-endian order on,
    external interrupts, problem state, translation, tracing and the
    floating-point unit off.  The register it saves it in has the other bits but
    for two groups that are zero. *)
Definition intr_msr (msr : Z) : Z := Z.lor (Z.ldiff msr 0xef30) 0x8000000000000001.
Definition intr_srr1 (msr : Z) : Z := Z.land msr 0xffffffff87c0ffff.

(** [rfid]: the same groups stay as they are, hypervisor state is on, and
    problem state brings interrupts and translation with it. *)
Definition rfid_msr (srr1 msr : Z) : Z :=
  let new := Z.lor (Z.lor (Z.land srr1 0xffffffff87c0ffff) (Z.land msr 0x783f0000)) 0x1000000000000000 in
  if Z.testbit srr1 14 then Z.lor new 0x8030 else new.

(** ** The code *)

Definition REDZONE_SIZE : Z := 512.
Definition REG_SAVE_SIZE : Z := (32 + 5) * 8.
Definition STACK_FRAME_C_MINIMAL : Z := 64.

Definition SAVE_NIA : Z := 32 * 8.
Definition SAVE_LR : Z := 33 * 8.
Definition SAVE_CTR : Z := 34 * 8.
Definition SAVE_CR : Z := 35 * 8.
Definition SAVE_SRR1 : Z := 36 * 8.

Definition isr_frame : Z := REG_SAVE_SIZE + REDZONE_SIZE.

(** The stores up to the second [stdu], each with its offset from the new stack
    pointer: the old one, the general registers, and those that go through r0. *)
Definition isr_stores (c : cpu) (hsrr0 hsrr1 : Z) : list (Z * Z) :=
  [(0, r 1 c); (1 * 8, r 0 c)] ++ map (fun i : nat => (i * 8, r i c)) (seq 2 30) ++
  [(SAVE_NIA * 8, hsrr0); (SAVE_LR * 8, lr c); (SAVE_CTR * 8, ctr c); (SAVE_CR * 8, cr c); (SAVE_SRR1 * 8, hsrr1)].

Fixpoint store_each (p : Z) (l : list (Z * Z)) : M mem unit :=
  match l with
  | [] => mret tt
  | (off, v) :: l => _ ← store64 (p + off) v; store_each p l
  end.

Fixpoint load_each (p : Z) (l : list Z) : M mem (list Z) :=
  match l with
  | [] => mret []
  | off :: l => v ← load64 (p + off); vs ← load_each p l; mret (v :: vs)
  end.

(** From the vector to the call; the result is the stack pointer at the call. *)
Definition isr_save (c : cpu) (hsrr0 hsrr1 : Z) : M mem Z :=
  let sp := r 1 c - isr_frame in
  _ ← store_each sp (isr_stores c hsrr0 hsrr1);
  _ ← store64 (sp - STACK_FRAME_C_MINIMAL) sp;
  mret (sp - STACK_FRAME_C_MINIMAL).

(** From the return of [isr], with its stack pointer, to [rfid]: the registers,
    and what [rfid] takes as the address and the MSR.  r3 is used for the five
    special registers and comes after them, r1 comes last. *)
Definition isr_restore (fp : Z) : M mem (cpu * Z * Z) :=
  sp ← load64 fp;
  r0 ← load64 (sp + 1 * 8);
  r2 ← load64 (sp + 2 * 8);
  rs ← load_each sp (map (fun i : nat => i * 8) (seq 4 28));
  lr ← load64 (sp + SAVE_LR * 8);
  ctr ← load64 (sp + SAVE_CTR * 8);
  cr ← load64 (sp + SAVE_CR * 8);
  srr1 ← load64 (sp + SAVE_SRR1 * 8);
  srr0 ← load64 (sp + SAVE_NIA * 8);
  r3 ← load64 (sp + 3 * 8);
  r1 ← load64 (sp + 0 * 8);
  mret (Cpu (r0 :: r1 :: r2 :: r3 :: rs) lr ctr (u32 cr), srr0, srr1).

(** ** What is saved is restored *)

(** Everything the code stores lies between these bounds, from the stack pointer
    of the program that was interrupted. *)
Definition isr_below : Z := isr_frame + STACK_FRAME_C_MINIMAL.
Definition isr_above : Z := SAVE_SRR1 * 8 + 8 - isr_frame.

Definition cpu_ok (c : cpu) : Prop :=
  length (gpr c) = 32%nat /\ Forall in_u64 (gpr c) /\ in_u64 (lr c) /\ in_u64 (ctr c) /\ in_u32 (cr c) /\
  isr_below <= r 1 c.

(** The frame is in memory. *)
Definition framed (m : mem) (c : cpu) (hsrr0 hsrr1 : Z) : Prop :=
  let sp := r 1 c - isr_frame in
  Forall (fun '(off, v) => bytes_at m (sp + off) (le_bytes 8 v))
    ((- STACK_FRAME_C_MINIMAL, sp) :: isr_stores c hsrr0 hsrr1).

Lemma store64_ok m p v : mapped m p 8 -> store64 p v m = Ok tt (write_bytes p (le_bytes 8 v) m).
Proof.
  intros Hm. unfold store64.
  assert (E : forall (n : nat) p v m, mapped m p n -> store_le n p v m = Ok tt (write_bytes p (le_bytes n v) m)).
  { clear. induction n as [|n IH]; intros p v m Hm; [done|]. cbn [store_le le_bytes write_bytes].
    erewrite bind_ok by (apply storeb_ok; eapply mapped_at; [exact Hm|lia]). rewrite IH; [done|].
    apply (write_bytes_mapped p [_]). eapply mapped_mono; [exact Hm|lia|lia]. }
  exact (E 8%nat p v m Hm).
Qed.

Lemma load64_ok m p v : bytes_at m p (le_bytes 8 v) -> in_u64 v -> load64 p m = Ok v m.
Proof.
  intros Hb Hv. unfold load64. pose proof (load_le_ok m p _ Hb) as E. rewrite le_bytes_length in E.
  rewrite E, le_value_bytes by exact Hv. done.
Qed.

Lemma load_each_ok m p l : Forall (fun '(off, v) => bytes_at m (p + off) (le_bytes 8 v) /\ in_u64 v) l ->
  load_each p (map fst l) m = Ok (map snd l) m.
Proof.
  induction 1 as [|[off v] l [Hb Hv] _ IH]; [done|]. cbn [map load_each fst snd].
  erewrite bind_ok by (by apply load64_ok). by erewrite bind_ok by exact IH.
Qed.

(** Stores of words at different multiples of eight. *)
Lemma store_each_ok p l : forall m lo n,
  mapped m lo n -> Forall (fun s => (8 | s.1) /\ lo <= p + s.1 /\ p + s.1 + 8 <= lo + n) l -> NoDup (map fst l) ->
  exists m', store_each p l m = Ok tt m' /\ dom m' = dom m /\ same_outside lo n m m' /\ (mem_ok m -> mem_ok m') /\
  Forall (fun s => bytes_at m' (p + s.1) (le_bytes 8 s.2)) l /\
  forall q k, Forall (fun s => q + length k <= p + s.1 \/ p + s.1 + 8 <= q) l -> bytes_at m q k -> bytes_at m' q k.
Proof.
  induction l as [|[off v] l IH]; intros m lo n Hm Hl Hnd.
  { exists m. split_and!; try done. }
  apply Forall_cons_1 in Hl as [(Hd & Hlo & Hhi) Hl]. cbn [fst snd map] in *. apply list.NoDup_cons in Hnd as [Hni Hnd].
  assert (Hm8 : mapped m (p + off) (length (le_bytes 8 v))) by (rewrite le_bytes_length; eapply mapped_mono; [exact Hm|lia|lia]).
  set (m1 := write_bytes (p + off) (le_bytes 8 v) m).
  assert (Hdom : dom m1 = dom m) by (by apply write_bytes_dom).
  destruct (IH m1 lo n (mapped_same_dom _ _ _ _ Hdom Hm) Hl Hnd) as (m' & E & Hdom' & Hs & Hok & Hb & Hk).
  exists m'. split_and!.
  - cbn [store_each]. by erewrite bind_ok by (apply store64_ok; exact Hm8).
  - congruence.
  - etrans; [|exact Hs]. eapply same_outside_mono; [..|apply (write_bytes_same _ _ _ 8)]; rewrite ?le_bytes_length; lia.
  - intros Hmo. apply Hok. apply mem_ok_write; [done|done|apply le_bytes_in_u8].
  - constructor; [|exact Hb]. cbn [fst snd]. apply Hk; [|apply write_bytes_at].
    rewrite le_bytes_length. rewrite List.Forall_forall in Hl |- *. intros [o w] Hin. specialize (Hl _ Hin) as ([x Hx] & _ & _).
    destruct Hd as [y Hy]. cbn [fst] in *.
    assert (o <> off); [|lia]. intros ->. apply Hni. apply list_elem_of_In. exact (in_map fst _ _ Hin).
  - intros q k Hq Hbq. apply Forall_cons_1 in Hq as [Hq0 Hq]. cbn [fst] in Hq0. apply Hk; [done|].
    apply bytes_at_write_other; [rewrite le_bytes_length; lia|done].
Qed.

Lemma isr_offsets c h0 h1 : Forall (fun s => (8 | s.1) /\ 0 <= s.1 <= SAVE_SRR1 * 8) (isr_stores c h0 h1).
Proof.
  assert (Hall : forallb (fun o => (o mod 8 =? 0) && (0 <=? o) && (o <=? SAVE_SRR1 * 8)) (map fst (isr_stores c h0 h1)) = true)
    by reflexivity.
  rewrite forallb_forall in Hall. apply List.Forall_forall. intros s Hs. specialize (Hall _ (in_map fst _ _ Hs)).
  split; [apply Z.mod_divide; lia|lia].
Qed.

Lemma isr_offsets_differ c h0 h1 : NoDup (map fst (isr_stores c h0 h1)).
Proof.
  change (map fst (isr_stores c h0 h1)) with (map fst (isr_stores (Cpu [] 0 0 0) 0 0)).
  apply (bool_decide_unpack _). vm_compute. exact I.
Qed.

(** Saving changes only the memory around the stack pointer, and leaves the
    frame there. *)
Lemma isr_save_ok m c h0 h1 : mapped m (r 1 c - isr_below) (isr_below + isr_above) ->
  exists m', isr_save c h0 h1 m = Ok (r 1 c - isr_below) m' /\ dom m' = dom m /\
  same_outside (r 1 c - isr_below) (isr_below + isr_above) m m' /\ (mem_ok m -> mem_ok m') /\ framed m' c h0 h1.
Proof.
  intros Hm. set (sp := r 1 c - isr_frame). pose proof (isr_offsets c h0 h1) as Ho.
  destruct (store_each_ok sp (isr_stores c h0 h1) m _ _ Hm) as (m1 & E1 & Hd1 & Hs1 & Hok1 & Hb1 & Hk1).
  { eapply Forall_impl; [|exact Ho]. intros s [Hs Hr]. split; [done|].
    unfold sp, isr_below, isr_above, isr_frame, REG_SAVE_SIZE, REDZONE_SIZE, STACK_FRAME_C_MINIMAL, SAVE_SRR1 in *. lia. }
  { apply isr_offsets_differ. }
  assert (Hm2 : mapped m1 (sp - STACK_FRAME_C_MINIMAL) (length (le_bytes 8 sp))).
  { rewrite le_bytes_length. eapply mapped_mono; [exact (mapped_same_dom _ _ _ _ Hd1 Hm)|unfold sp, isr_below; lia|].
    unfold sp, isr_below, isr_above, isr_frame, REG_SAVE_SIZE, REDZONE_SIZE, STACK_FRAME_C_MINIMAL, SAVE_SRR1. lia. }
  exists (write_bytes (sp - STACK_FRAME_C_MINIMAL) (le_bytes 8 sp) m1). split_and!.
  - unfold isr_save. fold sp. erewrite bind_ok by exact E1. erewrite bind_ok by (by apply store64_ok).
    unfold mret, M_ret, sp, isr_below. f_equal. lia.
  - rewrite write_bytes_dom by done. done.
  - etrans; [exact Hs1|]. eapply same_outside_mono; [..|apply (write_bytes_same _ _ _ 8)]; rewrite ?le_bytes_length;
      unfold sp, isr_below, isr_above, isr_frame, REG_SAVE_SIZE, REDZONE_SIZE, STACK_FRAME_C_MINIMAL, SAVE_SRR1; lia.
  - intros Hok. apply mem_ok_write; [auto|done|apply le_bytes_in_u8].
  - unfold framed. fold sp. constructor; [apply write_bytes_at|].
    rewrite List.Forall_forall in Hb1, Ho |- *. intros [o v] Hin. destruct (Ho _ Hin) as [_ Hr]. cbn [fst] in Hr.
    apply bytes_at_write_other; [|exact (Hb1 _ Hin)]. right. rewrite le_bytes_length. unfold STACK_FRAME_C_MINIMAL. lia.
Qed.

Lemma framed_at m c h0 h1 off v : framed m c h0 h1 -> In (off, v) (isr_stores c h0 h1) ->
  bytes_at m (r 1 c - isr_frame + off) (le_bytes 8 v).
Proof.
  intros Hf Hin. unfold framed in Hf. apply Forall_cons_1 in Hf as [_ Hf]. rewrite List.Forall_forall in Hf.
  exact (Hf _ Hin).
Qed.

Lemma reg_stored c h0 h1 (i : nat) : (2 <= i < 32)%nat -> In (i * 8, r i c) (isr_stores c h0 h1).
Proof.
  intros Hi. unfold isr_stores. apply in_app_iff. right. apply in_app_iff. left.
  apply in_map_iff. exists i. split; [done|]. apply in_seq. lia.
Qed.

Lemma special_stored c h0 h1 s :
  In s [(SAVE_NIA * 8, h0); (SAVE_LR * 8, lr c); (SAVE_CTR * 8, ctr c); (SAVE_CR * 8, cr c); (SAVE_SRR1 * 8, h1)] ->
  In s (isr_stores c h0 h1).
Proof. intros Hs. unfold isr_stores. apply in_app_iff. right. apply in_app_iff. by right. Qed.

Lemma reg_u64 c i : cpu_ok c -> in_u64 (r i c).
Proof.
  intros (_ & Hg & _). unfold r. destruct (decide (i < length (gpr c))%nat) as [Hi|Hi].
  - rewrite List.Forall_forall in Hg. apply Hg, nth_In. lia.
  - rewrite nth_overflow by lia. unfold in_u64. lia.
Qed.

Lemma gpr_list c : length (gpr c) = 32%nat ->
  r 0 c :: r 1 c :: r 2 c :: r 3 c :: map (fun i => r i c) (seq 4 28) = gpr c.
Proof.
  destruct c as [g l k x]. cbn [gpr]. intros Hl. unfold r. cbn [gpr].
  do 32 (destruct g as [|? g]; [done|]). destruct g; [reflexivity|done].
Qed.

(** From the stack pointer at the call, what was saved comes back. *)
Lemma isr_restore_ok m c h0 h1 : cpu_ok c -> framed m c h0 h1 -> in_u64 h0 -> in_u64 h1 ->
  isr_restore (r 1 c - isr_below) m = Ok (c, h0, h1) m.
Proof.
  intros Hc Hf H0 H1. pose proof Hc as (Hlen & _ & Hlr & Hctr & Hcr & Hsp).
  set (sp := r 1 c - isr_frame).
  assert (Hld : forall off v, In (off, v) (isr_stores c h0 h1) -> in_u64 v -> load64 (sp + off) m = Ok v m).
  { intros off v Hin Hv. apply load64_ok; [|done]. by eapply framed_at. }
  assert (Hfp : load64 (r 1 c - isr_below) m = Ok sp m).
  { unfold framed in Hf. apply Forall_cons_1 in Hf as [Hf _]. fold sp in Hf. unfold isr_below.
    replace (r 1 c - (isr_frame + STACK_FRAME_C_MINIMAL)) with (sp + - STACK_FRAME_C_MINIMAL) by (unfold sp; lia).
    apply load64_ok; [done|]. pose proof (reg_u64 c 1 Hc). unfold in_u64, sp, isr_below in *.
    unfold isr_frame, REG_SAVE_SIZE, REDZONE_SIZE, STACK_FRAME_C_MINIMAL in *. lia. }
  assert (Hrs : load_each sp (map (fun i : nat => i * 8) (seq 4 28)) m = Ok (map (fun i => r i c) (seq 4 28)) m).
  { pose proof (load_each_ok m sp (map (fun i : nat => (i * 8, r i c)) (seq 4 28))) as E. rewrite !map_map in E.
    apply E. apply List.Forall_forall. intros [o v] Hin. apply in_map_iff in Hin as (i & [= <- <-] & Hi%in_seq).
    split; [|by apply reg_u64]. eapply framed_at; [exact Hf|]. apply reg_stored. lia. }
  assert (Hcr64 : in_u64 (cr c)) by (unfold in_u64, in_u32 in *; lia).
  unfold isr_restore. erewrite bind_ok by exact Hfp.
  erewrite bind_ok by (apply (Hld (1 * 8) (r 0 c)); [by right; left|by apply reg_u64]).
  erewrite bind_ok by (apply (Hld (2 * 8) (r 2 c)); [apply (reg_stored c h0 h1 2); lia|by apply reg_u64]).
  erewrite bind_ok by exact Hrs.
  erewrite bind_ok by (apply (Hld (SAVE_LR * 8) (lr c)); [apply special_stored; simpl; tauto|done]).
  erewrite bind_ok by (apply (Hld (SAVE_CTR * 8) (ctr c)); [apply special_stored; simpl; tauto|done]).
  erewrite bind_ok by (apply (Hld (SAVE_CR * 8) (cr c)); [apply special_stored; simpl; tauto|done]).
  erewrite bind_ok by (apply (Hld (SAVE_SRR1 * 8) h1); [apply special_stored; simpl; tauto|done]).
  erewrite bind_ok by (apply (Hld (SAVE_NIA * 8) h0); [apply special_stored; simpl; tauto|done]).
  erewrite bind_ok by (apply (Hld (3 * 8) (r 3 c)); [apply (reg_stored c h0 h1 3); lia|by apply reg_u64]).
  erewrite bind_ok by (apply (Hld (0 * 8) (r 1 c)); [by left|by apply reg_u64]).
  unfold mret, M_ret. rewrite gpr_list by done. rewrite u32_small by exact Hcr. by destruct c.
Qed.

(** The offsets of the special registers are scaled twice: all five are saved
    above the frame, in memory that belongs to the program that was
    interrupted. *)
Lemma isr_saves_outside :
  Forall (fun off => isr_frame <= off) [SAVE_NIA * 8; SAVE_LR * 8; SAVE_CTR * 8; SAVE_CR * 8; SAVE_SRR1 * 8].
Proof. repeat constructor; done. Qed.
