(* ===== verification/XicsTest.v ===== *)
(** * The test program of the interrupt controller: tests/xics/xics.c and xics.h

    The program is written over a machine, an interface with the accesses it
    makes; an interrupt may be taken after every one of them, and which of these
    points it is that takes it is the machine's choice.  The program is that
    interface implemented by the accesses of xics.h to the interrupt controller,
    the console driver and the vector of head.S. *)

From S2P Require Import Prelude CMem Console Xics XicsIsr.

Definition XICS_ICP_BASE : Z := 0xc0004000.
Definition XICS_ICS_BASE : Z := 0xc0005000.

Definition XICS_XIRR_POLL : Z := 0x0.
Definition XICS_XIRR : Z := 0x4.
Definition XICS_RESV : Z := 0x8.
Definition XICS_MFRR : Z := 0xc.

Definition ISR_IPI : Z := 0x1.
Definition ISR_UART : Z := 0x2.
Definition ISR_SPURIOUS : Z := 0x4.

Definition MSR_EE : Z := 0x8000.

(** The string constants; the name of the file depends on how it is compiled. *)
Inductive xfunc := F_isr | F_test_0 | F_test_1 | F_test_2 | F_test_3.
Inductive xlit := L_TEST | L_PASS | L_FAIL | L_ASSERT_FAIL | L_FILE | L_FUNC (f : xfunc).

Definition func_name (f : xfunc) : list Z :=
  match f with
  | F_isr => codes "isr" | F_test_0 => codes "xics_test_0" | F_test_1 => codes "xics_test_1"
  | F_test_2 => codes "xics_test_2" | F_test_3 => codes "xics_test_3"
  end.

Definition xlit_text (file : list Z) (l : xlit) : list Z :=
  match l with
  | L_TEST => codes "Test " | L_PASS => codes "PASS" ++ [10] | L_FAIL => codes "FAIL" ++ [10]
  | L_ASSERT_FAIL => codes "() ASSERT_FAILURE!" ++ [10; 32]
  | L_FILE => file
  | L_FUNC f => func_name f
  end.

(** ** The interface of the program *)

Class Xmachine (S : Type) := {
  icp_write8 : Z -> Z -> M S unit;
  icp_read32 : Z -> M S Z;
  icp_write32 : Z -> Z -> M S unit;
  ics_read_xive : Z -> M S Z;
  ics_write_xive : Z -> Z -> M S unit;
  set_irq_en : bool -> bool -> M S unit;
  x_putchar : Z -> M S unit;
  x_puts : xlit -> M S unit;
  get_msr : M S Z;
  set_msr : Z -> M S unit;
  isr_enter : M S unit;
  isr_leave : M S unit;
  irq_line : M S bool;
  irq_now : M S bool;
  get_isrs_run : M S Z;
  set_isrs_run : Z -> M S unit;
  get_ipi_running : M S bool;
  set_ipi_running : bool -> M S unit
}.

Section program.
Context {S : Type} `{Xmachine S}.

(** ** Messages *)

Definition print_number_step : Z * Z * bool * Z -> M S (Z * Z * bool * Z + unit) := fun '(i, k, zeros, m) =>
  if m <? 10 then
    let j := i / k in
    let zeros := (m =? 9) || zeros in
    zeros ← (if zeros || negb (j =? 0) then _ ← x_putchar (48 + j); mret true else mret zeros);
    mret (inl (i mod k, k / 10, zeros, m + 1))
  else mret (inr tt).

Definition print_number (i : Z) : M S unit := loop 11 print_number_step (i, 1000000000, false, 0).

(** A failed assertion stops the machine. *)
Definition xassert (cond : bool) (line : Z) (func : xfunc) : M S unit :=
  if cond then mret tt else
  _ ← x_puts L_FILE;
  _ ← x_putchar 58;
  _ ← print_number line;
  _ ← x_putchar 58;
  _ ← x_puts (L_FUNC func);
  _ ← x_puts L_ASSERT_FAIL;
  throw (Exit 0).

(** ** Interrupts *)

Definition or_isrs_run (bit : Z) : M S unit := v ← get_isrs_run; set_isrs_run (Z.lor v bit).

Definition ipi_isr : M S unit := _ ← or_isrs_run ISR_IPI; icp_write8 XICS_MFRR 0xff.
Definition uart_isr : M S unit := _ ← set_irq_en false false; or_isrs_run ISR_UART.
Definition spurious_isr : M S unit := or_isrs_run ISR_SPURIOUS.

(** The entry without a function ends the table. *)
Definition isr_table : list (option (M S unit) * Z) :=
  [(Some ipi_isr, 2); (Some uart_isr, 16); (Some spurious_isr, 0); (None, 0)].

Fixpoint isr_search (table : list (option (M S unit) * Z)) (source : Z) : M S unit :=
  match table with
  | [] => throw UB
  | (func, source_id) :: table =>
      match func with
      | None => xassert false 138 F_isr
      | Some func => if source_id =? source then func else isr_search table source
      end
  end.

Definition isr : M S unit :=
  running ← get_ipi_running;
  _ ← xassert (negb running) 121 F_isr;
  _ ← set_ipi_running true;
  xirr ← icp_read32 XICS_XIRR;
  _ ← isr_search isr_table (Z.land xirr 0x00ffffff);
  _ ← icp_write32 XICS_XIRR xirr;
  set_ipi_running false.

(** The interrupt, with the vector in head.S around the handler. *)
Definition interrupt : M S unit :=
  _ ← isr_enter;
  _ ← isr;
  isr_leave.

Definition irq_pending : M S bool :=
  line ← irq_line;
  msr ← get_msr;
  mret (line && negb (Z.land msr MSR_EE =? 0)).

(** A point of the program where an interrupt may be taken. *)
Definition irq_point : M S unit :=
  p ← irq_pending;
  if p : bool then now ← irq_now; if now : bool then interrupt else mret tt else mret tt.

Definition then_point {A} (c : M S A) : M S A := x ← c; _ ← irq_point; mret x.

(** In every round of [delay] an interrupt that is pending is taken. *)
Definition delay_step : Z -> M S (Z + unit) := fun i =>
  if i <? 16 then
    p ← irq_pending;
    _ ← (if p : bool then interrupt else mret tt);
    mret (inl (i + 1))
  else mret (inr tt).

Definition delay : M S unit := loop 17 delay_step 0.

(** ** The tests *)

Definition assert_isrs (v line : Z) (func : xfunc) : M S unit :=
  run ← get_isrs_run; xassert (run =? v) line func.

(** The assertions are assignments: what they test is the value assigned. *)
Definition xics_test_0 : M S Z :=
  v0 ← then_point (ics_read_xive 0);
  v1 ← then_point (ics_read_xive 1);
  let v0 := 0xff in _ ← xassert (negb (v0 =? 0)) 168 F_test_0;
  let v1 := 0xff in _ ← xassert (negb (v1 =? 0)) 169 F_test_0;
  _ ← then_point (ics_write_xive 0xa 0);
  _ ← then_point (ics_write_xive 0x5 1);
  v0 ← then_point (ics_read_xive 0);
  v1 ← then_point (ics_read_xive 1);
  let v0 := 0xa in _ ← xassert (negb (v0 =? 0)) 184 F_test_0;
  let v1 := 0x5 in _ ← xassert (negb (v1 =? 0)) 185 F_test_0;
  _ ← then_point (ics_write_xive 0xff 0);
  _ ← then_point (ics_write_xive 0xff 1);
  v0 ← then_point (ics_read_xive 0);
  v1 ← then_point (ics_read_xive 1);
  let v0 := 0xff in _ ← xassert (negb (v0 =? 0)) 191 F_test_0;
  let v1 := 0xff in _ ← xassert (negb (v1 =? 0)) 192 F_test_0;
  mret 0.

Definition xics_test_1 : M S Z :=
  _ ← then_point (icp_write8 XICS_XIRR 0x00);
  _ ← set_isrs_run 0;
  _ ← then_point (icp_write8 XICS_XIRR 0x00);
  _ ← then_point (set_irq_en true true);
  _ ← then_point (ics_write_xive 0x6 0);
  _ ← then_point (icp_write8 XICS_MFRR 0x04);
  _ ← delay;
  _ ← assert_isrs 0 211 F_test_1;
  _ ← then_point (icp_write8 XICS_XIRR 0x6);
  _ ← delay;
  _ ← assert_isrs ISR_IPI 216 F_test_1;
  _ ← then_point (icp_write8 XICS_XIRR 0x7);
  _ ← delay;
  _ ← assert_isrs (Z.lor ISR_IPI ISR_UART) 221 F_test_1;
  _ ← then_point (icp_write8 XICS_XIRR 0x00);
  _ ← then_point (set_irq_en false false);
  _ ← then_point (ics_write_xive 0 0xff);
  _ ← set_isrs_run 0;
  mret 0.

Definition xics_test_2 : M S Z :=
  _ ← then_point (icp_write8 XICS_XIRR 0x00);
  _ ← set_isrs_run 0;
  _ ← then_point (icp_write8 XICS_XIRR 0xff);
  _ ← delay;
  _ ← assert_isrs 0 242 F_test_2;
  _ ← then_point (set_irq_en true true);
  _ ← then_point (icp_write8 XICS_MFRR 0x05);
  _ ← delay;
  _ ← assert_isrs (Z.lor ISR_IPI ISR_UART) 249 F_test_2;
  _ ← then_point (icp_write8 XICS_XIRR 0x00);
  _ ← then_point (set_irq_en false false);
  _ ← set_isrs_run 0;
  mret 0.

Definition mtmsrd (val : Z) : M S unit := set_msr val.

Definition xics_test_3 : M S Z :=
  _ ← then_point (icp_write8 XICS_XIRR 0x00);
  _ ← set_isrs_run 0;
  _ ← then_point (mtmsrd 0x9000000000000003);
  _ ← then_point (icp_write8 XICS_XIRR 0xff);
  _ ← then_point (icp_write8 XICS_MFRR 0x05);
  _ ← delay;
  _ ← assert_isrs 0 279 F_test_3;
  _ ← then_point (mtmsrd 0x9000000000008003);
  _ ← delay;
  _ ← assert_isrs ISR_IPI 283 F_test_3;
  _ ← then_point (icp_write8 XICS_XIRR 0x00);
  _ ← set_isrs_run 0;
  mret 0.

Definition xics_tests : list (M S Z) := [xics_test_0; xics_test_1; xics_test_2; xics_test_3].

(** One round of the loop of [main]: the new value of [fail]. *)
Definition run_xics_test (i fail : Z) (t : M S Z) : M S Z :=
  _ ← then_point (x_puts L_TEST);
  _ ← then_point (print_number i);
  _ ← then_point (x_putchar 58);
  r ← t;
  if negb (r =? 0) then _ ← then_point (x_puts L_FAIL); mret 1
  else _ ← then_point (x_puts L_PASS); mret fail.

Fixpoint run_xics_tests (i fail : Z) (tests : list (M S Z)) : M S Z :=
  match tests with
  | [] => mret fail
  | t :: tests => fail ← run_xics_test i fail t; run_xics_tests (i + 1) fail tests
  end.

Definition xics_run : M S Z := _ ← set_ipi_running false; run_xics_tests 0 0 xics_tests.
End program.

(** ** The board *)

(** The level of the interrupt line of the serial port. *)
Class IrqLine (D : Type) := { uart_irq : D -> bool }.

(** The other devices, the interrupt controller, and the cycles it has made. *)
Record xdev (D : Type) := Xdev { xd_dev : D; xd_xics : xics; xd_cycle : nat }.
Arguments Xdev {D}. Arguments xd_dev {D}. Arguments xd_xics {D}. Arguments xd_cycle {D}.

(** An access of [n] bytes at [off] as the bus has it. *)
Definition wb_of (n off : Z) (we : bool) (v : Z) : wb :=
  Wb (off / 4) we (Z.shiftl (Z.ones n) (off mod 4)) (Z.shiftl v (8 * (off mod 4))).

Definition lane (off dat : Z) : Z := Z.shiftr dat (8 * (off mod 4)).

Section board.
(** [lat] cycles pass between two accesses, or an access and an interrupt;
    [lines t] are the lines of the other devices in cycle [t]. *)
Context {D : Type} `{Bus D} `{IrqLine D} (lat : nat) (lines : nat -> Z).

Definition level_in (d : D) (t : nat) : Z := b2z (uart_irq d) + 2 * lines t.

Definition in_page (base addr : Z) : bool := (base <=? addr) && (addr <? base + 0x1000).

(** Time passes. *)
Definition wait_xics (b : xdev D) : xdev D :=
  Xdev (xd_dev b) (idle_levels (level_in (xd_dev b)) lat (xd_cycle b) (xd_xics b)) (xd_cycle b + lat).

Definition xics_access (req : request) (off : Z) (b : xdev D) : Z * xdev D :=
  let b := wait_xics b in
  (lane off (xics_answer req (xd_xics b)),
   Xdev (xd_dev b) (xics_cycle (level_in (xd_dev b) (xd_cycle b)) req (xd_xics b)) (S (xd_cycle b))).

#[export] Instance xdev_bus : Bus (xdev D) := {
  bus_read n addr b :=
    if in_page XICS_ICP_BASE addr then
      let off := addr - XICS_ICP_BASE in xics_access (ToIcp (wb_of n off false 0)) off b
    else if in_page XICS_ICS_BASE addr then
      let off := addr - XICS_ICS_BASE in xics_access (ToIcs (wb_of n off false 0)) off b
    else let '(v, d) := bus_read n addr (xd_dev b) in (v, Xdev d (xd_xics b) (xd_cycle b));
  bus_write n addr v b :=
    if in_page XICS_ICP_BASE addr then
      let off := addr - XICS_ICP_BASE in (xics_access (ToIcp (wb_of n off true v)) off b).2
    else if in_page XICS_ICS_BASE addr then
      let off := addr - XICS_ICS_BASE in (xics_access (ToIcs (wb_of n off true v)) off b).2
    else Xdev (bus_write n addr v (xd_dev b)) (xd_xics b) (xd_cycle b)
}.

(** ** xics.h *)

Definition bswap32 (v : Z) : Z := bswap (u32 v).

Definition hw_icp_read8 (offset : Z) : M (fw (xdev D)) Z := readb (XICS_ICP_BASE + offset).
Definition hw_icp_write8 (offset val : Z) : M (fw (xdev D)) unit := writeb val (XICS_ICP_BASE + offset).
Definition hw_icp_read32 (offset : Z) : M (fw (xdev D)) Z := v ← readl (XICS_ICP_BASE + offset); mret (bswap32 v).
Definition hw_icp_write32 (offset val : Z) : M (fw (xdev D)) unit := writel (bswap32 val) (XICS_ICP_BASE + offset).
Definition hw_ics_read_xive (irq : Z) : M (fw (xdev D)) Z :=
  v ← readl (XICS_ICS_BASE + 0x800 + Z.shiftl irq 2); mret (bswap32 v).
Definition hw_ics_write_xive (val irq : Z) : M (fw (xdev D)) unit :=
  writel (bswap32 val) (XICS_ICS_BASE + 0x800 + Z.shiftl irq 2).

(** ** The program *)

(** The firmware, the MSR, the globals of xics.c, the choices that are left,
    whether a pending interrupt is taken at once, and how many were taken. *)
Record xs := Xs {
  x_fw : fw (xdev D); x_msr : Z; x_isrs_run : Z; x_running : bool; x_sched : list bool; x_taken : nat
}.

Definition on_xfw {A} (c : M (fw (xdev D)) A) : M xs A := fun s =>
  match c (x_fw s) with
  | Ok a f => Ok a (Xs f (x_msr s) (x_isrs_run s) (x_running s) (x_sched s) (x_taken s))
  | Err e f => Err e (Xs f (x_msr s) (x_isrs_run s) (x_running s) (x_sched s) (x_taken s))
  end.

Definition x_set_msr (v : Z) (s : xs) : xs :=
  Xs (x_fw s) v (x_isrs_run s) (x_running s) (x_sched s) (x_taken s).

(** What the compiled code has in the registers: [cpus k] is what the program
    has, and [nias k] where it is, when the [k]-th interrupt is taken, and
    [sps k] is the stack pointer with which [isr] returns then. *)
Context (cpus : nat -> cpu) (nias : nat -> Z) (sps : nat -> Z).

(** An interrupt is taken and the vector saves the registers. *)
Definition hw_isr_enter : M xs unit := fun s =>
  let k := x_taken s in
  (_ ← on_xfw (on_mem (isr_save (cpus k) (nias k) (intr_srr1 (x_msr s))));
   modify (x_set_msr (intr_msr (x_msr s)))) s.

(** The vector puts the registers back and returns.  The program goes on as it
    would have done without the interrupt only if these are the registers and
    the address at which it was interrupted. *)
Definition hw_isr_leave : M xs unit := fun s =>
  let k := x_taken s in
  ('(c, srr0, srr1) ← on_xfw (on_mem (isr_restore (sps k)));
   if bool_decide (c = cpus k) && (srr0 =? nias k) then
     modify (fun s => Xs (x_fw s) (rfid_msr srr1 (x_msr s)) (x_isrs_run s) (x_running s) (x_sched s) (S (x_taken s)))
   else throw UB) s.

Context (poll : nat) (xlits : xlit -> Z).

#[export] Instance xics_program : Xmachine xs := {
  icp_write8 off v := on_xfw (hw_icp_write8 off v);
  icp_read32 off := on_xfw (hw_icp_read32 off);
  icp_write32 off v := on_xfw (hw_icp_write32 off v);
  ics_read_xive i := on_xfw (hw_ics_read_xive i);
  ics_write_xive v i := on_xfw (hw_ics_write_xive v i);
  set_irq_en rx tx := on_xfw (console_set_irq_en rx tx);
  x_putchar c := _ ← on_xfw (putchar poll c); mret tt;
  x_puts l := _ ← on_xfw (puts poll (xlits l)); mret tt;
  get_msr := gets x_msr;
  set_msr v := modify (x_set_msr v);
  isr_enter := hw_isr_enter;
  isr_leave := hw_isr_leave;
  irq_line := on_xfw (fun f => let b := wait_xics (fdev f) in Ok (core_irq (xd_xics b)) (with_dev f b));
  irq_now := fun s =>
    Ok (hd false (x_sched s)) (Xs (x_fw s) (x_msr s) (x_isrs_run s) (x_running s) (tl (x_sched s)) (x_taken s));
  get_isrs_run := gets x_isrs_run;
  set_isrs_run v := modify (fun s => Xs (x_fw s) (x_msr s) v (x_running s) (x_sched s) (x_taken s));
  get_ipi_running := gets x_running;
  set_ipi_running b := modify (fun s => Xs (x_fw s) (x_msr s) (x_isrs_run s) b (x_sched s) (x_taken s))
}.

Definition xics_main : M xs Z := _ ← on_xfw console_init; xics_run.
End board.
Arguments xs D : clear implicits.
Arguments Xs {D}. Arguments x_fw {D}. Arguments x_msr {D}. Arguments x_isrs_run {D}.
Arguments x_running {D}. Arguments x_sched {D}. Arguments x_taken {D}. Arguments x_set_msr {D}.
