(* ===== verification/XicsIdeal.v ===== *)
(** * The interrupt tests on an ideal machine

    A machine whose interrupt controller is always settled, and which knows of
    no line but that of the serial port: it is asked for what is pending only
    when the threshold is zero or the sources of the other devices are masked.
    The test program is run on it for all choices of when interrupts are
    taken. *)

From S2P Require Import Prelude CMem Console Xics XicsIsr XicsTest.

(** ** The ideal machine *)

(** The registers of the controller, the line of the serial port, the processor,
    which may be in the handler, and the program. *)
Record xv := Xv {
  v_cppr : Z; v_mfrr : Z; v_pri : list Z; v_uart : bool;
  v_msr : Z; v_in_isr : bool; v_isrs : Z; v_running : bool; v_sched : list bool; v_text : list Z
}.

(** The two values of the MSR in the program, and the one in the handler. *)
Definition msr_off : Z := 0x9000000000000003.
Definition msr_on : Z := 0x9000000000008003.

Section ideal.
(** The name of the file. *)
Context (file : list Z).

(** The source presented to the processor and its priority. *)
Definition v_source (s : xv) : Z * Z := pending_at (v_pri s) (v_mfrr s) (b2z (v_uart s)).

Definition v_set_cppr (c : Z) (s : xv) : xv :=
  Xv c (v_mfrr s) (v_pri s) (v_uart s) (v_msr s) (v_in_isr s) (v_isrs s) (v_running s) (v_sched s) (v_text s).
Definition v_set_mfrr (m : Z) (s : xv) : xv :=
  Xv (v_cppr s) m (v_pri s) (v_uart s) (v_msr s) (v_in_isr s) (v_isrs s) (v_running s) (v_sched s) (v_text s).
Definition v_set_pri (i : nat) (p : Z) (s : xv) : xv :=
  Xv (v_cppr s) (v_mfrr s) (<[i := p]> (v_pri s)) (v_uart s) (v_msr s) (v_in_isr s) (v_isrs s) (v_running s) (v_sched s) (v_text s).
Definition v_say (t : list Z) (s : xv) : xv :=
  Xv (v_cppr s) (v_mfrr s) (v_pri s) (v_uart s) (v_msr s) (v_in_isr s) (v_isrs s) (v_running s) (v_sched s) (v_text s ++ t).

Definition v_set_cpu (msr : Z) (isr : bool) (s : xv) : xv :=
  Xv (v_cppr s) (v_mfrr s) (v_pri s) (v_uart s) msr isr (v_isrs s) (v_running s) (v_sched s) (v_text s).

Definition bool_word (level : Z) (i : nat) : Z := let b := b2z (Z.testbit level i) in Z.shiftl b 31 + Z.shiftl b 29.

#[export] Instance xideal : Xmachine xv := {
  icp_write8 off v := fun s =>
    if negb ((0 <=? v) && (v <? 256)) then Err UB s
    else if off =? XICS_XIRR then Ok tt (v_set_cppr v s)
    else if off =? XICS_MFRR then Ok tt (v_set_mfrr v s) else Err UB s;
  icp_read32 off := fun s =>
    if (off =? XICS_XIRR) && quiet (v_pri s) then
      Ok (Z.shiftl (v_cppr s) 24 + (v_source s).1) (v_set_cppr (v_source s).2 s) else Err UB s;
  icp_write32 off v := fun s =>
    if (off =? XICS_XIRR) && (0 <=? v) && (v <? 2 ^ 32) then Ok tt (v_set_cppr (v / 2 ^ 24) s) else Err UB s;
  ics_read_xive i := fun s =>
    if (0 <=? i) && (i <? 16) then
      Ok (bool_word (b2z (v_uart s)) (Z.to_nat i) + prio_unpack (xive_pri (v_pri s) (Z.to_nat i))) s
    else Err UB s;
  ics_write_xive v i := fun s =>
    if (0 <=? v) && (v <? 256) && (0 <=? i) && (i <? 512) then
      Ok tt (v_set_pri (Z.to_nat (i mod 16)) (prio_pack v) s)
    else Err UB s;
  set_irq_en rx tx := fun s =>
    if Bool.eqb rx tx then
      Ok tt (Xv (v_cppr s) (v_mfrr s) (v_pri s) tx (v_msr s) (v_in_isr s) (v_isrs s) (v_running s) (v_sched s) (v_text s))
    else Err UB s;
  x_putchar c := modify (v_say [u8 c]);
  x_puts l := modify (v_say (crlf (xlit_text file l)));
  get_msr := gets v_msr;
  set_msr v := fun s =>
    if (v =? msr_off) || (v =? msr_on) then Ok tt (v_set_cpu v (v_in_isr s) s) else Err UB s;
  isr_enter := fun s =>
    if (v_msr s =? msr_on) && negb (v_in_isr s) then Ok tt (v_set_cpu (intr_msr msr_on) true s) else Err UB s;
  isr_leave := fun s =>
    if (v_msr s =? intr_msr msr_on) && v_in_isr s then Ok tt (v_set_cpu msr_on false s) else Err UB s;
  irq_line := fun s =>
    if v_cppr s =? 0 then Ok false s
    else if quiet (v_pri s) then Ok ((v_source s).2 <? v_cppr s) s else Err UB s;
  irq_now := fun s => Ok (hd false (v_sched s))
    (Xv (v_cppr s) (v_mfrr s) (v_pri s) (v_uart s) (v_msr s) (v_in_isr s) (v_isrs s) (v_running s) (tl (v_sched s)) (v_text s));
  get_isrs_run := gets v_isrs;
  set_isrs_run v := modify (fun s =>
    Xv (v_cppr s) (v_mfrr s) (v_pri s) (v_uart s) (v_msr s) (v_in_isr s) v (v_running s) (v_sched s) (v_text s));
  get_ipi_running := gets v_running;
  set_ipi_running b := modify (fun s =>
    Xv (v_cppr s) (v_mfrr s) (v_pri s) (v_uart s) (v_msr s) (v_in_isr s) (v_isrs s) b (v_sched s) (v_text s))
}.

(** After reset, with interrupts enabled. *)
Definition v_reset (isrs : Z) (run : bool) (sched : list bool) : xv :=
  Xv 0 0xff (replicate 16 pri_masked) false msr_on false isrs run sched [].
End ideal.

(** What the program prints. *)
Definition xics_line (i : Z) : list Z := codes "Test " ++ [48 + i; 58] ++ codes "PASS" ++ [13; 10].
Definition xics_report : list Z := concat (List.map xics_line [0; 1; 2; 3]).

Section run.
Context (file : list Z).

(** The machine before test [i], if source 0 has priority [p] and source 15
    priority [q]. *)
Definition before (i : nat) (p q isrs : Z) (sched : list bool) : xv :=
  Xv 0 0xff (p :: replicate 14 pri_masked ++ [q]) false msr_on false isrs false sched
     (concat (List.map xics_line (take i [0; 1; 2; 3]))).

(** A test passes wherever its interrupts are taken. *)
Definition passes (i : nat) (t : M xv Z) (p q : Z) (p' q' : Z) : Prop := forall isrs sched, exists isrs' sched',
  run_xics_test (H := xideal file) i 0 t (before i p q isrs sched) = Ok 0 (before (S i) p' q' isrs' sched').
End run.

(** The number of points where an interrupt is pending is at most [n]. *)
Tactic Notation "run_passes" integer(n) := intros isrs sched;
  do n (destruct sched as [|[] sched]; [do 2 eexists; vm_compute; reflexivity|..]); do 2 eexists; vm_compute; reflexivity.

Lemma tests_pass file :
  passes file 0 (xics_test_0 (H := xideal file)) 7 7 7 7 /\
  passes file 1 (xics_test_1 (H := xideal file)) 7 7 6 0 /\
  passes file 2 (xics_test_2 (H := xideal file)) 6 0 6 0 /\
  passes file 3 (xics_test_3 (H := xideal file)) 6 0 6 0.
Proof. split_and!; [run_passes 0|run_passes 2|run_passes 2|run_passes 1]. Qed.

(** Every choice of where the interrupts are taken leads to the report. *)
Lemma xideal_run file isrs run sched : exists a,
  xics_run (H := xideal file) (v_reset isrs run sched) = Ok 0 a /\ v_text a = xics_report.
Proof.
  destruct (tests_pass file) as (H0 & H1 & H2 & H3).
  destruct (H0 isrs sched) as (i1 & s1 & E0). destruct (H1 i1 s1) as (i2 & s2 & E1).
  destruct (H2 i2 s2) as (i3 & s3 & E2). destruct (H3 i3 s3) as (i4 & s4 & E3).
  exists (before 4 6 0 i4 s4). split; [|reflexivity]. unfold xics_run.
  rewrite (bind_ok _ _ _ tt (before 0 7 7 isrs sched)) by done. unfold xics_tests. cbn [run_xics_tests].
  by rewrite (bind_ok _ _ _ _ _ E0), (bind_ok _ _ _ _ _ E1), (bind_ok _ _ _ _ _ E2), (bind_ok _ _ _ _ _ E3).
Qed.
