(* ===== verification/XicsRun.v ===== *)
(** * The interrupt tests pass

    The test program on the interrupt controller, clock by clock, follows the
    run on the ideal machine: a forward simulation, operation by operation. *)

From S2P Require Import Prelude Simulate CMem Console Hello Xics XicsIsr XicsTest XicsIdeal.

(** ** Words on the bus *)

Lemma bswap_eq v : bswap v = v / 2 ^ 24 mod 256 + 256 * (v / 2 ^ 16 mod 256) + 65536 * (v / 256 mod 256) + 2 ^ 24 * (v mod 256).
Proof.
  unfold bswap. cbn [le_bytes rev app le_value]. unfold u8. rewrite !Z.div_div by lia.
  change (256 * (256 * 256)) with (2 ^ 24).
  change (256 * 256) with (2 ^ 16). lia.
Qed.

Lemma bswap_range v : 0 <= bswap v < 2 ^ 32.
Proof. rewrite bswap_eq. Z.div_mod_to_equations. lia. Qed.

Lemma bswap_bswap v : 0 <= v < 2 ^ 32 -> bswap (bswap v) = v.
Proof.
  intros Hv. unfold bswap at 1. replace (le_bytes 4 (bswap v)) with (rev (le_bytes 4 v)).
  - rewrite rev_involutive. by apply le_value_bytes.
  - symmetry. apply (le_bytes_value (rev (le_bytes 4 v))), Forall_rev, le_bytes_in_u8.
Qed.

Lemma bswap_high v : bit_range (bswap v) 31 24 = v mod 256.
Proof.
  unfold bit_range. rewrite bswap_eq, Z.shiftr_div_pow2 by lia. change (2 ^ (31 - 24 + 1)) with 256.
  Z.div_mod_to_equations. lia.
Qed.

Lemma bswap_low v : bit_range (bswap v) 7 0 = v / 2 ^ 24 mod 256.
Proof.
  unfold bit_range. rewrite bswap_eq, Z.shiftr_0_r. change (2 ^ (7 - 0 + 1)) with 256. Z.div_mod_to_equations. lia.
Qed.

(** ** The line of the serial port *)

Definition irq_addr (std : bool) : Z := UART_BASE + (if std then UART_REG_IER else POTATO_CONSOLE_IRQ_EN).
Definition irq_value (en : bool) : Z := if en then 3 else 0.

(** Once the transmitter has drained, the line is what the two enables, which
    are changed together, say; nothing else the driver does moves it. *)
Class IrqLineOk (D : Type) {std : bool} `{Bus D} `{!IrqLine D} (U : Uart D std) := {
  irq_setup d freq : uart_fresh d -> 0 <= freq ->
    uart_irq (run_writes (io_width std) (setup_writes std freq) d) = uart_irq d;
  irq_status d v d' : uart_inv d -> bus_read (io_width std) (status_addr std) d = (v, d') -> uart_irq d' = uart_irq d;
  irq_tx d c : uart_inv d -> uart_irq (bus_write (io_width std) (tx_addr std) c d) = uart_irq d;
  irq_rx d v d' : uart_inv d -> bus_read (io_width std) (rx_addr std) d = (v, d') -> uart_irq d' = uart_irq d;
  irq_enable d en : uart_inv d -> let d' := bus_write (io_width std) (irq_addr std) (irq_value en) d in
    uart_inv d' /\ sent d' = sent d /\ uart_irq d' = en
}.

Lemma irq_offset (std : bool) : 0 <= (if std then UART_REG_IER else POTATO_CONSOLE_IRQ_EN) < 0x1000.
Proof. by destruct std. Qed.

Lemma set_irq_run {D} `{Bus D} (std en : bool) (f : fw D) : uart_is_std f = std -> uart_base f = UART_BASE ->
  console_set_irq_en en en f = Ok tt (with_dev f (bus_write (io_width std) (irq_addr std) (irq_value en) (fdev f))).
Proof.
  intros Hs Hb. unfold console_set_irq_en. erewrite bind_ok by reflexivity. rewrite Hs. clear Hs.
  destruct std; unfold std_uart_set_irq_en, potato_uart_set_irq_en, potato_uart_reg_write;
    (erewrite bind_ok by reflexivity); rewrite Hb; by destruct en.
Qed.

(** ** The program follows the ideal machine *)

Section simulation.
Context {D : Type} {std : bool} `{Bus D} `{!IrqLine D} {U : Uart D std} `{!IrqLineOk D U}.
Context (lat : nat) (lines : nat -> Z).

Local Abbreviation xbus := (xdev_bus (D := D) lat lines).

Lemma uart_page off : 0 <= off < 0x1000 ->
  in_page XICS_ICP_BASE (UART_BASE + off) = false /\ in_page XICS_ICS_BASE (UART_BASE + off) = false.
Proof. intros Ho. unfold in_page, XICS_ICP_BASE, XICS_ICS_BASE, UART_BASE. lia. Qed.

Lemma uart_read n off b : 0 <= off < 0x1000 -> bus_read (Bus := xbus) n (UART_BASE + off) b =
  let '(v, d) := bus_read n (UART_BASE + off) (xd_dev b) in (v, Xdev d (xd_xics b) (xd_cycle b)).
Proof. intros Ho. destruct (uart_page off Ho) as [E1 E2]. cbn -[UART_BASE]. by rewrite E1, E2. Qed.

Lemma uart_write n off v b : 0 <= off < 0x1000 -> bus_write (Bus := xbus) n (UART_BASE + off) v b =
  Xdev (bus_write n (UART_BASE + off) v (xd_dev b)) (xd_xics b) (xd_cycle b).
Proof. intros Ho. destruct (uart_page off Ho) as [E1 E2]. cbn -[UART_BASE]. by rewrite E1, E2. Qed.

Lemma setup_dev n freq : forall b, run_writes (H := xbus) n (setup_writes std freq) b =
  Xdev (run_writes n (setup_writes std freq) (xd_dev b)) (xd_xics b) (xd_cycle b).
Proof.
  assert (Ho : Forall (fun '(off, _) => 0 <= off < 0x1000) (setup_writes std freq))
    by (unfold setup_writes; destruct std; repeat first [apply List.Forall_nil|apply List.Forall_cons; [done|]]).
  induction Ho as [|[off v] l Ho _ IH]; intros b; [by destruct b|]. cbn [run_writes foldl].
  unfold run_writes in *. cbn [foldl]. rewrite uart_write by done. by rewrite IH.
Qed.

(** The serial port as the program sees it, with the interrupt controller at
    [x] and the line at [u]: the driver changes neither. *)
#[local] Program Instance pinned (x : xics) (u : bool) : Uart (H := xbus) (xdev D) std := {|
  uart_fresh b := uart_fresh (xd_dev b) /\ xd_xics b = x /\ uart_irq (xd_dev b) = u;
  uart_inv b := uart_inv (xd_dev b) /\ xd_xics b = x /\ uart_irq (xd_dev b) = u;
  sent b := sent (xd_dev b);
  pending b := pending (xd_dev b);
  tx_wait b := tx_wait (xd_dev b);
  rx_wait b := rx_wait (xd_dev b);
  max_wait := max_wait
|}.
Next Obligation. intros x u b [Hi _]. by apply wait_bound. Qed.
Next Obligation.
  intros x u b freq (Hf & Hx & Hu) Hq d'. unfold d'. rewrite setup_dev. destruct (setup_ok (xd_dev b) freq Hf Hq) as [Hi Hs].
  cbn. rewrite irq_setup by done. done.
Qed.
Next Obligation.
  intros x u b (Hi & Hx & Hu). destruct (status_ok (xd_dev b) Hi) as (v & d' & Hr & Hi' & Hrest).
  exists v, (Xdev d' (xd_xics b) (xd_cycle b)). split; [|split; [by rewrite <- Hu; cbn; rewrite (irq_status _ _ _ Hi Hr)|exact Hrest]].
  unfold status_addr in *. rewrite uart_read by (destruct std; done). by rewrite Hr.
Qed.
Next Obligation.
  intros x u b c (Hi & Hx & Hu) Hw Hc d'. unfold d', tx_addr. rewrite uart_write by (destruct std; done). cbn [xd_dev xd_xics].
  destruct (tx_ok (xd_dev b) c Hi Hw Hc) as (Hi' & Hrest). fold (tx_addr std). rewrite irq_tx by done. done.
Qed.
Next Obligation.
  intros x u b c l (Hi & Hx & Hu) Hw Hp. destruct (rx_ok (xd_dev b) c l Hi Hw Hp) as (v & d' & Hr & Hv & Hi' & Hrest).
  exists v, (Xdev d' (xd_xics b) (xd_cycle b)). split; [|split; [done|split; [by rewrite <- Hu; cbn; rewrite (irq_rx _ _ _ Hi Hr)|exact Hrest]]].
  unfold rx_addr in *. rewrite uart_read by (destruct std; done). by rewrite Hr.
Qed.

Context (cpus : nat -> cpu) (nias : nat -> Z) (sps : nat -> Z).
Context (poll : nat) (xlits : xlit -> Z) (file : list Z) (out0 : list Z).
Hypothesis lat_enough : (4 <= lat)%nat.
Hypothesis poll_enough : (max_wait < poll)%nat.
Hypothesis lines_four : forall t, 0 <= lines t < 16.

(** The memory the vector uses in the [k]-th interrupt. *)
Definition stack_at (k : nat) : Z := r 1 (cpus k) - isr_below.
Definition stack_size : Z := isr_below + isr_above.

Hypothesis cpus_ok : forall k, cpu_ok (cpus k) /\ in_u64 (nias k) /\ sps k = stack_at k.
Hypothesis lits_apart : forall k l,
  xlits l + length (xlit_text file l ++ [0]) <= stack_at k \/ stack_at k + stack_size <= xlits l.

(** The controller has the registers of the ideal machine. *)
Definition regs_of (x : xics) (a : xv) : Prop := x_cppr x = v_cppr a /\ x_mfrr x = v_mfrr a /\ xives x = v_pri a.

Definition in_range (a : xv) : Prop := 0 <= v_cppr a < 256 /\ 0 <= v_mfrr a < 256 /\ xives_ok (v_pri a).

Definition same_cpu (a a' : xv) : Prop :=
  v_msr a' = v_msr a /\ v_isrs a' = v_isrs a /\ v_running a' = v_running a /\ v_sched a' = v_sched a /\
  v_in_isr a' = v_in_isr a.

Record xfollows (a : xv) (s : xs D) : Prop := {
  xf_std : uart_is_std (x_fw s) = std;
  xf_base : uart_base (x_fw s) = UART_BASE;
  xf_inv : uart_inv (xd_dev (fdev (x_fw s)));
  xf_line : uart_irq (xd_dev (fdev (x_fw s))) = v_uart a;
  xf_regs : regs_of (xd_xics (fdev (x_fw s))) a;
  xf_range : in_range a;
  xf_mem : mem_ok (fmem (x_fw s));
  xf_lits : forall l, cstr (fmem (x_fw s)) (xlits l) (xlit_text file l);
  xf_out : sent (xd_dev (fdev (x_fw s))) = out0 ++ v_text a;
  xf_cpu : x_msr s = v_msr a /\ x_isrs_run s = v_isrs a /\ x_running s = v_running a /\ x_sched s = v_sched a;
  xf_stack : forall k, mapped (fmem (x_fw s)) (stack_at k) stack_size;
  xf_frame : v_in_isr a = true ->
    framed (fmem (x_fw s)) (cpus (x_taken s)) (nias (x_taken s)) (intr_srr1 msr_on)
}.

Definition with_xfw (f : fw (xdev D)) (s : xs D) : xs D :=
  Xs f (x_msr s) (x_isrs_run s) (x_running s) (x_sched s) (x_taken s).

Lemma on_xfw_ok {A} (c : M (fw (xdev D)) A) s x f : c (x_fw s) = Ok x f -> on_xfw c s = Ok x (with_xfw f s).
Proof. intros E. unfold on_xfw. by rewrite E. Qed.

(** Only devices have changed. *)
Lemma follows_dev a a' s b : xfollows a s -> uart_inv (xd_dev b) -> uart_irq (xd_dev b) = v_uart a' ->
  regs_of (xd_xics b) a' -> in_range a' -> sent (xd_dev b) = out0 ++ v_text a' -> same_cpu a a' ->
  xfollows a' (with_xfw (with_dev (x_fw s) b) s).
Proof.
  intros [? ? _ _ _ _ ? ? _ Hcpu Hstack Hframe] Hi Hl Hr Hg Ho (E1 & E2 & E3 & E4 & E5). split; try done; cbn.
  - by rewrite E1, E2, E3, E4.
  - by rewrite E5.
Qed.

(** *** The interrupt controller *)

(** The controller when time has passed: its registers are as they were; with a
    threshold of zero it interrupts nobody, and with the other devices masked
    it presents what the ideal machine says, whatever their lines did. *)
Record settled (a : xv) (x : xics) : Prop := {
  st_regs : regs_of x a;
  st_zero : v_cppr a = 0 -> core_irq x = false;
  st_quiet : quiet (v_pri a) = true ->
    core_irq x = ((v_source a).2 <? v_cppr a) /\ xisr (x_icp x) = (v_source a).1 /\
    icp_pending (v_mfrr a) (icp_out x).1 (icp_out x).2 = v_source a
}.

Lemma waited a s : xfollows a s -> exists x,
  wait_xics lat lines (fdev (x_fw s)) = Xdev (xd_dev (fdev (x_fw s))) x (xd_cycle (fdev (x_fw s)) + lat) /\ settled a x.
Proof.
  intros Hf. eexists. split; [reflexivity|]. destruct (xf_regs _ _ Hf) as (Ec & Em & Ex).
  pose proof (xf_range _ _ Hf) as (Hc & Hm & Hx).
  destruct (idle_levels_ok (level_in lines (xd_dev (fdev (x_fw s)))) lat (xd_cycle (fdev (x_fw s))) (xd_xics (fdev (x_fw s)))
    lat_enough) as (t0 & t1 & t2 & t3 & E). cbv zeta in E. rewrite E. clear E. rewrite Ec, Em, Ex.
  unfold level_in. rewrite (xf_line _ _ Hf).
  assert (Hq : forall t, quiet (v_pri a) = true -> pending_at (v_pri a) (v_mfrr a) (b2z (v_uart a) + 2 * lines t) = v_source a).
  { intros t Hq. apply pending_quiet; [done|lia|done|apply lines_four]. }
  split; [done|..].
  - intros E0. cbn [core_irq]. rewrite E0. apply Z.ltb_ge.
    apply (pending_range (v_pri a) (v_mfrr a) (b2z (v_uart a) + 2 * lines t0) Hx). lia.
  - intros Hqt. cbn [core_irq x_icp xisr icp_out].
    change (icp_pending _ _ _) with (pending_at (v_pri a) (v_mfrr a) (b2z (v_uart a) + 2 * lines t2)).
    by rewrite !Hq.
Qed.

Lemma accessed a s req off : xfollows a s -> exists x level t,
  xics_access lat lines req off (fdev (x_fw s)) =
    (lane off (xics_answer req x), Xdev (xd_dev (fdev (x_fw s))) (xics_cycle level req x) t) /\ settled a x.
Proof.
  intros Hf. destruct (waited a s Hf) as (x & E & Hs). unfold xics_access. rewrite E. cbn [xd_dev xd_xics xd_cycle].
  by do 3 eexists.
Qed.

Lemma follows_access a a' s x t : xfollows a s -> regs_of x a' -> in_range a' -> v_uart a' = v_uart a ->
  v_text a' = v_text a -> same_cpu a a' ->
  xfollows a' (with_xfw (with_dev (x_fw s) (Xdev (xd_dev (fdev (x_fw s))) x t)) s).
Proof.
  intros Hf Hr Hg Hu Ht Hc. eapply follows_dev; [exact Hf|apply Hf|rewrite Hu; apply Hf|done|done|rewrite Ht; apply Hf|done].
Qed.

Local Abbreviation idl := (xideal file).
Local Abbreviation prog := (xics_program (D := D) lat lines cpus nias sps poll xlits).
Local Abbreviation sim := (simulates xfollows).

Lemma sim_irq_line : sim (irq_line (Xmachine := idl)) (irq_line (Xmachine := prog)).
Proof.
  intros a s Hf x a' Ha. destruct (waited a s Hf) as (y & E & [Hr Hz Hq]).
  assert (Hx : x = core_irq y /\ a' = a).
  { cbn [irq_line xideal] in Ha. destruct (Z.eqb_spec (v_cppr a) 0) as [E0|_].
    - injection Ha as <- <-. by rewrite Hz.
    - destruct (quiet (v_pri a)); [|done]. injection Ha as <- <-. by destruct (Hq eq_refl) as [-> _]. }
  destruct Hx as [-> ->]. eexists. split.
  - apply on_xfw_ok. rewrite E. reflexivity.
  - apply (follows_access a); try done; apply Hf.
Qed.

Lemma icp_bus n off v b : 0 <= off < 0x1000 ->
  bus_read (Bus := xbus) n (XICS_ICP_BASE + off) b = xics_access lat lines (ToIcp (wb_of n off false 0)) off b /\
  bus_write (Bus := xbus) n (XICS_ICP_BASE + off) v b = (xics_access lat lines (ToIcp (wb_of n off true v)) off b).2.
Proof.
  intros Ho. assert (E : in_page XICS_ICP_BASE (XICS_ICP_BASE + off) = true) by (unfold in_page, XICS_ICP_BASE; lia).
  cbn -[XICS_ICP_BASE]. rewrite E. by replace (XICS_ICP_BASE + off - XICS_ICP_BASE) with off by lia.
Qed.

Lemma ics_bus n off v b : 0 <= off < 0x1000 ->
  bus_read (Bus := xbus) n (XICS_ICS_BASE + off) b = xics_access lat lines (ToIcs (wb_of n off false 0)) off b /\
  bus_write (Bus := xbus) n (XICS_ICS_BASE + off) v b = (xics_access lat lines (ToIcs (wb_of n off true v)) off b).2.
Proof.
  intros Ho. assert (E : in_page XICS_ICS_BASE (XICS_ICS_BASE + off) = true) by (unfold in_page, XICS_ICS_BASE; lia).
  assert (E' : in_page XICS_ICP_BASE (XICS_ICS_BASE + off) = false) by (unfold in_page, XICS_ICS_BASE, XICS_ICP_BASE; lia).
  cbn -[XICS_ICS_BASE XICS_ICP_BASE]. rewrite E, E'. by replace (XICS_ICS_BASE + off - XICS_ICS_BASE) with off by lia.
Qed.

(** A write to a register of the presenter. *)
Lemma icp_written level q x : wb_we q = true -> let x' := xics_cycle level (ToIcp q) x in
  x_cppr x' = cppr (icp_write q (x_icp x)) /\ x_mfrr x' = mfrr (icp_write q (x_icp x)) /\ xives x' = xives x.
Proof.
  intros Hw. unfold xics_cycle, x_cppr, x_mfrr, icp_comb. cbn [x_icp xives]. destruct (icp_pending _ _ _) as [s p].
  unfold icp_accepts. rewrite Hw. done.
Qed.

Lemma sim_icp_write8 off v : sim (icp_write8 (Xmachine := idl) off v) (icp_write8 (Xmachine := prog) off v).
Proof.
  intros a s Hf x a'. cbn [icp_write8 xideal xics_program]. destruct ((0 <=? v) && (v <? 256)) eqn:Hv; [|done]. cbn [negb].
  pose proof (xf_range _ _ Hf) as (Hc & Hm & Hx).
  destruct (accessed a s (ToIcp (wb_of 1 off true v)) off Hf) as (y & level & t & E & [(Rc & Rm & Rx) _ _]).
  assert (Ho : off = XICS_XIRR \/ off = XICS_MFRR -> on_xfw (hw_icp_write8 lat lines off v) s =
    Ok tt (with_xfw (with_dev (x_fw s) (Xdev (xd_dev (fdev (x_fw s))) (xics_cycle level (ToIcp (wb_of 1 off true v)) y) t)) s)).
  { intros Ho. apply on_xfw_ok. unfold hw_icp_write8, writeb, write_bus. do 2 f_equal.
    rewrite (proj2 (icp_bus 1 off _ _ ltac:(unfold XICS_XIRR, XICS_MFRR in Ho; lia))). change (2 ^ (8 * 1)) with 256.
    by rewrite Z.mod_small, E by lia. }
  destruct (Z.eqb_spec off XICS_XIRR) as [->|_]; [|destruct (Z.eqb_spec off XICS_MFRR) as [->|_]; [|done]]; intros [= <- <-];
    (eexists; split; [apply Ho; auto|]); apply (follows_access a); try done.
  - unfold regs_of. pose proof (icp_written level (wb_of 1 XICS_XIRR true v) y eq_refl) as (-> & -> & ->).
    split_and!; [|done|done].
    change (bit_range (bswap (Z.shiftl v 0)) 31 24 = v). rewrite bswap_high, Z.shiftl_0_r. apply Z.mod_small. lia.
  - split_and!; cbn; first [lia|apply Hx].
  - unfold regs_of. pose proof (icp_written level (wb_of 1 XICS_MFRR true v) y eq_refl) as (-> & -> & ->).
    split_and!; [done| |done].
    change (bit_range (bswap (Z.shiftl v 0)) 31 24 = v). rewrite bswap_high, Z.shiftl_0_r. apply Z.mod_small. lia.
  - split_and!; cbn; first [lia|apply Hx].
Qed.

Lemma u32_bswap v : u32 (bswap v) = bswap v.
Proof. apply Z.mod_small, bswap_range. Qed.

Lemma sim_icp_write32 off v : sim (icp_write32 (Xmachine := idl) off v) (icp_write32 (Xmachine := prog) off v).
Proof.
  intros a s Hf x a'. cbn [icp_write32 xideal xics_program].
  destruct ((off =? XICS_XIRR) && (0 <=? v) && (v <? 2 ^ 32)) eqn:Hv; [|done]. intros [= <- <-].
  assert (off = XICS_XIRR) as -> by lia. pose proof (xf_range _ _ Hf) as (Hc & Hm & Hx).
  set (q := wb_of 4 XICS_XIRR true (bswap32 v mod 2 ^ (8 * 4))).
  destruct (accessed a s (ToIcp q) XICS_XIRR Hf) as (y & level & t & E & [(Rc & Rm & Rx) _ _]). eexists. split.
  - apply on_xfw_ok. unfold hw_icp_write32, writel, write_bus. reflexivity.
  - rewrite (proj2 (icp_bus 4 XICS_XIRR _ _ ltac:(done))). fold q. rewrite E. apply (follows_access a); try done.
    + unfold regs_of. pose proof (icp_written level q y eq_refl) as (-> & -> & ->).
      split_and!; [|done|done]. change (bit_range (bswap (Z.shiftl (u32 (bswap32 v)) 0)) 31 24 = v / 2 ^ 24).
      rewrite Z.shiftl_0_r. unfold bswap32. rewrite u32_bswap. unfold u32. rewrite bswap_bswap by (apply Z.mod_pos_bound; lia).
      unfold bit_range. rewrite Z.shiftr_div_pow2 by lia. change (2 ^ (31 - 24 + 1)) with 256. Z.div_mod_to_equations. lia.
    + split_and!; cbn -[Z.div]; [Z.div_mod_to_equations; lia..|apply Hx].
Qed.

Lemma source_range a : in_range a -> 0 <= (v_source a).1 < 2 ^ 24 /\ 0 <= (v_source a).2 < 256.
Proof. intros (_ & Hm & Hx). apply pending_range; [done|lia]. Qed.

(** Reading the pending interrupt accepts it. *)
Lemma icp_accepted level q x : icp_accepts q = true -> let x' := xics_cycle level (ToIcp q) x in
  x_cppr x' = (icp_pending (x_mfrr x) (icp_out x).1 (icp_out x).2).2 /\ x_mfrr x' = x_mfrr x /\ xives x' = xives x.
Proof.
  intros Ha. unfold xics_cycle, x_cppr, x_mfrr, icp_comb. cbn [x_icp xives icp_out].
  destruct (icp_pending _ _ _) as [s p]. rewrite Ha. cbn. unfold icp_accepts in Ha. unfold icp_write.
  destruct (wb_we q); [done|]. done.
Qed.

Lemma sim_icp_read32 off : sim (icp_read32 (Xmachine := idl) off) (icp_read32 (Xmachine := prog) off).
Proof.
  intros a s Hf x a'. cbn [icp_read32 xideal xics_program]. destruct (Z.eqb_spec off XICS_XIRR) as [->|_]; [|done].
  cbn [andb]. destruct (quiet (v_pri a)) eqn:Hquiet; [|done]. intros [= <- <-].
  pose proof (xf_range _ _ Hf) as Hg. pose proof Hg as (Hc & Hm & Hx). destruct (source_range a Hg) as [Hs Hp].
  set (w := Z.shiftl (v_cppr a) 24 + (v_source a).1).
  assert (Hw : 0 <= w < 2 ^ 32) by (unfold w; rewrite Z.shiftl_mul_pow2 by lia; lia).
  destruct (accessed a s (ToIcp (wb_of 4 XICS_XIRR false 0)) XICS_XIRR Hf) as (y & level & t & E & [(Rc & Rm & Rx) _ Hq]).
  destruct (Hq Hquiet) as (_ & Ei & Ep). eexists. split.
  - apply on_xfw_ok. unfold hw_icp_read32, readl, read_bus, mbind, M_bind.
    rewrite (proj1 (icp_bus 4 XICS_XIRR 0 _ ltac:(done))), E.
    assert (Ew : xics_answer (ToIcp (wb_of 4 XICS_XIRR false 0)) y = bswap w).
    { change (bswap (Z.shiftl (x_cppr y) 24 + xisr (x_icp y)) = bswap w). by rewrite Rc, Ei. }
    rewrite Ew. change (lane _ _) with (Z.shiftr (bswap w) 0). rewrite Z.shiftr_0_r. change (?y mod 2 ^ (8 * 4)) with (u32 y).
    rewrite u32_bswap. unfold mret, M_ret, bswap32. rewrite u32_bswap, bswap_bswap by done. reflexivity.
  - apply (follows_access a); try done. unfold regs_of.
    pose proof (icp_accepted level (wb_of 4 XICS_XIRR false 0) y eq_refl) as (-> & -> & ->).
    by rewrite Rm, Ep.
Qed.

(** *** The source unit *)

Lemma xive_address i : 0 <= i < 512 -> XICS_ICS_BASE + 0x800 + Z.shiftl i 2 = XICS_ICS_BASE + (0x800 + 4 * i) /\ 0 <= 0x800 + 4 * i < 0x1000.
Proof. intros Hi. rewrite Z.shiftl_mul_pow2 by lia. lia. Qed.

Lemma xive_request n i we v : 0 <= i < 512 -> let q := wb_of n (0x800 + 4 * i) we v in
  reg_is_xive q = true /\ reg_idx q = Z.to_nat (i mod 16) /\ wb_sel q = Z.ones n /\ wb_dat q = v.
Proof.
  intros Hi. unfold reg_is_xive, reg_idx, wb_of. cbn [wb_adr wb_sel wb_dat].
  replace ((0x800 + 4 * i) / 4) with (0x200 + i) by (Z.div_mod_to_equations; lia).
  replace ((0x800 + 4 * i) mod 4) with 0 by (Z.div_mod_to_equations; lia).
  rewrite !Z.shiftl_0_r. split_and!; [|f_equal|done|done].
  - rewrite Z.testbit_true by lia. Z.div_mod_to_equations. lia.
  - unfold bit_range. rewrite Z.shiftr_0_r. change (2 ^ (3 - 0 + 1)) with 16. Z.div_mod_to_equations. lia.
Qed.

Lemma ics_written level q x : let x' := xics_cycle level (ToIcs q) x in
  x_cppr x' = x_cppr x /\ x_mfrr x' = x_mfrr x /\ xives x' = ics_write q (xives x).
Proof. unfold xics_cycle, x_cppr, x_mfrr. cbn [x_icp xives]. by rewrite icp_comb_idle. Qed.

Lemma prio_pack_range v : 0 <= v -> 0 <= prio_pack v <= pri_masked.
Proof.
  intros Hv. unfold prio_pack, pri_masked. destruct (7 <=? v); [lia|]. unfold bit_range. change (2 ^ (2 - 0 + 1)) with 8.
  pose proof (Z.mod_pos_bound (Z.shiftr v 0) 8). lia.
Qed.

Lemma sim_ics_write v i : sim (ics_write_xive (Xmachine := idl) v i) (ics_write_xive (Xmachine := prog) v i).
Proof.
  intros a s Hf x a'. cbn [ics_write_xive xideal xics_program].
  destruct ((0 <=? v) && (v <? 256) && (0 <=? i) && (i <? 512)) eqn:Hv; [|done]. intros [= <- <-].
  pose proof (xf_range _ _ Hf) as (Hc & Hm & Hx). destruct (xive_address i ltac:(lia)) as [Ea Hoff].
  set (q := wb_of 4 (0x800 + 4 * i) true (bswap32 v mod 2 ^ (8 * 4))).
  destruct (accessed a s (ToIcs q) (0x800 + 4 * i) Hf) as (y & level & t & E & [(Rc & Rm & Rx) _ _]). eexists. split.
  - apply on_xfw_ok. unfold hw_ics_write_xive, writel, write_bus. rewrite Ea. reflexivity.
  - rewrite (proj2 (ics_bus 4 _ _ _ Hoff)). fold q. rewrite E.
    destruct (xive_request 4 i true (bswap32 v mod 2 ^ (8 * 4)) ltac:(lia)) as (E1 & E2 & E3 & E4). fold q in E1, E2, E3, E4.
    apply (follows_access a); try done.
    + unfold regs_of. pose proof (ics_written level q y) as (-> & -> & ->). rewrite Rc, Rm, Rx.
      split_and!; [done|done|]. unfold ics_write. rewrite E1, E2, E3, E4. cbn [q wb_of wb_we andb].
      change (Z.testbit (Z.ones 4) 3) with true. cbv iota. change (?y mod 2 ^ (8 * 4)) with (u32 y). unfold bswap32.
      rewrite u32_bswap, bswap_low. unfold u32. rewrite (Z.mod_small v) by lia. rewrite bswap_eq. cbn. do 2 f_equal.
      Z.div_mod_to_equations. lia.
    + split_and!; [apply Hc|apply Hc|apply Hm|apply Hm|]. destruct Hx as [Hlen Hall]. split; cbn; [by rewrite length_insert|].
      apply Forall_insert; [done|apply prio_pack_range; lia].
Qed.

(** The value read of a source may show any line of another device, and the
    program goes on in the same way whatever it is. *)
Lemma sim_ics_read {B} i (ka : M xv B) (ks : M (xs D) B) : sim ka ks ->
  sim (_ ← ics_read_xive (Xmachine := idl) i; ka) (_ ← ics_read_xive (Xmachine := prog) i; ks).
Proof.
  intros Hk a s Hf x a' Hrun. cbn [ics_read_xive xideal xics_program] in *.
  destruct ((0 <=? i) && (i <? 16)) eqn:Hi; [|done].
  assert (Ha : ka a = Ok x a') by exact Hrun. clear Hrun.
  destruct (xive_address i ltac:(lia)) as [Ea Hoff].
  destruct (accessed a s (ToIcs (wb_of 4 (0x800 + 4 * i) false 0)) (0x800 + 4 * i) Hf) as (y & level & t & E & [Hr _ _]).
  set (s1 := with_xfw (with_dev (x_fw s) (Xdev (xd_dev (fdev (x_fw s)))
    (xics_cycle level (ToIcs (wb_of 4 (0x800 + 4 * i) false 0)) y) t)) s).
  assert (F1 : xfollows a s1).
  { apply (follows_access a); try done; [|apply Hf]. unfold regs_of.
    pose proof (ics_written level (wb_of 4 (0x800 + 4 * i) false 0) y) as (-> & -> & ->). exact Hr. }
  destruct (Hk a s1 F1 x a' Ha) as (s2 & E2 & F2). exists s2. split; [|done].
  rewrite (bind_ok _ _ _ (bswap32 (lane (0x800 + 4 * i) (xics_answer (ToIcs (wb_of 4 (0x800 + 4 * i) false 0)) y) mod 2 ^ (8 * 4))) s1).
  - exact E2.
  - apply on_xfw_ok. unfold hw_ics_read_xive, readl, read_bus, mbind, M_bind. by rewrite Ea, (proj1 (ics_bus 4 _ 0 _ Hoff)), E.
Qed.

(** *** The console *)

Lemma sim_set_irq_en rx tx :
  simulates xfollows (set_irq_en (Xmachine := xideal file) rx tx) (set_irq_en (Xmachine := xics_program lat lines cpus nias sps poll xlits) rx tx).
Proof.
  intros a s Hf x a'. cbn [set_irq_en xideal xics_program]. destruct (Bool.eqb_spec rx tx) as [->|]; [|done]. intros [= <- <-].
  destruct (irq_enable (xd_dev (fdev (x_fw s))) tx (xf_inv _ _ Hf)) as (Hi & Hs & Hl).
  assert (E : console_set_irq_en (H := xbus) tx tx (x_fw s) = Ok tt (with_dev (x_fw s)
    (Xdev (bus_write (io_width std) (irq_addr std) (irq_value tx) (xd_dev (fdev (x_fw s)))) (xd_xics (fdev (x_fw s))) (xd_cycle (fdev (x_fw s)))))).
  { unfold irq_addr. rewrite <- uart_write by exact (irq_offset std).
    exact (set_irq_run (H := xbus) std tx (x_fw s) (xf_std _ _ Hf) (xf_base _ _ Hf)). }
  eexists. split; [by apply on_xfw_ok|]. apply (follows_dev a); try done; [apply Hf|apply Hf|].
  cbn [xd_dev v_text]. rewrite Hs. apply Hf.
Qed.

Lemma console_follows a s : xfollows a s ->
  console_ok (H := xbus) (U := pinned (xd_xics (fdev (x_fw s))) (v_uart a)) (x_fw s).
Proof. intros [? ? ? ? ? ? ? ? ? ? ? ?]. by split. Qed.

Lemma follows_says a s f t : xfollows a s ->
  emits (H := xbus) (U := pinned (xd_xics (fdev (x_fw s))) (v_uart a)) (x_fw s) t f -> xfollows (v_say t a) (with_xfw f s).
Proof.
  intros Hf (b & -> & (Hi & Hx & Hu) & Hs & _). apply (follows_dev a); try done; [by rewrite Hx; apply Hf|apply Hf|].
  cbn in Hs |- *. by rewrite Hs, (xf_out _ _ Hf), app_assoc.
Qed.

Lemma sim_x_putchar c :
  simulates xfollows (x_putchar (Xmachine := xideal file) c) (x_putchar (Xmachine := xics_program lat lines cpus nias sps poll xlits) c).
Proof.
  intros a s Hf x a' [= <- <-].
  destruct (putchar_ok (H := xbus) (U := pinned (xd_xics (fdev (x_fw s))) (v_uart a)) poll poll_enough c (x_fw s) (console_follows a s Hf)) as (f & E & He).
  exists (with_xfw f s). split; [|by apply follows_says]. cbn [x_putchar xics_program]. by erewrite bind_ok by (by apply on_xfw_ok).
Qed.

Lemma sim_x_puts l :
  simulates xfollows (x_puts (Xmachine := xideal file) l) (x_puts (Xmachine := xics_program lat lines cpus nias sps poll xlits) l).
Proof.
  intros a s Hf x a' [= <- <-].
  destruct (puts_ok (H := xbus) (U := pinned (xd_xics (fdev (x_fw s))) (v_uart a)) poll poll_enough _ (x_fw s) (xlits l)
    (console_follows a s Hf) (xf_mem _ _ Hf) (xf_lits _ _ Hf l)) as (f & E & He).
  exists (with_xfw f s). split; [|by apply follows_says]. cbn [x_puts xics_program]. by erewrite bind_ok by (by apply on_xfw_ok).
Qed.

(** *** The processor *)

(** What only reads or changes the processor and the globals. *)
Lemma sim_cpu {A} (ca : M xv A) (cs : M (xs D) A) :
  (forall a s, xfollows a s -> exists x a' s', ca a = Ok x a' /\ cs s = Ok x s' /\ xfollows a' s') -> sim ca cs.
Proof. intros Hc a s Hf x a' E. destruct (Hc a s Hf) as (x1 & a1 & s1 & E1 & E2 & F). rewrite E in E1. injection E1 as -> ->. by exists s1. Qed.

Ltac cpu_step := apply sim_cpu; intros [] [] [? ? ? ? ? ? ? ? ? (E1 & E2 & E3 & E4) ? ?]; cbn in E1, E2, E3, E4; subst;
  do 3 eexists; split; [reflexivity|]; split; [reflexivity|by split].

Lemma sim_get_msr : sim (get_msr (Xmachine := idl)) (get_msr (Xmachine := prog)).
Proof. cpu_step. Qed.
Lemma sim_set_msr v : sim (set_msr (Xmachine := idl) v) (set_msr (Xmachine := prog) v).
Proof.
  intros a s Hf x a'. cbn [set_msr xideal xics_program]. destruct ((v =? msr_off) || (v =? msr_on)); [|done]. intros [= <- <-].
  eexists. split; [reflexivity|]. destruct Hf as [? ? ? ? ? ? ? ? ? (_ & ? & ? & ?) ? ?]. by split.
Qed.

(** The frame is made where nothing else is. *)
Lemma sim_isr_enter : sim (isr_enter (Xmachine := idl)) (isr_enter (Xmachine := prog)).
Proof.
  intros a s Hf x a'. cbn [isr_enter xideal xics_program]. destruct (Z.eqb_spec (v_msr a) msr_on) as [Em|]; [|done].
  destruct (v_in_isr a) eqn:Ei; [done|]. cbn [andb negb]. intros [= <- <-].
  destruct Hf as [Hstd Hbase Hinv Hline Hregs Hrange Hmem Hlits Hout (Hmsr & H2 & H3 & H4) Hstack _].
  set (k := x_taken s). destruct (isr_save_ok (fmem (x_fw s)) (cpus k) (nias k) (intr_srr1 (x_msr s)) (Hstack k))
    as (m' & E & Hdom & Hout' & Hok & Hframe).
  eexists. split.
  - unfold hw_isr_enter. fold k. rewrite (bind_ok _ _ _ (r 1 (cpus k) - isr_below) (with_xfw (with_mem (x_fw s) m') s)).
    + reflexivity.
    + apply on_xfw_ok. unfold on_mem. by rewrite E.
  - rewrite Hmsr, Em in *. split; try done; cbn.
    + by apply Hok.
    + intros l. destruct (Hlits l) as [Hb Hn]. split; [|done]. eapply bytes_at_same_outside; [exact Hout'| |exact Hb].
      apply lits_apart.
    + intros j. eapply mapped_same_dom; [exact Hdom|apply Hstack].
Qed.

(** The registers come back, and with them the MSR. *)
Lemma sim_isr_leave : sim (isr_leave (Xmachine := idl)) (isr_leave (Xmachine := prog)).
Proof.
  intros a s Hf x a'. cbn [isr_leave xideal xics_program]. destruct (Z.eqb_spec (v_msr a) (intr_msr msr_on)) as [Em|]; [|done].
  destruct (v_in_isr a) eqn:Ei; [|done]. cbn [andb]. intros [= <- <-].
  destruct Hf as [Hstd Hbase Hinv Hline Hregs Hrange Hmem Hlits Hout (Hmsr & H2 & H3 & H4) Hstack Hframe].
  specialize (Hframe Ei). set (k := x_taken s) in *. destruct (cpus_ok k) as (Hc & Hn & Hsp).
  pose proof (isr_restore_ok _ _ _ _ Hc Hframe Hn ltac:(by unfold in_u64; vm_compute)) as E.
  eexists. split.
  - unfold hw_isr_leave. fold k. rewrite (bind_ok _ _ _ (cpus k, nias k, intr_srr1 msr_on) (with_xfw (x_fw s) s)).
    + rewrite bool_decide_true, Z.eqb_refl by done. reflexivity.
    + apply on_xfw_ok. unfold on_mem. rewrite Hsp. unfold stack_at. rewrite E. by destruct (x_fw s).
  - split; try done. cbn. rewrite Hmsr, Em. split_and!; try done.
Qed.
Lemma sim_irq_now : sim (irq_now (Xmachine := idl)) (irq_now (Xmachine := prog)).
Proof. cpu_step. Qed.
Lemma sim_get_isrs_run : sim (get_isrs_run (Xmachine := idl)) (get_isrs_run (Xmachine := prog)).
Proof. cpu_step. Qed.
Lemma sim_set_isrs_run v : sim (set_isrs_run (Xmachine := idl) v) (set_isrs_run (Xmachine := prog) v).
Proof. cpu_step. Qed.
Lemma sim_get_running : sim (get_ipi_running (Xmachine := idl)) (get_ipi_running (Xmachine := prog)).
Proof. cpu_step. Qed.
Lemma sim_set_running b : sim (set_ipi_running (Xmachine := idl) b) (set_ipi_running (Xmachine := prog) b).
Proof. cpu_step. Qed.

(** *** The program *)

Ltac xsim_step :=
  first [sim_core | lazymatch goal with
  | |- sim (icp_write8 _ _) _ => apply sim_icp_write8
  | |- sim (icp_read32 _) _ => apply sim_icp_read32
  | |- sim (icp_write32 _ _) _ => apply sim_icp_write32
  | |- sim (ics_write_xive _ _) _ => apply sim_ics_write
  | |- sim (set_irq_en _ _) _ => apply sim_set_irq_en
  | |- sim (x_putchar _) _ => apply sim_x_putchar
  | |- sim (x_puts _) _ => apply sim_x_puts
  | |- sim get_msr _ => apply sim_get_msr
  | |- sim (set_msr _) _ => apply sim_set_msr
  | |- sim isr_enter _ => apply sim_isr_enter
  | |- sim isr_leave _ => apply sim_isr_leave
  | |- sim irq_line _ => apply sim_irq_line
  | |- sim irq_now _ => apply sim_irq_now
  | |- sim get_isrs_run _ => apply sim_get_isrs_run
  | |- sim (set_isrs_run _) _ => apply sim_set_isrs_run
  | |- sim get_ipi_running _ => apply sim_get_running
  | |- sim (set_ipi_running _) _ => apply sim_set_running
  | |- sim (match ?x with _ => _ end) _ => destruct x
  end].
Ltac xsim := repeat xsim_step.

Lemma sim_print_number i : sim (print_number (H := idl) i) (print_number (H := prog) i).
Proof. unfold print_number. xsim. unfold print_number_step. xsim. Qed.

Lemma sim_assert c l f : sim (xassert (H := idl) c l f) (xassert (H := prog) c l f).
Proof. unfold xassert. xsim; apply sim_print_number. Qed.

Lemma sim_isr : sim (isr (H := idl)) (isr (H := prog)).
Proof.
  unfold isr, isr_table, isr_search, ipi_isr, uart_isr, spurious_isr, or_isrs_run. xsim; apply sim_assert.
Qed.

Lemma sim_interrupt : sim (interrupt (H := idl)) (interrupt (H := prog)).
Proof. unfold interrupt. xsim. apply sim_isr. Qed.

Lemma sim_point : sim (irq_point (H := idl)) (irq_point (H := prog)).
Proof. unfold irq_point, irq_pending. xsim. apply sim_interrupt. Qed.

Lemma sim_then_point {A} (ca : M xv A) cs : sim ca cs -> sim (then_point (H := idl) ca) (then_point (H := prog) cs).
Proof. intros Hc. unfold then_point. xsim; [exact Hc|apply sim_point]. Qed.

(** The same for a read of a source, whose value is not used. *)
Lemma then_point_unused {X A B} `{Xmachine X} (c : M X A) (k : M X B) s :
  (_ ← then_point c; k) s = (_ ← c; _ ← irq_point; k) s.
Proof.
  unfold then_point, mbind, M_bind. destruct (c s) as [x s1|e s1]; [|done]. by destruct (irq_point s1).
Qed.

Lemma sim_then_read {B} i (ka : M xv B) (ks : M (xs D) B) : sim ka ks ->
  sim (_ ← then_point (H := idl) (ics_read_xive (Xmachine := idl) i); ka)
      (_ ← then_point (H := prog) (ics_read_xive (Xmachine := prog) i); ks).
Proof.
  intros Hk. assert (Hr : sim (_ ← ics_read_xive (Xmachine := idl) i; _ ← irq_point (H := idl); ka)
    (_ ← ics_read_xive (Xmachine := prog) i; _ ← irq_point (H := prog); ks)).
  { apply sim_ics_read, sim_bind; [apply sim_point|done]. }
  intros a s Hf x a' E. rewrite then_point_unused in E. rewrite then_point_unused. by apply (Hr a s Hf).
Qed.

Lemma sim_delay : sim (delay (H := idl)) (delay (H := prog)).
Proof. unfold delay. xsim. unfold delay_step, irq_pending. xsim. apply sim_interrupt. Qed.

Ltac xtest := cbv zeta; unfold assert_isrs, mtmsrd;
  repeat first [apply sim_then_read|xsim_step|apply sim_then_point|apply sim_delay|apply sim_assert].

Lemma sim_xics_tests : Forall2 sim (xics_tests (H := idl)) (xics_tests (H := prog)).
Proof.
  unfold xics_tests. repeat (apply List.Forall2_cons); [..|apply List.Forall2_nil].
  - unfold xics_test_0. xtest.
  - unfold xics_test_1. xtest.
  - unfold xics_test_2. xtest.
  - unfold xics_test_3. xtest.
Qed.

Lemma sim_run_tests ta ts : Forall2 sim ta ts -> forall i fail,
  sim (run_xics_tests (H := idl) i fail ta) (run_xics_tests (H := prog) i fail ts).
Proof.
  induction 1 as [|ca cs ta ts Hc _ IH]; intros i fail; cbn [run_xics_tests]; [apply sim_ret|]. unfold run_xics_test.
  repeat first [exact Hc|apply IH|progress xsim|apply sim_then_point|apply sim_print_number].
Qed.

Lemma sim_xics_run : sim (xics_run (H := idl)) (xics_run (H := prog)).
Proof. unfold xics_run. xsim. apply sim_run_tests, sim_xics_tests. Qed.
End simulation.
