(* ===== verification/XicsCorrect.v ===== *)
(** * The theorems about the interrupt controller and its test

    The controller presents the most favoured interrupt; the test program, from
    its entry, passes wherever its interrupts are taken.  Then the settings the
    theorems are applied to, and what the test does not test. *)

From S2P Require Import Prelude CMem Console Hello Xics XicsIsr XicsTest XicsIdeal XicsRun.

(** ** The theorems *)

(** C32: the interrupt controller presents the most favoured interrupt: when the
    lines have been steady for four cycles without an access, the registers are
    as they were, the source that can be read is the one with the lowest
    priority value among the lines that are up and not masked and the
    processor's own, the lowest number among equals, and the processor is
    interrupted exactly if that value is below its threshold. *)
Theorem xics_presents n level x : (4 <= n)%nat -> xives_ok (xives x) -> 0 <= x_mfrr x <= 0xff ->
  let x' := idle n level x in
  x_cppr x' = x_cppr x /\ x_mfrr x' = x_mfrr x /\ xives x' = xives x /\
  exists p, presented (xives x) level (x_mfrr x) (xisr (x_icp x')) p /\ core_irq x' = (p <? x_cppr x).
Proof.
  intros Hn Hx Hm. cbv zeta. rewrite idle_rest by done. split_and!; [done|done|done|].
  pose proof (icp_pending_ok (xives x) level (x_mfrr x) Hx Hm) as Hp. cbv zeta in Hp.
  unfold rest. cbn [x_icp xisr core_irq]. destruct (icp_pending _ _ _) as [s p]. by exists p.
Qed.

#[local] Instance xdev_syscon {D} `{Bus D} `{!IrqLine D} lat lines regs `{!Syscon D regs} : Syscon (H := xdev_bus lat lines) (xdev D) regs.
Proof.
  split. intros off [d x t] Ho Hc. cbn -[SYSCON_BASE].
  assert (E : in_page XICS_ICP_BASE (SYSCON_BASE + off) = false /\ in_page XICS_ICS_BASE (SYSCON_BASE + off) = false)
    by (unfold in_page, XICS_ICP_BASE, XICS_ICS_BASE, SYSCON_BASE; lia).
  destruct E as [-> ->]. by rewrite syscon_read.
Qed.




(** ** Boards *)

#[export] Instance line_potato : IrqLine (board potato_port) := { uart_irq b := Z.testbit (irq_en (b_port b)) 1 }.
#[export] Instance line_16550 : IrqLine (board port16550) := { uart_irq b := Z.testbit (ier (b_port b)) 1 }.

#[export] Instance line_potato_ok regs : IrqLineOk (board potato_port) (uart_potato regs).
Proof.
  split.
  - by intros [[]] freq.
  - by intros [[]] v d' _ [= <- <-].
  - by intros [[]] c.
  - by intros [[]] v d' _ [= <- <-].
  - intros [[]] en Hi. by destruct en.
Qed.

#[export] Instance line_16550_ok regs : IrqLineOk (board port16550) (uart16550 regs).
Proof.
  split.
  - by intros [[]] freq.
  - by intros [[]] v d' _ [= <- <-].
  - intros [[l a b i m f o w q r]] c (Hl & _). cbn in Hl |- *. unfold write16550. cbn. by rewrite Hl.
  - intros [[l a b i m f o w q r]] v d' (Hl & _). cbn in Hl |- *. unfold read16550. cbn. rewrite Hl. cbn. by intros [= <- <-].
  - intros [[l a b i m f o w q r]] en (Hl & Hrest). cbn in Hl, Hrest |- *. unfold write16550, ready16550. cbn. rewrite Hl.
    cbn. split_and!; try done; try apply Hrest. by destruct en.
Qed.

Definition xlit_addr (l : xlit) : Z :=
  match l with
  | L_TEST => 0x3000 | L_PASS => 0x3020 | L_FAIL => 0x3040 | L_ASSERT_FAIL => 0x3060 | L_FILE => 0x3080
  | L_FUNC F_isr => 0x30a0 | L_FUNC F_test_0 => 0x30c0 | L_FUNC F_test_1 => 0x30e0
  | L_FUNC F_test_2 => 0x3100 | L_FUNC F_test_3 => 0x3120
  end.
Definition all_xlits : list xlit :=
  [L_TEST; L_PASS; L_FAIL; L_ASSERT_FAIL; L_FILE; L_FUNC F_isr; L_FUNC F_test_0; L_FUNC F_test_1; L_FUNC F_test_2; L_FUNC F_test_3].
Definition xics_memory : mem :=
  write_bytes 0x3800 (replicate 0xa00 0)
    (foldr (fun l => write_bytes (xlit_addr l) (xlit_text (codes "xics.c") l ++ [0])) ∅ all_xlits).

(** A board with a 16550, and where the pending interrupts are taken. *)
Definition xics_board (sched : list bool) : xs (board port16550) :=
  Xs (Fw xics_memory (Xdev (new16550 []) xics_reset 0) false 0) msr_on 0 false sched 0.

(** The program interrupted with a stack pointer of 0x3c00. *)
Definition some_cpus (k : nat) : cpu := Cpu (3 :: 0x3c00 :: replicate 30 (k mod 256)) 0x1234 7 0x20000000.
Definition some_nias (k : nat) : Z := 0x1000 + 4 * (k mod 256).
Definition some_sps (k : nat) : Z := 0x3c00 - isr_below.



(** Source 0 at priority 6 and source 2 at 3, both up, and the processor's own
    at 4. *)
Definition busy_xics : xics :=
  Xics (Icp 0 5 4 false) false (<[2%nat := 3]> (<[0%nat := 6]> (replicate 16 7))) 0 (0, 0xff).

Lemma xics_presents_witness : let x' := idle 4 5 busy_xics in
  x_cppr x' = 5 /\ x_mfrr x' = 4 /\ xives x' = xives busy_xics /\
  exists p, presented (xives busy_xics) 5 4 (xisr (x_icp x')) p /\ core_irq x' = (p <? 5).
Proof.
  apply (xics_presents 4 5 busy_xics); [lia| |cbn; lia]. split; [done|]. repeat constructor; done.
Defined.

(** ** What the tests do not test *)

(** The assertions of the first test are assignments.  With comparisons it would
    not pass: there are three bits of priority, and 0xa reads back as masked. *)
Lemma xive_reads_masked file s : length (v_pri s) = 16%nat -> exists s',
  (_ ← ics_write_xive (Xmachine := xideal file) 0xa 0; ics_read_xive (Xmachine := xideal file) 0) s =
  Ok (bool_word (b2z (v_uart s)) 0 + 0xff) s'.
Proof.
  intros Hs. destruct s as [c m [|p l] u msr isr isrs r sch t]; [done|]. eexists. reflexivity.
Qed.

(** The second test ends with the arguments of [ics_write_xive] exchanged: it
    gives source 15 the most favoured priority and leaves source 0 unmasked,
    which the third test depends on.  With line 15 up, its interrupt, of which
    the handler knows nothing, stops the third test. *)
Lemma xics_source_15 : exists s',
  xics_main (H := board_bus regs16550 port16550) 4 (fun _ => 2 ^ 14) some_cpus some_nias some_sps 5 xlit_addr (xics_board []) =
  Err (Exit 0) s'.
Proof.
  assert (E : match xics_main (H := board_bus regs16550 port16550) 4 (fun _ => 2 ^ 14) some_cpus some_nias some_sps 5
    xlit_addr (xics_board []) with Err (Exit 0) _ => true | _ => false end = true) by (vm_compute; reflexivity).
  destruct (xics_main _ _ _ _ _ _ _ _) as [r s'|e s']; [done|]. exists s'.
  destruct e as [| |c|]; try done. by destruct c.
Qed.
