(* ===== verification/Elf.v ===== *)
(** * ELF structures: litedram/gen-src/sdram_init/include/elf64.h

    The structures as lists of fields, and the layout a C compiler gives them
    on the ppc64 little-endian target: fields in order, each at a multiple of
    its alignment, the whole padded to the largest one.  The offsets the boot
    loader reads at are computed from them. *)

From S2P Require Import Prelude CMem.

(** ** Types and structures *)

(** The unions of the header have two members. *)
Inductive ctype :=
  | UInt (w : Z)
  | SInt (w : Z)
  | CArray (n : Z) (t : ctype)
  | CUnion (n1 : string) (t1 : ctype) (n2 : string) (t2 : ctype).

Abbreviation struct := (list (string * ctype)).

Fixpoint sizeof (t : ctype) : Z :=
  match t with
  | UInt w | SInt w => w
  | CArray n t => n * sizeof t
  | CUnion _ t1 _ t2 => Z.max (sizeof t1) (sizeof t2)
  end.

Fixpoint alignof (t : ctype) : Z :=
  match t with
  | UInt w | SInt w => w
  | CArray _ t => alignof t
  | CUnion _ t1 _ t2 => Z.max (alignof t1) (alignof t2)
  end.

Definition align_up (a off : Z) : Z := (off + a - 1) / a * a.

(** The offset and the type of a field of the fields from [off] on. *)
Fixpoint field_from (off : Z) (fs : struct) (name : string) : option (Z * ctype) :=
  match fs with
  | [] => None
  | (n, t) :: fs =>
      let o := align_up (alignof t) off in
      if String.eqb n name then Some (o, t) else field_from (o + sizeof t) fs name
  end.

Fixpoint end_from (off : Z) (fs : struct) : Z :=
  match fs with
  | [] => off
  | (_, t) :: fs => end_from (align_up (alignof t) off + sizeof t) fs
  end.

Definition offsetof (fs : struct) (name : string) : Z := default 0 (fst <$> field_from 0 fs name).
Definition sizeof_struct (fs : struct) : Z :=
  align_up (foldr (fun p m => Z.max (alignof (snd p)) m) 1 fs) (end_from 0 fs).

(** ** The structures of elf64.h *)

Definition Elf64_Addr : ctype := UInt 8.
Definition Elf64_Half : ctype := UInt 2.
Definition Elf64_Off : ctype := UInt 8.
Definition Elf64_Sword : ctype := SInt 4.
Definition Elf64_Sxword : ctype := SInt 8.
Definition Elf64_Word : ctype := UInt 4.
Definition Elf64_Lword : ctype := UInt 8.
Definition Elf64_Xword : ctype := UInt 8.
Definition Elf64_Hashelt : ctype := Elf64_Word.
Definition Elf64_Size : ctype := Elf64_Xword.
Definition Elf64_Ssize : ctype := Elf64_Sxword.

Definition EI_NIDENT : Z := 16.

Definition Elf64_Ehdr : struct :=
  [("e_ident", CArray EI_NIDENT (UInt 1)); ("e_type", Elf64_Half); ("e_machine", Elf64_Half);
   ("e_version", Elf64_Word); ("e_entry", Elf64_Addr); ("e_phoff", Elf64_Off); ("e_shoff", Elf64_Off);
   ("e_flags", Elf64_Word); ("e_ehsize", Elf64_Half); ("e_phentsize", Elf64_Half); ("e_phnum", Elf64_Half);
   ("e_shentsize", Elf64_Half); ("e_shnum", Elf64_Half); ("e_shstrndx", Elf64_Half)].

Definition Elf64_Shdr : struct :=
  [("sh_name", Elf64_Word); ("sh_type", Elf64_Word); ("sh_flags", Elf64_Xword); ("sh_addr", Elf64_Addr);
   ("sh_offset", Elf64_Off); ("sh_size", Elf64_Xword); ("sh_link", Elf64_Word); ("sh_info", Elf64_Word);
   ("sh_addralign", Elf64_Xword); ("sh_entsize", Elf64_Xword)].

Definition Elf64_Phdr : struct :=
  [("p_type", Elf64_Word); ("p_flags", Elf64_Word); ("p_offset", Elf64_Off); ("p_vaddr", Elf64_Addr);
   ("p_paddr", Elf64_Addr); ("p_filesz", Elf64_Xword); ("p_memsz", Elf64_Xword); ("p_align", Elf64_Xword)].

Definition Elf64_Dyn : struct :=
  [("d_tag", Elf64_Sxword); ("d_un", CUnion "d_val" Elf64_Xword "d_ptr" Elf64_Addr)].

Definition Elf64_Rel : struct := [("r_offset", Elf64_Addr); ("r_info", Elf64_Xword)].

Definition Elf64_Rela : struct :=
  [("r_offset", Elf64_Addr); ("r_info", Elf64_Xword); ("r_addend", Elf64_Sxword)].

Definition Elf_Note : struct := [("n_namesz", UInt 4); ("n_descsz", UInt 4); ("n_type", UInt 4)].
Definition Elf64_Nhdr : struct := Elf_Note.

Definition Elf_GNU_Hash_Header : struct :=
  [("gh_nbuckets", UInt 4); ("gh_symndx", UInt 4); ("gh_maskwords", UInt 4); ("gh_shift2", UInt 4)].

Definition Elf64_Move : struct :=
  [("m_value", Elf64_Lword); ("m_info", Elf64_Xword); ("m_poffset", Elf64_Xword);
   ("m_repeat", Elf64_Half); ("m_stride", Elf64_Half)].

Definition Elf64_Cap : struct :=
  [("c_tag", Elf64_Xword); ("c_un", CUnion "c_val" Elf64_Xword "c_ptr" Elf64_Addr)].

Definition Elf64_Sym : struct :=
  [("st_name", Elf64_Word); ("st_info", UInt 1); ("st_other", UInt 1); ("st_shndx", Elf64_Half);
   ("st_value", Elf64_Addr); ("st_size", Elf64_Xword)].

Definition Elf64_Verdef : struct :=
  [("vd_version", Elf64_Half); ("vd_flags", Elf64_Half); ("vd_ndx", Elf64_Half); ("vd_cnt", Elf64_Half);
   ("vd_hash", Elf64_Word); ("vd_aux", Elf64_Word); ("vd_next", Elf64_Word)].

Definition Elf64_Verdaux : struct := [("vda_name", Elf64_Word); ("vda_next", Elf64_Word)].

Definition Elf64_Verneed : struct :=
  [("vn_version", Elf64_Half); ("vn_cnt", Elf64_Half); ("vn_file", Elf64_Word); ("vn_aux", Elf64_Word);
   ("vn_next", Elf64_Word)].

Definition Elf64_Vernaux : struct :=
  [("vna_hash", Elf64_Word); ("vna_flags", Elf64_Half); ("vna_other", Elf64_Half); ("vna_name", Elf64_Word);
   ("vna_next", Elf64_Word)].

Definition Elf64_Versym : ctype := Elf64_Half.

Definition Elf64_Syminfo : struct := [("si_boundto", Elf64_Half); ("si_flags", Elf64_Half)].

(** ** Packed fields *)

(** An argument is a 64-bit unsigned number, but for [st_info] and [st_other],
    which are bytes. *)
Definition ELF64_R_SYM (info : Z) : Z := Z.shiftr info 32.
Definition ELF64_R_TYPE (info : Z) : Z := Z.land info 0xffffffff.
Definition ELF64_R_INFO (sym type : Z) : Z := u64 (u64 (Z.shiftl sym 32) + Z.land type 0xffffffff).
Definition ELF64_R_TYPE_DATA (info : Z) : Z := Z.shiftr (u64 (Z.shiftl info 32)) 40.
Definition ELF64_R_TYPE_ID (info : Z) : Z := Z.shiftr (u64 (Z.shiftl info 56)) 56.
Definition ELF64_R_TYPE_INFO (data type : Z) : Z := u64 (u64 (Z.shiftl data 8) + type).
Definition ELF64_M_SYM (info : Z) : Z := Z.shiftr info 8.
Definition ELF64_M_SIZE (info : Z) : Z := u8 info.
Definition ELF64_M_INFO (sym size : Z) : Z := u64 (u64 (Z.shiftl sym 8) + u8 size).
Definition ELF64_ST_BIND (info : Z) : Z := Z.shiftr info 4.
Definition ELF64_ST_TYPE (info : Z) : Z := Z.land info 0xf.
Definition ELF64_ST_INFO (bind type : Z) : Z := Z.shiftl bind 4 + Z.land type 0xf.
Definition ELF64_ST_VISIBILITY (oth : Z) : Z := Z.land oth 0x3.

(** ** Reading and writing structures *)

(** The bytes of a structure, from the values of its fields, with zeros for
    padding, with which files are described; what a read of a field of the bytes
    gives.  No code does the first. *)
Fixpoint pack_from (off : Z) (fs : struct) (vs : list Z) : list Z :=
  match fs, vs with
  | (_, t) :: fs, v :: vs =>
      let o := align_up (alignof t) off in
      replicate (Z.to_nat (o - off)) 0 ++ le_bytes (Z.to_nat (sizeof t)) v ++ pack_from (o + sizeof t) fs vs
  | _, _ => []
  end.

Definition pack (fs : struct) (vs : list Z) : list Z :=
  pack_from 0 fs vs ++ replicate (Z.to_nat (sizeof_struct fs - end_from 0 fs)) 0.

Definition get (fs : struct) (name : string) (bytes : list Z) : Z :=
  match field_from 0 fs name with
  | Some (o, t) => le_value (take (Z.to_nat (sizeof t)) (drop (Z.to_nat o) bytes))
  | None => 0
  end.

(** The types have a size and an alignment, and the names differ. *)
Definition wf_struct (fs : struct) : bool :=
  forallb (fun p => (0 <=? sizeof (snd p)) && (1 <=? alignof (snd p))) fs &&
  bool_decide (NoDup (map fst fs)).

Definition fits (p : string * ctype) (v : Z) : Prop := 0 <= v < 256 ^ sizeof (snd p).

Lemma align_up_spec a off : 1 <= a ->
  off <= align_up a off < off + a /\ align_up a off mod a = 0.
Proof.
  intros Ha. unfold align_up. split; [|apply Z.mod_mul; lia].
  pose proof (Z.mod_pos_bound (off + a - 1) a ltac:(lia)).
  pose proof (Z.div_mod (off + a - 1) a ltac:(lia)). lia.
Qed.

Definition sized (p : string * ctype) : Prop := 0 <= sizeof (snd p) /\ 1 <= alignof (snd p).

Lemma wf_struct_spec fs : wf_struct fs = true -> Forall sized fs /\ NoDup (map fst fs).
Proof.
  unfold wf_struct. intros [H1 H2%bool_decide_eq_true]%andb_true_iff. split; [|done].
  rewrite forallb_forall in H1. apply List.Forall_forall. intros p Hp. specialize (H1 p Hp). unfold sized. lia.
Qed.

Lemma end_from_ge fs : forall off, Forall sized fs -> off <= end_from off fs.
Proof.
  induction fs as [|[n t] fs IH]; intros off Hs; cbn [end_from]; [lia|].
  apply Forall_cons_iff in Hs as [[Hz Ha] Hs]. cbn [snd] in *. pose proof (align_up_spec (alignof t) off Ha).
  pose proof (IH (align_up (alignof t) off + sizeof t) Hs). lia.
Qed.

Lemma pack_from_length fs : forall off vs, Forall sized fs -> length vs = length fs ->
  Z.of_nat (length (pack_from off fs vs)) = end_from off fs - off.
Proof.
  induction fs as [|[n t] fs IH]; intros off [|v vs] Hs Hl; try done; cbn [end_from pack_from]; [simpl; lia|].
  apply Forall_cons_iff in Hs as [[Hz Ha] Hs]. cbn [snd] in *. pose proof (align_up_spec (alignof t) off Ha).
  rewrite !length_app, length_replicate, le_bytes_length.
  specialize (IH (align_up (alignof t) off + sizeof t) vs Hs ltac:(simpl in Hl; lia)). lia.
Qed.

(** A field that is found lies after [off] and within the structure. *)
Lemma field_from_range fs : forall off name o t, Forall sized fs ->
  field_from off fs name = Some (o, t) ->
  off <= o /\ o mod alignof t = 0 /\ 0 <= sizeof t /\ o + sizeof t <= end_from off fs.
Proof.
  induction fs as [|[n t'] fs IH]; intros off name o t Hs Hf; [done|]. cbn [field_from end_from] in *.
  apply Forall_cons_iff in Hs as [[Hz Ha] Hs]. cbn [snd] in *. pose proof (align_up_spec (alignof t') off Ha) as [? ?].
  destruct (String.eqb n name).
  - injection Hf as <- <-. pose proof (end_from_ge fs (align_up (alignof t') off + sizeof t') Hs).
    split_and!; try done; lia.
  - destruct (IH _ _ _ _ Hs Hf) as (? & ? & ? & ?). split_and!; try done; lia.
Qed.

Lemma get_pack_from fs : forall off vs (i : nat) name t v tl,
  Forall sized fs -> NoDup (map fst fs) -> fs !! i = Some (name, t) -> vs !! i = Some v ->
  fits (name, t) v -> exists o,
  field_from off fs name = Some (o, t) /\
  le_value (take (Z.to_nat (sizeof t)) (drop (Z.to_nat (o - off)) (pack_from off fs vs ++ tl))) = v.
Proof.
  induction fs as [|[n t'] fs IH]; intros off vs i name t v tl Hs Hnd Hi Hv Hfit; [done|].
  apply Forall_cons_iff in Hs as [[Hz Ha] Hs]. cbn [snd] in *. pose proof (align_up_spec (alignof t') off Ha) as [Hup _].
  cbn [map] in Hnd. apply list.NoDup_cons in Hnd as [Hn Hnd]. cbn [field_from pack_from fst].
  destruct vs as [|v' vs]; [done|]. destruct i as [|i]; cbn [lookup list_lookup] in Hi, Hv.
  - injection Hi as -> ->. injection Hv as ->. rewrite String.eqb_refl. eexists. split; [reflexivity|].
    rewrite <- !app_assoc, drop_app_ge by (by rewrite length_replicate).
    rewrite length_replicate, Nat.sub_diag, drop_0, take_app_le by (rewrite le_bytes_length; lia).
    rewrite take_ge by (rewrite le_bytes_length; lia). apply le_value_bytes.
    unfold fits in Hfit. cbn [snd] in Hfit. by rewrite Z2Nat.id by done.
  - assert (Hne : String.eqb n name = false).
    { apply String.eqb_neq. intros ->. apply Hn, list_elem_of_In, (in_map fst _ (name, t)).
      by eapply list_elem_of_In, list_elem_of_lookup_2. }
    rewrite Hne. destruct (IH (align_up (alignof t') off + sizeof t') vs i name t v tl Hs Hnd Hi Hv Hfit) as (o & Ho & E).
    exists o. split; [done|]. pose proof (field_from_range _ _ _ _ _ Hs Ho) as (? & _).
    rewrite <- !app_assoc, drop_app_ge by (rewrite length_replicate; lia).
    rewrite length_replicate, drop_app_ge by (rewrite le_bytes_length; lia). rewrite le_bytes_length.
    by replace (Z.to_nat (o - off) - Z.to_nat (align_up (alignof t') off - off) - Z.to_nat (sizeof t'))%nat
      with (Z.to_nat (o - (align_up (alignof t') off + sizeof t'))) by lia.
Qed.

Lemma get_pack fs vs (i : nat) name t v :
  wf_struct fs = true -> fs !! i = Some (name, t) -> vs !! i = Some v -> fits (name, t) v ->
  get fs name (pack fs vs) = v.
Proof.
  intros [Hs Hnd]%wf_struct_spec Hi Hv Hfit. unfold get, pack.
  destruct (get_pack_from fs 0 vs i name t v (replicate (Z.to_nat (sizeof_struct fs - end_from 0 fs)) 0)
    Hs Hnd Hi Hv Hfit) as (o & -> & E). by rewrite Z.sub_0_r in E.
Qed.

Lemma struct_align_ge (fs : struct) : 1 <= foldr (fun p m => Z.max (alignof (snd p)) m) 1 fs.
Proof. induction fs; cbn [foldr]; lia. Qed.

Lemma pack_length fs vs : wf_struct fs = true -> length vs = length fs ->
  Z.of_nat (length (pack fs vs)) = sizeof_struct fs.
Proof.
  intros [Hs _]%wf_struct_spec Hl. unfold pack. rewrite length_app, length_replicate, Nat2Z.inj_add.
  rewrite pack_from_length by done. unfold sizeof_struct.
  destruct (align_up_spec _ (end_from 0 fs) (struct_align_ge fs)). lia.
Qed.

Lemma pack_from_in_u8 fs : forall off vs, Forall in_u8 (pack_from off fs vs).
Proof.
  induction fs as [|[n t] fs IH]; intros off [|v vs]; cbn [pack_from]; try constructor.
  rewrite !Forall_app. split_and!; [|apply le_bytes_in_u8|apply IH].
  apply Forall_replicate. unfold in_u8. lia.
Qed.

Lemma pack_in_u8 fs vs : Forall in_u8 (pack fs vs).
Proof.
  unfold pack. apply Forall_app. split; [apply pack_from_in_u8|]. apply Forall_replicate. unfold in_u8. lia.
Qed.

(** Every structure of the header. *)
Definition elf64_structs : list struct :=
  [Elf64_Ehdr; Elf64_Shdr; Elf64_Phdr; Elf64_Dyn; Elf64_Rel; Elf64_Rela; Elf64_Nhdr; Elf_GNU_Hash_Header;
   Elf64_Move; Elf64_Cap; Elf64_Sym; Elf64_Verdef; Elf64_Verdaux; Elf64_Verneed; Elf64_Vernaux; Elf64_Syminfo].

Lemma elf64_structs_wf : Forall (fun fs => wf_struct fs = true) elf64_structs.
Proof. repeat (constructor; [vm_compute; reflexivity|]). constructor. Qed.

(** The sizes of the ELF-64 format. *)
Example elf64_sizes :
  map sizeof_struct elf64_structs = [64; 64; 56; 16; 16; 24; 12; 16; 32; 16; 24; 20; 8; 16; 16; 4].
Proof. vm_compute. reflexivity. Qed.

(** ** Packed fields come apart again *)

Lemma r_info_roundtrip sym type : 0 <= sym < 2 ^ 32 -> 0 <= type < 2 ^ 32 ->
  ELF64_R_SYM (ELF64_R_INFO sym type) = sym /\ ELF64_R_TYPE (ELF64_R_INFO sym type) = type.
Proof.
  intros Hs Ht. unfold ELF64_R_SYM, ELF64_R_TYPE, ELF64_R_INFO. change 0xffffffff with (Z.ones 32).
  rewrite !Z.land_ones, Z.shiftl_mul_pow2, Z.shiftr_div_pow2, (Z.mod_small type) by lia.
  rewrite (u64_small (sym * _)), u64_small by lia. split.
  - rewrite Z.div_add_l, Z.div_small by lia. lia.
  - rewrite Z.add_comm, Z.mod_add, Z.mod_small by lia. done.
Qed.

Lemma r_type_info_roundtrip data type : 0 <= data < 2 ^ 24 -> 0 <= type < 2 ^ 8 ->
  ELF64_R_TYPE_DATA (ELF64_R_TYPE_INFO data type) = data /\ ELF64_R_TYPE_ID (ELF64_R_TYPE_INFO data type) = type.
Proof.
  intros Hd Ht. unfold ELF64_R_TYPE_DATA, ELF64_R_TYPE_ID, ELF64_R_TYPE_INFO.
  rewrite !Z.shiftl_mul_pow2, !Z.shiftr_div_pow2, (u64_small (data * _)), (u64_small (_ + type)) by lia.
  unfold u64. split; Z.div_mod_to_equations; lia.
Qed.

Lemma m_info_roundtrip sym size : 0 <= sym < 2 ^ 56 -> 0 <= size < 2 ^ 8 ->
  ELF64_M_SYM (ELF64_M_INFO sym size) = sym /\ ELF64_M_SIZE (ELF64_M_INFO sym size) = size.
Proof.
  intros Hs Hz. unfold ELF64_M_SYM, ELF64_M_SIZE, ELF64_M_INFO, u8.
  rewrite Z.shiftl_mul_pow2, Z.shiftr_div_pow2, (Z.mod_small size), (u64_small (sym * _)), u64_small by lia.
  split; Z.div_mod_to_equations; lia.
Qed.

Lemma st_info_roundtrip bind type : 0 <= bind < 2 ^ 4 -> 0 <= type < 2 ^ 4 ->
  in_u8 (ELF64_ST_INFO bind type) /\
  ELF64_ST_BIND (ELF64_ST_INFO bind type) = bind /\ ELF64_ST_TYPE (ELF64_ST_INFO bind type) = type.
Proof.
  intros Hb Ht. unfold ELF64_ST_BIND, ELF64_ST_TYPE, ELF64_ST_INFO, in_u8. change 0xf with (Z.ones 4).
  rewrite !Z.land_ones, Z.shiftl_mul_pow2, Z.shiftr_div_pow2, (Z.mod_small type) by lia.
  split_and!; Z.div_mod_to_equations; lia.
Qed.
