(* ===== verification/Boot.v ===== *)
(** * The boot loader: litedram/gen-src/sdram_init/main.c

    It runs from internal memory, prints what the system controller reports,
    sets the SPI flash up, starts the DRAM and loads the next program.  The
    LiteX calibration ([sdram_init], [ddrctrl_init_done_read]) is not in the
    repository: it is a parameter.  String constants are where the linker put
    them, [lit text], and the local variables whose address is taken are at
    fixed places of the stack. *)

From S2P Require Import Prelude CMem Ctype LibcMem LibcStr Strto Vsnprintf VsnprintfSpec Console Elf.

(** ** Constants *)

Definition SPI_REG_DATA : Z := 0x00.
Definition SPI_REG_CTRL : Z := 0x04.
Definition SPI_REG_CTRL_MANUAL_CS : Z := 0x02.
Definition SPI_REG_AUTO_CFG : Z := 0x08.
Definition SPI_REG_AUTO_CFG_DUMMIES_SHIFT : Z := 8.
Definition SPI_REG_AUT_CFG_MODE_QUAD : Z := Z.shiftl 3 11.
Definition SPI_REG_AUTO_CFG_ADDR4 : Z := Z.shiftl 1 13.
Definition SPI_REG_AUTO_CFG_CKDIV_SHIFT : Z := 16.
Definition SPI_REG_AUTO_CFG_CKDIV_MASK : Z := Z.shiftl 0xff SPI_REG_AUTO_CFG_CKDIV_SHIFT.
Definition SPI_REG_AUTO_CFG_CSTOUT_SHIFT : Z := 24.

Definition SPI_CMD_RDID : Z := 0x9f.
Definition SPI_CMD_QUAD_FREAD : Z := 0x6b.
Definition SPI_CMD_QUAD_FREAD_4BA : Z := 0x6c.
Definition SPI_CMD_RDCR : Z := 0x35.
Definition SPI_CMD_WREN : Z := 0x06.
Definition SPI_CMD_RDSR : Z := 0x05.
Definition SPI_CMD_WWR : Z := 0x01.

Definition EI_CLASS : Z := 4.
Definition EI_DATA : Z := 5.
Definition ELFCLASS64 : Z := 2.
Definition ELFDATA2LSB : Z := 1.
Definition EM_PPC64 : Z := 21.
Definition PT_LOAD : Z := 1.

(** Offsets of the fields of the ELF headers, and their sizes, as the layout of
    the structures gives them. *)
Definition sizeof_Ehdr : Z := Eval vm_compute in sizeof_struct Elf64_Ehdr.
Definition off_e_machine : Z := Eval vm_compute in offsetof Elf64_Ehdr "e_machine".
Definition off_e_entry : Z := Eval vm_compute in offsetof Elf64_Ehdr "e_entry".
Definition off_e_phoff : Z := Eval vm_compute in offsetof Elf64_Ehdr "e_phoff".
Definition off_e_phentsize : Z := Eval vm_compute in offsetof Elf64_Ehdr "e_phentsize".
Definition off_e_phnum : Z := Eval vm_compute in offsetof Elf64_Ehdr "e_phnum".
Definition sizeof_Phdr : Z := Eval vm_compute in sizeof_struct Elf64_Phdr.
Definition off_p_type : Z := Eval vm_compute in offsetof Elf64_Phdr "p_type".
Definition off_p_offset : Z := Eval vm_compute in offsetof Elf64_Phdr "p_offset".
Definition off_p_vaddr : Z := Eval vm_compute in offsetof Elf64_Phdr "p_vaddr".
Definition off_p_filesz : Z := Eval vm_compute in offsetof Elf64_Phdr "p_filesz".

Section boot.
Context {D : Type} `{Bus D} (poll : nat).
Context (lit : list Z -> Z).
Context (buffer ehdr ph : Z).
Context (ddrctrl_init_done_read : M (fw D) Z) (sdram_init : M (fw D) unit).
Context (LITEX_GIT_SHA1 : Z).

Definition _printf (fmt : Z) (ap : list Z) : M (fw D) Z :=
  count ← on_mem (vsnprintf (lit (codes "0x")) buffer 128 fmt ap);
  _ ← puts poll buffer;
  mret count.

(** [printf] of a string constant; the macro drops the count. *)
Definition printf (fmt : list Z) (ap : list Z) : M (fw D) unit :=
  _ ← _printf (lit fmt) ap; mret tt.

(** The text of a line, with its line feed. *)
Definition line (s : string) : list Z := codes s ++ [10].

Definition flush_cpu_icache : M (fw D) unit := mret tt.

(** ** The SPI flash *)

Definition fl_cs_on : M (fw D) unit :=
  writeb SPI_REG_CTRL_MANUAL_CS (SPI_FCTRL_BASE + SPI_REG_CTRL).

Definition fl_cs_off : M (fw D) unit := writeb 0 (SPI_FCTRL_BASE + SPI_REG_CTRL).

Definition wait_wip_step : unit -> M (fw D) (unit + unit) := fun _ =>
  _ ← fl_cs_on;
  _ ← writeb SPI_CMD_RDSR (SPI_FCTRL_BASE + SPI_REG_DATA);
  sr ← readb (SPI_FCTRL_BASE + SPI_REG_DATA);
  _ ← fl_cs_off;
  if Z.land sr 1 =? 0 then mret (inr tt) else mret (inl tt).

Definition wait_wip : M (fw D) unit := loop poll wait_wip_step tt.

Definition send_wren : M (fw D) unit :=
  _ ← fl_cs_on;
  _ ← writeb SPI_CMD_WREN (SPI_FCTRL_BASE + SPI_REG_DATA);
  fl_cs_off.

Definition check_spansion_quad_mode : M (fw D) unit :=
  _ ← writeb SPI_CMD_RDCR (SPI_FCTRL_BASE + SPI_REG_DATA);
  _ ← fl_cs_on;
  _ ← writeb SPI_CMD_RDCR (SPI_FCTRL_BASE + SPI_REG_DATA);
  cf1 ← readb (SPI_FCTRL_BASE + SPI_REG_DATA);
  _ ← fl_cs_off;
  _ ← printf (codes " Cypress/Spansion (CF1=%02x)") [cf1];
  if negb (Z.land cf1 0x02 =? 0) then mret tt else
  _ ← printf (codes "  enabling QUAD") [];
  _ ← send_wren;
  _ ← fl_cs_on;
  _ ← writeb SPI_CMD_WWR (SPI_FCTRL_BASE + SPI_REG_DATA);
  _ ← writeb 0x00 (SPI_FCTRL_BASE + SPI_REG_DATA);
  _ ← writeb (Z.lor cf1 0x02) (SPI_FCTRL_BASE + SPI_REG_DATA);
  _ ← writeb 0 (SPI_FCTRL_BASE + SPI_REG_CTRL);
  _ ← fl_cs_off;
  wait_wip.

Definition check_enable_issi_quad : M (fw D) Z :=
  _ ← fl_cs_on;
  _ ← writeb SPI_CMD_RDSR (SPI_FCTRL_BASE + SPI_REG_DATA);
  sr ← readb (SPI_FCTRL_BASE + SPI_REG_DATA);
  _ ← fl_cs_off;
  _ ← (if Z.land sr 0x40 =? 0 then
         _ ← printf (codes " [enabling quad]") [];
         _ ← send_wren;
         _ ← fl_cs_on;
         _ ← writeb SPI_CMD_WWR (SPI_FCTRL_BASE + SPI_REG_DATA);
         _ ← writeb (Z.lor sr 0x40) (SPI_FCTRL_BASE + SPI_REG_DATA);
         _ ← fl_cs_off;
         wait_wip
       else mret tt);
  mret (Z.lor (Z.lor (Z.lor (Z.lor SPI_CMD_QUAD_FREAD_4BA
    (Z.shiftl 0x07 SPI_REG_AUTO_CFG_DUMMIES_SHIFT)) SPI_REG_AUT_CFG_MODE_QUAD)
    SPI_REG_AUTO_CFG_ADDR4) (Z.shiftl 0x20 SPI_REG_AUTO_CFG_CSTOUT_SHIFT)).

(** The chips that are put in quad mode, by their identification. *)
Definition is_spansion (id0 id1 id2 : Z) : bool :=
  (id0 =? 0x01) && ((id1 =? 0x02) || (id1 =? 0x20) || (id1 =? 0x60))
  && ((id2 =? 0x18) || (id2 =? 0x19)).
Definition is_micron (id0 id1 id2 : Z) : bool :=
  (id0 =? 0x20) && (id1 =? 0xba) && (id2 =? 0x18).
Definition is_issi (id0 id1 id2 : Z) : bool :=
  (id0 =? 0x9d) && (Z.land id1 (Z.lnot 0x10) =? 0x60) && (id2 =? 0x19).

Definition default_autocfg : Z :=
  Z.lor (Z.lor (Z.lor SPI_CMD_QUAD_FREAD (Z.shiftl 0x07 SPI_REG_AUTO_CFG_DUMMIES_SHIFT))
    SPI_REG_AUT_CFG_MODE_QUAD) (Z.shiftl 0x20 SPI_REG_AUTO_CFG_CSTOUT_SHIFT).

Definition check_flash : M (fw D) bool :=
  let autocfg := default_autocfg in
  _ ← fl_cs_on;
  _ ← writeb SPI_CMD_RDID (SPI_FCTRL_BASE + SPI_REG_DATA);
  id0 ← readb (SPI_FCTRL_BASE + SPI_REG_DATA);
  id1 ← readb (SPI_FCTRL_BASE + SPI_REG_DATA);
  id2 ← readb (SPI_FCTRL_BASE + SPI_REG_DATA);
  _ ← fl_cs_off;
  _ ← printf (codes "  SPI FLASH ID: %02x%02x%02x") [id0; id1; id2];
  if (Z.lor (Z.lor id0 id1) id2 =? 0) || (Z.land (Z.land id0 id1) id2 =? 0xff) then mret false else
  quad ← (if is_spansion id0 id1 id2 then _ ← check_spansion_quad_mode; mret true else mret false);
  quad ← (if is_micron id0 id1 id2 then _ ← printf (codes " Micron") []; mret true else mret quad);
  '(quad, autocfg) ←
    (if is_issi id0 id1 id2 then
       _ ← printf (codes " ISSI") []; autocfg ← check_enable_issi_quad; mret (true, autocfg)
     else mret (quad, autocfg));
  _ ← (if quad : bool then
         _ ← printf (codes " [quad IO mode]") [];
         cfg ← readl (SPI_FCTRL_BASE + SPI_REG_AUTO_CFG);
         writel (Z.lor (Z.land cfg SPI_REG_AUTO_CFG_CKDIV_MASK) autocfg)
           (SPI_FCTRL_BASE + SPI_REG_AUTO_CFG)
       else mret tt);
  _ ← printf [10] [];
  mret true.

(** The flash is memory mapped; the sum is one of 32-bit numbers. *)
Definition fl_read (dst offset size : Z) : M (fw D) bool :=
  _ ← on_mem (memcpy dst (u32 (SPI_FLASH_BASE + offset)) size);
  mret true.

(** ** Booting *)

Definition load_field (base off : Z) (n : nat) : M (fw D) Z := on_mem (load_le n (base + off)).

(** The first eight bytes of the identification. *)
Definition dump : M (fw D) Z :=
  b0 ← load_field ehdr 0 1; b1 ← load_field ehdr 1 1;
  b2 ← load_field ehdr 2 1; b3 ← load_field ehdr 3 1;
  b4 ← load_field ehdr 4 1; b5 ← load_field ehdr 5 1;
  b6 ← load_field ehdr 6 1; b7 ← load_field ehdr 7 1;
  _ ← printf (line "HDR: %02x %02x %02x %02x %02x %02x %02x %02x") [b0; b1; b2; b3; b4; b5; b6; b7];
  mret (u64 (-1)).

Definition is_elf : M (fw D) bool :=
  b0 ← load_field ehdr 0 1;
  if negb (b0 =? 0x7f) then mret false else
  b1 ← load_field ehdr 1 1;
  if negb (b1 =? 69) then mret false else
  b2 ← load_field ehdr 2 1;
  if negb (b2 =? 76) then mret false else
  b3 ← load_field ehdr 3 1;
  mret (b3 =? 70).

(** A round of the loop over the program headers: [continue] goes round
    before [poff] is advanced. *)
Definition boot_flash_step (offset : Z) : Z * Z -> M (fw D) (Z * Z + bool) := fun '(i, poff) =>
  e_phnum ← load_field ehdr off_e_phnum 2;
  if i <? e_phnum then
    ok ← fl_read ph poff sizeof_Phdr;
    if negb ok then mret (inr false) else
    p_type ← load_field ph off_p_type 4;
    if negb (p_type =? PT_LOAD) then mret (inl (u32 (i + 1), poff)) else
    p_filesz ← load_field ph off_p_filesz 8;
    let size := u32 p_filesz in
    addr ← load_field ph off_p_vaddr 8;
    p_offset ← load_field ph off_p_offset 8;
    let off := u32 (offset + p_offset) in
    _ ← printf (line "Copy segment %d (0x%x bytes) to %p") [i; size; addr];
    _ ← fl_read addr off size;
    e_phentsize ← load_field ehdr off_e_phentsize 2;
    mret (inl (u32 (i + 1), u32 (poff + e_phentsize)))
  else mret (inr true).

(** There are at most 65535 program headers. *)
Definition boot_flash (offset : Z) : M (fw D) Z :=
  _ ← printf (line "Trying flash...") [];
  ok ← fl_read ehdr offset sizeof_Ehdr;
  if negb ok then mret (u64 (-1)) else
  elf ← is_elf;
  e_class ← (if elf : bool then load_field ehdr EI_CLASS 1 else mret 0);
  if negb elf || negb (e_class =? ELFCLASS64) then
    _ ← printf (line "Doesn't look like an elf64") []; dump
  else
  e_data ← load_field ehdr EI_DATA 1;
  e_machine ← (if e_data =? ELFDATA2LSB then load_field ehdr off_e_machine 2 else mret 0);
  if negb (e_data =? ELFDATA2LSB) || negb (e_machine =? EM_PPC64) then
    _ ← printf (line "Not a ppc64le binary") []; dump
  else
  e_phoff ← load_field ehdr off_e_phoff 8;
  let poff := u32 (offset + e_phoff) in
  ok ← loop (S (Z.to_nat (2 ^ 16))) (boot_flash_step offset) (0, poff);
  if negb ok then dump else
  e_entry ← load_field ehdr off_e_entry 8;
  _ ← printf (line "Booting from DRAM at %x") [u32 e_entry];
  _ ← flush_cpu_icache;
  e_entry ← load_field ehdr off_e_entry 8;
  mret e_entry.

Definition boot_sdram : M (fw D) unit :=
  let s := DRAM_INIT_BASE + 0x6000 in
  let d := DRAM_BASE in
  let sz := 0x10000 - 0x6000 in
  _ ← printf (line "Copying payload to DRAM...") [];
  _ ← on_mem (memcpy d s sz);
  _ ← printf (line "Booting from DRAM...") [];
  flush_cpu_icache.

Definition print_if (ftr bit : Z) (s : string) : M (fw D) unit :=
  if has_bits ftr bit then printf (codes s) [] else mret tt.

(** The report on the SoC; the answer is the feature register. *)
Definition soc_report : M (fw D) Z :=
  _ ← printf ([10; 10] ++ codes "Welcome to Microwatt !" ++ [10; 10]) [];
  sig ← readq (SYSCON_BASE + SYS_REG_SIGNATURE);
  _ ← printf (line " Soc signature: %016llx") [sig];
  _ ← printf (codes "  Soc features: ") [];
  ftr ← readq (SYSCON_BASE + SYS_REG_INFO);
  _ ← print_if ftr SYS_REG_INFO_HAS_UART "UART ";
  _ ← print_if ftr SYS_REG_INFO_HAS_DRAM "DRAM ";
  _ ← print_if ftr SYS_REG_INFO_HAS_BRAM "BRAM ";
  _ ← print_if ftr SYS_REG_INFO_HAS_SPI_FLASH "SPIFLASH ";
  _ ← print_if ftr SYS_REG_INFO_HAS_LITEETH "ETHERNET ";
  _ ← print_if ftr SYS_REG_INFO_HAS_LITESDCARD "SDCARD ";
  _ ← printf [10] [];
  _ ← (if has_bits ftr SYS_REG_INFO_HAS_BRAM then
         val ← readq (SYSCON_BASE + SYS_REG_BRAMINFO);
         printf (line "          BRAM: %ld KB") [Z.land val SYS_REG_BRAMINFO_SIZE_MASK / 1024]
       else mret tt);
  _ ← (if has_bits ftr SYS_REG_INFO_HAS_DRAM then
         val ← readq (SYSCON_BASE + SYS_REG_DRAMINFO);
         _ ← printf (line "          DRAM: %ld MB")
               [Z.land val SYS_REG_DRAMINFO_SIZE_MASK / (1024 * 1024)];
         val ← readq (SYSCON_BASE + SYS_REG_DRAMINITINFO);
         printf (line "     DRAM INIT: %ld KB") [val / 1024]
       else mret tt);
  val ← readq (SYSCON_BASE + SYS_REG_CLKINFO);
  _ ← printf (line "           CLK: %ld MHz") [Z.land val SYS_REG_CLKINFO_FREQ_MASK / 1000000];
  mret ftr.

(** What [main] returns is where head.S jumps. *)
Definition main : M (fw D) Z :=
  _ ← console_init;
  ftr ← soc_report;
  '(try_flash, fl_off) ←
    (if has_bits ftr SYS_REG_INFO_HAS_SPI_FLASH then
       val ← readq (SYSCON_BASE + SYS_REG_SPI_INFO);
       try_flash ← check_flash;
       let fl_off := u32 (Z.land val SYS_REG_SPI_INFO_FLASH_OFF_MASK) in
       _ ← printf (line " SPI FLASH OFF: 0x%x bytes") [fl_off];
       mret (true, fl_off)
     else mret (false, 0));
  _ ← printf [10] [];
  _ ← (if has_bits ftr SYS_REG_INFO_HAS_DRAM then
         done ← ddrctrl_init_done_read;
         if done =? 0 then
           _ ← printf (line "LiteDRAM built from LiteX %s") [LITEX_GIT_SHA1];
           sdram_init
         else mret tt
       else mret tt);
  val ← readq (SYSCON_BASE + SYS_REG_CTRL);
  _ ← writeq (Z.land val (Z.lnot SYS_REG_CTRL_ALT_RESET)) (SYSCON_BASE + SYS_REG_CTRL);
  if has_bits ftr SYS_REG_INFO_HAS_BRAM then
    _ ← printf (line "Booting from BRAM...") []; mret 0
  else
  val ← (if try_flash : bool then boot_flash fl_off else mret (u64 (-1)));
  if try_flash && negb (val =? u64 (-1)) then mret val else
  _ ← boot_sdram;
  mret 0.
End boot.
