(* ===== verification/BootSpec.v ===== *)
(** * What the boot loader does

    Printing is summarised by one lemma, the ELF image by an abstract view of
    the flash; on top of them, loading and rejecting images and copying the
    payload are proved of the functions of main.c. *)

From S2P Require Import Prelude CMem Ctype LibcMem LibcStr Strto Vsnprintf VsnprintfSpec Console Boot.

(** The string constants the loader prints with. *)
Definition boot_formats : list (list Z) := [
  line "Trying flash..."; line "Doesn't look like an elf64"; line "Not a ppc64le binary";
  line "HDR: %02x %02x %02x %02x %02x %02x %02x %02x";
  line "Copy segment %d (0x%x bytes) to %p"; line "Booting from DRAM at %x";
  line "Copying payload to DRAM..."; line "Booting from DRAM..."; line "Booting from BRAM...";
  codes "  SPI FLASH ID: %02x%02x%02x"; codes " Cypress/Spansion (CF1=%02x)"; codes "  enabling QUAD";
  codes " [enabling quad]"; codes " Micron"; codes " ISSI"; codes " [quad IO mode]"; [10];
  [10; 10] ++ codes "Welcome to Microwatt !" ++ [10; 10]; line " Soc signature: %016llx";
  codes "  Soc features: "; codes "UART "; codes "DRAM "; codes "BRAM "; codes "SPIFLASH ";
  codes "ETHERNET "; codes "SDCARD "; line "          BRAM: %ld KB"; line "          DRAM: %ld MB";
  line "     DRAM INIT: %ld KB"; line "           CLK: %ld MHz"; line " SPI FLASH OFF: 0x%x bytes";
  line "LiteDRAM built from LiteX %s" ].

Definition string_free (n : nat) (fl : list Z) : bool :=
  forallb (fun d => negb (d =? 115) && negb (d =? 99)) (conversions n fl).

Lemma string_free_args n fl arg : string_free n fl = true -> string_args n fl arg = [].
Proof.
  unfold string_free. revert fl arg. induction n as [|n IH]; intros [|c fl] arg; try done.
  cbn [string_args conversions]. destruct (c =? 37); [|apply IH].
  destruct (cut_spec fl) as [[[sp d] rest]|]; [|done]. cbn [forallb].
  intros [Hd Hr]%andb_true_iff. destruct (d =? 37); [by apply IH|].
  destruct arg as [|v arg]; [done|]. destruct (d =? 115); [done|by apply IH].
Qed.

Lemma string_free_char n fl : string_free n fl = true -> ~ In 99 (conversions n fl).
Proof. unfold string_free. rewrite forallb_forall. intros Hall Hin. by apply Hall in Hin. Qed.

(** A format that [printf] can print with [k] arguments. *)
Definition plain_format (fl : list Z) (k : nat) : bool :=
  string_free (length fl) fl && bool_decide (format_arity (length fl) fl = Some k).

(** The reference output of the loader's [printf]. *)
Definition printf_text (fl arg : list Z) : list Z :=
  default [] (render (fun _ => []) (length fl) 127 fl arg).

Lemma plain_no_strings fl k arg :
  plain_format fl k = true -> string_args (length fl) fl arg = [].
Proof. intros [Hf _]%andb_true_iff. by apply string_free_args. Qed.

(** A format without %c prints at most 127 characters, none of them a
    terminator when its strings have none. *)
Lemma format_render str_of fl k arg :
  ~ In 99 (conversions (length fl) fl) -> format_arity (length fl) fl = Some k ->
  (k <= length arg)%nat -> Forall in_u64 arg -> Forall no_nul fl -> Forall in_u8 fl ->
  Forall (fun v => Forall no_nul (str_of v) /\ Forall in_u8 (str_of v)) (string_args (length fl) fl arg) ->
  exists out, render str_of (length fl) 127 fl arg = Some out /\ length out <= 127 /\
  Forall no_nul out /\ Forall in_u8 out.
Proof.
  intros H99 Har Hk Ha Hnz Hu Hstr. destruct (render_total str_of _ 127 fl k arg Har Hk) as [out Hren].
  exists out. split_and!; [done|eapply render_length; [exact H99|lia|exact Hren]| |].
  - eapply (render_forall no_nul (fun d => d <> 99)); try exact Hren; try done.
    + intros. by apply (spec_text_nonzero str_of).
    + apply Forall_forall. by intros d Hd ->.
    + eapply Forall_impl; [|exact Hstr]. by intros v [].
  - eapply (render_forall in_u8 (fun _ => True)); try exact Hren; try done.
    + intros. by apply (spec_text_in_u8 str_of).
    + by apply Forall_forall.
    + eapply Forall_impl; [|exact Hstr]. by intros v [].
Qed.

Section printing.
Context {D : Type} `{Bus D} {std : bool} `{!Uart D std}.
Context (lit : list Z -> Z) (buffer ehdr ph : Z).

(** The stack bytes the loader writes. *)
Definition scratch (q : Z) : Prop :=
  buffer <= q < buffer + 128 \/ ehdr <= q < ehdr + sizeof_Ehdr \/ ph <= q < ph + sizeof_Phdr.

(** The addresses of [l] and its terminator are outside [R]. *)
Definition off_limits (R : Z -> Prop) (p : Z) (l : list Z) : Prop :=
  forall q, p <= q <= p + length l -> ~ R q.

(** The memory the loader runs in. *)
Record frame (m : mem) : Prop := {
  frame_ok : mem_ok m;
  frame_buffer : 0 < buffer;
  frame_mapped : mapped m buffer 128 /\ mapped m ehdr sizeof_Ehdr /\ mapped m ph sizeof_Phdr;
  frame_apart : (ehdr + sizeof_Ehdr <= buffer \/ buffer + 128 <= ehdr) /\
    (ph + sizeof_Phdr <= buffer \/ buffer + 128 <= ph) /\
    (ph + sizeof_Phdr <= ehdr \/ ehdr + sizeof_Ehdr <= ph);
  frame_0x : cstr m (lit (codes "0x")) (codes "0x") /\ off_limits scratch (lit (codes "0x")) (codes "0x");
  frame_formats : forall l, In l boot_formats -> cstr m (lit l) l /\ off_limits scratch (lit l) l
}.

(** From [s] to [s'], text [t] was sent and only memory in [R] has changed. *)
Record evolves (R : Z -> Prop) (s : fw D) (t : list Z) (s' : fw D) : Prop := {
  ev_console : console_ok s';
  ev_sent : sent (fdev s') = sent (fdev s) ++ t;
  ev_mem : mem_ok (fmem s');
  ev_dom : dom (fmem s') = dom (fmem s);
  ev_same : forall q, ~ R q -> fmem s' !! q = fmem s !! q
}.

Lemma evolves_refl R s : console_ok s -> mem_ok (fmem s) -> evolves R s [] s.
Proof. intros. split; [done|by rewrite app_nil_r|done..]. Qed.

Lemma evolves_trans R s t s1 t' s2 :
  evolves R s t s1 -> evolves R s1 t' s2 -> evolves R s (t ++ t') s2.
Proof.
  intros [] []. split; [done| |done| |].
  - by rewrite ev_sent1, ev_sent0, app_assoc.
  - congruence.
  - intros q Hq. rewrite ev_same1, ev_same0 by done. done.
Qed.

Lemma evolves_mono (R R' : Z -> Prop) s t s' :
  (forall q, R q -> R' q) -> evolves R s t s' -> evolves R' s t s'.
Proof. intros HR []. split; try done. intros q Hq. apply ev_same0. auto. Qed.

Lemma cstr_kept R s t s' p l :
  evolves R s t s' -> off_limits R p l -> cstr (fmem s) p l -> cstr (fmem s') p l.
Proof.
  intros He Hoff [Hb Hz]. split; [|done]. intros i b Hi.
  pose proof (lookup_lt_Some _ _ _ Hi) as Hlt. rewrite length_app in Hlt. simpl in Hlt.
  rewrite (ev_same _ _ _ _ He); [by apply Hb|]. apply Hoff. lia.
Qed.

Lemma bytes_kept R s t s' p l :
  evolves R s t s' -> (forall q, p <= q < p + length l -> ~ R q) ->
  bytes_at (fmem s) p l -> bytes_at (fmem s') p l.
Proof.
  intros He Hoff Hb i b Hi. pose proof (lookup_lt_Some _ _ _ Hi) as Hlt.
  rewrite (ev_same _ _ _ _ He); [by apply Hb|]. apply Hoff. lia.
Qed.

(** A region that leaves the loader's constants alone. *)
Definition spares (R : Z -> Prop) : Prop :=
  off_limits R (lit (codes "0x")) (codes "0x") /\
  forall l, In l boot_formats -> off_limits R (lit l) l.

Lemma frame_spares m : frame m -> spares scratch.
Proof. intros []. split; [by apply frame_0x0|]. intros l Hl. by apply frame_formats0. Qed.

Lemma frame_kept R s t s' : frame (fmem s) -> evolves R s t s' -> spares R -> frame (fmem s').
Proof.
  intros [] He [H0 Hl]. split; try done.
  - by apply He.
  - destruct frame_mapped0 as (? & ? & ?).
    split_and!; (eapply mapped_same_dom; [by apply He|done]).
  - destruct frame_0x0. split; [by eapply cstr_kept|done].
  - intros l Hin. destruct (frame_formats0 l Hin). split; [eapply cstr_kept; eauto|done].
Qed.

Lemma off_apart p l : off_limits scratch p l -> apart p l buffer (buffer + 128).
Proof.
  intros Hoff. unfold apart. destruct (decide (p + length l < buffer)); [by left|].
  destruct (decide (buffer + 128 <= p)); [by right|]. exfalso.
  apply (Hoff (Z.max p buffer)); [lia|]. left. lia.
Qed.

Definition in_buffer (q : Z) : Prop := buffer <= q < buffer + 128.

Lemma spares_mono (R R' : Z -> Prop) : (forall q, R q -> R' q) -> spares R' -> spares R.
Proof.
  intros HR [H1 H2]. split; [intros q Hq Hr; by apply (H1 q Hq), HR|].
  intros l Hl q Hq Hr. by apply (H2 l Hl q Hq), HR.
Qed.

Context (poll : nat).
Hypothesis poll_enough : (max_wait < poll)%nat.

(** [printf] of a format without %c, whose strings are [str_of] of their
    addresses. *)
Lemma printf_strings_ok str_of fl k arg s :
  console_ok s -> frame (fmem s) -> cstr (fmem s) (lit fl) fl -> off_limits scratch (lit fl) fl ->
  ~ In 99 (conversions (length fl) fl) -> format_arity (length fl) fl = Some k ->
  (k <= length arg)%nat -> Forall in_u64 arg ->
  Forall (fun v => cstr (fmem s) v (str_of v) /\ off_limits scratch v (str_of v)) (string_args (length fl) fl arg) ->
  exists s' out, render str_of (length fl) 127 fl arg = Some out /\
  printf poll lit buffer fl arg s = Ok tt s' /\ evolves in_buffer s (crlf out) s'.
Proof.
  intros Hs Hfr Hfl Hoff H99 Har Hk Ha Hstr. pose proof Hfr as [Hok Hb (Hm & _) _ [H0x Ho] Hlit].
  destruct (format_render str_of fl k arg) as (out & Hren & Hlen & Hnz & Hu);
    [done|done|done|done|by apply Hfl|by eapply cstr_in_u8| |].
  { eapply Forall_impl; [|exact Hstr]. intros v [Hv _]. split; [by apply Hv|by eapply cstr_in_u8]. }
  assert (Hap : forall p l, apart p l buffer (buffer + 128) ->
    apart p l buffer (buffer + length out + 1)) by (unfold apart; lia).
  assert (Hrun : vsnprintf (lit (codes "0x")) buffer 128 (lit fl) arg (fmem s) =
    Ok (s32 (length out)) (write_bytes buffer (out ++ [0]) (fmem s))).
  { eapply (vsnprintf_ok _ str_of); try done; try lia.
    - eapply mapped_mono; [exact Hm|lia|lia].
    - split; [split; [done|by apply Hap, off_apart]|split; [done|by apply Hap, off_apart]|].
      eapply Forall_impl; [|exact Hstr]. intros v [Hv Hvo]. split; [done|by apply Hap, off_apart]. }
  assert (Hlen1 : length (out ++ [0]) <= 128) by (rewrite length_app; simpl; lia).
  assert (Hm1 : mapped (fmem s) buffer (length (out ++ [0])))
    by (eapply mapped_mono; [exact Hm|lia|lia]).
  set (m1 := write_bytes buffer (out ++ [0]) (fmem s)) in *.
  assert (Hok1 : mem_ok m1).
  { apply mem_ok_write; [done..|]. apply Forall_app. split; [done|by repeat constructor]. }
  destruct (puts_ok poll poll_enough out (with_mem s m1) buffer) as (s' & Hputs & He);
    [by destruct Hs|done|split; [apply write_bytes_at|done]|].
  exists s', out. split; [done|]. split; [unfold printf, _printf, mbind, M_bind, on_mem; by rewrite Hrun, Hputs|].
  pose proof (traffic_mem _ _ _ _ He) as Hm'.
  destruct He as (d & -> & Hi & Hse & _). split; [by destruct Hs|done|by rewrite Hm'|cbn; by apply write_bytes_dom|].
  intros q Hq. cbn. subst m1. rewrite write_bytes_lookup, bool_decide_false; [done|].
  intros Hr. apply Hq. unfold in_buffer. lia.
Qed.

Lemma printf_ok fl k arg s :
  console_ok s -> frame (fmem s) -> In fl boot_formats -> plain_format fl k = true ->
  (k <= length arg)%nat -> Forall in_u64 arg -> exists s',
  printf poll lit buffer fl arg s = Ok tt s' /\ evolves in_buffer s (crlf (printf_text fl arg)) s'.
Proof.
  intros Hs Hfr Hin Hpl Hk Ha. destruct (frame_formats _ Hfr fl Hin) as [Hfl Hoff].
  pose proof (plain_no_strings fl k arg Hpl) as Hno.
  apply andb_true_iff in Hpl as [Hfree Har%bool_decide_eq_true].
  destruct (printf_strings_ok (fun _ => []) fl k arg s) as (s' & out & Hren & Hrun & Hev); try done.
  - by apply string_free_char.
  - by rewrite Hno.
  - exists s'. split; [done|]. unfold printf_text. by rewrite Hren.
Qed.
End printing.

(** ** ELF images *)

(** [n] bytes at offset [off] of a header, as a number. *)
Definition field (l : list Z) (off : Z) (n : nat) : Z := le_value (take n (drop (Z.to_nat off) l)).

(** A program header and the contents of its segment. *)
Abbreviation segment := (list Z * list Z)%type.
Definition seg_vaddr (g : segment) : Z := field (fst g) off_p_vaddr 8.

Definition load_segments (segs : list segment) (m : mem) : mem :=
  foldl (fun m g => write_bytes (seg_vaddr g) (snd g) m) m segs.

(** The addresses the segments are loaded at. *)
Definition seg_region (segs : list segment) (q : Z) : Prop :=
  exists g, In g segs /\ seg_vaddr g <= q < seg_vaddr g + length (snd g).

Lemma load_segments_other segs m q : ~ seg_region segs q -> load_segments segs m !! q = m !! q.
Proof.
  revert m. induction segs as [|g segs IH]; intros m Hq; [done|]. cbn [load_segments foldl].
  fold (load_segments segs (write_bytes (seg_vaddr g) (snd g) m)). rewrite IH.
  - rewrite write_bytes_lookup, bool_decide_false; [done|]. intros Hr. apply Hq. exists g. by split; [left|].
  - intros (g' & Hin & Hr). apply Hq. exists g'. by split; [right|].
Qed.

Lemma load_segments_snoc segs g m :
  load_segments (segs ++ [g]) m = write_bytes (seg_vaddr g) (snd g) (load_segments segs m).
Proof. unfold load_segments. by rewrite foldl_snoc. Qed.

Lemma field_byte l i : (i < length l)%nat -> field l i 1 = nth i l 0.
Proof.
  intros Hi. unfold field. rewrite Nat2Z.id. destruct (lookup_lt_is_Some_2 l i Hi) as [b Hb].
  erewrite drop_S by exact Hb. rewrite (nth_lookup_Some _ _ 0 _ Hb). simpl. lia.
Qed.

(** An ELF header's worth of bytes at [offset] of the flash. *)
Record header (m : mem) (offset : Z) (hdr : list Z) : Prop := {
  hdr_length : length hdr = 64%nat;
  hdr_bytes : bytes_at m (SPI_FLASH_BASE + offset) hdr;
  hdr_window : 0 <= offset /\ offset + 64 < 2 ^ 28
}.

(** Entry [i] of the table of program headers is [p]. *)
Definition phdr_at (m : mem) (offset : Z) (hdr : list Z) (i : nat) (p : list Z) : Prop :=
  let po := offset + field hdr off_e_phoff 8 + i * field hdr off_e_phentsize 2 in
  0 <= po < 2 ^ 28 /\ length p = 56%nat /\ bytes_at m (SPI_FLASH_BASE + po) p.

(** A bootable image: the header of a little-endian ppc64 program and the
    loadable segments its table of program headers begins with, up to the end
    of the table or the first header that is not loadable, everything within
    the 256 MB window. *)
Record image (m : mem) (offset : Z) (hdr : list Z) (segs : list segment) : Prop := {
  img_magic : take 6 hdr = [0x7f; 69; 76; 70; 2; 1] /\ field hdr off_e_machine 2 = EM_PPC64;
  img_phnum : length segs <= field hdr off_e_phnum 2;
  img_end : length segs < field hdr off_e_phnum 2 -> exists p,
    phdr_at m offset hdr (length segs) p /\ field p off_p_type 4 <> PT_LOAD;
  img_segs : forall (i : nat) p data, segs !! i = Some (p, data) ->
    phdr_at m offset hdr i p /\
    field p off_p_type 4 = PT_LOAD /\ field p off_p_filesz 8 = length data /\ length data < 2 ^ 28 /\
    0 <= offset + field p off_p_offset 8 < 2 ^ 28 /\
    bytes_at m (SPI_FLASH_BASE + (offset + field p off_p_offset 8)) data
}.

Lemma seg_region_take segs n q : seg_region (take n segs) q -> seg_region segs q.
Proof.
  intros (g & Hin & Hr). exists g. split; [|done].
  rewrite <- (take_drop n segs). apply in_or_app. by left.
Qed.

Lemma field_range l off n : Forall in_u8 l -> 0 <= field l off n < 256 ^ n.
Proof.
  intros Hl. unfold field.
  pose proof (le_value_range _ (Forall_take _ n _ (Forall_drop _ (Z.to_nat off) _ Hl))) as Hr.
  assert (256 ^ length (take n (drop (Z.to_nat off) l)) <= 256 ^ n).
  { apply Z.pow_le_mono_r; [lia|]. rewrite length_take. lia. }
  lia.
Qed.

Section loading.
Context {D : Type} `{Bus D} {std : bool} `{!Uart D std}.
Context (lit : list Z -> Z) (buffer ehdr ph : Z).

Abbreviation frame' := (frame lit buffer ehdr ph).
Abbreviation scratch' := (scratch buffer ehdr ph).

Lemma load_field_ok base off n l (s : fw D) :
  0 <= off -> bytes_at (fmem s) base l -> off + Z.of_nat n <= length l ->
  load_field base off n s = Ok (field l off n) s.
Proof.
  intros Ho Hb Hn. unfold load_field, on_mem, field.
  assert (Hlen : length (take n (drop (Z.to_nat off) l)) = n)
    by (rewrite length_take, length_drop; lia).
  assert (Hb' : bytes_at (fmem s) (base + off) (take n (drop (Z.to_nat off) l))).
  { intros i b Hi. apply lookup_take_Some in Hi as [Hi _]. rewrite lookup_drop in Hi.
    apply Hb in Hi. by replace (base + off + i) with (base + (Z.to_nat off + i)%nat) by lia. }
  rewrite <- Hlen at 1. rewrite (load_le_ok _ _ _ Hb'). by destruct s.
Qed.

(** Reading the flash into memory. *)
Lemma fl_read_ok dst off l (s : fw D) :
  console_ok s -> mem_ok (fmem s) -> 0 <= off < 2 ^ 28 -> bytes_at (fmem s) (SPI_FLASH_BASE + off) l ->
  mapped (fmem s) dst (length l) -> forward_safe dst (SPI_FLASH_BASE + off) (length l) ->
  let s' := with_mem s (write_bytes dst l (fmem s)) in
  fl_read dst off (length l) s = Ok true s' /\
  evolves (fun q => dst <= q < dst + length l) s [] s' /\ bytes_at (fmem s') dst l.
Proof.
  intros Hs Hok Ho Hb Hm Hd s'. pose proof (bytes_at_in_u8 _ _ _ Hok Hb) as Hu. split_and!.
  - unfold fl_read, mbind, M_bind, on_mem.
    rewrite u32_small by (unfold SPI_FLASH_BASE in *; lia).
    by rewrite (memcpy_ok _ dst _ l).
  - split; [by destruct Hs|by rewrite app_nil_r|by apply mem_ok_write|by apply write_bytes_dom|].
    intros q Hq. cbn. rewrite write_bytes_lookup, bool_decide_false; [done|lia].
  - apply write_bytes_at.
Qed.

Context (offset : Z) (hdr : list Z) (segs : list segment) (s0 : fw D).
Hypothesis hdr_ok : header (fmem s0) offset hdr.

(** Where the segments go: mapped memory below the flash, off the stack
    bytes and the constants. *)
Hypothesis seg_mapped : forall q, seg_region segs q -> is_Some (fmem s0 !! q) /\ q < SPI_FLASH_BASE.
Hypothesis seg_spares : spares lit (seg_region segs).
Hypothesis seg_scratch : forall q, seg_region segs q -> ~ scratch' q.
Hypothesis stack_low : forall q, scratch' q -> q < SPI_FLASH_BASE.

(** After [i] segments, having sent [t]. *)
Record loading (i : nat) (t : list Z) (s : fw D) : Prop := {
  ld_console : console_ok s;
  ld_sent : sent (fdev s) = sent (fdev s0) ++ t;
  ld_frame : frame' (fmem s);
  ld_dom : dom (fmem s) = dom (fmem s0);
  ld_ehdr : bytes_at (fmem s) ehdr hdr;
  ld_mem : forall q, ~ scratch' q -> fmem s !! q = load_segments (take i segs) (fmem s0) !! q
}.

(** A change of the stack bytes that keeps the header. *)
Lemma loading_evolves i t s R t' s' :
  loading i t s -> evolves R s t' s' -> (forall q, R q -> scratch' q) ->
  (forall q, R q -> ~ (ehdr <= q < ehdr + sizeof_Ehdr)) -> loading i (t ++ t') s'.
Proof.
  intros [Hc Hs Hf Hd He Hm] Hev HR Hh. pose proof (hdr_length _ _ _ hdr_ok) as Hl. split.
  - by apply Hev.
  - rewrite (ev_sent _ _ _ _ Hev), Hs. by rewrite app_assoc.
  - eapply frame_kept; [exact Hf|exact Hev|]. eapply spares_mono; [exact HR|by eapply frame_spares].
  - by rewrite (ev_dom _ _ _ _ Hev).
  - eapply bytes_kept; [exact Hev| |done]. intros q Hq Hr. apply (Hh q Hr).
    unfold sizeof_Ehdr. lia.
  - intros q Hq. rewrite (ev_same _ _ _ _ Hev); [by apply Hm|]. auto.
Qed.

(** The flash is as it was. *)
Lemma loading_flash i t s p l :
  loading i t s -> SPI_FLASH_BASE <= p -> bytes_at (fmem s0) p l -> bytes_at (fmem s) p l.
Proof.
  intros Hld Hp Hb k b Hk. pose proof (ld_mem _ _ _ Hld (p + k)) as Hm. rewrite Hm.
  - rewrite load_segments_other; [by apply Hb|]. intros [_ Hq]%seg_region_take%seg_mapped. lia.
  - intros Hq%stack_low. lia.
Qed.

Lemma loading_mapped i t s p n :
  loading i t s -> mapped (fmem s0) p n -> mapped (fmem s) p n.
Proof. intros Hld. apply mapped_same_dom. by apply Hld. Qed.

(** A segment written where it belongs. *)
Lemma loading_segment i t s g :
  loading i t s -> segs !! i = Some g -> Forall in_u8 (snd g) ->
  loading (S i) t (with_mem s (write_bytes (seg_vaddr g) (snd g) (fmem s))).
Proof.
  intros Hld Hg Hu. set (R q := seg_vaddr g <= q < seg_vaddr g + length (snd g)).
  assert (HR : forall q, R q -> seg_region segs q).
  { intros q Hq. exists g. split; [|done]. by eapply list_elem_of_In, list_elem_of_lookup_2. }
  assert (Hmap : mapped (fmem s) (seg_vaddr g) (length (snd g))).
  { eapply loading_mapped; [exact Hld|]. intros k Hk. apply seg_mapped, HR. unfold R. lia. }
  destruct Hld as [Hc Hs Hf Hd He Hm].
  assert (Hev : evolves R s [] (with_mem s (write_bytes (seg_vaddr g) (snd g) (fmem s)))).
  { split; [by destruct Hc|by rewrite app_nil_r|apply mem_ok_write; [by apply Hf|done..]|by apply write_bytes_dom|].
    intros q Hq. cbn. rewrite write_bytes_lookup, bool_decide_false; [done|]. exact Hq. }
  split; [apply Hev|done| |by rewrite (ev_dom _ _ _ _ Hev)| |].
  - eapply frame_kept; [exact Hf|exact Hev|]. by eapply spares_mono.
  - pose proof (hdr_length _ _ _ hdr_ok) as Hl.
    eapply bytes_kept; [exact Hev| |done]. intros q Hq Hr%HR%seg_scratch. apply Hr.
    right. left. unfold sizeof_Ehdr. lia.
  - intros q Hq. cbn [fmem with_mem]. rewrite (take_S_r _ _ _ Hg), load_segments_snoc, !write_bytes_lookup.
    case_bool_decide; [done|]. by apply Hm.
Qed.

Context (poll : nat).
Hypothesis poll_enough : (max_wait < poll)%nat.

(** The stack frame at the start and the first message. *)
Lemma load_start t s :
  console_ok s -> sent (fdev s) = sent (fdev s0) ++ t -> frame' (fmem s) ->
  dom (fmem s) = dom (fmem s0) -> (forall q, ~ scratch' q -> fmem s !! q = fmem s0 !! q) ->
  exists s', fl_read ehdr offset sizeof_Ehdr s = Ok true s' /\ loading 0 t s'.
Proof.
  intros Hc Hse Hfr Hd Hm. pose proof hdr_ok as [Hl Hb [Ho Hw]].
  pose proof Hfr as [Hok _ (_ & Hme & _) _ _ _].
  assert (Hb' : bytes_at (fmem s) (SPI_FLASH_BASE + offset) hdr).
  { intros k b Hk. rewrite Hm; [by apply Hb|]. intros Hq%stack_low. lia. }
  destruct (fl_read_ok ehdr offset hdr s) as (Hrun & Hev & Hb2).
  - done.
  - done.
  - lia.
  - done.
  - by rewrite Hl.
  - assert (scratch' (ehdr + 63)) as Hq%stack_low by (unfold scratch, sizeof_Ehdr; lia). left. lia.
  - rewrite Hl in *. change (Z.of_nat 64) with 64 in *. eexists. split; [exact Hrun|].
    split; [apply Hev|done| |by rewrite (ev_dom _ _ _ _ Hev)|done|].
    + eapply frame_kept; [exact Hfr|exact Hev|].
      eapply spares_mono; [|by eapply frame_spares]. intros q Hq. right. by left.
    + intros q Hq. rewrite take_0. cbn [load_segments foldl]. rewrite (ev_same _ _ _ _ Hev).
      * by apply Hm.
      * intros Hr. apply Hq. right. by left.
Qed.

Lemma load_printf i t s fl k arg :
  loading i t s -> In fl boot_formats -> plain_format fl k = true -> (k <= length arg)%nat ->
  Forall in_u64 arg -> exists s',
  printf poll lit buffer fl arg s = Ok tt s' /\ loading i (t ++ crlf (printf_text fl arg)) s'.
Proof.
  intros Hld Hin Hp Hk Ha. pose proof (ld_frame _ _ _ Hld) as Hfr.
  destruct (printf_ok lit buffer ehdr ph poll poll_enough fl k arg s) as (s' & Hrun & Hev); try done.
  { by apply Hld. }
  exists s'. split; [done|]. eapply loading_evolves; [exact Hld|exact Hev|by left|].
  pose proof (frame_apart _ _ _ _ _ Hfr) as (Hap & _). unfold in_buffer. intros q Hq. lia.
Qed.

Lemma ehdr_field i t s off n :
  loading i t s -> 0 <= off -> off + Z.of_nat n <= 64 -> load_field ehdr off n s = Ok (field hdr off n) s.
Proof.
  intros Hld Ho Hn. apply load_field_ok; [done|by apply Hld|].
  rewrite (hdr_length _ _ _ hdr_ok). lia.
Qed.

Lemma hdr_byte i t s (k : nat) :
  loading i t s -> (k < 64)%nat -> load_field ehdr k 1 s = Ok (nth k hdr 0) s.
Proof.
  intros Hld Hk. rewrite <- (field_byte hdr k) by (by rewrite (hdr_length _ _ _ hdr_ok)).
  eapply ehdr_field; [exact Hld|lia|lia].
Qed.

Lemma hdr_in_u8 i t s : loading i t s -> Forall in_u8 hdr.
Proof.
  intros Hld. eapply bytes_at_in_u8; [apply (frame_ok _ _ _ _ _ (ld_frame _ _ _ Hld))|].
  by apply Hld.
Qed.

Definition dump_text : list Z :=
  crlf (printf_text (line "HDR: %02x %02x %02x %02x %02x %02x %02x %02x") (take 8 hdr)).

Lemma take_8_nth (l : list Z) : (8 <= length l)%nat ->
  take 8 l = [nth 0 l 0; nth 1 l 0; nth 2 l 0; nth 3 l 0; nth 4 l 0; nth 5 l 0; nth 6 l 0; nth 7 l 0].
Proof. intros Hl. do 8 (destruct l as [|? l]; [simpl in Hl; lia|]). done. Qed.

Lemma dump_ok i t s : loading i t s -> exists s',
  dump poll lit buffer ehdr s = Ok (u64 (-1)) s' /\ loading i (t ++ dump_text) s'.
Proof.
  intros Hld. pose proof (hdr_in_u8 _ _ _ Hld) as Hu. pose proof (hdr_length _ _ _ hdr_ok) as Hl.
  destruct (load_printf i t s (line "HDR: %02x %02x %02x %02x %02x %02x %02x %02x") 8 (take 8 hdr))
    as (s' & Hrun & Hld'); [done|by simpl; tauto|done|rewrite length_take; lia| |].
  { apply Forall_take. eapply Forall_impl; [|exact Hu]. unfold in_u8, in_u64. lia. }
  exists s'. split; [|done]. unfold dump. rewrite take_8_nth in Hrun by lia.
  run_with (eapply (hdr_byte i t s 0 Hld); lia). run_with (eapply (hdr_byte i t s 1 Hld); lia).
  run_with (eapply (hdr_byte i t s 2 Hld); lia). run_with (eapply (hdr_byte i t s 3 Hld); lia).
  run_with (eapply (hdr_byte i t s 4 Hld); lia). run_with (eapply (hdr_byte i t s 5 Hld); lia).
  run_with (eapply (hdr_byte i t s 6 Hld); lia). run_with (eapply (hdr_byte i t s 7 Hld); lia).
  by run_with (exact Hrun).
Qed.

(** The first four bytes are those of an ELF file. *)
Definition elf_magic : bool :=
  (nth 0 hdr 0 =? 0x7f) && (nth 1 hdr 0 =? 69) && (nth 2 hdr 0 =? 76) && (nth 3 hdr 0 =? 70).

Lemma is_elf_ok i t s : loading i t s -> is_elf ehdr s = Ok elf_magic s.
Proof.
  intros Hld. unfold is_elf, elf_magic.
  run_with (eapply (hdr_byte i t s 0 Hld); lia). destruct (nth 0 hdr 0 =? 0x7f); cbn [negb andb]; [|done].
  run_with (eapply (hdr_byte i t s 1 Hld); lia). destruct (nth 1 hdr 0 =? 69); cbn [negb andb]; [|done].
  run_with (eapply (hdr_byte i t s 2 Hld); lia). destruct (nth 2 hdr 0 =? 76); cbn [negb andb]; [|done].
  run_with (eapply (hdr_byte i t s 3 Hld); lia). done.
Qed.

Definition is_elf64 : bool := elf_magic && (nth 4 hdr 0 =? ELFCLASS64).
Definition is_ppc64le : bool :=
  (nth 5 hdr 0 =? ELFDATA2LSB) && (field hdr off_e_machine 2 =? EM_PPC64).

(** [boot_flash] up to the tests of the header. *)
Lemma boot_flash_start :
  console_ok s0 -> frame' (fmem s0) -> exists s1,
  loading 0 (crlf (printf_text (line "Trying flash...") [])) s1 /\
  boot_flash poll lit buffer ehdr ph offset s0 =
    (if negb is_elf64 then
       _ ← printf poll lit buffer (line "Doesn't look like an elf64") []; dump poll lit buffer ehdr
     else if negb is_ppc64le then
       _ ← printf poll lit buffer (line "Not a ppc64le binary") []; dump poll lit buffer ehdr
     else
       ok ← loop (S (Z.to_nat (2 ^ 16))) (boot_flash_step poll lit buffer ehdr ph offset)
              (0, u32 (offset + field hdr off_e_phoff 8));
       if negb ok then dump poll lit buffer ehdr else
       e_entry ← load_field ehdr off_e_entry 8;
       _ ← printf poll lit buffer (line "Booting from DRAM at %x") [u32 e_entry];
       _ ← flush_cpu_icache;
       e_entry ← load_field ehdr off_e_entry 8;
       mret e_entry) s1.
Proof.
  intros Hc Hf.
  destruct (printf_ok lit buffer ehdr ph poll poll_enough (line "Trying flash...") 0 [] s0)
    as (s1 & Hr1 & Hev); [done|done|by simpl; tauto|done|done|constructor|].
  assert (Hsc : forall q, in_buffer buffer q -> scratch' q) by (by left).
  destruct (load_start _ s1 (ev_console _ _ _ _ Hev) (ev_sent _ _ _ _ Hev)) as (s2 & Hr2 & Hld).
  - eapply frame_kept; [exact Hf|exact Hev|]. eapply spares_mono; [exact Hsc|by eapply frame_spares].
  - by apply Hev.
  - intros q Hq. rewrite (ev_same _ _ _ _ Hev); [done|auto].
  - exists s2. split; [done|]. unfold boot_flash. run_with (exact Hr1). run_with (exact Hr2).
    cbn [negb]. cbv iota. run_with (eapply is_elf_ok; exact Hld). unfold is_elf64, is_ppc64le.
    destruct elf_magic; [|done]. run_with (eapply (hdr_byte _ _ _ 4 Hld); lia).
    cbn [negb orb andb]. destruct (nth 4 hdr 0 =? ELFCLASS64); [|done]. cbn [negb]. cbv iota.
    run_with (eapply (hdr_byte _ _ _ 5 Hld); lia). destruct (nth 5 hdr 0 =? ELFDATA2LSB); [|done].
    run_with (eapply (ehdr_field _ _ _ _ _ Hld); [done|done]). cbn [negb orb andb].
    destruct (field hdr off_e_machine 2 =? EM_PPC64); [|done]. cbn [negb]. cbv iota.
    by run_with (eapply (ehdr_field _ _ _ _ _ Hld); [done|done]).
Qed.

Lemma boot_flash_reject_ok :
  console_ok s0 -> frame' (fmem s0) -> is_elf64 && is_ppc64le = false -> exists s' t,
  boot_flash poll lit buffer ehdr ph offset s0 = Ok (u64 (-1)) s' /\ loading 0 t s'.
Proof.
  intros Hc Hf Hbad. destruct (boot_flash_start Hc Hf) as (s1 & Hld & Hrun).
  assert (Hsay : forall fl, In fl boot_formats -> plain_format fl 0 = true -> exists s' t,
    (_ ← printf poll lit buffer fl []; dump poll lit buffer ehdr) s1 = Ok (u64 (-1)) s' /\
    loading 0 t s').
  { intros fl Hin Hp. destruct (load_printf 0 _ s1 fl 0 [] Hld Hin Hp) as (s2 & Hr2 & Hld2);
      [done|constructor|]. destruct (dump_ok _ _ _ Hld2) as (s3 & Hr3 & Hld3).
    eexists _, _. split; [by run_with (exact Hr2)|exact Hld3]. }
  rewrite Hrun. destruct is_elf64; cbn [negb]; cbv iota.
  - simpl in Hbad. rewrite Hbad. cbn [negb]. apply Hsay; [simpl; tauto|done].
  - apply Hsay; [simpl; tauto|done].
Qed.

Hypothesis img : image (fmem s0) offset hdr segs.

(** Where program header [i] is in the flash. *)
Definition phdr_off (i : nat) : Z :=
  u32 (offset + field hdr off_e_phoff 8 + i * field hdr off_e_phentsize 2).

Definition seg_text (i : nat) (g : segment) : list Z :=
  crlf (printf_text (line "Copy segment %d (0x%x bytes) to %p")
    [Z.of_nat i; Z.of_nat (length (snd g)); seg_vaddr g]).

Lemma phdr_off_next i :
  u32 (phdr_off i + field hdr off_e_phentsize 2) = phdr_off (S i).
Proof.
  unfold phdr_off, u32. rewrite Z.add_mod_idemp_l by lia. f_equal. lia.
Qed.

Lemma phdr_read k t s i p :
  loading k t s -> phdr_at (fmem s0) offset hdr i p -> exists s',
  fl_read ph (phdr_off i) sizeof_Phdr s = Ok true s' /\ loading k t s' /\ bytes_at (fmem s') ph p.
Proof.
  intros Hld (Hpo & Hlp & Hb).
  pose proof (ld_frame _ _ _ Hld) as [Hok _ (_ & _ & Hmp) (_ & _ & Hap) _ _].
  assert (Hoff : phdr_off i = offset + field hdr off_e_phoff 8 + i * field hdr off_e_phentsize 2)
    by (unfold phdr_off; rewrite u32_small by lia; done).
  destruct (fl_read_ok ph (phdr_off i) p s) as (Hrun & Hev & Hb').
  - by apply Hld.
  - done.
  - lia.
  - rewrite Hoff. eapply loading_flash; [exact Hld| |done]. unfold SPI_FLASH_BASE. lia.
  - rewrite Hlp. exact Hmp.
  - assert (scratch' (ph + 55)) as Hq%stack_low by (unfold scratch, sizeof_Phdr; lia). left. lia.
  - rewrite Hlp in *. eexists. split; [exact Hrun|]. split; [|done].
    rewrite <- (app_nil_r t). eapply loading_evolves; [exact Hld|exact Hev| |].
    + intros q Hq. right. right. unfold sizeof_Phdr. change (Z.of_nat 56) with 56 in Hq. exact Hq.
    + unfold sizeof_Ehdr, sizeof_Phdr in *. intros q Hq. lia.
Qed.

(** Copying segment [i] from the flash. *)
Lemma segment_read i t s p data :
  loading i t s -> segs !! i = Some (p, data) -> exists s',
  fl_read (field p off_p_vaddr 8) (offset + field p off_p_offset 8) (length data) s = Ok true s' /\
  loading (S i) t s'.
Proof.
  intros Hld Hg. destruct (img_segs _ _ _ _ img i p data Hg) as (_ & _ & _ & Hdl & Hoff & Hbd).
  assert (HR : forall q, seg_vaddr (p, data) <= q < seg_vaddr (p, data) + length data -> seg_region segs q).
  { intros q Hq. exists (p, data). split; [|done]. by eapply list_elem_of_In, list_elem_of_lookup_2. }
  assert (Hb : bytes_at (fmem s) (SPI_FLASH_BASE + (offset + field p off_p_offset 8)) data)
    by (eapply loading_flash; [exact Hld|lia|done]).
  assert (Hok : mem_ok (fmem s)) by apply (ld_frame _ _ _ Hld).
  destruct (fl_read_ok (seg_vaddr (p, data)) (offset + field p off_p_offset 8) data s)
    as (Hrun & _ & _); [by apply Hld|done|done|done| | |].
  - eapply loading_mapped; [exact Hld|]. intros k Hk. apply seg_mapped, HR. lia.
  - destruct (decide (length data = 0%nat)) as [E|E]; [unfold forward_safe; lia|].
    assert (seg_region segs (seg_vaddr (p, data) + length data - 1)) as [_ Hq]%seg_mapped
      by (apply HR; lia). left. lia.
  - eexists. split; [exact Hrun|]. apply (loading_segment i t s (p, data)); [done|done|].
    by eapply bytes_at_in_u8.
Qed.

Lemma phnum_small k t s : loading k t s -> field hdr off_e_phnum 2 < 2 ^ 16.
Proof. intros Hld. apply (field_range hdr off_e_phnum 2). by eapply hdr_in_u8. Qed.

Lemma load_step i t s g :
  loading i t s -> segs !! i = Some g -> exists s',
  boot_flash_step poll lit buffer ehdr ph offset (Z.of_nat i, phdr_off i) s =
    Ok (inl (Z.of_nat (S i), phdr_off (S i))) s' /\
  loading (S i) (t ++ seg_text i g) s'.
Proof.
  intros Hld Hg. pose proof (lookup_lt_Some _ _ _ Hg) as Hlt.
  pose proof (ld_frame _ _ _ Hld) as Hfr. pose proof (frame_apart _ _ _ _ _ Hfr) as (_ & Hap & _).
  destruct g as [p data].
  destruct (img_segs _ _ _ _ img i p data Hg) as (Hph & Hty & Hsz & Hdl & Hoff & Hbd).
  pose proof Hph as (_ & Hlp & _). destruct (phdr_read i t s i p Hld Hph) as (s1 & Hr1 & Hld1 & Hb1).
  cbn [fst snd] in *. pose proof (img_phnum _ _ _ _ img) as Hnum.
  pose proof (bytes_at_in_u8 _ _ _ (frame_ok _ _ _ _ _ (ld_frame _ _ _ Hld1)) Hb1) as Hpu.
  pose proof (field_range p off_p_vaddr 8 Hpu) as Hva. change (256 ^ 8%nat) with (2 ^ 64) in Hva.
  assert (Hi : Z.of_nat (length segs) < 2 ^ 16).
  { eapply Z.le_lt_trans; [exact Hnum|]. by eapply phnum_small. }
  destruct (load_printf i t s1 (line "Copy segment %d (0x%x bytes) to %p") 3
    [Z.of_nat i; Z.of_nat (length data); field p off_p_vaddr 8]) as (s2 & Hr2 & Hld2);
    [done|by simpl; tauto|done|done| |].
  { repeat constructor; lia. }
  enter boot_flash_step. run_with (eapply ehdr_field; [exact Hld|done|done]). if_true.
  run_with (exact Hr1). cbn [negb]. cbv iota.
  run_with (eapply load_field_ok; [done|exact Hb1|by rewrite Hlp]). rewrite Hty, Z.eqb_refl.
  cbn [negb]. cbv iota.
  run_with (eapply load_field_ok; [done|exact Hb1|by rewrite Hlp]). rewrite Hsz. cbv zeta.
  run_with (eapply load_field_ok; [done|exact Hb1|by rewrite Hlp]).
  run_with (eapply load_field_ok; [done|exact Hb1|by rewrite Hlp]).
  rewrite (u32_small (length data)) by lia. run_with (exact Hr2).
  rewrite (u32_small (offset + _)) by lia.
  destruct (segment_read i _ s2 p data Hld2 Hg) as (s3 & Hr3 & Hld3). run_with (exact Hr3).
  run_with (eapply ehdr_field; [exact Hld3|done|done]). rewrite phdr_off_next.
  exists s3. split; [|exact Hld3]. rewrite u32_small by lia.
  by replace (Z.of_nat i + 1) with (Z.of_nat (S i)) by lia.
Qed.

Fixpoint segs_text (i : nat) (l : list segment) : list Z :=
  match l with
  | [] => []
  | g :: l' => seg_text i g ++ segs_text (S i) l'
  end.

(** From the first header that is not loadable on, that header is read in
    every round: the offset of the table is not advanced past it. *)
Lemma stuck_loop k : forall (i : nat) t s f,
  loading (length segs) t s -> Z.of_nat (i + k) = field hdr off_e_phnum 2 -> (length segs <= i)%nat -> (k < f)%nat ->
  exists s', loop f (boot_flash_step poll lit buffer ehdr ph offset) (Z.of_nat i, phdr_off (length segs)) s =
    Ok true s' /\ loading (length segs) t s'.
Proof.
  induction k as [|k IH]; intros i t s f Hld Hi Hn Hf; (destruct f as [|f]; [lia|]).
  - exists s. split; [|done]. apply loop_break. enter boot_flash_step.
    run_with (eapply ehdr_field; [exact Hld|done|done]). by if_false.
  - destruct (img_end _ _ _ _ img ltac:(lia)) as (p & Hph & Hty). pose proof Hph as (_ & Hlp & _).
    pose proof (phnum_small _ _ _ Hld).
    destruct (phdr_read _ _ _ _ _ Hld Hph) as (s1 & Hr1 & Hld1 & Hb1).
    destruct (IH (S i) t s1 f Hld1) as (s2 & Hr2 & Hld2); [lia..|].
    exists s2. split; [|done]. rewrite <- Hr2. apply loop_continue. enter boot_flash_step.
    run_with (eapply ehdr_field; [exact Hld|done|done]). if_true. run_with (exact Hr1). cbn [negb]. cbv iota.
    run_with (eapply load_field_ok; [done|exact Hb1|by rewrite Hlp]). rewrite (proj2 (Z.eqb_neq _ _) Hty).
    cbn [negb]. cbv iota. rewrite u32_small by lia. by replace (Z.of_nat i + 1) with (Z.of_nat (S i)) by lia.
Qed.

Lemma load_loop k : forall (i : nat) t s (f : nat), loading i t s -> (i + k = length segs)%nat ->
  field hdr off_e_phnum 2 - i < f ->
  exists s', loop f (boot_flash_step poll lit buffer ehdr ph offset) (Z.of_nat i, phdr_off i) s =
    Ok true s' /\ loading (length segs) (t ++ segs_text i (drop i segs)) s'.
Proof.
  pose proof (img_phnum _ _ _ _ img) as Hnum.
  induction k as [|k IH]; intros i t s f Hld Hi Hf.
  - rewrite drop_ge, app_nil_r by lia. replace i with (length segs) in * by lia.
    apply (stuck_loop (Z.to_nat (field hdr off_e_phnum 2 - length segs))); [done|lia..].
  - destruct f as [|f]; [lia|]. destruct (lookup_lt_is_Some_2 segs i) as [g Hg]; [lia|].
    destruct (load_step i t s g Hld Hg) as (s1 & Hr1 & Hld1).
    destruct (IH (S i) _ s1 f Hld1) as (s2 & Hr2 & Hld2); [lia|lia|].
    exists s2. rewrite (drop_S _ _ _ Hg). cbn [segs_text]. rewrite app_assoc. split; [|done].
    rewrite <- Hr2. by apply loop_continue.
Qed.

Definition boot_text : list Z :=
  crlf (printf_text (line "Trying flash...") []) ++ segs_text 0 segs ++
  crlf (printf_text (line "Booting from DRAM at %x") [u32 (field hdr off_e_entry 8)]).

Lemma img_tests : is_elf64 = true /\ is_ppc64le = true.
Proof.
  destruct (img_magic _ _ _ _ img) as [Hm Hp]. unfold is_elf64, is_ppc64le, elf_magic.
  assert (Hn : forall k, (k < 6)%nat -> nth k hdr 0 = nth k (take 6 hdr) 0).
  { intros k Hk. rewrite <- (take_drop 6 hdr) at 1. apply app_nth1. rewrite Hm. done. }
  rewrite !Hn, Hm, Hp by lia. done.
Qed.

Lemma boot_flash_load_ok :
  console_ok s0 -> frame' (fmem s0) -> exists s',
  boot_flash poll lit buffer ehdr ph offset s0 = Ok (field hdr off_e_entry 8) s' /\
  loading (length segs) boot_text s'.
Proof.
  intros Hc Hf. destruct (boot_flash_start Hc Hf) as (s1 & Hld & Hrun).
  destruct img_tests as [E1 E2]. rewrite E1, E2 in Hrun. cbn [negb] in Hrun.
  assert (Hp0 : phdr_off 0 = u32 (offset + field hdr off_e_phoff 8)) by (unfold phdr_off; f_equal; lia).
  pose proof (phnum_small _ _ _ Hld) as Hnum.
  destruct (load_loop (length segs) 0 _ s1 (S (Z.to_nat (2 ^ 16))) Hld) as (s2 & Hr2 & Hld2); [done|lia|].
  destruct (load_printf _ _ s2 (line "Booting from DRAM at %x") 1 [u32 (field hdr off_e_entry 8)] Hld2)
    as (s3 & Hr3 & Hld3); [by simpl; tauto|done|done| |].
  { constructor; [|constructor]. pose proof (u32_range (field hdr off_e_entry 8)). unfold in_u64. lia. }
  exists s3. rewrite Hrun. change (Z.of_nat 0) with 0 in Hr2. rewrite Hp0 in Hr2.
  split; [|unfold boot_text; by rewrite app_assoc].
  run_with (exact Hr2). cbn [negb]. cbv iota.
  run_with (eapply (ehdr_field _ _ _ _ _ Hld2); [done|done]). run_with (exact Hr3).
  erewrite bind_ok by reflexivity. by run_with (eapply (ehdr_field _ _ _ _ _ Hld3); [done|done]).
Qed.
End loading.

(** ** Correctness *)

(** The machine [boot_flash] runs on: a console, the stack and constants, an
    image header in the flash, and segments that go to mapped memory below the
    flash, clear of the stack bytes and the constants. *)
Record boot_setting {D} `{Bus D} {std} `{!Uart D std} (lit : list Z -> Z)
    (buffer ehdr ph offset : Z) (hdr : list Z) (segs : list segment) (s : fw D) : Prop := {
  bs_console : console_ok s;
  bs_frame : frame lit buffer ehdr ph (fmem s);
  bs_header : header (fmem s) offset hdr;
  bs_stack q : scratch buffer ehdr ph q -> q < SPI_FLASH_BASE;
  bs_mapped q : seg_region segs q -> is_Some (fmem s !! q) /\ q < SPI_FLASH_BASE;
  bs_spares : spares lit (seg_region segs);
  bs_scratch q : seg_region segs q -> ~ scratch buffer ehdr ph q
}.

(** C7: for any little-endian ppc64 ELF image, [boot_flash] returns its entry
    point with every segment before the first header that is not loadable
    copied to its address, which is every segment when the table holds loadable
    ones only; no other byte outside the stack frame has changed, and the
    messages are the expected ones. *)
Theorem boot_flash_loads {D} `{Bus D} {std} `{!Uart D std} poll lit buffer ehdr ph
    offset hdr segs (s : fw D) :
  (max_wait < poll)%nat -> boot_setting lit buffer ehdr ph offset hdr segs s ->
  image (fmem s) offset hdr segs -> exists s',
    boot_flash poll lit buffer ehdr ph offset s = Ok (field hdr off_e_entry 8) s' /\
    sent (fdev s') = sent (fdev s) ++ boot_text hdr segs /\
    forall q, ~ scratch buffer ehdr ph q -> fmem s' !! q = load_segments segs (fmem s) !! q.
Proof.
  intros Hp [Hc Hf Hh Hst Hm Hsp Hsc] Himg.
  destruct (boot_flash_load_ok lit buffer ehdr ph offset hdr segs s Hh Hm Hsp Hsc Hst poll Hp Himg Hc Hf)
    as (s' & Hrun & [_ Hse _ _ _ Hmem]).
  exists s'. split; [done|]. split; [done|]. intros q Hq. rewrite (Hmem q Hq).
  by rewrite take_ge by lia.
Qed.

(** C14: an image that is not a 64-bit ELF file, or not for little-endian
    ppc64, is refused with the error value: no byte outside the stack frame
    changes. *)
Theorem boot_flash_rejects {D} `{Bus D} {std} `{!Uart D std} poll lit buffer ehdr ph
    offset hdr (s : fw D) :
  (max_wait < poll)%nat -> boot_setting lit buffer ehdr ph offset hdr [] s ->
  is_elf64 hdr && is_ppc64le hdr = false -> exists s',
    boot_flash poll lit buffer ehdr ph offset s = Ok (2 ^ 64 - 1) s' /\
    forall q, ~ scratch buffer ehdr ph q -> fmem s' !! q = fmem s !! q.
Proof.
  intros Hp [Hc Hf Hh Hst Hm Hsp Hsc] Hbad.
  destruct (boot_flash_reject_ok lit buffer ehdr ph offset hdr [] s Hh Hst poll Hp Hc Hf Hbad)
    as (s' & t & Hrun & [_ _ _ _ _ Hmem]).
  exists s'. split; [done|]. intros q Hq. by rewrite (Hmem q Hq).
Qed.

(** ** A concrete machine *)

Definition demo_texts : list (list Z) := codes "0x" :: boot_formats.

Fixpoint index_of (l : list Z) (ts : list (list Z)) : nat :=
  match ts with
  | [] => O
  | t :: ts' => if bool_decide (l = t) then O else S (index_of l ts')
  end.

Definition demo_lit (l : list Z) : Z := 10000 + 64 * index_of l demo_texts.

(** The constants, the stack at 50000, DRAM at 60000 and the flash. *)
Definition boot_mem (flash : list Z) : mem :=
  foldr (fun l m => write_bytes (demo_lit l) (l ++ [0]) m)
    (write_bytes 50000 (replicate 256 0) (write_bytes 60000 (replicate 32 255)
      (write_bytes SPI_FLASH_BASE flash ∅))) demo_texts.

Definition demo_fw (flash : list Z) : fw (board port16550) :=
  Fw (boot_mem flash) (Board (Port16550 3 0 0 0 0 0 [] 0 [] 0)) true UART_BASE.

Lemma off_limits_below (R : Z -> Prop) p l lo :
  p + length l < lo -> (forall q, R q -> lo <= q) -> off_limits R p l.
Proof. intros Hp HR q Hq Hr%HR. lia. Qed.

Lemma demo_lits_low : Forall (fun l => demo_lit l + length l < 50000) demo_texts.
Proof. decide_now. Qed.

Lemma demo_spares R : (forall q, R q -> 50000 <= q) -> spares demo_lit R.
Proof.
  intros HR. pose proof demo_lits_low as Hl. unfold demo_texts in Hl.
  apply Forall_cons_iff in Hl as [H0 Hl]. split.
  - by eapply off_limits_below.
  - intros l Hin. rewrite Forall_forall in Hl. by eapply off_limits_below; [apply Hl|].
Qed.

Definition demo_scratch := scratch 50000 50128 50192.

Lemma demo_scratch_range q : demo_scratch q -> 50000 <= q < 50248.
Proof. unfold demo_scratch, scratch, sizeof_Ehdr, sizeof_Phdr. lia. Qed.

Lemma demo_frame m :
  mem_ok m -> Forall (fun l => cstr m (demo_lit l) l) demo_texts -> mapped m 50000 256 ->
  frame demo_lit 50000 50128 50192 m.
Proof.
  intros Hok Hl Hm. unfold demo_texts in Hl.
  pose proof (demo_spares demo_scratch) as [S0 Sl]; [intros q Hq%demo_scratch_range; lia|].
  apply Forall_cons_iff in Hl as [H0 Hl]. rewrite Forall_forall in Hl. split.
  - done.
  - lia.
  - split_and!; (eapply mapped_mono; [exact Hm|unfold sizeof_Ehdr, sizeof_Phdr; lia..]).
  - unfold sizeof_Ehdr, sizeof_Phdr. lia.
  - by split.
  - intros l Hin. split; [by apply Hl|by apply Sl].
Qed.

Lemma demo_setting flash hdr segs :
  bool_decide (mem_ok (boot_mem flash)) = true ->
  bool_decide (Forall (fun l => cstr (boot_mem flash) (demo_lit l) l) demo_texts) = true ->
  bool_decide (mapped (boot_mem flash) 50000 256 /\ mapped (boot_mem flash) 60000 32) = true ->
  length hdr = 64%nat -> bytes_at (boot_mem flash) SPI_FLASH_BASE hdr ->
  (forall q, seg_region segs q -> 60000 <= q < 60032) ->
  @boot_setting _ (board_bus regs16550 port16550) true (uart16550 regs16550)
    demo_lit 50000 50128 50192 0 hdr segs (demo_fw flash).
Proof.
  intros Hok%bool_decide_eq_true Hl%bool_decide_eq_true [Hm Hm2]%bool_decide_eq_true Hh Hb HR. split.
  - split; [done|done|]. repeat split; simpl; lia || constructor.
  - by apply demo_frame.
  - split; [done|by rewrite Z.add_0_r|lia].
  - intros q Hq%demo_scratch_range. unfold SPI_FLASH_BASE. lia.
  - intros q Hq%HR. unfold SPI_FLASH_BASE. split; [|lia]. eapply mapped_at; [exact Hm2|lia].
  - apply demo_spares. intros q Hq%HR. lia.
  - intros q Hq%HR Hs%demo_scratch_range. lia.
Qed.

(** An image with one segment of five bytes for address 60000. *)
Definition demo_hdr : list Z :=
  [0x7f; 69; 76; 70; 2; 1; 1; 0] ++ replicate 8 0 ++ [2; 0; 21; 0; 1; 0; 0; 0] ++
  [0x60; 0xea; 0; 0; 0; 0; 0; 0] ++ [64; 0; 0; 0; 0; 0; 0; 0] ++ replicate 8 0 ++
  [0; 0; 0; 0; 64; 0; 56; 0; 1; 0; 0; 0; 0; 0; 0; 0].

Definition demo_phdr : list Z :=
  [1; 0; 0; 0; 5; 0; 0; 0] ++ [120; 0; 0; 0; 0; 0; 0; 0] ++ [0x60; 0xea; 0; 0; 0; 0; 0; 0] ++
  replicate 8 0 ++ [5; 0; 0; 0; 0; 0; 0; 0] ++ [5; 0; 0; 0; 0; 0; 0; 0] ++ replicate 8 0.

Definition demo_flash : list Z := demo_hdr ++ demo_phdr ++ [1; 2; 3; 4; 5].
Definition demo_segs : list segment := [(demo_phdr, [1; 2; 3; 4; 5])].

Lemma boot_flash_loads_witness :
  exists s', @boot_flash _ (board_bus regs16550 port16550) 5 demo_lit 50000 50128 50192 0 (demo_fw demo_flash) =
      Ok 60000 s' /\
    tx_log (b_port (fdev s')) = boot_text demo_hdr demo_segs /\
    forall q, ~ demo_scratch q ->
      fmem s' !! q = load_segments demo_segs (boot_mem demo_flash) !! q.
Proof.
  apply (@boot_flash_loads _ (board_bus regs16550 port16550) true (uart16550 regs16550) 5
    demo_lit 50000 50128 50192 0 demo_hdr demo_segs (demo_fw demo_flash)).
  - simpl. lia.
  - apply demo_setting; [vm_compute; reflexivity..| |].
    + decide_now.
    + intros q (g & [<-|[]] & Hq). change (seg_vaddr _) with 60000 in Hq. simpl in Hq. lia.
  - split; [by vm_compute|by vm_compute|intros Hlt; by vm_compute in Hlt|].
    intros [|i] p data Hi; [|done]. injection Hi as <- <-. cbv zeta.
    split_and!; decide_now.
Defined.

Lemma boot_flash_rejects_witness :
  exists s', @boot_flash _ (board_bus regs16550 port16550) 5 demo_lit 50000 50128 50192 0
      (demo_fw (replicate 64 255)) = Ok (2 ^ 64 - 1) s' /\
    forall q, ~ demo_scratch q -> fmem s' !! q = boot_mem (replicate 64 255) !! q.
Proof.
  apply (@boot_flash_rejects _ (board_bus regs16550 port16550) true (uart16550 regs16550) 5
    demo_lit 50000 50128 50192 0 (replicate 64 255) (demo_fw (replicate 64 255))).
  - simpl. lia.
  - apply demo_setting; [vm_compute; reflexivity..| |].
    + decide_now.
    + intros q (g & [] & _).
  - reflexivity.
Defined.

(** A header that is not loadable is read again instead of the next one: this
    image has a note and then the segment above; [boot_flash] returns the entry
    point with nothing loaded. *)
Definition note_flash : list Z :=
  take 56 demo_hdr ++ [2; 0; 0; 0; 0; 0; 0; 0] ++ ([4; 0; 0; 0] ++ drop 4 demo_phdr) ++ demo_phdr ++
  [1; 2; 3; 4; 5].

Lemma boot_flash_note_stops :
  match @boot_flash _ (board_bus regs16550 port16550) 5 demo_lit 50000 50128 50192 0 (demo_fw note_flash) with
  | Ok r s' => r = 60000 /\ fmem s' !! 60000 = Some 255
  | Err _ _ => False
  end.
Proof. vm_compute. split; reflexivity. Qed.

(** ** The payload of the loader itself *)

Definition payload_at : Z := DRAM_INIT_BASE + 0x6000.

Lemma boot_sdram_ok {D} `{Bus D} {std} `{!Uart D std} poll lit buffer ehdr ph payload (s : fw D) :
  (max_wait < poll)%nat -> console_ok s -> frame lit buffer ehdr ph (fmem s) ->
  Z.of_nat (length payload) = 40960 -> bytes_at (fmem s) payload_at payload ->
  mapped (fmem s) DRAM_BASE 40960 -> (forall q, scratch buffer ehdr ph q -> q < DRAM_BASE) ->
  spares lit (fun q => DRAM_BASE <= q < DRAM_BASE + 40960) -> exists s',
  boot_sdram poll lit buffer s = Ok tt s' /\ console_ok s' /\
  (exists t, sent (fdev s') = sent (fdev s) ++ t) /\
  forall q, ~ scratch buffer ehdr ph q -> fmem s' !! q = write_bytes DRAM_BASE payload (fmem s) !! q.
Proof.
  intros Hp Hc Hf Hl Hb Hm Hsc Hsp.
  assert (Hbuf : forall q, in_buffer buffer q -> scratch buffer ehdr ph q) by (by left).
  assert (Hbs : spares lit (in_buffer buffer)) by (eapply spares_mono; [exact Hbuf|by eapply frame_spares]).
  destruct (printf_ok lit buffer ehdr ph poll Hp (line "Copying payload to DRAM...") 0 [] s)
    as (s1 & Hr1 & Hev1); [done|done|by simpl; tauto|done|done|constructor|].
  pose proof (frame_kept _ _ _ _ _ _ _ _ Hf Hev1 Hbs) as Hf1.
  assert (Hb1 : bytes_at (fmem s1) payload_at payload).
  { eapply bytes_kept; [exact Hev1| |done]. intros q Hq Hr%Hbuf%Hsc.
    unfold payload_at, DRAM_INIT_BASE, DRAM_BASE in *. lia. }
  assert (Hm1 : mapped (fmem s1) DRAM_BASE (length payload))
    by (rewrite Hl; eapply mapped_same_dom; [by apply Hev1|done]).
  set (s2 := with_mem s1 (write_bytes DRAM_BASE payload (fmem s1))).
  pose proof (bytes_at_in_u8 _ _ _ (frame_ok _ _ _ _ _ Hf1) Hb1) as Hu.
  assert (Hev2 : evolves (fun q => DRAM_BASE <= q < DRAM_BASE + 40960) s1 [] s2).
  { split; [by destruct (ev_console _ _ _ _ Hev1)|by rewrite app_nil_r|apply mem_ok_write; [apply Hf1|done..]
      |by apply write_bytes_dom|].
    intros q Hq. cbn. rewrite write_bytes_lookup, bool_decide_false; [done|]. rewrite Hl. exact Hq. }
  pose proof (frame_kept _ _ _ _ _ _ _ _ Hf1 Hev2 Hsp) as Hf2.
  destruct (printf_ok lit buffer ehdr ph poll Hp (line "Booting from DRAM...") 0 [] s2)
    as (s3 & Hr3 & Hev3); [by apply Hev2|done|by simpl; tauto|done|done|constructor|].
  exists s3. split_and!; [|by apply Hev3| |].
  - unfold boot_sdram. run_with (exact Hr1). cbv zeta. change (0x10000 - 0x6000) with 40960.
    assert (Hrun : on_mem (memcpy DRAM_BASE payload_at 40960) s1 = Ok DRAM_BASE s2).
    { unfold on_mem. replace 40960 with (Z.of_nat (length payload)) by done.
      rewrite (memcpy_ok _ _ _ payload); [done..|]. left.
      unfold payload_at, DRAM_INIT_BASE, DRAM_BASE. lia. }
    run_with (exact Hrun). by run_with (exact Hr3).
  - eexists. rewrite (ev_sent _ _ _ _ Hev3), (ev_sent _ _ _ _ Hev2), (ev_sent _ _ _ _ Hev1).
    by rewrite <- !app_assoc.
  - intros q Hq. rewrite (ev_same _ _ _ _ Hev3) by auto. cbn. rewrite !write_bytes_lookup.
    case_bool_decide; [done|]. rewrite (ev_same _ _ _ _ Hev1) by auto. done.
Qed.
