(* ===== verification/ElfImage.v ===== *)
(** * Booting an ELF file

    A program as its entry point and its segments, the file a linker makes of
    it with the structures of elf64.h, and the boot loader on a flash that holds
    the file: what is in memory at the end is the program. *)

From S2P Require Import Prelude CMem Ctype LibcMem Vsnprintf VsnprintfSpec Console Elf Boot BootSpec.

(** ** The file *)

(** A segment: where it goes, and its contents. *)
Abbreviation part := (Z * list Z)%type.

Definition elf_ident : list Z := [0x7f; 69; 76; 70; ELFCLASS64; ELFDATA2LSB; 1; 0; 0; 0; 0; 0; 0; 0; 0; 0].

Definition elf_header (entry : Z) (parts : list part) : list Z :=
  pack Elf64_Ehdr [le_value elf_ident; 2; EM_PPC64; 1; entry; sizeof_Ehdr; 0; 0; sizeof_Ehdr; sizeof_Phdr;
    Z.of_nat (length parts); 0; 0; 0].

Definition elf_phdr (off : Z) (g : part) : list Z :=
  pack Elf64_Phdr [PT_LOAD; 7; off; fst g; fst g; Z.of_nat (length (snd g)); Z.of_nat (length (snd g)); 8].

(** The program headers, for contents that start at [off] of the file. *)
Fixpoint elf_segments (off : Z) (parts : list part) : list segment :=
  match parts with
  | [] => []
  | g :: parts => (elf_phdr off g, snd g) :: elf_segments (off + length (snd g)) parts
  end.

Definition elf_data (parts : list part) : Z := sizeof_Ehdr + sizeof_Phdr * length parts.

Definition elf_file (entry : Z) (parts : list part) : list Z :=
  elf_header entry parts ++ concat (map fst (elf_segments (elf_data parts) parts)) ++ concat (map snd parts).

(** The program in memory. *)
Definition load_parts (parts : list part) (m : mem) : mem :=
  foldl (fun m g => write_bytes (fst g) (snd g) m) m parts.

(** ** Its fields *)

Lemma elf_header_length entry parts : length (elf_header entry parts) = 64%nat.
Proof. apply Nat2Z.inj. unfold elf_header. by rewrite (pack_length Elf64_Ehdr). Qed.

Lemma elf_phdr_length off g : length (elf_phdr off g) = 56%nat.
Proof. apply Nat2Z.inj. unfold elf_phdr. by rewrite (pack_length Elf64_Phdr). Qed.

Section fields.
Context (entry : Z) (parts : list part).

Lemma elf_magic_bytes : take 6 (elf_header entry parts) = [0x7f; 69; 76; 70; 2; 1].
Proof. reflexivity. Qed.

Lemma elf_machine : field (elf_header entry parts) off_e_machine 2 = EM_PPC64.
Proof. by apply (get_pack Elf64_Ehdr _ 2 "e_machine" Elf64_Half). Qed.

Lemma elf_entry : in_u64 entry -> field (elf_header entry parts) off_e_entry 8 = entry.
Proof. intros He. by apply (get_pack Elf64_Ehdr _ 4 "e_entry" Elf64_Addr). Qed.

Lemma elf_phoff : field (elf_header entry parts) off_e_phoff 8 = 64.
Proof. by apply (get_pack Elf64_Ehdr _ 5 "e_phoff" Elf64_Off). Qed.

Lemma elf_phentsize : field (elf_header entry parts) off_e_phentsize 2 = 56.
Proof. by apply (get_pack Elf64_Ehdr _ 9 "e_phentsize" Elf64_Half). Qed.

Lemma elf_phnum : Z.of_nat (length parts) < 65536 ->
  field (elf_header entry parts) off_e_phnum 2 = length parts.
Proof.
  intros Hn. apply (get_pack Elf64_Ehdr _ 10 "e_phnum" Elf64_Half); [done..|]. unfold fits. cbn. lia.
Qed.
End fields.

Section phdr.
Context (off : Z) (g : part).

Lemma elf_p_type : field (elf_phdr off g) off_p_type 4 = PT_LOAD.
Proof. by apply (get_pack Elf64_Phdr _ 0 "p_type" Elf64_Word). Qed.

Lemma elf_p_offset : in_u64 off -> field (elf_phdr off g) off_p_offset 8 = off.
Proof. intros Ho. by apply (get_pack Elf64_Phdr _ 2 "p_offset" Elf64_Off). Qed.

Lemma elf_p_vaddr : in_u64 (fst g) -> field (elf_phdr off g) off_p_vaddr 8 = fst g.
Proof. intros Ho. by apply (get_pack Elf64_Phdr _ 3 "p_vaddr" Elf64_Addr). Qed.

Lemma elf_p_filesz : in_u64 (length (snd g)) -> field (elf_phdr off g) off_p_filesz 8 = length (snd g).
Proof. intros Ho. by apply (get_pack Elf64_Phdr _ 5 "p_filesz" Elf64_Xword). Qed.
End phdr.

(** ** The file as an image *)

Lemma elf_segments_length parts : forall off, length (elf_segments off parts) = length parts.
Proof. induction parts as [|g parts IH]; intros off; [done|]. cbn [elf_segments length]. by rewrite IH. Qed.

(** Where the contents of segment [i] start, counted from those of the first. *)
Definition data_before (i : nat) (parts : list part) : Z := length (concat (map snd (take i parts))).

Lemma elf_segments_lookup parts : forall off (i : nat) p data, elf_segments off parts !! i = Some (p, data) ->
  exists g, parts !! i = Some g /\ p = elf_phdr (off + data_before i parts) g /\ data = snd g.
Proof.
  induction parts as [|g parts IH]; intros off [|i] p data Hi; try done; cbn [elf_segments lookup list_lookup] in Hi.
  - injection Hi as <- <-. exists g. split; [done|]. unfold data_before. by rewrite Z.add_0_r.
  - destruct (IH _ _ _ _ Hi) as (g' & Hg & -> & ->). exists g'. split_and!; [done| |done]. f_equal.
    unfold data_before. cbn [take map concat]. rewrite length_app. lia.
Qed.

Lemma bytes_at_phdrs m parts : forall q off (i : nat) p data,
  bytes_at m q (concat (map fst (elf_segments off parts))) -> elf_segments off parts !! i = Some (p, data) ->
  bytes_at m (q + 56 * i) p.
Proof.
  induction parts as [|g parts IH]; intros q off [|i] p data Hb Hi; try done;
    cbn [elf_segments map concat fst lookup list_lookup] in *; apply bytes_at_app in Hb as [Hb1 Hb2].
  - injection Hi as <- <-. by rewrite Z.add_0_r.
  - rewrite elf_phdr_length in Hb2. replace (q + 56 * S i) with (q + 56%nat + 56 * i) by lia. by eapply IH.
Qed.

Lemma bytes_at_data m parts : forall q (i : nat) g,
  bytes_at m q (concat (map snd parts)) -> parts !! i = Some g -> bytes_at m (q + data_before i parts) (snd g).
Proof.
  induction parts as [|g' parts IH]; intros q [|i] g Hb Hi; try done;
    cbn [map concat lookup list_lookup] in *; apply bytes_at_app in Hb as [Hb1 Hb2].
  - injection Hi as <-. by rewrite Z.add_0_r.
  - unfold data_before. cbn [take map concat]. rewrite length_app.
    replace (q + (length (snd g') + length (concat (map snd (take i parts))))%nat)
      with (q + length (snd g') + data_before i parts) by (unfold data_before; lia). by apply IH.
Qed.

Lemma data_before_end i parts g : parts !! i = Some g ->
  data_before i parts + length (snd g) <= length (concat (map snd parts)).
Proof.
  intros Hi. rewrite <- (take_drop_middle _ _ _ Hi) at 2. unfold data_before.
  rewrite map_app, concat_app, length_app. cbn [map concat]. rewrite length_app. lia.
Qed.

Lemma phdrs_length parts : forall off,
  length (concat (map fst (elf_segments off parts))) = (56 * length parts)%nat.
Proof.
  induction parts as [|g parts IH]; intros off; [done|]. cbn [elf_segments map concat fst].
  rewrite length_app, elf_phdr_length, IH. cbn [length]. lia.
Qed.

Lemma elf_file_length entry parts :
  Z.of_nat (length (elf_file entry parts)) = elf_data parts + length (concat (map snd parts)).
Proof.
  unfold elf_file, elf_data. rewrite !length_app, elf_header_length, phdrs_length.
  unfold sizeof_Ehdr, sizeof_Phdr. lia.
Qed.

(** A program the format can hold. *)
Definition program_ok (entry : Z) (parts : list part) : Prop :=
  in_u64 entry /\ Z.of_nat (length parts) < 65536 /\ Forall (fun g => in_u64 (fst g)) parts.

Lemma elf_file_image m offset entry parts :
  program_ok entry parts -> 0 <= offset -> offset + length (elf_file entry parts) < 2 ^ 28 ->
  bytes_at m (SPI_FLASH_BASE + offset) (elf_file entry parts) ->
  image m offset (elf_header entry parts) (elf_segments (elf_data parts) parts).
Proof.
  intros (He & Hn & Hv) Ho Hend Hb. rewrite elf_file_length in Hend. unfold elf_file in Hb.
  apply bytes_at_app in Hb as [_ Hb]. apply bytes_at_app in Hb as [Hph Hd].
  rewrite elf_header_length in Hph, Hd. rewrite phdrs_length in Hd.
  unfold elf_data, sizeof_Ehdr, sizeof_Phdr in Hend. split.
  - split; [apply elf_magic_bytes|apply elf_machine].
  - rewrite elf_phnum, elf_segments_length by done. lia.
  - rewrite elf_phnum, elf_segments_length by done. lia.
  - intros i p data Hi. pose proof (bytes_at_phdrs _ _ _ _ _ _ _ Hph Hi) as Hp.
    destruct (elf_segments_lookup _ _ _ _ _ Hi) as (g & Hg & -> & ->).
    pose proof (bytes_at_data _ _ _ _ _ Hd Hg) as Hdata. pose proof (data_before_end _ _ _ Hg) as Hde.
    pose proof (lookup_lt_Some _ _ _ Hg) as Hlt. rewrite List.Forall_forall in Hv.
    specialize (Hv g ltac:(by eapply list_elem_of_In, list_elem_of_lookup_2)).
    assert (0 <= data_before i parts) by (unfold data_before; lia).
    unfold elf_data, sizeof_Ehdr, sizeof_Phdr in *.
    rewrite elf_p_type, elf_p_filesz, elf_p_offset by (unfold in_u64; lia).
    unfold phdr_at. cbv zeta. rewrite elf_phoff, elf_phentsize, elf_phdr_length. split_and!; try done; try lia.
    + by replace (SPI_FLASH_BASE + (offset + 64 + i * 56)) with (SPI_FLASH_BASE + offset + 64%nat + 56 * i) by lia.
    + by replace (SPI_FLASH_BASE + (offset + (64 + 56 * length parts + data_before i parts)))
        with (SPI_FLASH_BASE + offset + 64%nat + (56 * length parts)%nat + data_before i parts) by lia.
Qed.

Lemma load_parts_segments parts : forall off m, Forall (fun g => in_u64 (fst g)) parts ->
  load_segments (elf_segments off parts) m = load_parts parts m.
Proof.
  induction parts as [|g parts IH]; intros off m Hv; [done|]. apply Forall_cons_iff in Hv as [Hg Hv].
  cbn [elf_segments]. unfold load_segments, load_parts. cbn [foldl snd]. unfold seg_vaddr at 2. cbn [fst].
  rewrite elf_p_vaddr by done. by apply IH.
Qed.

(** C8: linking and booting: when the flash holds the ELF file of a program,
    made with the structures of elf64.h, [boot_flash] returns the program's
    entry point with the contents of each of its segments at the segment's
    address, and nothing else outside the stack frame changed. *)
Theorem elf_file_boots {D} `{Bus D} {std} `{!Uart D std} poll lit buffer ehdr ph
    offset entry parts (s : fw D) :
  (max_wait < poll)%nat -> program_ok entry parts ->
  offset + length (elf_file entry parts) < 2 ^ 28 ->
  boot_setting lit buffer ehdr ph offset (elf_header entry parts) (elf_segments (elf_data parts) parts) s ->
  bytes_at (fmem s) (SPI_FLASH_BASE + offset) (elf_file entry parts) -> exists s',
    boot_flash poll lit buffer ehdr ph offset s = Ok entry s' /\
    forall q, ~ scratch buffer ehdr ph q -> fmem s' !! q = load_parts parts (fmem s) !! q.
Proof.
  intros Hp Hok Hend [Hc Hf Hh Hst Hm Hsp Hsc] Hb. pose proof (hdr_window _ _ _ Hh) as [Ho _].
  pose proof (elf_file_image _ _ _ _ Hok Ho Hend Hb) as Himg. destruct Hok as (He & _ & Hv).
  destruct (boot_flash_load_ok lit buffer ehdr ph offset _ _ s Hh Hm Hsp Hsc Hst poll Hp Himg Hc Hf)
    as (s' & Hrun & [_ _ _ _ _ Hmem]).
  exists s'. rewrite elf_entry in Hrun by done. split; [done|]. intros q Hq.
  by rewrite (Hmem q Hq), take_ge, load_parts_segments by done.
Qed.

(** Two segments, for addresses 60000 and 60016. *)
Definition two_parts : list part := [(60000, [1; 2; 3]); (60016, [4; 5])].

Lemma elf_file_boots_witness : exists s',
  @boot_flash _ (board_bus regs16550 port16550) 5 demo_lit 50000 50128 50192 0
    (demo_fw (elf_file 60016 two_parts)) = Ok 60016 s' /\
  forall q, ~ demo_scratch q -> fmem s' !! q = load_parts two_parts (boot_mem (elf_file 60016 two_parts)) !! q.
Proof.
  apply (@elf_file_boots _ (board_bus regs16550 port16550) true (uart16550 regs16550) 5
    demo_lit 50000 50128 50192 0 60016 two_parts (demo_fw (elf_file 60016 two_parts))).
  - simpl. lia.
  - unfold program_ok, in_u64. split_and!; [lia|lia|by vm_compute|]. repeat constructor; cbn; lia.
  - by vm_compute.
  - apply demo_setting; [vm_compute; reflexivity..| |].
    + decide_now.
    + intros q (g & [<-|[<-|[]]] & Hq); cbn [snd] in Hq;
        [change (seg_vaddr _) with 60000 in Hq|change (seg_vaddr _) with 60016 in Hq]; simpl in Hq; lia.
  - decide_now.
Defined.
