(* ===== verification/FlashRead.v ===== *)
(** * Reading the flash through the controller: main.c, fl_read

    Built without FLASH_LOADER_USE_MAP, [fl_read] sends a quad read command to
    the flash chip and fetches the bytes one by one instead of copying them from
    the window.  The two are proved to do the same. *)

From S2P Require Import Prelude CMem Ctype LibcMem Vsnprintf VsnprintfSpec Console Elf Boot BootSpec.

Definition SPI_REG_DATA_QUAD : Z := 0x02.

Section serial.
Context {D : Type} `{Bus D}.

Definition fl_read_step : Z * Z -> M (fw D) (Z * Z + unit) := fun '(d, size) =>
  if size =? 0 then mret (inr tt) else
  v ← readb (SPI_FCTRL_BASE + SPI_REG_DATA_QUAD);
  _ ← on_mem (storeb d v);
  mret (inl (d + 1, u32 (size - 1))).

Definition fl_read_serial (dst offset size : Z) : M (fw D) bool :=
  if size <? 1 then mret false else
  _ ← fl_cs_on;
  _ ← writeb SPI_CMD_QUAD_FREAD (SPI_FCTRL_BASE + SPI_REG_DATA);
  _ ← writeb (Z.shiftr offset 16) (SPI_FCTRL_BASE + SPI_REG_DATA);
  _ ← writeb (Z.shiftr offset 8) (SPI_FCTRL_BASE + SPI_REG_DATA);
  _ ← writeb offset (SPI_FCTRL_BASE + SPI_REG_DATA);
  _ ← writeb 0x00 (SPI_FCTRL_BASE + SPI_REG_DATA);
  _ ← loop (S (Z.to_nat size)) fl_read_step (dst, size);
  _ ← fl_cs_off;
  mret true.
End serial.

(** ** The chip *)

(** The bytes of a quad read: the command, a three-byte address, a dummy. *)
Definition quad_command (a : Z) : list Z := [SPI_CMD_QUAD_FREAD; a / 2 ^ 16; a / 2 ^ 8 mod 256; a mod 256; 0].

Definition send {D} `{Bus D} (l : list Z) (d : D) : D :=
  foldl (fun d v => bus_write 1 (SPI_FCTRL_BASE + SPI_REG_DATA) v d) d l.

(** [reading a d]: the chip is selected and the next byte it gives on four
    wires is that at [a] of its [contents]. *)
Class QuadChip (D : Type) `{Bus D} (contents : Z -> Z) := {
  reading : Z -> D -> Prop;
  quad_start a d : 0 <= a < 2 ^ 24 ->
    reading a (send (quad_command a) (bus_write 1 (SPI_FCTRL_BASE + SPI_REG_CTRL) SPI_REG_CTRL_MANUAL_CS d));
  quad_next a d : reading a d -> exists v d',
    bus_read 1 (SPI_FCTRL_BASE + SPI_REG_DATA_QUAD) d = (v, d') /\ v mod 256 = contents a /\ reading (a + 1) d'
}.

Definition chip_bytes (contents : Z -> Z) (a : Z) (n : nat) : list Z :=
  map (fun i : nat => contents (a + i)) (seq 0 n).

Lemma chip_bytes_cons contents a n : chip_bytes contents a (S n) = contents a :: chip_bytes contents (a + 1) n.
Proof.
  unfold chip_bytes. cbn [seq map]. rewrite Z.add_0_r. f_equal. rewrite <- (fmap_S_seq 0), map_map.
  apply map_ext. intros i. f_equal. lia.
Qed.

Section read.
Context {D : Type} `{Bus D} {contents : Z -> Z} `{!QuadChip D contents}.

Lemma serial_loop (n : nat) : forall a d (s : fw D) f,
  reading a (fdev s) -> mapped (fmem s) d n -> (n < f)%nat -> Z.of_nat n < 2 ^ 32 -> exists s',
  loop f fl_read_step (d, Z.of_nat n) s = Ok tt s' /\
  fmem s' = write_bytes d (chip_bytes contents a n) (fmem s).
Proof.
  induction n as [|n IH]; intros a d s f Hr Hm Hf Hn; (destruct f as [|f]; [lia|]).
  - exists s. split; [|done]. apply loop_break. reflexivity.
  - destruct (quad_next a (fdev s) Hr) as (v & d' & Hv & Hc & Hr').
    assert (Hp : is_Some (fmem s !! d)) by (eapply mapped_at; [exact Hm|lia]).
    set (s1 := with_mem (with_dev s d') (<[d := contents a]> (fmem s))).
    destruct (IH (a + 1) (d + 1) s1 f) as (s' & Hrun & Hmem); [exact Hr'| |lia|lia|].
    { apply (mapped_same_dom (fmem s)); [|eapply mapped_mono; [exact Hm|lia|lia]].
      cbn. by apply dom_insert_lookup_L. }
    exists s'. split.
    + rewrite <- Hrun. apply loop_continue. enter fl_read_step. rewrite (proj2 (Z.eqb_neq _ _)) by lia.
      assert (E1 : readb (SPI_FCTRL_BASE + SPI_REG_DATA_QUAD) s = Ok (contents a) (with_dev s d')).
      { unfold readb, read_bus. rewrite Hv. change (2 ^ (8 * 1)) with 256. by rewrite Hc. }
      run_with (exact E1).
      assert (E2 : on_mem (storeb d (contents a)) (with_dev s d') = Ok tt s1).
      { unfold on_mem. cbn [fmem with_dev]. rewrite storeb_ok by done. unfold u8. change (2 ^ 8) with 256.
        rewrite <- Hc, Z.mod_mod, Hc by lia. done. }
      run_with (exact E2). rewrite u32_small by lia. by replace (S n - 1) with (Z.of_nat n) by lia.
    + rewrite Hmem, chip_bytes_cons. reflexivity.
Qed.

Lemma serial_read_ok dst off (n : nat) (s : fw D) :
  (0 < n)%nat -> Z.of_nat n < 2 ^ 32 -> 0 <= off < 2 ^ 24 -> mapped (fmem s) dst n -> exists s',
  fl_read_serial dst off n s = Ok true s' /\ fmem s' = write_bytes dst (chip_bytes contents off n) (fmem s).
Proof.
  intros Hpos Hn Ho Hm. unfold fl_read_serial. if_false.
  set (d1 := send (quad_command off) (bus_write 1 (SPI_FCTRL_BASE + SPI_REG_CTRL) SPI_REG_CTRL_MANUAL_CS (fdev s))).
  destruct (serial_loop n off dst (with_dev s d1) (S (Z.to_nat n))) as (s2 & Hloop & Hmem);
    [by apply quad_start|done|lia|done|].
  exists (with_dev s2 (bus_write 1 (SPI_FCTRL_BASE + SPI_REG_CTRL) 0 (fdev s2))). split; [|exact Hmem].
  unfold fl_cs_on, fl_cs_off, writeb. do 6 (erewrite bind_ok by reflexivity).
  cbn [fdev with_dev]. change (2 ^ (8 * 1)) with 256.
  assert (E : Z.shiftr off 16 mod 256 = off / 2 ^ 16)
    by (rewrite Z.shiftr_div_pow2, Z.mod_small by (lia || (split; [apply Z.div_pos; lia|apply Z.div_lt_upper_bound; lia])); done).
  rewrite E, (Z.shiftr_div_pow2 off 8) by lia.
  by erewrite bind_ok by (exact Hloop).
Qed.
End read.

(** C30: the two builds of [fl_read] are the same: where the window shows the
    contents of the chip, reading through the controller succeeds and leaves
    memory as copying from the window does.  This is for at least one byte and
    fewer than 2{^28}, an offset in the first 16 MB, since the command has three
    bytes of address, and a destination that is mapped and where copying upwards
    does not overwrite the part of the window that is still to be read. *)
Theorem fl_read_builds_agree {D} `{Bus D} {contents} `{!QuadChip D contents} dst off (n : nat) (s : fw D) :
  mem_ok (fmem s) -> (0 < n)%nat -> Z.of_nat n < 2 ^ 28 -> 0 <= off < 2 ^ 24 ->
  bytes_at (fmem s) (SPI_FLASH_BASE + off) (chip_bytes contents off n) -> mapped (fmem s) dst n ->
  forward_safe dst (SPI_FLASH_BASE + off) n -> exists s1 s2,
  fl_read dst off n s = Ok true s1 /\ fl_read_serial dst off n s = Ok true s2 /\ fmem s1 = fmem s2.
Proof.
  intros Hok Hpos Hn Ho Hb Hm Hs. destruct (serial_read_ok dst off n s) as (s2 & Hr2 & Hm2); [done|lia|done|done|].
  assert (Hl : length (chip_bytes contents off n) = n) by (unfold chip_bytes; by rewrite length_map, length_seq).
  pose proof (bytes_at_in_u8 _ _ _ Hok Hb) as Hu.
  exists (with_mem s (write_bytes dst (chip_bytes contents off n) (fmem s))), s2. split; [|by split; [|rewrite Hm2]].
  unfold fl_read, mbind, M_bind, on_mem. rewrite u32_small by (unfold SPI_FLASH_BASE; lia).
  rewrite <- Hl at 1. rewrite (memcpy_ok _ dst _ (chip_bytes contents off n)); rewrite ?Hl; done.
Qed.

(** ** A chip *)

Module Chip.
Record chip := MkChip { c_sent : list Z; c_given : Z }.

Definition contents (a : Z) : Z := (7 * a + 3) mod 256.

(** The address in the bytes sent. *)
Definition address (l : list Z) : Z := nth 1 l 0 * 2 ^ 16 + nth 2 l 0 * 2 ^ 8 + nth 3 l 0.

#[local] Instance chip_bus : Bus chip := {|
  bus_read n addr d :=
    if addr =? SPI_FCTRL_BASE + SPI_REG_DATA_QUAD
    then (contents (address (c_sent d) + c_given d), MkChip (c_sent d) (c_given d + 1)) else (0, d);
  bus_write n addr v d :=
    if addr =? SPI_FCTRL_BASE + SPI_REG_DATA then MkChip (c_sent d ++ [v]) (c_given d)
    else if addr =? SPI_FCTRL_BASE + SPI_REG_CTRL then MkChip [] 0 else d
|}.

#[local] Instance chip_quad : QuadChip chip contents.
Proof.
  refine {| reading a d := address (c_sent d) + c_given d = a |}.
  - intros a d Ha. change (address (quad_command a) + 0 = a). unfold address, quad_command. cbn [nth].
    change (2 ^ 16) with 65536. change (2 ^ 8) with 256. Z.div_mod_to_equations. lia.
  - intros a d <-. eexists _, _. split; [reflexivity|]. split; [by unfold contents; rewrite Z.mod_mod|].
    cbn [c_sent c_given]. lia.
Defined.

Definition start : fw chip :=
  Fw (write_bytes 1000 (replicate 8 0) (block (SPI_FLASH_BASE + 70000) (chip_bytes contents 70000 4)))
    (MkChip [] 0) true UART_BASE.

Lemma fl_read_builds_agree_witness : exists s1 s2,
  fl_read 1002 70000 4%nat start = Ok true s1 /\ fl_read_serial 1002 70000 4%nat start = Ok true s2 /\
  fmem s1 = fmem s2.
Proof.
  apply (fl_read_builds_agree 1002 70000 4 start);
    [decide_now|lia|lia|lia|decide_now|decide_now|left; vm_compute; done].
Defined.

(** A request for nothing fails in one build and not in the other. *)
Example empty_read : fl_read_serial 1002 70000 0 start = Ok false start /\
  fl_read 1002 70000 0 start = Ok true start.
Proof. split; vm_compute; reflexivity. Qed.
End Chip.
