(* ===== verification/BootMain.v ===== *)
(** * The boot loader from its first instruction to its last

    [main] prints the report on the SoC, looks at the SPI flash, starts the
    DRAM and chooses what to boot.  The report is a function of the system
    controller's registers; for the rest it is enough that each step ends and
    leaves the machine fit for the next one, which a small Hoare logic
    collects.  What is promised of the devices and of the LiteX calibration is
    in [SpiFlash] and [Calibration]. *)

From S2P Require Import Prelude CMem Ctype LibcMem LibcStr Strto Vsnprintf VsnprintfSpec Console Boot BootSpec.

(** ** What the rest of the SoC promises *)

Definition off_syscon (addr : Z) : Prop := addr < SYSCON_BASE \/ SYSCON_BASE + 0x1000 <= addr.
Definition aside (addr : Z) : Prop := (addr < UART_BASE \/ UART_BASE + 0x1000 <= addr) /\ off_syscon addr.

(** A look at the status register of the flash: chip select, the command, the
    answer, chip deselect. *)
Definition flash_status {D} `{Bus D} (d : D) : Z * D :=
  let d := bus_write 1 (SPI_FCTRL_BASE + SPI_REG_CTRL) SPI_REG_CTRL_MANUAL_CS d in
  let d := bus_write 1 (SPI_FCTRL_BASE + SPI_REG_DATA) SPI_CMD_RDSR d in
  let '(v, d) := bus_read 1 (SPI_FCTRL_BASE + SPI_REG_DATA) d in
  (v, bus_write 1 (SPI_FCTRL_BASE + SPI_REG_CTRL) 0 d).

(** Accesses outside the UART and the system controller leave the serial port alone, and the flash says
    for at most [max_wip] looks that a write is in progress. *)
Class SpiFlash (D : Type) `{Uart D std} := {
  wip : D -> nat;
  max_wip : nat;
  aside_read n addr d : aside addr -> uart_inv d ->
    uart_inv (snd (bus_read n addr d)) /\ sent (snd (bus_read n addr d)) = sent d;
  aside_write n addr v d : aside addr -> uart_inv d ->
    uart_inv (bus_write n addr v d) /\ sent (bus_write n addr v d) = sent d;
  wip_bound d : uart_inv d -> (wip d <= max_wip)%nat;
  wip_status d : uart_inv d ->
    Z.testbit (fst (flash_status d)) 0 = (0 <? wip d)%nat /\ wip (snd (flash_status d)) = pred (wip d)
}.

(** The control register of the system controller has four bits; what is
    written is kept when the bits for the resets and for the memory at 0 are as
    they were, and nothing but a write to the register changes it. *)
Class SysCtrl (D : Type) `{Uart D std} := {
  sys_ctrl : D -> Z;
  ctrl_range d : 0 <= sys_ctrl d < 16;
  ctrl_read d : bus_read 8 (SYSCON_BASE + SYS_REG_CTRL) d = (sys_ctrl d, d);
  ctrl_write v d : uart_inv d -> 0 <= v < 16 -> v mod 8 = sys_ctrl d mod 8 ->
    let d' := bus_write 8 (SYSCON_BASE + SYS_REG_CTRL) v d in
    sys_ctrl d' = v /\ uart_inv d' /\ sent d' = sent d;
  ctrl_kept_read n addr d : off_syscon addr -> sys_ctrl (snd (bus_read n addr d)) = sys_ctrl d;
  ctrl_kept_write n addr v d : off_syscon addr -> sys_ctrl (bus_write n addr v d) = sys_ctrl d
}.

(** A serial port together with the control register at [v]: what is proved of
    any serial port then says in addition that the register stays [v]. *)
Section ctrl_port.
Context {D : Type} `{Bus D} {std : bool} `{!Uart D std} `{!SysCtrl D} (v : Z).

Lemma setup_ctrl freq d : sys_ctrl (run_writes (io_width std) (setup_writes std freq) d) = sys_ctrl d.
Proof.
  unfold setup_writes, run_writes. cbv zeta.
  destruct std; cbn [foldl]; by rewrite !ctrl_kept_write by (by right; vm_compute).
Qed.

Program Definition ctrl_uart : Uart D std := {|
  uart_fresh d := uart_fresh d /\ sys_ctrl d = v;
  uart_inv d := uart_inv d /\ sys_ctrl d = v;
  sent := sent; pending := pending; tx_wait := tx_wait; rx_wait := rx_wait; max_wait := max_wait
|}.
Next Obligation. intros d [Hi _]. by apply wait_bound. Qed.
Next Obligation.
  intros d freq [Hi Hv] Hf. destruct (setup_ok d freq Hi Hf) as [H1 H2].
  split; [split; [exact H1|by rewrite setup_ctrl]|exact H2].
Qed.
Next Obligation.
  intros d [Hi Hv]. destruct (status_ok d Hi) as (x & d' & Hr & H1 & Hrest).
  exists x, d'. split; [done|]. split; [|done]. split; [done|].
  pose proof (ctrl_kept_read (io_width std) (status_addr std) d) as Hk. rewrite Hr in Hk. cbn [snd] in Hk. rewrite Hk; [done|].
  by right; destruct std; vm_compute.
Qed.
Next Obligation.
  intros d c [Hi Hv] Hz Hc. destruct (tx_ok d c Hi Hz Hc) as (H1 & H2). split; [|exact H2].
  split; [exact H1|]. rewrite ctrl_kept_write; [done|]. by right; destruct std; vm_compute.
Qed.
Next Obligation.
  intros d c l [Hi Hv] Hz Hp. destruct (rx_ok d c l Hi Hz Hp) as (x & d' & Hr & Hx & H1 & H2).
  exists x, d'. split; [done|]. split; [done|]. split; [|done]. split; [done|].
  pose proof (ctrl_kept_read (io_width std) (rx_addr std) d) as Hk. rewrite Hr in Hk. cbn [snd] in Hk. rewrite Hk; [done|].
  by right; destruct std; vm_compute.
Qed.

Program Definition ctrl_flash `{!SpiFlash D} : @SpiFlash D _ std ctrl_uart :=
  {| wip := wip; max_wip := max_wip |}.
Next Obligation.
  intros F n addr d Ha [Hi Hv]. destruct (aside_read n addr d Ha Hi). split; [split; [done|]|done].
  rewrite ctrl_kept_read; [done|apply Ha].
Qed.
Next Obligation.
  intros F n addr x d Ha [Hi Hv]. destruct (aside_write n addr x d Ha Hi). split; [split; [done|]|done].
  rewrite ctrl_kept_write; [done|apply Ha].
Qed.
Next Obligation. intros F d [Hi _]. by apply wip_bound. Qed.
Next Obligation. intros F d [Hi _]. by apply wip_status. Qed.
End ctrl_port.

(** The memory behind the DRAM controller. *)
Definition in_dram (q : Z) : Prop := DRAM_BASE <= q < SYSCON_BASE.

(** The calibration ends, may print, and writes nothing but DRAM. *)
Record Calibration {D} `{Uart D std} (done : M (fw D) Z) (init : M (fw D) unit) : Prop := {
  calib_done s : console_ok s -> mem_ok (fmem s) -> exists v s' t,
    done s = Ok v s' /\ evolves in_dram s t s';
  calib_init s : console_ok s -> mem_ok (fmem s) -> exists s' t,
    init s = Ok tt s' /\ evolves in_dram s t s'
}.

(** ** The report *)

Definition feature_text (regs : Z -> Z) (k : Z) (name : string) : list Z :=
  if Z.testbit (regs SYS_REG_INFO) k then crlf (printf_text (codes name) []) else [].

Definition value_text (fmt : string) (v : Z) : list Z := crlf (printf_text (line fmt) [v]).

Definition report_text (regs : Z -> Z) : list Z :=
  crlf (printf_text ([10; 10] ++ codes "Welcome to Microwatt !" ++ [10; 10]) []) ++
  value_text " Soc signature: %016llx" (u64 (regs SYS_REG_SIGNATURE)) ++
  crlf (printf_text (codes "  Soc features: ") []) ++
  feature_text regs 0 "UART " ++ feature_text regs 1 "DRAM " ++ feature_text regs 2 "BRAM " ++
  feature_text regs 3 "SPIFLASH " ++ feature_text regs 4 "ETHERNET " ++ feature_text regs 8 "SDCARD " ++
  [13; 10] ++
  (if Z.testbit (regs SYS_REG_INFO) 2 then
     value_text "          BRAM: %ld KB" (regs SYS_REG_BRAMINFO mod 2 ^ 52 / 1024) else []) ++
  (if Z.testbit (regs SYS_REG_INFO) 1 then
     value_text "          DRAM: %ld MB" (regs SYS_REG_DRAMINFO mod 2 ^ 52 / (1024 * 1024)) ++
     value_text "     DRAM INIT: %ld KB" (u64 (regs SYS_REG_DRAMINITINFO) / 1024) else []) ++
  value_text "           CLK: %ld MHz" (regs SYS_REG_CLKINFO mod 2 ^ 40 / 1000000).

(** Whether there is a flash to boot from, and where in it the image is. *)
Definition flash_info (regs : Z -> Z) : bool * Z :=
  if Z.testbit (regs SYS_REG_INFO) 3 then (true, regs SYS_REG_SPI_INFO mod 2 ^ 32) else (false, 0).

Lemma reg_field v w : 0 <= w <= 64 -> Z.land (u64 v) (Z.ones w) = v mod 2 ^ w.
Proof.
  intros Hw. rewrite Z.land_ones by lia. unfold u64. apply Z.mod_mod_divide.
  exists (2 ^ (64 - w)). rewrite <- Z.pow_add_r by lia. f_equal. lia.
Qed.

Lemma scaled_u64 v c : in_u64 v -> 0 < c -> in_u64 (v / c).
Proof.
  unfold in_u64. intros Hv Hc. split; [apply Z.div_pos; lia|].
  apply Z.div_lt_upper_bound; [done|]. nia.
Qed.

Lemma mod_u64 v w : 0 <= w <= 64 -> in_u64 (v mod 2 ^ w).
Proof.
  intros Hw. pose proof (Z.mod_pos_bound v (2 ^ w) ltac:(lia)).
  pose proof (Z.pow_le_mono_r 2 w 64 ltac:(lia) ltac:(lia)). unfold in_u64. lia.
Qed.

Section steps.
Context {D : Type} `{Bus D} {regs : Z -> Z} `{!Syscon D regs} `{!Uart D (is_16550 regs)}.
Context (poll : nat) (lit : list Z -> Z) (buffer ehdr ph : Z).
Hypothesis poll_enough : (max_wait < poll)%nat.

(** A state the loader can go on from. *)
Definition fit (s : fw D) : Prop := console_ok s /\ frame lit buffer ehdr ph (fmem s).

(** From a fit state [c] prints [t], answers [a] and changes the message
    buffer only. *)
Definition says {A} (c : M (fw D) A) (t : list Z) (a : A) : Prop :=
  forall s, fit s -> exists s', c s = Ok a s' /\ evolves (in_buffer buffer) s t s'.

Lemma fit_evolves R s t s' : fit s -> evolves R s t s' -> spares lit R -> fit s'.
Proof. intros [Hc Hf] Hev HR. split; [by apply Hev|by eapply frame_kept]. Qed.

Lemma buffer_spares m : frame lit buffer ehdr ph m -> spares lit (in_buffer buffer).
Proof. intros Hf. eapply spares_mono; [|by eapply frame_spares]. by left. Qed.

Lemma says_ret {A} (a : A) : says (mret a) [] a.
Proof. intros s [Hc Hf]. exists s. split; [done|]. apply evolves_refl; [done|apply Hf]. Qed.

Lemma says_bind {A B} (c : M (fw D) A) t1 a (k : A -> M (fw D) B) t2 b :
  says c t1 a -> says (k a) t2 b -> says (c ≫= k) (t1 ++ t2) b.
Proof.
  intros H1 H2 s Hs. destruct (H1 s Hs) as (s1 & Hr1 & Hev1).
  destruct (H2 s1) as (s2 & Hr2 & Hev2).
  { eapply fit_evolves; [exact Hs|exact Hev1|]. by eapply buffer_spares, Hs. }
  exists s2. split; [by run_with (exact Hr1)|by eapply evolves_trans].
Qed.

Lemma says_silent {A B} (c : M (fw D) A) a (k : A -> M (fw D) B) t b :
  says c [] a -> says (k a) t b -> says (c ≫= k) t b.
Proof. apply says_bind. Qed.

Lemma says_printf fl k arg :
  In fl boot_formats -> plain_format fl k = true -> (k <= length arg)%nat -> Forall in_u64 arg ->
  says (printf poll lit buffer fl arg) (crlf (printf_text fl arg)) tt.
Proof. intros Hin Hp Hk Ha s [Hc Hf]. by apply (printf_ok lit buffer ehdr ph poll poll_enough fl k). Qed.

Lemma says_syscon off : 0 <= off < 0x1000 -> off <> SYS_REG_CTRL ->
  says (readq (SYSCON_BASE + off)) [] (u64 (regs off)).
Proof.
  intros Ho Hn s [Hc Hf]. exists s. split; [by apply readq_syscon|].
  apply evolves_refl; [done|apply Hf].
Qed.

Lemma says_if {A} (b : bool) (c1 c2 : M (fw D) A) t1 t2 a :
  says c1 t1 a -> says c2 t2 a -> says (if b then c1 else c2) (if b then t1 else t2) a.
Proof. by destruct b. Qed.

Lemma says_eq {A} (c : M (fw D) A) t t' a : t = t' -> says c t a -> says c t' a.
Proof. by intros ->. Qed.

Lemma says_value fmt v :
  In (line fmt) boot_formats -> plain_format (line fmt) 1 = true -> in_u64 v ->
  says (printf poll lit buffer (line fmt) [v]) (value_text fmt v) tt.
Proof. intros. by apply (says_printf _ 1); [..|constructor; [|constructor]]. Qed.

Lemma says_feature k name :
  0 <= k < 64 -> In (codes name) boot_formats -> plain_format (codes name) 0 = true ->
  says (print_if poll lit buffer (u64 (regs SYS_REG_INFO)) (Z.shiftl 1 k) name)
    (feature_text regs k name) tt.
Proof.
  intros Hk Hin Hp. unfold print_if, feature_text. rewrite has_bit_reg by done.
  apply says_if; [by apply (says_printf _ 0)|apply says_ret].
Qed.

(** The lines of the report that need more than a feature bit. *)
Lemma says_bram :
  says (if has_bits (u64 (regs SYS_REG_INFO)) SYS_REG_INFO_HAS_BRAM then
          val ← readq (SYSCON_BASE + SYS_REG_BRAMINFO);
          printf poll lit buffer (line "          BRAM: %ld KB")
            [Z.land val SYS_REG_BRAMINFO_SIZE_MASK / 1024]
        else mret tt)
    (if Z.testbit (regs SYS_REG_INFO) 2 then
       value_text "          BRAM: %ld KB" (regs SYS_REG_BRAMINFO mod 2 ^ 52 / 1024) else []) tt.
Proof.
  unfold SYS_REG_INFO_HAS_BRAM. rewrite has_bit_reg by lia. apply says_if; [|apply says_ret].
  apply (says_silent _ (u64 (regs SYS_REG_BRAMINFO))); [by apply says_syscon|].
  change SYS_REG_BRAMINFO_SIZE_MASK with (Z.ones 52). rewrite reg_field by lia.
  apply says_value; [by simpl; tauto|done|]. apply scaled_u64; [apply mod_u64; lia|lia].
Qed.

Lemma says_dram :
  says (if has_bits (u64 (regs SYS_REG_INFO)) SYS_REG_INFO_HAS_DRAM then
          val ← readq (SYSCON_BASE + SYS_REG_DRAMINFO);
          _ ← printf poll lit buffer (line "          DRAM: %ld MB")
                [Z.land val SYS_REG_DRAMINFO_SIZE_MASK / (1024 * 1024)];
          val ← readq (SYSCON_BASE + SYS_REG_DRAMINITINFO);
          printf poll lit buffer (line "     DRAM INIT: %ld KB") [val / 1024]
        else mret tt)
    (if Z.testbit (regs SYS_REG_INFO) 1 then
       value_text "          DRAM: %ld MB" (regs SYS_REG_DRAMINFO mod 2 ^ 52 / (1024 * 1024)) ++
       value_text "     DRAM INIT: %ld KB" (u64 (regs SYS_REG_DRAMINITINFO) / 1024) else []) tt.
Proof.
  unfold SYS_REG_INFO_HAS_DRAM. rewrite has_bit_reg by lia. apply says_if; [|apply says_ret].
  apply (says_silent _ (u64 (regs SYS_REG_DRAMINFO))); [by apply says_syscon|].
  change SYS_REG_DRAMINFO_SIZE_MASK with (Z.ones 52). rewrite reg_field by lia.
  eapply says_bind; [apply says_value; [by simpl; tauto|done|]|].
  { apply scaled_u64; [apply mod_u64; lia|lia]. }
  apply (says_silent _ (u64 (regs SYS_REG_DRAMINITINFO))); [by apply says_syscon|].
  apply says_value; [by simpl; tauto|done|]. apply scaled_u64; [apply (mod_u64 _ 64); lia|lia].
Qed.

Lemma says_newline : says (printf poll lit buffer [10] []) [13; 10] tt.
Proof.
  apply (says_eq _ (crlf (printf_text [10] []))); [by vm_compute|].
  apply (says_printf _ 0); [by simpl; tauto|done|done|constructor].
Qed.

Lemma soc_report_says :
  says (soc_report poll lit buffer) (report_text regs) (u64 (regs SYS_REG_INFO)).
Proof.
  unfold soc_report, report_text.
  eapply says_bind; [apply (says_printf _ 0); [by simpl; tauto|done|done|constructor]|].
  apply (says_silent _ (u64 (regs SYS_REG_SIGNATURE))); [by apply says_syscon|].
  eapply says_bind; [apply says_value; [by simpl; tauto|done|apply (mod_u64 _ 64); lia]|].
  eapply says_bind; [apply (says_printf _ 0); [by simpl; tauto|done|done|constructor]|].
  apply (says_silent _ (u64 (regs SYS_REG_INFO))); [by apply says_syscon|].
  do 6 (eapply says_bind; [apply says_feature; [lia|by simpl; tauto|done]|]).
  eapply says_bind; [apply says_newline|].
  eapply says_bind; [apply says_bram|]. eapply says_bind; [apply says_dram|].
  rewrite <- (app_nil_r (value_text "           CLK: %ld MHz" _)).
  apply (says_silent _ (u64 (regs SYS_REG_CLKINFO))); [by apply says_syscon|].
  change SYS_REG_CLKINFO_FREQ_MASK with (Z.ones 40). rewrite reg_field by lia.
  eapply says_bind; [apply says_value; [by simpl; tauto|done|]|apply says_ret].
  apply scaled_u64; [apply mod_u64; lia|lia].
Qed.
End steps.

(** ** The stages that talk to the flash and the DRAM *)

Section stages.
Context {D : Type} `{Bus D} {regs : Z -> Z} `{!Syscon D regs} `{!Uart D (is_16550 regs)} `{!SpiFlash D}.
Context (poll : nat) (lit : list Z -> Z) (buffer ehdr ph : Z).
Hypothesis poll_enough : (max_wait < poll)%nat.
Hypothesis poll_wip : (max_wip < poll)%nat.
Hypothesis dram_spares : spares lit in_dram.

Abbreviation fit' := (fit lit buffer ehdr ph).
Abbreviation printf' := (printf poll lit buffer).

(** What the stages may change. *)
Definition working (q : Z) : Prop := in_buffer buffer q \/ in_dram q.

(** From a fit state [c] ends with an answer in [P], having changed only
    working memory. *)
Definition keeps {A} (c : M (fw D) A) (P : A -> Prop) : Prop :=
  forall s, fit' s -> wp c (fun a s' => P a /\ exists t, evolves working s t s') s.

Lemma working_spares s : fit' s -> spares lit working.
Proof.
  intros [_ Hf]. pose proof (buffer_spares _ _ _ _ _ Hf) as [H1 H2]. destruct dram_spares as [H3 H4].
  split; [intros q Hq [Hr|Hr]; [by apply (H1 q)|by apply (H3 q)]|].
  intros l Hl q Hq [Hr|Hr]; [by apply (H2 l Hl q)|by apply (H4 l Hl q)].
Qed.

Lemma keeps_ret {A} (a : A) (P : A -> Prop) : P a -> keeps (mret a) P.
Proof.
  intros Ha s [Hc Hf]. apply wp_ret. split; [done|]. exists []. apply evolves_refl; [done|apply Hf].
Qed.

Lemma keeps_bind {A B} (c : M (fw D) A) P (k : A -> M (fw D) B) Q :
  keeps c P -> (forall a, P a -> keeps (k a) Q) -> keeps (c ≫= k) Q.
Proof.
  intros Hc Hk s Hs. apply wp_bind. eapply wp_mono; [by apply Hc|].
  intros a s1 (Ha & t1 & Hev1). pose proof (working_spares s Hs) as Hsp.
  eapply wp_mono; [apply (Hk a Ha); by eapply fit_evolves|].
  intros b s2 (Hb & t2 & Hev2). split; [done|]. eexists. by eapply evolves_trans.
Qed.

Lemma keeps_mono {A} (c : M (fw D) A) (P Q : A -> Prop) :
  (forall a, P a -> Q a) -> keeps c P -> keeps c Q.
Proof. intros HPQ Hc s Hs. eapply wp_mono; [by apply Hc|]. intros a s' [Ha He]. auto. Qed.

Lemma keeps_if {A} (b : bool) (c1 c2 : M (fw D) A) P :
  keeps c1 P -> keeps c2 P -> keeps (if b then c1 else c2) P.
Proof. by destruct b. Qed.

(** The commands of the stages. *)
Lemma keeps_says {A} (c : M (fw D) A) t a : says lit buffer ehdr ph c t a -> keeps c (eq a).
Proof.
  intros Hc s Hs. destruct (Hc s Hs) as (s' & Hrun & Hev). unfold wp. rewrite Hrun. split; [done|].
  exists t. eapply evolves_mono; [|exact Hev]. by left.
Qed.

Lemma keeps_printf fl k arg :
  In fl boot_formats -> plain_format fl k = true -> (k <= length arg)%nat -> Forall in_u64 arg ->
  keeps (printf' fl arg) (fun _ => True).
Proof.
  intros. eapply keeps_mono; [|by eapply keeps_says, (says_printf poll lit buffer ehdr ph poll_enough fl k)].
  done.
Qed.

Lemma evolves_dev (s : fw D) d :
  fit' s -> uart_inv d -> sent d = sent (fdev s) -> evolves working s [] (with_dev s d).
Proof. intros [[] Hf] Hi Hs. split; [by split|cbn; by rewrite app_nil_r|apply Hf|done|done]. Qed.

Lemma keeps_read n addr : aside addr -> 0 <= n ->
  keeps (read_bus n addr) (fun v => 0 <= v < 2 ^ (8 * n)).
Proof.
  intros Ha Hn s Hs. pose proof Hs as [[_ _ Hi] _].
  pose proof (aside_read n addr _ Ha Hi) as [Hi' Hs']. unfold wp, read_bus.
  destruct (bus_read n addr (fdev s)) as [v d]. split; [apply Z.mod_pos_bound; lia|].
  exists []. by apply evolves_dev.
Qed.

Lemma keeps_write n v addr : aside addr -> keeps (write_bus n v addr) (fun _ => True).
Proof.
  intros Ha s Hs. pose proof Hs as [[_ _ Hi] _].
  destruct (aside_write n addr (v mod 2 ^ (8 * n)) _ Ha Hi) as [Hi' Hs'].
  split; [done|]. exists []. by apply evolves_dev.
Qed.

(** ** Waiting for the flash *)

Lemma flash_aside off : 0 <= off < 0x1000 -> aside (SPI_FCTRL_BASE + off).
Proof. unfold aside, off_syscon, SPI_FCTRL_BASE, UART_BASE, SYSCON_BASE. lia. Qed.

Lemma flash_status_inv d : uart_inv d ->
  uart_inv (snd (flash_status d)) /\ sent (snd (flash_status d)) = sent d.
Proof.
  intros Hi. unfold flash_status.
  destruct (aside_write 1 (SPI_FCTRL_BASE + SPI_REG_CTRL) SPI_REG_CTRL_MANUAL_CS d) as [H1 S1]; [by apply flash_aside|done|].
  set (d1 := bus_write _ _ _ d) in *.
  destruct (aside_write 1 (SPI_FCTRL_BASE + SPI_REG_DATA) SPI_CMD_RDSR d1) as [H2 S2]; [by apply flash_aside|done|].
  set (d2 := bus_write _ _ _ d1) in *.
  destruct (aside_read 1 (SPI_FCTRL_BASE + SPI_REG_DATA) d2) as [H3 S3]; [by apply flash_aside|done|].
  destruct (bus_read _ _ d2) as [v d3]. cbn [fst snd] in *.
  destruct (aside_write 1 (SPI_FCTRL_BASE + SPI_REG_CTRL) 0 d3) as [H4 S4]; [by apply flash_aside|done|].
  split; [done|congruence].
Qed.

Lemma wait_wip_step_run (s : fw D) : uart_inv (fdev s) ->
  wait_wip_step tt s = Ok (if (0 <? wip (fdev s))%nat then inl tt else inr tt)
    (with_dev s (snd (flash_status (fdev s)))).
Proof.
  intros Hi. destruct (wip_status _ Hi) as [Hb _]. revert Hb.
  unfold wait_wip_step, fl_cs_on, fl_cs_off, flash_status, writeb, readb, read_bus, write_bus, mbind, M_bind.
  cbn [fdev with_dev]. change (SPI_REG_CTRL_MANUAL_CS mod 2 ^ (8 * 1)) with SPI_REG_CTRL_MANUAL_CS.
  change (SPI_CMD_RDSR mod 2 ^ (8 * 1)) with SPI_CMD_RDSR.
  destruct (bus_read _ _ _) as [v d]. cbn [fst snd]. intros <-. change (2 ^ (8 * 1)) with (2 ^ 8).
  rewrite (land_pow2 _ 0), Z.mod_pow2_bits_low by lia. by destruct (Z.testbit v 0).
Qed.

Lemma wait_wip_loop f : forall s, fit' s -> (wip (fdev s) < f)%nat ->
  wp (loop f wait_wip_step tt) (fun _ s' => True /\ exists t, evolves working s t s') s.
Proof.
  induction f as [|f IH]; intros s Hs Hf; [lia|]. pose proof Hs as [[_ _ Hi] _].
  destruct (flash_status_inv _ Hi) as [Hi' Hse]. destruct (wip_status _ Hi) as [_ Hw].
  pose proof (evolves_dev s _ Hs Hi' Hse) as Hev. pose proof (wait_wip_step_run s Hi) as Hrun.
  set (s1 := with_dev s _) in *. unfold wp. cbn [loop]. rewrite Hrun.
  destruct (Nat.ltb_spec 0 (wip (fdev s))); [|by eauto].
  eapply (wp_mono (loop f wait_wip_step tt)); [apply IH; [|cbn; lia]|].
  - eapply fit_evolves; [exact Hs|exact Hev|by eapply working_spares].
  - intros _ s2 (_ & t & Hev2). split; [done|]. eexists. by eapply evolves_trans.
Qed.

Lemma keeps_wait_wip : keeps (wait_wip poll) (fun _ => True).
Proof.
  intros s Hs. apply wait_wip_loop; [done|]. pose proof Hs as [[_ _ Hi] _].
  pose proof (wip_bound _ Hi). lia.
Qed.

(** ** Each stage ends and keeps the machine fit *)

Lemma keeps_flash_readb off : 0 <= off < 0x1000 -> keeps (readb (SPI_FCTRL_BASE + off)) in_u8.
Proof. intros Ho. apply keeps_read; [by apply flash_aside|lia]. Qed.

Lemma keeps_flash_readl off : 0 <= off < 0x1000 -> keeps (readl (SPI_FCTRL_BASE + off)) in_u32.
Proof. intros Ho. apply keeps_read; [by apply flash_aside|lia]. Qed.

Lemma keeps_flash_write n v off : 0 <= off < 0x1000 ->
  keeps (write_bus n v (SPI_FCTRL_BASE + off)) (fun _ => True).
Proof. intros Ho. apply keeps_write. by apply flash_aside. Qed.

Lemma in_u8_u64 v : in_u8 v -> in_u64 v.
Proof. unfold in_u8, in_u64. lia. Qed.

Lemma keeps_bytes fl arg :
  In fl boot_formats -> plain_format fl (length arg) = true -> Forall in_u8 arg ->
  keeps (printf' fl arg) (fun _ => True).
Proof.
  intros Hin Hp Ha. apply (keeps_printf fl (length arg)); [done..|].
  eapply Forall_impl; [|exact Ha]. apply in_u8_u64.
Qed.

(** A command of a stage, whose answer is then in the context. *)
Ltac command :=
  lazymatch goal with
  | |- keeps (mbind _ (readb _)) _ => eapply keeps_bind; [by apply keeps_flash_readb|intros ? ?]
  | |- keeps (mbind _ (readl _)) _ => eapply keeps_bind; [by apply keeps_flash_readl|intros ? ?]
  | |- keeps (mbind _ _) _ => apply (keeps_bind _ (fun _ => True)); [|intros ? _]
  | |- keeps (if _ then _ else _) _ => apply keeps_if
  | |- keeps (mret _) _ => by apply keeps_ret
  | |- keeps (printf _ _ _ _ _) _ => apply keeps_bytes; [by simpl; tauto|done|repeat first [assumption | constructor]]
  | |- keeps (wait_wip _) _ => apply keeps_wait_wip
  | |- keeps (match ?p with pair _ _ => _ end) _ => destruct p
  | |- keeps _ _ => first [assumption | by apply keeps_flash_write]
  end.
Ltac stage := repeat command.

Lemma keeps_send_wren : keeps send_wren (fun _ => True).
Proof. unfold send_wren. stage. Qed.

Lemma keeps_spansion : keeps (check_spansion_quad_mode poll lit buffer) (fun _ => True).
Proof. unfold check_spansion_quad_mode, send_wren. stage. Qed.

Lemma keeps_issi : keeps (check_enable_issi_quad poll lit buffer) (fun _ => True).
Proof. unfold check_enable_issi_quad, send_wren. stage. Qed.

Lemma keeps_check_flash : keeps (check_flash poll lit buffer) (fun _ => True).
Proof.
  unfold check_flash. cbv zeta. pose proof keeps_spansion. pose proof keeps_issi.
  stage.
Qed.

Lemma keeps_run {A} (c : M (fw D) A) P s : keeps c P -> fit' s ->
  exists a s' t, c s = Ok a s' /\ P a /\ evolves working s t s' /\ fit' s'.
Proof.
  intros Hc Hs. pose proof (proj1 (wp_spec _ _ _) (Hc s Hs)) as (a & s' & Hr & Ha & t & Hev).
  exists a, s', t. split_and!; [done..|]. eapply fit_evolves; [exact Hs|exact Hev|by eapply working_spares].
Qed.

Lemma keeps_flash_stage :
  keeps (if has_bits (u64 (regs SYS_REG_INFO)) SYS_REG_INFO_HAS_SPI_FLASH then
       val ← readq (SYSCON_BASE + SYS_REG_SPI_INFO);
       try_flash ← check_flash poll lit buffer;
       let fl_off := u32 (Z.land val SYS_REG_SPI_INFO_FLASH_OFF_MASK) in
       _ ← printf' (line " SPI FLASH OFF: 0x%x bytes") [fl_off];
       mret (true, fl_off)
     else mret (false, 0)) (eq (flash_info regs)).
Proof.
  unfold SYS_REG_INFO_HAS_SPI_FLASH, flash_info. rewrite has_bit_reg by lia.
  destruct (Z.testbit (regs SYS_REG_INFO) 3); [|by apply keeps_ret].
  eapply keeps_bind; [by eapply keeps_says, says_syscon|intros ? <-].
  apply (keeps_bind _ (fun _ => True)); [apply keeps_check_flash|intros _ _].
  change SYS_REG_SPI_INFO_FLASH_OFF_MASK with (Z.ones 32). rewrite reg_field by lia.
  cbv zeta. rewrite u32_small by (apply Z.mod_pos_bound; lia).
  apply (keeps_bind _ (fun _ => True)); [|intros _ _; by apply keeps_ret].
  apply (keeps_printf _ 1); [by simpl; tauto|done|done|].
  constructor; [apply mod_u64; lia|constructor].
Qed.

Context (ddrctrl_init_done_read : M (fw D) Z) (sdram_init : M (fw D) unit).
Hypothesis calibration : Calibration ddrctrl_init_done_read sdram_init.
Context (LITEX_GIT_SHA1 : Z) (sha : list Z).

(** The build's name is a string constant. *)
Definition sha_ok (m : mem) : Prop :=
  0 <= LITEX_GIT_SHA1 < 2 ^ 64 /\ cstr m LITEX_GIT_SHA1 sha /\
  off_limits (scratch buffer ehdr ph) LITEX_GIT_SHA1 sha /\ off_limits in_dram LITEX_GIT_SHA1 sha.

Lemma sha_kept s t s' : evolves working s t s' -> sha_ok (fmem s) -> sha_ok (fmem s').
Proof.
  intros Hev (Hr & Hc & Hs & Hd). split; [done|]. split; [|done]. eapply cstr_kept; [exact Hev| |done].
  intros q Hq [Hw|Hw]; [apply (Hs q Hq); by left|by apply (Hd q Hq)].
Qed.

Lemma dram_run {A} (c : M (fw D) A) a s s' t : fit' s -> c s = Ok a s' -> evolves in_dram s t s' ->
  evolves working s t s' /\ fit' s'.
Proof.
  intros Hs _ Hev. split; [eapply evolves_mono; [|exact Hev]; by right|].
  eapply fit_evolves; [exact Hs|exact Hev|done].
Qed.

Lemma litex_message s : fit' s -> sha_ok (fmem s) -> exists s' t,
  printf' (line "LiteDRAM built from LiteX %s") [LITEX_GIT_SHA1] s = Ok tt s' /\
  evolves working s t s' /\ fit' s'.
Proof.
  intros Hs (Hr & Hc & Ho & _). pose proof Hs as [Hco Hf].
  destruct (frame_formats _ _ _ _ _ Hf (line "LiteDRAM built from LiteX %s")) as [Hfl Hfo]; [by simpl; tauto|].
  destruct (printf_strings_ok lit buffer ehdr ph poll poll_enough (fun _ => sha)
    (line "LiteDRAM built from LiteX %s") 1 [LITEX_GIT_SHA1] s) as (s' & out & _ & Hrun & Hev); try done.
  - by vm_compute; intuition.
  - by constructor; [|constructor].
  - change (string_args _ _ _) with [LITEX_GIT_SHA1]. by constructor; [|constructor].
  - exists s', (crlf out). split; [done|]. split; [eapply evolves_mono; [|exact Hev]; by left|].
    eapply fit_evolves; [exact Hs|exact Hev|by eapply buffer_spares].
Qed.

(** The DRAM is started unless it already is. *)
Lemma dram_stage s : fit' s -> sha_ok (fmem s) -> exists s' t,
  (if has_bits (u64 (regs SYS_REG_INFO)) SYS_REG_INFO_HAS_DRAM then
     done ← ddrctrl_init_done_read;
     if done =? 0 then
       _ ← printf' (line "LiteDRAM built from LiteX %s") [LITEX_GIT_SHA1];
       sdram_init
     else mret tt
   else mret tt) s = Ok tt s' /\ evolves working s t s' /\ fit' s'.
Proof.
  intros Hs Hsha. destruct (has_bits _ _).
  2: { exists s, []. split_and!; [done| |done]. apply evolves_refl; [apply Hs|apply Hs]. }
  destruct (calib_done _ _ calibration s) as (v & s1 & t1 & Hr1 & Hev1); [apply Hs|apply Hs|].
  destruct (dram_run _ _ _ _ _ Hs Hr1 Hev1) as [Hw1 Hs1]. run_with (exact Hr1).
  destruct (v =? 0); [|by exists s1, t1].
  destruct (litex_message s1 Hs1) as (s2 & t2 & Hr2 & Hw2 & Hs2); [by eapply sha_kept|].
  run_with (exact Hr2).
  destruct (calib_init _ _ calibration s2) as (s3 & t3 & Hr3 & Hev3); [apply Hs2|apply Hs2|].
  destruct (dram_run _ _ _ _ _ Hs2 Hr3 Hev3) as [Hw3 Hs3].
  exists s3, (t1 ++ t2 ++ t3). split_and!; [done| |done].
  eapply evolves_trans; [exact Hw1|]. by eapply evolves_trans.
Qed.

(** [main] up to the control register. *)
Lemma main_stages s : uart_fresh (fdev s) -> frame lit buffer ehdr ph (fmem s) -> sha_ok (fmem s) ->
  exists s' t, fit' s' /\ sent (fdev s') = sent (fdev s) ++ report_text regs ++ t /\
  dom (fmem s') = dom (fmem s) /\ (forall q, ~ working q -> fmem s' !! q = fmem s !! q) /\
  main poll lit buffer ehdr ph ddrctrl_init_done_read sdram_init LITEX_GIT_SHA1 s =
    (val ← readq (SYSCON_BASE + SYS_REG_CTRL);
     _ ← writeq (Z.land val (Z.lnot SYS_REG_CTRL_ALT_RESET)) (SYSCON_BASE + SYS_REG_CTRL);
     if has_bits (u64 (regs SYS_REG_INFO)) SYS_REG_INFO_HAS_BRAM then
       _ ← printf' (line "Booting from BRAM...") []; mret 0
     else
     val ← (if fst (flash_info regs) : bool then boot_flash poll lit buffer ehdr ph (snd (flash_info regs)) else mret (u64 (-1)));
     if fst (flash_info regs) && negb (val =? u64 (-1)) then mret val else
     _ ← boot_sdram poll lit buffer;
     mret 0) s'.
Proof.
  intros Hfr Hf Hsha. destruct (console_init_ok s Hfr) as (s0 & Hr0 & Hc0 & Hm0 & Hs0).
  assert (Hfit0 : fit' s0) by (split; [done|by rewrite Hm0]).
  destruct (soc_report_says poll lit buffer ehdr ph poll_enough s0 Hfit0) as (s1 & Hr1 & Hev1).
  assert (Hw1 : evolves working s0 (report_text regs) s1) by (eapply evolves_mono; [|exact Hev1]; by left).
  assert (Hfit1 : fit' s1) by (eapply fit_evolves; [exact Hfit0|exact Hw1|by eapply working_spares]).
  destruct (keeps_run _ _ s1 keeps_flash_stage Hfit1) as (fi & s2 & t2 & Hr2 & <- & Hw2 & Hfit2).
  destruct (keeps_run (printf' [10] []) (fun _ => True) s2) as ([] & s3 & t3 & Hr3 & _ & Hw3 & Hfit3);
    [apply keeps_bytes; [by simpl; tauto|done|constructor]|done|].
  assert (Hsha3 : sha_ok (fmem s3)).
  { eapply sha_kept; [exact Hw3|]. eapply sha_kept; [exact Hw2|]. eapply sha_kept; [exact Hw1|].
    by rewrite Hm0. }
  destruct (dram_stage s3 Hfit3 Hsha3) as (s4 & t4 & Hr4 & Hw4 & Hfit4).
  assert (Hw : evolves working s0 (report_text regs ++ t2 ++ t3 ++ t4) s4).
  { do 3 (eapply evolves_trans; [eassumption|]). exact Hw4. }
  exists s4, (t2 ++ t3 ++ t4). split_and!.
  - done.
  - by rewrite (ev_sent _ _ _ _ Hw), Hs0.
  - by rewrite (ev_dom _ _ _ _ Hw), Hm0.
  - intros q Hq. by rewrite (ev_same _ _ _ _ Hw), Hm0.
  - unfold main. run_with (exact Hr0). run_with (exact Hr1). run_with (exact Hr2).
    destruct (flash_info regs) as [try_flash fl_off] eqn:Hfi. run_with (exact Hr3). by run_with (exact Hr4).
Qed.
End stages.

(** ** What is booted *)

(** The result of [main] and the memory it leaves, from the memory it has when
    it chooses. *)
Definition boot_outcome (regs : Z -> Z) (hdr : list Z) (segs : list segment) (payload : list Z)
    (m : mem) : Z * mem :=
  if Z.testbit (regs SYS_REG_INFO) 2 then (0, m)
  else if fst (flash_info regs) && (is_elf64 hdr && is_ppc64le hdr) then
    (field hdr off_e_entry 8, load_segments segs m)
  else (0, write_bytes DRAM_BASE payload m).

(** What there is to boot: a header in the flash, the segments of a bootable
    image, or the payload that comes with the loader. *)
Record boot_media (regs : Z -> Z) (lit : list Z -> Z) (buffer ehdr ph : Z) (hdr : list Z)
    (segs : list segment) (payload : list Z) (m : mem) : Prop := {
  bm_header : fst (flash_info regs) = true -> header m (snd (flash_info regs)) hdr;
  bm_image : fst (flash_info regs) = true -> is_elf64 hdr && is_ppc64le hdr = true ->
    image m (snd (flash_info regs)) hdr segs /\ field hdr off_e_entry 8 <> 2 ^ 64 - 1;
  bm_segs q : seg_region segs q ->
    is_Some (m !! q) /\ q < SPI_FLASH_BASE /\ ~ scratch buffer ehdr ph q;
  bm_spares : spares lit (seg_region segs);
  bm_payload : fst (flash_info regs) && (is_elf64 hdr && is_ppc64le hdr) = false ->
    Z.of_nat (length payload) = 40960 /\ bytes_at m payload_at payload /\
    mapped m DRAM_BASE 40960
}.

(** The machine [main] starts on. *)
Record main_setting {D} `{Uart D std} (lit : list Z -> Z) (buffer ehdr ph LITEX_GIT_SHA1 : Z)
    (sha : list Z) (s : fw D) : Prop := {
  ms_fresh : uart_fresh (fdev s);
  ms_frame : frame lit buffer ehdr ph (fmem s);
  ms_stack q : scratch buffer ehdr ph q -> q < DRAM_BASE;
  ms_dram : spares lit in_dram;
  ms_sha : sha_ok buffer ehdr ph LITEX_GIT_SHA1 sha (fmem s)
}.

Lemma flash_kept m m' p l :
  (forall q, SPI_FLASH_BASE <= q -> m' !! q = m !! q) -> SPI_FLASH_BASE <= p ->
  bytes_at m p l -> bytes_at m' p l.
Proof. intros Hm Hp Hb i b Hi. rewrite Hm by lia. by apply Hb. Qed.

Lemma header_kept m m' offset hdr :
  (forall q, SPI_FLASH_BASE <= q -> m' !! q = m !! q) -> header m offset hdr -> header m' offset hdr.
Proof. intros Hm [Hl Hb Hw]. split; [done| |done]. eapply flash_kept; [exact Hm|lia|done]. Qed.

Lemma phdr_at_kept m m' offset hdr i p :
  (forall q, SPI_FLASH_BASE <= q -> m' !! q = m !! q) -> phdr_at m offset hdr i p -> phdr_at m' offset hdr i p.
Proof. intros Hm (Hpo & Hl & Hb). split; [done|]. split; [done|]. eapply flash_kept; [exact Hm|lia|done]. Qed.

Lemma image_kept m m' offset hdr segs :
  (forall q, SPI_FLASH_BASE <= q -> m' !! q = m !! q) -> image m offset hdr segs -> image m' offset hdr segs.
Proof.
  intros Hm [Hg Hn He Hs]. split; [done|done| |].
  - intros Hlt. destruct (He Hlt) as (p & Hp & Ht). exists p. split; [by eapply phdr_at_kept|done].
  - intros i p data Hi. destruct (Hs i p data Hi) as (Hph & Ht & Hz & Hd & Ho & Hbd).
    split_and!; try done; try lia; [by eapply phdr_at_kept|eapply flash_kept; [exact Hm|lia|done]].
Qed.

Section choice.
Context {D : Type} `{Bus D} {regs : Z -> Z} `{!Syscon D regs} `{!Uart D (is_16550 regs)}.
Context (poll : nat) (lit : list Z -> Z) (buffer ehdr ph : Z).
Hypothesis poll_enough : (max_wait < poll)%nat.
Hypothesis stack_low : forall q, scratch buffer ehdr ph q -> q < DRAM_BASE.
Hypothesis dram_spares : spares lit in_dram.
Context (hdr : list Z) (segs : list segment) (payload : list Z).

Abbreviation media := (boot_media regs lit buffer ehdr ph hdr segs payload).
Abbreviation fit' := (fit lit buffer ehdr ph).
Abbreviation scratch' := (scratch buffer ehdr ph).

(** The flash and the payload are out of reach of the stages. *)
Lemma high_mem q : SPI_FLASH_BASE <= q -> ~ scratch' q /\ ~ in_dram q.
Proof.
  intros Hq. unfold in_dram, SPI_FLASH_BASE, SYSCON_BASE, DRAM_BASE in *. split; [|lia].
  intros Hs%stack_low. unfold DRAM_BASE in *. lia.
Qed.

Lemma media_kept m m' :
  (forall q, ~ scratch' q -> ~ in_dram q -> m' !! q = m !! q) -> dom m' = dom m ->
  media m -> media m'.
Proof.
  intros Hm Hd [Hh Hi Hs Hsp Hpl].
  assert (Hf : forall q, SPI_FLASH_BASE <= q -> m' !! q = m !! q).
  { intros q Hq. by apply Hm; apply high_mem. }
  split.
  - intros Hx. by eapply header_kept, Hh.
  - intros Hx Hg. destruct (Hi Hx Hg). split; [by eapply image_kept|done].
  - intros q Hq. destruct (Hs q Hq) as (Hq1 & Hq2). split; [|done].
    apply elem_of_dom. rewrite Hd. by apply elem_of_dom.
  - done.
  - intros Hx. destruct (Hpl Hx) as (Hl & Hb & Hmap). split_and!; [done| |by eapply mapped_same_dom].
    eapply flash_kept; [exact Hf| |done]. unfold payload_at, DRAM_INIT_BASE, SPI_FLASH_BASE. lia.
Qed.

Lemma media_setting s segs' : fit' s -> media (fmem s) -> fst (flash_info regs) = true ->
  (segs' = segs \/ segs' = []) -> boot_setting lit buffer ehdr ph (snd (flash_info regs)) hdr segs' s.
Proof.
  intros [Hc Hf] [Hh _ Hs Hsp _] Hx Hsub.
  assert (HR : forall q, seg_region segs' q -> seg_region segs q).
  { intros q Hq. destruct Hsub as [-> | ->]; [done|]. by destruct Hq as (? & [] & _). }
  split; [done|done|by apply Hh| | | |].
  - intros q Hq%stack_low. unfold DRAM_BASE, SPI_FLASH_BASE in *. lia.
  - intros q Hq%HR. by destruct (Hs q Hq) as (? & ? & _).
  - by eapply spares_mono.
  - intros q Hq%HR. by destruct (Hs q Hq) as (_ & _ & ?).
Qed.

(** The last resort. *)
Lemma payload_boot s : fit' s -> media (fmem s) ->
  fst (flash_info regs) && (is_elf64 hdr && is_ppc64le hdr) = false -> exists s' t,
  (_ ← boot_sdram poll lit buffer; mret 0) s = Ok 0 s' /\ console_ok s' /\ sent (fdev s') = sent (fdev s) ++ t /\
  forall q, ~ scratch' q -> fmem s' !! q = write_bytes DRAM_BASE payload (fmem s) !! q.
Proof.
  intros [Hc Hf] [_ _ _ _ Hpl] Hx. destruct (Hpl Hx) as (Hl & Hb & Hm).
  destruct (boot_sdram_ok poll lit buffer ehdr ph payload s) as (s' & Hr & Hc' & (t & Ht) & Hmem); try done.
  { eapply spares_mono; [|exact dram_spares]. unfold in_dram, DRAM_BASE, SYSCON_BASE. lia. }
  exists s', t. split_and!; [by run_with (exact Hr)|done..].
Qed.

(** The flash first, when there is one. *)
Lemma flash_boot s : fit' s -> media (fmem s) -> Z.testbit (regs SYS_REG_INFO) 2 = false -> exists s' t,
  (val ← (if fst (flash_info regs) : bool then boot_flash poll lit buffer ehdr ph (snd (flash_info regs))
          else mret (u64 (-1)));
   if fst (flash_info regs) && negb (val =? u64 (-1)) then mret val else
   _ ← boot_sdram poll lit buffer;
   mret 0) s = Ok (fst (boot_outcome regs hdr segs payload (fmem s))) s' /\
  console_ok s' /\ sent (fdev s') = sent (fdev s) ++ t /\
  forall q, ~ scratch' q -> fmem s' !! q = snd (boot_outcome regs hdr segs payload (fmem s)) !! q.
Proof.
  intros Hs Hmed Hbr. unfold boot_outcome. rewrite Hbr.
  destruct (fst (flash_info regs)) eqn:Hx; cbn [andb].
  2: { erewrite bind_ok by reflexivity. apply payload_boot; [done|done|by rewrite Hx]. }
  destruct (is_elf64 hdr && is_ppc64le hdr) eqn:Hgood.
  - destruct (media_setting s segs Hs Hmed Hx (or_introl eq_refl)) as [Hc Hf Hh Hst Hm Hsp Hsc].
    destruct (bm_image _ _ _ _ _ _ _ _ _ Hmed Hx Hgood) as [Himg Hent].
    destruct (boot_flash_load_ok lit buffer ehdr ph _ hdr segs s Hh Hm Hsp Hsc Hst poll poll_enough Himg Hc Hf)
      as (s' & Hrun & [Hc' Hse _ _ _ Hmem]).
    exists s', (boot_text hdr segs). run_with (exact Hrun). change (u64 (-1)) with (2 ^ 64 - 1).
    rewrite (proj2 (Z.eqb_neq _ _) Hent). split_and!; [done..|].
    intros q Hq. rewrite (Hmem q Hq). by rewrite take_ge by lia.
  - destruct (media_setting s [] Hs Hmed Hx (or_intror eq_refl)) as [Hc Hf Hh Hst _ _ _].
    destruct (boot_flash_reject_ok lit buffer ehdr ph _ hdr [] s Hh Hst poll poll_enough Hc Hf Hgood)
      as (s1 & t1 & Hrun & [Hc1 Hse1 Hf1 Hd1 _ Hmem1]).
    destruct (payload_boot s1) as (s' & t & Hr & Hc' & Ht & Hmem); [by split| |by rewrite Hx, Hgood|].
    { eapply media_kept; [|exact Hd1|exact Hmed]. intros q Hq _. by rewrite (Hmem1 q Hq). }
    exists s', (t1 ++ t). run_with (exact Hrun). rewrite Z.eqb_refl. cbn [negb]. split_and!; [done|done| |].
    + by rewrite Ht, Hse1, app_assoc.
    + intros q Hq. rewrite (Hmem q Hq). cbn [snd]. rewrite !write_bytes_lookup. case_bool_decide; [done|].
      by rewrite (Hmem1 q Hq).
Qed.

(** The choice itself. *)
Lemma boot_choice s : fit' s -> (Z.testbit (regs SYS_REG_INFO) 2 = false -> media (fmem s)) -> exists s' t,
  (if has_bits (u64 (regs SYS_REG_INFO)) SYS_REG_INFO_HAS_BRAM then
     _ ← printf poll lit buffer (line "Booting from BRAM...") []; mret 0
   else
   val ← (if fst (flash_info regs) : bool then boot_flash poll lit buffer ehdr ph (snd (flash_info regs)) else mret (u64 (-1)));
   if fst (flash_info regs) && negb (val =? u64 (-1)) then mret val else
   _ ← boot_sdram poll lit buffer;
   mret 0) s = Ok (fst (boot_outcome regs hdr segs payload (fmem s))) s' /\
  console_ok s' /\ sent (fdev s') = sent (fdev s) ++ t /\
  forall q, ~ scratch' q -> fmem s' !! q = snd (boot_outcome regs hdr segs payload (fmem s)) !! q.
Proof.
  intros Hs Hmed. unfold SYS_REG_INFO_HAS_BRAM. rewrite has_bit_reg by lia.
  destruct (Z.testbit (regs SYS_REG_INFO) 2) eqn:Hbr; [|by apply flash_boot; auto].
  destruct (says_printf poll lit buffer ehdr ph poll_enough (line "Booting from BRAM...") 0 [])
    with s as (s2 & Hr2 & Hev2); [simpl; tauto|done|done|constructor|done|].
  eexists s2, _. unfold boot_outcome. rewrite Hbr. split_and!; [by run_with (exact Hr2)|by apply Hev2|by apply Hev2|].
  intros q Hq. apply (ev_same _ _ _ _ Hev2). intros Hb. apply Hq. by left.
Qed.
End choice.

(** Clearing the alternate reset in the control register. *)
Section clear_reset.
Context {D : Type} `{Bus D} {std : bool} `{!Uart D std} `{!SysCtrl D}.

Definition cleared (v : Z) : Z := Z.land v (Z.lnot SYS_REG_CTRL_ALT_RESET).

Lemma cleared_ok v : 0 <= v < 16 -> 0 <= cleared v < 16 /\ cleared v mod 8 = v mod 8.
Proof.
  intros Hv. assert (Hall : forallb (fun v => (0 <=? cleared v) && (cleared v <? 16) && (cleared v mod 8 =? v mod 8))
    (map Z.of_nat (seq 0 16)) = true) by (vm_compute; reflexivity).
  rewrite forallb_forall in Hall. specialize (Hall v). rewrite in_map_iff in Hall.
  specialize (Hall ltac:(exists (Z.to_nat v); rewrite in_seq; lia)). lia.
Qed.

(** The port with the register at [v] becomes the port with it cleared. *)
Lemma clear_alt_reset v (s : fw D) :
  @console_ok D _ std (ctrl_uart v) s -> exists s',
  (forall A (k : M (fw D) A), (val ← readq (SYSCON_BASE + SYS_REG_CTRL);
     _ ← writeq (Z.land val (Z.lnot SYS_REG_CTRL_ALT_RESET)) (SYSCON_BASE + SYS_REG_CTRL); k) s = k s') /\
  @console_ok D _ std (ctrl_uart (cleared v)) s' /\ sent (fdev s') = sent (fdev s) /\ fmem s' = fmem s.
Proof.
  intros [Hstd Hbase [Hi Hv]]. pose proof (ctrl_range (fdev s)) as Hr.
  destruct (cleared_ok v) as [Hcr Hcm]; [lia|].
  destruct (ctrl_write (cleared v) (fdev s) Hi Hcr ltac:(by rewrite Hcm, Hv)) as (Hw & Hi' & Hse).
  exists (with_dev s (bus_write 8 (SYSCON_BASE + SYS_REG_CTRL) (cleared v) (fdev s))). split; [|split; [|done]].
  - intros A k. unfold readq, writeq, read_bus, write_bus, mbind, M_bind. rewrite ctrl_read.
    cbn [fdev with_dev]. rewrite (Z.mod_small (sys_ctrl (fdev s))) by lia. rewrite Hv. fold (cleared v).
    by rewrite (Z.mod_small (cleared v)) by lia.
  - split; [done|done|]. by split.
Qed.
End clear_reset.

(** C2: on a machine with a fresh serial port, [main] prints the report the
    registers call for, clears the alternate reset in the control register and
    boots: it returns 0 when there is block RAM to run from, the entry point of
    a bootable image in the flash with its segments loaded, and otherwise 0 with
    its own payload copied to DRAM; memory the loader does not own (stack frame,
    DRAM, loaded segments) is unchanged, and so are the other bits of the
    control register. *)
Theorem main_boots {D} `{Bus D} {regs} `{!Syscon D regs} `{!Uart D (is_16550 regs)} `{!SpiFlash D} `{!SysCtrl D}
    poll lit buffer ehdr ph done init LITEX_GIT_SHA1 sha hdr segs payload (s : fw D) :
  (max_wait < poll)%nat -> (max_wip < poll)%nat ->
  (forall v, @Calibration D _ _ (ctrl_uart v) done init) ->
  main_setting lit buffer ehdr ph LITEX_GIT_SHA1 sha s ->
  (Z.testbit (regs SYS_REG_INFO) 2 = false ->
    boot_media regs lit buffer ehdr ph hdr segs payload (fmem s)) ->
  exists m t s',
    main poll lit buffer ehdr ph done init LITEX_GIT_SHA1 s =
      Ok (fst (boot_outcome regs hdr segs payload m)) s' /\
    sent (fdev s') = sent (fdev s) ++ report_text regs ++ t /\
    sys_ctrl (fdev s') = Z.land (sys_ctrl (fdev s)) (Z.lnot SYS_REG_CTRL_ALT_RESET) /\
    (forall q, ~ scratch buffer ehdr ph q -> ~ in_dram q -> m !! q = fmem s !! q) /\
    forall q, ~ scratch buffer ehdr ph q ->
      fmem s' !! q = snd (boot_outcome regs hdr segs payload m) !! q.
Proof.
  intros Hp Hw Hcal [Hfr Hf Hst Hdr Hsha] Hmed. set (v := sys_ctrl (fdev s)).
  destruct (@main_stages D _ regs _ (ctrl_uart v) (ctrl_flash v) poll lit buffer ehdr ph Hp Hw Hdr done init
    (Hcal v) LITEX_GIT_SHA1 sha s (conj Hfr eq_refl) Hf Hsha) as (s1 & t1 & [Hc1 Hf1] & Hse & Hd & Hm & ->).
  assert (Hm' : forall q, ~ scratch buffer ehdr ph q -> ~ in_dram q -> fmem s1 !! q = fmem s !! q).
  { intros q Hq Hq'. apply Hm. intros [Hb|Hb]; [by apply Hq; left|done]. }
  destruct (clear_alt_reset v s1 Hc1) as (s2 & Hrun & Hc2 & Hse2 & Hm2).
  destruct (@boot_choice D _ regs (ctrl_uart (cleared v)) poll lit buffer ehdr ph Hp Hst Hdr hdr segs payload s2)
    as (s3 & t3 & Hr3 & Hc3 & Hse3 & Hm3).
  - split; [done|by rewrite Hm2].
  - intros Hbr. rewrite Hm2. by eapply media_kept; eauto.
  - rewrite Hm2 in *. exists (fmem s1), (t1 ++ t3), s3. split_and!; [by rewrite Hrun| | |done|done].
    + change (sent (fdev s3) = sent (fdev s2) ++ t3) in Hse3.
      change (sent (fdev s1) = sent (fdev s) ++ report_text regs ++ t1) in Hse.
      by rewrite Hse3, Hse2, Hse, <- !app_assoc.
    + by destruct Hc3 as [_ _ [_ Hv3]].
Qed.

(** ** A concrete SoC *)

(** A 16550, a system controller whose control register can be written, and
    the serial side of an ISSI flash chip: the bytes sent since chip select,
    how many were read back, the looks at the status a write still takes, and
    whether quad mode is on. *)
Module Soc.
Record chip := Chip { c_cmd : list Z; c_reads : nat; c_wip : nat; c_quad : bool }.
Record soc := MkSoc { so_port : port16550; so_ctrl : Z; so_chip : chip }.

Definition regs (off : Z) : Z :=
  if off =? SYS_REG_SIGNATURE then 0xf00daa5500010001
  else if off =? SYS_REG_INFO then 43
  else if off =? SYS_REG_DRAMINFO then 2 ^ 28
  else if off =? SYS_REG_DRAMINITINFO then 0x6000
  else if off =? SYS_REG_UART0_INFO then 2 ^ 32 + 100000000
  else if off =? SYS_REG_CLKINFO then 100000000
  else 0.

Definition chip_answer (c : chip) : Z :=
  match c_cmd c with
  | cmd :: _ =>
      if cmd =? SPI_CMD_RDID then nth (c_reads c) [0x9d; 0x60; 0x19] 0
      else if cmd =? SPI_CMD_RDSR then
        (if (0 <? c_wip c)%nat then 1 else 0) + (if c_quad c then 0x40 else 0)
      else 0
  | [] => 0
  end.

Definition chip_deselect (c : chip) : chip :=
  match c_cmd c with
  | cmd :: v =>
      if cmd =? SPI_CMD_RDSR then Chip [] 0 (pred (c_wip c)) (c_quad c)
      else if cmd =? SPI_CMD_WWR then Chip [] 0 3 (Z.testbit (hd 0 v) 6)
      else Chip [] 0 (c_wip c) (c_quad c)
  | [] => c
  end.

Definition soc_read (n addr : Z) (d : soc) : Z * soc :=
  if in_uart addr then
    let '(v, p) := read16550 (addr - UART_BASE) (so_port d) in (v, MkSoc p (so_ctrl d) (so_chip d))
  else if addr =? SPI_FCTRL_BASE + SPI_REG_DATA then
    let c := so_chip d in
    (chip_answer c, MkSoc (so_port d) (so_ctrl d) (Chip (c_cmd c) (S (c_reads c)) (c_wip c) (c_quad c)))
  else if addr =? SYSCON_BASE + SYS_REG_CTRL then (so_ctrl d mod 16, d)
  else (regs (addr - SYSCON_BASE), d).

Definition soc_write (n addr v : Z) (d : soc) : soc :=
  let c := so_chip d in
  if in_uart addr then MkSoc (write16550 (addr - UART_BASE) v (so_port d)) (so_ctrl d) c
  else if addr =? SPI_FCTRL_BASE + SPI_REG_DATA then
    MkSoc (so_port d) (so_ctrl d) (Chip (c_cmd c ++ [v]) 0 (c_wip c) (c_quad c))
  else if addr =? SPI_FCTRL_BASE + SPI_REG_CTRL then
    MkSoc (so_port d) (so_ctrl d)
      (if Z.testbit v 1 then Chip [] 0 (c_wip c) (c_quad c) else chip_deselect c)
  else if addr =? SYSCON_BASE + SYS_REG_CTRL then MkSoc (so_port d) v c
  else d.

#[global] Instance soc_bus : Bus soc := {| bus_read := soc_read; bus_write := soc_write |}.

#[global] Instance soc_syscon : Syscon soc regs.
Proof.
  split. intros off d Ho Hn. cbn. unfold soc_read, in_uart, SYSCON_BASE, UART_BASE, SPI_FCTRL_BASE in *.
  if_false. rewrite !(proj2 (Z.eqb_neq _ _)) by (unfold SPI_REG_DATA, SYS_REG_CTRL in *; lia).
  do 2 f_equal. lia.
Qed.

(** The serial port is that of the plain board. *)
Definition on_board (d : soc) : board port16550 := Board (so_port d).
Definition calm (d : soc) : Prop := (c_wip (so_chip d) <= 3)%nat.

Abbreviation U := (uart16550 regs).

#[global] Program Instance soc_uart : Uart soc true := {|
  uart_fresh d := uart_fresh (Uart := U) (on_board d) /\ calm d;
  uart_inv d := uart_inv (Uart := U) (on_board d) /\ calm d;
  sent d := sent (Uart := U) (on_board d);
  pending d := pending (Uart := U) (on_board d);
  tx_wait d := tx_wait (Uart := U) (on_board d);
  rx_wait d := rx_wait (Uart := U) (on_board d);
  max_wait := max_wait (Uart := U)
|}.
Next Obligation. intros d [Hi _]. by apply (wait_bound (Uart := U)). Qed.
Next Obligation.
  intros [p k c] freq [Hi Hc] Hf. destruct (setup_ok (Uart := U) _ freq Hi Hf) as [H1 H2].
  split; [split; [exact H1|exact Hc]|exact H2].
Qed.
Next Obligation.
  intros [p k c] [Hi Hc]. destruct (status_ok (Uart := U) _ Hi) as (v & [p'] & Hr & H1 & Hrest).
  injection Hr as <- <-. by do 2 eexists.
Qed.
Next Obligation.
  intros [p k c] ch [Hi Hc] Hz Hu. destruct (tx_ok (Uart := U) _ ch Hi Hz Hu) as (H1 & H2).
  by split; [split|].
Qed.
Next Obligation.
  intros [p k c] ch l [Hi Hc] Hz Hp. destruct (rx_ok (Uart := U) _ ch l Hi Hz Hp) as (v & [p'] & Hr & H1 & Hi' & H2).
  exists v, (MkSoc p' k c). split; [|split; [done|split; [by split|done]]]. clear Hi' H2.
  unfold bus_read, board_bus, port_read, port16550_port, on_board, b_port, so_port in Hr.
  change (soc_read 1 (rx_addr true) (MkSoc p k c) = (v, MkSoc p' k c)). unfold soc_read.
  change (in_uart (rx_addr true)) with true in *. cbv iota in *. cbn [so_port so_ctrl so_chip].
  destruct (read16550 _ p) as [v' p2]. by injection Hr as -> ->.
Qed.

#[global] Program Instance soc_flash : SpiFlash soc := {| wip d := c_wip (so_chip d); max_wip := 3 |}.
Next Obligation.
  intros n addr [p k [cmd r w q]] Ha [Hi Hc]. cbn. unfold soc_read.
  assert (in_uart addr = false) as -> by (unfold aside, in_uart in *; lia).
  destruct (addr =? _); [done|]. by destruct (addr =? _).
Qed.
Next Obligation.
  intros n addr v [p k [cmd r w q]] Ha [Hi Hc]. unfold bus_write, soc_bus, soc_write.
  assert (in_uart addr = false) as -> by (unfold aside, in_uart in *; lia).
  unfold calm in *. cbn in Hc.
  destruct (addr =? _); [by cbn|]. destruct (addr =? _); [|by destruct (addr =? _)].
  destruct (Z.testbit v 1); [by cbn|]. destruct cmd as [|x cmd]; [by cbn|]. unfold chip_deselect. cbn.
  destruct (x =? _); [|destruct (x =? _)]; (split; [split; [done|unfold calm; cbn; lia]|done]).
Qed.
Next Obligation. by intros d [_ Hc]. Qed.
Next Obligation. intros [p k [cmd r w q]] _. by destruct w, q; vm_compute. Qed.

#[global] Program Instance soc_ctrl : SysCtrl soc := {| sys_ctrl d := so_ctrl d mod 16 |}.
Next Obligation. intros d. apply Z.mod_pos_bound. lia. Qed.
Next Obligation. done. Qed.
Next Obligation. intros v [p k c] Hi Hv _. cbn. split; [by apply Z.mod_small|done]. Qed.
Next Obligation.
  intros n addr [p k c] Ha. unfold off_syscon, SYSCON_BASE in Ha. unfold bus_read, soc_bus, soc_read.
  destruct (in_uart addr); [by destruct (read16550 _ _)|]. by repeat destruct (addr =? _).
Qed.
Next Obligation.
  intros n addr v [p k c] Ha. unfold off_syscon, SYSCON_BASE in Ha. unfold bus_write, soc_bus, soc_write.
  rewrite (proj2 (Z.eqb_neq addr (SYSCON_BASE + SYS_REG_CTRL))) by (unfold SYSCON_BASE, SYS_REG_CTRL; lia).
  destruct (in_uart addr); [done|]. by repeat destruct (addr =? _).
Qed.

(** A calibration that fills the first byte of DRAM when there is one. *)
Definition done : M (fw soc) Z := mret 0.
Definition init : M (fw soc) unit := fun s =>
  match fmem s !! DRAM_BASE with
  | Some _ => Ok tt (with_mem s (write_bytes DRAM_BASE [0xaa] (fmem s)))
  | None => Ok tt s
  end.

Lemma soc_calibration v : @Calibration soc _ _ (ctrl_uart v) done init.
Proof.
  split; intros s Hc Hm.
  - exists 0, s, []. split; [reflexivity|]. by apply evolves_refl.
  - unfold init. destruct (fmem s !! DRAM_BASE) eqn:Hd.
    2: { exists s, []. split; [reflexivity|]. by apply evolves_refl. }
    assert (Hmap : mapped (fmem s) DRAM_BASE (length [0xaa])).
    { intros i Hi. simpl in Hi. replace (DRAM_BASE + i) with DRAM_BASE by lia. by eexists. }
    eexists _, []. split; [reflexivity|]. split; [by destruct Hc|by rewrite app_nil_r| |by apply write_bytes_dom|].
    + apply mem_ok_write; [done..|]. by repeat constructor.
    + intros q Hq. cbn [fmem with_mem]. rewrite write_bytes_lookup, bool_decide_false; [reflexivity|].
      simpl. intros Hr. apply Hq. unfold in_dram, DRAM_BASE, SYSCON_BASE in *. lia.
Qed.

Definition sha : list Z := codes "57b403d5".
Definition start : fw soc :=
  Fw (write_bytes DRAM_BASE [0] (write_bytes 13000 (sha ++ [0]) (boot_mem demo_flash)))
    (MkSoc (Port16550 128 0 0 0 0 0 [] 2 [] 1) 9 (Chip [] 0 0 false)) false 0.

Lemma main_boots_witness : exists m t s',
  main 5 demo_lit 50000 50128 50192 done init 13000 start = Ok 60000 s' /\
  tx_log (so_port (fdev s')) = report_text regs ++ t /\
  so_ctrl (fdev s') mod 16 = 1 /\
  (forall q, ~ demo_scratch q -> ~ in_dram q -> m !! q = fmem start !! q) /\
  forall q, ~ demo_scratch q -> fmem s' !! q = load_segments demo_segs m !! q.
Proof.
  apply (@main_boots soc soc_bus regs soc_syscon soc_uart soc_flash soc_ctrl 5 demo_lit 50000 50128 50192 done init
    13000 sha demo_hdr demo_segs [] start); [cbn; lia|cbn; lia|apply soc_calibration| |intros _].
  - split.
    + split; [|unfold calm; cbn; lia]. repeat split; cbn; lia || constructor.
    + apply demo_frame; decide_now.
    + intros q Hq%demo_scratch_range. unfold DRAM_BASE. lia.
    + apply demo_spares. unfold in_dram, DRAM_BASE. lia.
    + split; [lia|]. split; [decide_now|].
      split; intros q Hq; simpl in Hq; [intros Hr%demo_scratch_range|unfold in_dram, DRAM_BASE]; lia.
  - split.
    + intros _. split; [reflexivity|decide_now|]. change (snd (flash_info regs)) with 0. lia.
    + intros _ _. split; [|by vm_compute]. split; [by vm_compute|by vm_compute|intros Hlt; by vm_compute in Hlt|].
      intros [|i] p data Hi; [|discriminate]. injection Hi as <- <-. cbv zeta. split_and!; decide_now.
    + intros q (g & [<-|[]] & Hq). change (seg_vaddr _) with 60000 in Hq. simpl in Hq.
      split; [|unfold SPI_FLASH_BASE; split; [lia|intros Hr%demo_scratch_range; lia]].
      assert (mapped (fmem start) 60000 32) as Hm by decide_now. eapply mapped_at; [exact Hm|lia].
    + apply demo_spares. intros q (g & [<-|[]] & Hq). change (seg_vaddr _) with 60000 in Hq. simpl in Hq. lia.
    + intros Hx. by vm_compute in Hx.
Defined.

(** The run itself: the flash was put in quad mode, DRAM was touched, and the
    alternate reset is off. *)
Lemma soc_run :
  match main 5 demo_lit 50000 50128 50192 done init 13000 start with
  | Ok r s' => r = 60000 /\ so_ctrl (fdev s') = 1 /\ c_quad (so_chip (fdev s')) = true /\
      fmem s' !! DRAM_BASE = Some 0xaa /\ fmem s' !! 60000 = Some 1
  | Err _ _ => False
  end.
Proof. vm_compute. repeat split; reflexivity. Qed.
End Soc.
