(* ===== verification/Vhpi.v ===== *)
(** * Values across the VHDL boundary: sim_vhpi_c.c

    GHDL passes a [std_logic_vector] as an array of enumeration values, one
    byte per bit and the most significant bit first.  The two values that
    matter, [vhpi0] and [vhpi1], come from a header that is not in the
    repository: they are parameters, known only to differ. *)

From S2P Require Import Prelude CMem LibcMem.

Section vhpi.
Context (vhpi0 vhpi1 : Z).

(** [m] is what [malloc] answered. *)
Definition from_string_step (m base len : Z) : Z -> M mem (Z + unit) := fun i =>
  if i <? len then c ← loadb (base + i); _ ← storeb (m + i) c; mret (inl (i + 1))
  else mret (inr tt).

Definition from_string (m base len : Z) : M mem Z :=
  if m =? 0 then throw (Exit 1) else
  _ ← mloop (from_string_step m base len) 0;
  _ ← storeb (m + len) 0;
  mret m.

Definition from_bit (b : Z) : Z := if b =? vhpi0 then 0 else if b =? vhpi1 then 1 else 0.

Definition from_vector_step (len : Z) : Z * Z * Z -> M mem (Z * Z * Z + Z) :=
  fun '(i, p, ret) =>
    if i <? len then
      b ← loadb p;
      mret (inl (i + 1, p + 1, Z.lor (u64 (Z.shiftl ret 1)) (from_bit b)))
    else mret (inr ret).

Definition from_std_logic_vector (p len : Z) : M mem Z :=
  if 64 <? len then throw (Exit 1) else
  loop 65 (from_vector_step len) (0, p, 0).

Definition to_vector_step (val len : Z) : Z * Z -> M mem (Z * Z + unit) := fun '(i, p) =>
  if i <? len then
    _ ← storeb p (if Z.land (Z.shiftr val (len - 1 - i)) 1 =? 0 then vhpi0 else vhpi1);
    mret (inl (i + 1, p + 1))
  else mret (inr tt).

Definition to_std_logic_vector (val p len : Z) : M mem unit :=
  if 64 <? len then throw (Exit 1) else
  loop 65 (to_vector_step val len) (0, p).
End vhpi.

(** ** Reference: bits, most significant first *)

Fixpoint bits_value (acc : Z) (l : list bool) : Z :=
  match l with
  | [] => acc
  | b :: l' => bits_value (2 * acc + Z.b2z b) l'
  end.

(** The [n] low bits of [v]. *)
Fixpoint low_bits (n : nat) (v : Z) : list bool :=
  match n with
  | O => []
  | S n' => Z.testbit v n' :: low_bits n' v
  end.

Lemma low_bits_length n v : length (low_bits n v) = n.
Proof. induction n; simpl; auto. Qed.

Lemma bits_value_low n v acc : bits_value acc (low_bits n v) = acc * 2 ^ n + v mod 2 ^ n.
Proof.
  revert acc. induction n as [|n IH]; intros acc; simpl low_bits.
  - simpl. rewrite Z.mod_1_r. lia.
  - cbn [bits_value]. rewrite IH. rewrite Nat2Z.inj_succ, Z.pow_succ_r by lia.
    rewrite Z.testbit_spec' by lia.
    assert (v mod (2 * 2 ^ n) = v mod 2 ^ n + 2 ^ n * (v / 2 ^ n mod 2)) as ->.
    { rewrite (Z.mul_comm 2). by rewrite Z.rem_mul_r by lia. }
    lia.
Qed.

Lemma bits_value_nonneg acc l : 0 <= acc -> 0 <= bits_value acc l.
Proof. revert acc. induction l as [|b l IH]; intros acc Ha; simpl; [lia|]. apply IH. destruct b; simpl; lia. Qed.

Lemma bits_value_bound acc l (k : nat) :
  0 <= acc < 2 ^ k -> 0 <= bits_value acc l < 2 ^ (k + length l).
Proof.
  revert acc k. induction l as [|b l IH]; intros acc k Ha; simpl; [by rewrite Z.add_0_r|].
  replace (k + S (length l)) with (S k + length l) by lia. apply IH.
  rewrite Nat2Z.inj_succ, Z.pow_succ_r by lia. destruct b; simpl; lia.
Qed.

Section correct.
Context (vhpi0 vhpi1 : Z).
Hypothesis vhpi_distinct : vhpi0 <> vhpi1.
Hypothesis vhpi_bytes : in_u8 vhpi0 /\ in_u8 vhpi1.

Definition logic (b : bool) : Z := if b then vhpi1 else vhpi0.
Definition vector (l : list bool) : list Z := map logic l.

Lemma logic_in_u8 b : in_u8 (logic b).
Proof. destruct b; simpl; apply vhpi_bytes. Qed.

Lemma vector_in_u8 l : Forall in_u8 (vector l).
Proof. apply Forall_map, Forall_forall. intros b _. apply logic_in_u8. Qed.

Lemma from_bit_logic b : from_bit vhpi0 vhpi1 (logic b) = Z.b2z b.
Proof.
  unfold from_bit. destruct b; simpl; [|by rewrite Z.eqb_refl].
  destruct (Z.eqb_spec vhpi1 vhpi0); [congruence|by rewrite Z.eqb_refl].
Qed.

Lemma from_vector_loop l : forall (i : nat) p ret m f len,
  bytes_at m p (vector l) -> 0 <= ret < 2 ^ i -> len = i + length l -> len <= 64 ->
  (length l < f)%nat ->
  loop f (from_vector_step vhpi0 vhpi1 len) (Z.of_nat i, p, ret) m = Ok (bits_value ret l) m.
Proof.
  induction l as [|b l IH]; intros i p ret m f len Hb Hr Hl H64 Hf;
    (destruct f as [|f]; [simpl in Hf; lia|]); cbn [length] in *.
  - apply loop_break. enter from_vector_step. by if_false.
  - simpl in Hb. apply bytes_at_cons in Hb as [Hb0 Hb]. cbn [bits_value].
    rewrite <- (IH (S i) (p + 1) _ m f len); [|done| |lia|lia|lia].
    + apply loop_continue. enter from_vector_step. if_true. run_with (by apply loadb_ok).
      rewrite from_bit_logic. unfold mret, M_ret.
      assert (2 ^ i * 2 <= 2 ^ 64).
      { rewrite (Z.mul_comm _ 2), <- Z.pow_succ_r by lia. apply Z.pow_le_mono_r; lia. }
      rewrite Z.shiftl_mul_pow2 by lia. rewrite u64_small by lia.
      rewrite (lor_shifted ret (Z.b2z b) 1) by (destruct b; simpl; lia). eq_lia.
    + rewrite Nat2Z.inj_succ, Z.pow_succ_r by lia. destruct b; simpl; lia.
Qed.

Lemma from_vector_ok m p l :
  bytes_at m p (vector l) -> length l <= 64 ->
  from_std_logic_vector vhpi0 vhpi1 p (length l) m = Ok (bits_value 0 l) m.
Proof.
  intros Hb Hl. unfold from_std_logic_vector. if_false.
  apply (from_vector_loop l 0); [done|simpl; lia|lia|lia|lia].
Qed.

Lemma to_vector_loop (n : nat) : forall i p v m f len,
  mapped m p n -> len = i + n -> 0 <= i -> (n < f)%nat ->
  loop f (to_vector_step vhpi0 vhpi1 v len) (i, p) m =
    Ok tt (write_bytes p (vector (low_bits n v)) m).
Proof.
  induction n as [|n IH]; intros i p v m f len Hm Hl Hi Hf; (destruct f as [|f]; [lia|]).
  - apply loop_break. enter to_vector_step. by if_false.
  - cbn [low_bits vector map write_bytes].
    assert (Hbit : (if Z.land (Z.shiftr v (len - 1 - i)) 1 =? 0 then vhpi0 else vhpi1) =
      logic (Z.testbit v n)).
    { replace (len - 1 - i) with (Z.of_nat n) by lia. rewrite Z.shiftr_div_pow2 by lia.
      pose proof (Z.land_ones (v / 2 ^ n) 1 ltac:(lia)) as E. change (Z.ones 1) with 1 in E.
      rewrite E. change (2 ^ 1) with 2. rewrite <- Z.testbit_spec' by lia.
      by destruct (Z.testbit v n). }
    rewrite <- (IH (i + 1) (p + 1) v _ f len); [| |lia|lia|lia].
    + apply loop_continue. enter to_vector_step. if_true.
      run_with (apply storeb_ok; eapply mapped_at; [exact Hm|lia]).
      by rewrite Hbit, u8_small by apply logic_in_u8.
    + apply (write_bytes_mapped _ [_]). eapply mapped_mono; [exact Hm|lia|lia].
Qed.

Lemma to_vector_ok m p v (n : nat) :
  mapped m p n -> n <= 64 ->
  to_std_logic_vector vhpi0 vhpi1 v p n m = Ok tt (write_bytes p (vector (low_bits n v)) m).
Proof.
  intros Hm Hn. unfold to_std_logic_vector. if_false. apply to_vector_loop; [done|lia|lia|lia].
Qed.

Lemma to_from_vector m p v (n : nat) :
  n <= 64 -> bytes_at m p (vector (low_bits n v)) ->
  from_std_logic_vector vhpi0 vhpi1 p n m = Ok (v mod 2 ^ n) m.
Proof.
  intros Hn Hb. pose proof (low_bits_length n v) as Hl. rewrite <- Hl at 1.
  rewrite from_vector_ok by (done || lia). by rewrite bits_value_low.
Qed.
End correct.

(** A number passed to VHDL and back is the number reduced to the width of
    the vector, for every width up to 64 bits; the vector's bytes are all that
    is written. *)
Theorem vector_roundtrip vhpi0 vhpi1 m p v (n : nat) :
  vhpi0 <> vhpi1 -> in_u8 vhpi0 /\ in_u8 vhpi1 -> mapped m p n -> n <= 64 -> exists m',
  to_std_logic_vector vhpi0 vhpi1 v p n m = Ok tt m' /\
  from_std_logic_vector vhpi0 vhpi1 p n m' = Ok (v mod 2 ^ n) m' /\
  same_outside p n m m'.
Proof.
  intros Hd Hb Hm Hn. eexists. split; [by apply to_vector_ok|]. split.
  - apply to_from_vector; [done|done|]. apply write_bytes_at.
  - apply write_bytes_same. unfold vector. rewrite length_map, low_bits_length. lia.
Qed.

Lemma vector_roundtrip_witness : exists m',
  to_std_logic_vector 2 3 300 64 8%nat (block 64 (replicate 8 0)) = Ok tt m' /\
  from_std_logic_vector 2 3 64 8%nat m' = Ok 44 m' /\
  same_outside 64 8%nat (block 64 (replicate 8 0)) m'.
Proof.
  apply (vector_roundtrip 2 3 (block 64 (replicate 8 0)) 64 300 8).
  - lia.
  - unfold in_u8. lia.
  - decide_now.
  - lia.
Defined.

(** Wider vectors end the simulation. *)
Lemma vector_too_wide vhpi0 vhpi1 m p v len :
  64 < len -> from_std_logic_vector vhpi0 vhpi1 p len m = Err (Exit 1) m /\
  to_std_logic_vector vhpi0 vhpi1 v p len m = Err (Exit 1) m.
Proof. intros. unfold from_std_logic_vector, to_std_logic_vector. by rewrite (proj2 (Z.ltb_lt 64 len)). Qed.
