(* ===== verification/Bram.v ===== *)
(** * The simulated block RAM: sim_bram_helpers_c.c

    Each region is a private mapping of a file, padded with zeros to the size
    the simulation asks for.  Addresses and data cross the VHDL boundary as
    64-bit vectors.  The kernel and [malloc] are parameters: where they place
    a block is their choice. *)

From S2P Require Import Prelude CMem LibcMem Vhpi.

Definition MAX_REGIONS : Z := 128.

(** [ALIGN_UP] for a power of two. *)
Definition align_up (val size : Z) : Z := Z.land (u64 (val + (size - 1))) (Z.lnot (size - 1)).

Record ram_behavioural := Region { filename : Z; rsize : Z; rbase : Z }.

(** The process: its memory and the table of regions; entries from
    [length regions] to 127 are still zero. *)
Record ram := Ram { rmem : mem; regions : list ram_behavioural }.

Definition region_nr (s : ram) : Z := length (regions s).

Definition with_rmem (s : ram) (m : mem) : ram := Ram m (regions s).

(** A routine that only uses memory. *)
Definition on_ram {A} (c : M mem A) : M ram A := fun s =>
  match c (rmem s) with
  | Ok a m => Ok a (with_rmem s m)
  | Err e m => Err e (with_rmem s m)
  end.

Section bram.
Context (vhpi0 vhpi1 : Z).
Context (page : Z) (malloc : mem -> Z -> Z * mem) (mmap : mem -> Z -> option Z).
Context (files : list Z -> option (list Z)).

(** The bytes of a C string. *)
Definition name_step : Z * list Z -> M mem (Z * list Z + list Z) := fun '(p, acc) =>
  c ← loadb p; if c =? 0 then mret (inr (rev acc)) else mret (inl (p + 1, c :: acc)).

Definition c_string (p : Z) : M mem (list Z) := mloop name_step (p, []).

(** [mmap] of [n] bytes that read as [l]. *)
Definition map_at (n : Z) (l : list Z) : M ram Z := fun s =>
  match mmap (rmem s) n with
  | Some p => Ok p (with_rmem s (write_bytes p l (rmem s)))
  | None => Err (Exit 1) s
  end.

Definition zeros (n : Z) : list Z := replicate (Z.to_nat n) 0.

(** The pages of a file: its bytes and zeros up to a page boundary. *)
Definition file_pages (file : list Z) : list Z :=
  file ++ zeros (align_up (length file) page - length file).

Definition behavioural_initialize (base len size : Z) : M ram Z :=
  nr ← gets region_nr;
  if nr =? MAX_REGIONS then throw (Exit 1) else
  fname ← (fun s => let '(m, mm) := malloc (rmem s) (len + 1) in
                    on_ram (from_string m base len) (with_rmem s mm));
  let size := align_up size page in
  name ← on_ram (c_string fname);
  match files name with
  | None => throw (Exit 1)
  | Some file =>
      let tmp_size := align_up (length file) page in
      m ← (if tmp_size <? size then
             m ← map_at size (zeros size);
             if tmp_size =? 0 then mret m else
             _ ← modify (fun s => with_rmem s (write_bytes m (file_pages file) (rmem s)));
             mret m
           else if tmp_size =? 0 then throw (Exit 1)
           else map_at tmp_size (file_pages file));
      _ ← modify (fun s => Ram (rmem s) (regions s ++ [Region fname size m]));
      mret nr
  end.

(** [&behavioural_regions[identifier]]: the index is only checked against the
    number of regions, and an [int] compared with an [unsigned long] is
    converted. *)
Definition find_region (identifier : Z) : M ram ram_behavioural := fun s =>
  if region_nr s <? u64 identifier then Err (Exit 1) s
  else if identifier <? MAX_REGIONS then
    Ok (default (Region 0 0 0) (regions s !! Z.to_nat identifier)) s
  else Err UB s.

Definition read_step (r : ram_behavioural) (addr : Z) : Z * Z -> M mem (Z * Z + Z) :=
  fun '(i, val) =>
    if i <? 8 then
      if rsize r <? u64 (addr + i) then throw (Exit 1) else
      b ← loadb (u64 (rbase r + addr + i));
      mret (inl (i + 1, Z.lor val (Z.shiftl b (i * 8))))
    else mret (inr val).

Definition behavioural_read (__val __addr sel identifier : Z) : M ram unit :=
  addr ← on_ram (from_std_logic_vector vhpi0 vhpi1 __addr 64);
  r ← find_region identifier;
  val ← on_ram (loop 9 (read_step r addr) (0, 0));
  on_ram (to_std_logic_vector vhpi0 vhpi1 val __val 64).

Definition write_step (r : ram_behavioural) (addr val sel : Z) : Z -> M mem (Z + unit) := fun i =>
  if i <? 8 then
    if Z.land sel (Z.shiftl 1 i) =? 0 then mret (inl (i + 1)) else
    if rsize r <? u64 (addr + i) then throw (Exit 1) else
    _ ← storeb (u64 (rbase r + addr + i)) (Z.land (Z.shiftr val (i * 8)) 0xff);
    mret (inl (i + 1))
  else mret (inr tt).

Definition behavioural_write (__val __addr sel identifier : Z) : M ram unit :=
  val ← on_ram (from_std_logic_vector vhpi0 vhpi1 __val 64);
  addr ← on_ram (from_std_logic_vector vhpi0 vhpi1 __addr 64);
  r ← find_region identifier;
  on_ram (loop 9 (write_step r addr val sel) 0).
End bram.

(** ** Reading and writing a word *)

(** Byte [i] of a word. *)
Definition word_byte (v : Z) (i : nat) : Z := v / 2 ^ (8 * i) mod 256.

(** The bytes of a word after a write that selects some of them; [i] is the
    lane of the first. *)
Fixpoint merge (sel v : Z) (i : nat) (old : list Z) : list Z :=
  match old with
  | [] => []
  | b :: old' => (if Z.testbit sel i then word_byte v i else b) :: merge sel v (S i) old'
  end.

Lemma merge_length sel v i old : length (merge sel v i old) = length old.
Proof. revert i. induction old as [|b old IH]; intros i; simpl; auto. Qed.

Lemma read_word_loop r addr l : forall (i : nat) val m f,
  bytes_at m (rbase r + addr + i) l -> Forall in_u8 l -> (i + length l = 8)%nat ->
  0 <= addr -> addr + 8 <= rsize r + 1 -> rsize r < 2 ^ 64 - 8 ->
  0 <= rbase r + addr -> rbase r + addr + 8 <= 2 ^ 64 ->
  0 <= val < 2 ^ (8 * i) -> (length l < f)%nat ->
  loop f (read_step r addr) (Z.of_nat i, val) m = Ok (val + 2 ^ (8 * i) * le_value l) m.
Proof.
  induction l as [|b l IH]; intros i val m f Hb Hu Hi Ha Hs Hr Hb0 Hb8 Hv Hf;
    (destruct f as [|f]; [simpl in Hf; lia|]); cbn [length] in *.
  - apply loop_break. enter read_step. if_false. unfold mret, M_ret. simpl le_value. eq_lia.
  - apply bytes_at_cons in Hb as [Hbb Hb]. apply Forall_cons_iff in Hu as [Hub Hu]. unfold in_u8 in Hub.
    assert (Hp : 2 ^ (8 * S i) = 2 ^ (8 * i) * 256).
    { replace (8 * S i) with (8 * i + 8) by lia. by rewrite Z.pow_add_r by lia. }
    rewrite (loop_continue _ _ _ (Z.of_nat (S i), val + b * 2 ^ (8 * i)) _ m).
    + replace (rbase r + addr + i + 1) with (rbase r + addr + S i) in Hb by lia.
      rewrite (IH (S i) _ m f); [|done|done|lia|lia|lia|lia|lia|lia|nia|lia].
      cbn [le_value]. rewrite Hp. f_equal. lia.
    + enter read_step. if_true. rewrite u64_small by lia. if_false. rewrite u64_small by lia.
      run_with (by apply loadb_ok). unfold mret, M_ret.
      rewrite Z.shiftl_mul_pow2, Z.lor_comm by lia. replace (i * 8) with (8 * i) by lia.
      rewrite lor_shifted by lia. eq_lia.
Qed.

Lemma write_word_loop r addr v sel l : forall (i : nat) m f,
  bytes_at m (rbase r + addr + i) l -> Forall in_u8 l -> (i + length l = 8)%nat ->
  0 <= addr -> addr + 8 <= rsize r + 1 -> rsize r < 2 ^ 64 - 8 ->
  0 <= rbase r + addr -> rbase r + addr + 8 <= 2 ^ 64 -> (length l < f)%nat ->
  loop f (write_step r addr v sel) (Z.of_nat i) m =
    Ok tt (write_bytes (rbase r + addr + i) (merge sel v i l) m).
Proof.
  induction l as [|b l IH]; intros i m f Hb Hu Hi Ha Hs Hr Hb0 Hb8 Hf;
    (destruct f as [|f]; [simpl in Hf; lia|]); cbn [length] in *.
  - apply loop_break. enter write_step. by if_false.
  - apply bytes_at_cons in Hb as [Hbb Hb]. apply Forall_cons_iff in Hu as [Hub Hu].
    cbn [merge write_bytes]. set (c := if Z.testbit sel i then word_byte v i else b).
    replace (rbase r + addr + i + 1) with (rbase r + addr + S i) in * by lia.
    rewrite <- (IH (S i) (<[rbase r + addr + i := c]> m) f); [| |done|lia..].
    + apply loop_continue. enter write_step. if_true.
      rewrite Z.shiftl_1_l, land_pow2 by lia. destruct (Z.testbit sel i) eqn:E; cbn [negb].
      * rewrite u64_small by lia. if_false. rewrite u64_small by lia.
        run_with (by apply storeb_ok). unfold mret, M_ret. subst c. unfold word_byte.
        replace (u8 (Z.land (Z.shiftr v (i * 8)) 255)) with (v / 2 ^ (8 * i) mod 256); [eq_lia|].
        change 255 with (Z.ones 8). rewrite Z.land_ones, Z.shiftr_div_pow2 by lia. unfold u8.
        rewrite Z.mod_mod by lia. by replace (i * 8) with (8 * i) by lia.
      * unfold mret, M_ret. subst c. rewrite insert_id by done. eq_lia.
    + apply (bytes_at_write_other _ [c]); [simpl; lia|done].
Qed.

Lemma on_ram_ok {A} (c : M mem A) s a m :
  c (rmem s) = Ok a m -> on_ram c s = Ok a (with_rmem s m).
Proof. intros Hc. unfold on_ram. by rewrite Hc. Qed.

Lemma with_rmem_same s : with_rmem s (rmem s) = s.
Proof. by destruct s. Qed.

Lemma find_region_ok s (id : nat) r :
  regions s !! id = Some r -> length (regions s) <= MAX_REGIONS -> find_region id s = Ok r s.
Proof.
  intros Hr Hn. pose proof (lookup_lt_Some _ _ _ Hr). unfold find_region, region_nr, MAX_REGIONS in *.
  rewrite u64_small by lia. if_false. if_true. by rewrite Nat2Z.id, Hr.
Qed.

Lemma merge_in_u8 sel v i old : Forall in_u8 old -> Forall in_u8 (merge sel v i old).
Proof.
  intros Hu. revert i. induction Hu as [|b old Hb _ IH]; intros i; simpl; constructor; [|apply IH].
  destruct (Z.testbit sel i); [|done]. unfold word_byte, in_u8. apply Z.mod_pos_bound. lia.
Qed.

Section access.
Context (vhpi0 vhpi1 : Z).
Hypothesis vhpi_distinct : vhpi0 <> vhpi1.
Hypothesis vhpi_bytes : in_u8 vhpi0 /\ in_u8 vhpi1.

Abbreviation word64 v := (vector vhpi0 vhpi1 (low_bits 64 v)).

(** Word [addr] of region [id] holds the bytes [l]. *)
Record word_at (s : ram) (id : nat) (r : ram_behavioural) (addr : Z) (l : list Z) : Prop := {
  wa_region : regions s !! id = Some r /\ length (regions s) <= MAX_REGIONS;
  wa_inside : 0 <= addr /\ addr + 8 <= rsize r;
  wa_space : rsize r < 2 ^ 64 - 8 /\ 0 <= rbase r /\ rbase r + rsize r <= 2 ^ 64;
  wa_bytes : bytes_at (rmem s) (rbase r + addr) l /\ length l = 8%nat /\ Forall in_u8 l
}.

Lemma read_vector s p v : bytes_at (rmem s) p (word64 v) -> 0 <= v < 2 ^ 64 ->
  on_ram (from_std_logic_vector vhpi0 vhpi1 p 64) s = Ok v s.
Proof.
  intros Hb Hv. rewrite (on_ram_ok _ s v (rmem s)); [by rewrite with_rmem_same|].
  pose proof (to_from_vector vhpi0 vhpi1 vhpi_distinct (rmem s) p v 64 ltac:(lia) Hb) as H.
  change (Z.of_nat 64) with 64 in H. by rewrite H, Z.mod_small by lia.
Qed.

Lemma behavioural_read_ok s id r addr l pv pa sel :
  word_at s id r addr l -> bytes_at (rmem s) pa (word64 addr) -> mapped (rmem s) pv 64 ->
  behavioural_read vhpi0 vhpi1 pv pa sel id s =
    Ok tt (with_rmem s (write_bytes pv (word64 (le_value l)) (rmem s))).
Proof.
  intros [[Hr Hn] [Ha Hi] (Hs & Hb & He) (Hl & Hlen & Hu)] Hpa Hpv. unfold behavioural_read.
  run_with (apply read_vector; [exact Hpa|lia]). run_with (by apply find_region_ok).
  run_with (apply on_ram_ok; apply (read_word_loop r addr l 0);
    [by rewrite Z.add_0_r|done|lia|lia|lia|lia|lia|lia|simpl; lia|lia]).
  rewrite with_rmem_same. change (0 + 2 ^ (8 * 0%nat) * le_value l) with (1 * le_value l).
  rewrite Z.mul_1_l. apply on_ram_ok. by apply (to_vector_ok vhpi0 vhpi1 vhpi_bytes _ _ _ 64).
Qed.

Lemma behavioural_write_ok s id r addr l v pv pa sel :
  word_at s id r addr l -> bytes_at (rmem s) pa (word64 addr) -> bytes_at (rmem s) pv (word64 v) ->
  0 <= v < 2 ^ 64 ->
  behavioural_write vhpi0 vhpi1 pv pa sel id s =
    Ok tt (with_rmem s (write_bytes (rbase r + addr) (merge sel v 0 l) (rmem s))).
Proof.
  intros [[Hr Hn] [Ha Hi] (Hs & Hb & He) (Hl & Hlen & Hu)] Hpa Hpv Hv. unfold behavioural_write.
  run_with (by apply read_vector). run_with (apply read_vector; [exact Hpa|lia]).
  run_with (by apply find_region_ok). apply on_ram_ok.
  rewrite (write_word_loop r addr v sel l 0 (rmem s)); [by rewrite Z.add_0_r|by rewrite Z.add_0_r|done|lia..].
Qed.
End access.

(** C17: a word of the simulated RAM written with byte enables and read back
    has the new value in the enabled bytes and the old one in the others; the
    write changes no other byte of the process. *)
Theorem bram_write_read vhpi0 vhpi1 s id r addr old v sel pv pa pr :
  vhpi0 <> vhpi1 -> in_u8 vhpi0 /\ in_u8 vhpi1 -> word_at s id r addr old ->
  bytes_at (rmem s) pa (vector vhpi0 vhpi1 (low_bits 64 addr)) ->
  bytes_at (rmem s) pv (vector vhpi0 vhpi1 (low_bits 64 v)) ->
  0 <= v < 2 ^ 64 -> mapped (rmem s) pr 64 ->
  (pa + 64 <= rbase r + addr \/ rbase r + addr + 8 <= pa) ->
  exists s1 s2,
    behavioural_write vhpi0 vhpi1 pv pa sel id s = Ok tt s1 /\
    same_outside (rbase r + addr) 8 (rmem s) (rmem s1) /\
    behavioural_read vhpi0 vhpi1 pr pa 0 id s1 = Ok tt s2 /\
    from_std_logic_vector vhpi0 vhpi1 pr 64 (rmem s2) = Ok (le_value (merge sel v 0 old)) (rmem s2).
Proof.
  intros Hd Hb Hw Hpa Hpv Hv Hpr Hap. pose proof Hw as [[Hr Hn] Hi Hs (Hl & Hlen & Hu)].
  eexists _, _. split; [by apply behavioural_write_ok with (r := r) (addr := addr) (l := old)|].
  cbn [rmem with_rmem].
  assert (Hml : length (merge sel v 0 old) = 8%nat) by (by rewrite merge_length).
  split; [apply write_bytes_same; lia|].
  assert (Hpa' : bytes_at (write_bytes (rbase r + addr) (merge sel v 0 old) (rmem s)) pa
    (vector vhpi0 vhpi1 (low_bits 64 addr))).
  { apply bytes_at_write_other; [|done]. unfold vector. rewrite length_map, low_bits_length. lia. }
  pose proof (merge_in_u8 sel v 0 old Hu) as Hmu.
  split.
  - apply (behavioural_read_ok vhpi0 vhpi1 Hd Hb _ id r addr (merge sel v 0 old)); [|done|].
    + split; [done|done|done|]. split; [apply write_bytes_at|done].
    + by apply write_bytes_mapped.
  - cbn [rmem with_rmem]. pose proof (le_value_range _ Hmu) as Hrange. rewrite Hml in Hrange.
    rewrite <- (Z.mod_small (le_value (merge sel v 0 old)) (2 ^ 64)) at 2 by done.
    apply (to_from_vector vhpi0 vhpi1 Hd _ _ _ 64); [lia|]. apply write_bytes_at.
Qed.

(** A page of 16 bytes at 4096 with vectors at 100, 200 and 300. *)
Definition bram_demo (v addr : Z) : ram :=
  Ram (write_bytes 100 (vector 2 3 (low_bits 64 v)) (write_bytes 200 (vector 2 3 (low_bits 64 addr))
        (write_bytes 300 (replicate 64 0) (block 4096 (replicate 16 170)))))
      [Region 0 16 4096].

Lemma bram_write_read_witness : exists s1 s2,
  behavioural_write 2 3 100 200 0x0f 0%nat (bram_demo 0x1122334455667788 8) = Ok tt s1 /\
  same_outside 4104 8 (rmem (bram_demo 0x1122334455667788 8)) (rmem s1) /\
  behavioural_read 2 3 300 200 0 0%nat s1 = Ok tt s2 /\
  from_std_logic_vector 2 3 300 64 (rmem s2) = Ok 0xaaaaaaaa55667788 (rmem s2).
Proof.
  apply (bram_write_read 2 3 (bram_demo 0x1122334455667788 8) 0 (Region 0 16 4096) 8
    (replicate 8 170) 0x1122334455667788 0x0f 100 200 300).
  - lia.
  - unfold in_u8. lia.
  - split; [done|simpl; lia|simpl; lia|]. split; [decide_now|]. split; [done|]. decide_now.
  - decide_now.
  - decide_now.
  - lia.
  - decide_now.
  - simpl. lia.
Defined.

(** The range check lets the byte just after the region through: a word that
    ends there is read outside the mapping instead of being refused. *)
Lemma bram_check_off_by_one :
  behavioural_read 2 3 300 200 0 0 (bram_demo 0 9) = Err (Segv 4112) (bram_demo 0 9) /\
  behavioural_read 2 3 300 200 0 0 (bram_demo 0 17) = Err (Exit 1) (bram_demo 0 17) /\
  behavioural_read 2 3 300 200 0 1 (bram_demo 0 0) = Err (Segv 0) (bram_demo 0 0).
Proof. repeat split; vm_compute; reflexivity. Qed.

(** ** Setting a region up *)

Lemma align_up_value v k : 0 <= k < 64 -> 0 <= v -> v + 2 ^ k < 2 ^ 64 ->
  align_up v (2 ^ k) = (v + 2 ^ k - 1) / 2 ^ k * 2 ^ k.
Proof.
  intros Hk Hv Hlt. assert (Hp : 0 < 2 ^ k) by (apply Z.pow_pos_nonneg; lia). unfold align_up.
  rewrite u64_small by lia. replace (v + (2 ^ k - 1)) with (v + 2 ^ k - 1) by lia.
  replace (2 ^ k - 1) with (Z.ones k) by (rewrite Z.ones_equiv; lia).
  rewrite <- Z.ldiff_land, Z.ldiff_ones_r by lia.
  by rewrite Z.shiftr_div_pow2, Z.shiftl_mul_pow2 by lia.
Qed.

(** The smallest multiple of the page size that is large enough. *)
Lemma align_up_bounds v k : 0 <= k < 64 -> 0 <= v -> v + 2 ^ k < 2 ^ 64 ->
  v <= align_up v (2 ^ k) < v + 2 ^ k /\ align_up v (2 ^ k) mod 2 ^ k = 0.
Proof.
  intros Hk Hv Hlt. assert (Hp : 0 < 2 ^ k) by (apply Z.pow_pos_nonneg; lia).
  rewrite align_up_value by done. split; [|apply Z_mod_mult].
  pose proof (Z.div_mod (v + 2 ^ k - 1) (2 ^ k)). pose proof (Z.mod_pos_bound (v + 2 ^ k - 1) (2 ^ k)).
  lia.
Qed.

Lemma align_up_zero v k : 0 <= k < 64 -> 0 <= v -> v + 2 ^ k < 2 ^ 64 ->
  align_up v (2 ^ k) = 0 <-> v = 0.
Proof.
  intros Hk Hv Hlt. pose proof (align_up_bounds v k Hk Hv Hlt) as [Hb Hm]. split; [lia|].
  intros ->. rewrite Z.mod_small in Hm; lia.
Qed.

Lemma from_string_loop l : forall (i : nat) m base out f len,
  bytes_at m (base + i) l -> mapped m (out + i) (length l) -> len = i + length l ->
  Forall in_u8 l ->
  (base + len <= out \/ out + len <= base) -> (length l < f)%nat ->
  loop f (from_string_step out base len) (Z.of_nat i) m = Ok tt (write_bytes (out + i) l m).
Proof.
  induction l as [|b l IH]; intros i m base out f len Hb Hm Hl Hu Hap Hf;
    (destruct f as [|f]; [simpl in Hf; lia|]); cbn [length] in *.
  - apply loop_break. enter from_string_step. by if_false.
  - apply bytes_at_cons in Hb as [Hb0 Hb]. apply Forall_cons_iff in Hu as [Hub Hu].
    cbn [write_bytes]. replace (out + i + 1) with (out + S i) by lia.
    rewrite <- (IH (S i) _ base out f len); [| | |lia|done|lia|lia].
    + apply loop_continue. enter from_string_step. if_true. run_with (by apply loadb_ok).
      run_with (apply storeb_ok; eapply mapped_at; [exact Hm|lia]). rewrite u8_small by done.
      unfold mret, M_ret. eq_lia.
    + apply (bytes_at_write_other _ [b]); [simpl; lia|].
      by replace (base + S i) with (base + i + 1) by lia.
    + apply (write_bytes_mapped _ [b]). eapply mapped_mono; [exact Hm|lia|lia].
Qed.

Lemma from_string_ok m base out l :
  bytes_at m base l -> mapped m out (length l + 1) -> Forall in_u8 l -> out <> 0 ->
  (base + length l <= out \/ out + length l <= base) ->
  from_string out base (length l) m = Ok out (write_bytes out (l ++ [0]) m).
Proof.
  intros Hb Hm Hu Ho Hap. unfold from_string. if_false.
  pose proof (bytes_at_length_size _ _ _ Hb).
  run_with (rewrite mloop_eq; apply (from_string_loop l 0);
    [by rewrite Z.add_0_r|rewrite Z.add_0_r; eapply mapped_mono; [exact Hm|lia|lia]|lia|done|lia|lia]).
  rewrite Z.add_0_r. run_with (apply storeb_ok; eapply mapped_at; [apply write_bytes_mapped, Hm|lia]).
  by rewrite write_bytes_app.
Qed.

Lemma c_string_loop l : forall acc p m f, cstr m p l -> (length l < f)%nat ->
  loop f name_step (p, acc) m = Ok (rev acc ++ l) m.
Proof.
  induction l as [|c l IH]; intros acc p m f Hs Hf; (destruct f as [|f]; [simpl in Hf; lia|]).
  - apply cstr_nil in Hs. apply loop_break. enter name_step. run_with (by apply loadb_ok).
    rewrite Z.eqb_refl, app_nil_r. done.
  - cbn [length] in Hf. apply cstr_cons in Hs as (Hc & Hne & Hs).
    rewrite (loop_continue _ _ _ (p + 1, c :: acc) _ m).
    + rewrite (IH (c :: acc)) by (done || lia). simpl. by rewrite <- app_assoc.
    + enter name_step. run_with (by apply loadb_ok). by if_false.
Qed.

Lemma c_string_ok m p l : cstr m p l -> c_string p m = Ok l m.
Proof.
  intros Hs. unfold c_string. rewrite mloop_eq. pose proof (cstr_size _ _ _ Hs).
  by rewrite (c_string_loop l []) by (done || lia).
Qed.

Section initialize.
Context (k : Z) (malloc : mem -> Z -> Z * mem) (mmap : mem -> Z -> option Z).
Context (files : list Z -> option (list Z)).
Hypothesis page_ok : 0 <= k < 64.

(** [malloc] answers a fresh block and leaves the rest of memory alone. *)
Definition malloc_at (m : mem) (n : Z) : Prop :=
  let '(p, m') := malloc m n in
  p <> 0 /\ mapped m' p n /\ (forall q, p <= q < p + n -> m !! q = None) /\ same_outside p n m m'.

(** The byte of the region at offset [a]: the file's, or zero after its end. *)
Definition region_byte (file : list Z) (a : Z) : Z := nth (Z.to_nat a) file 0.

Lemma file_pages_byte (file : list Z) (a : nat) :
  length file + 2 ^ k < 2 ^ 64 -> a < align_up (length file) (2 ^ k) ->
  file_pages (2 ^ k) file !! a = Some (nth a file 0).
Proof.
  intros Hl Ha. unfold file_pages, zeros. destruct (decide (a < length file)%nat).
  - rewrite lookup_app_l by done. destruct (lookup_lt_is_Some_2 file a) as [x Hx]; [done|].
    by rewrite (nth_lookup_Some _ _ _ _ Hx).
  - rewrite lookup_app_r by lia. rewrite lookup_replicate_2 by lia.
    by rewrite nth_overflow by lia.
Qed.

Lemma file_pages_length (file : list Z) : length file + 2 ^ k < 2 ^ 64 ->
  Z.of_nat (length (file_pages (2 ^ k) file)) = align_up (length file) (2 ^ k).
Proof.
  intros Hl. pose proof (align_up_bounds (length file) k page_ok ltac:(lia) Hl).
  unfold file_pages, zeros. rewrite length_app, length_replicate. lia.
Qed.

(** Both ways of mapping the file give its bytes and zeros. *)
Lemma map_contents file size p m :
  length file + 2 ^ k < 2 ^ 64 -> 0 <= size ->
  let tmp := align_up (length file) (2 ^ k) in
  let m' := if tmp <? size then
              if tmp =? 0 then write_bytes p (zeros size) m
              else write_bytes p (file_pages (2 ^ k) file) (write_bytes p (zeros size) m)
            else write_bytes p (file_pages (2 ^ k) file) m in
  (forall a, 0 <= a < size -> m' !! (p + a) = Some (region_byte file a)) /\
  same_outside p (Z.max size tmp) m m'.
Proof.
  intros Hl Hs tmp m'. pose proof (file_pages_length file Hl) as Hfl.
  pose proof (align_up_bounds (length file) k page_ok ltac:(lia) Hl) as [Hb _].
  assert (Hz : length (zeros size) = Z.to_nat size) by apply length_replicate.
  assert (Hzero : forall a, 0 <= a < size -> zeros size !! Z.to_nat a = Some 0)
    by (intros a Ha; apply lookup_replicate_2; lia).
  assert (Hfile : forall a, 0 <= a < tmp ->
    file_pages (2 ^ k) file !! Z.to_nat a = Some (region_byte file a))
    by (intros a Ha; apply file_pages_byte; [done|lia]).
  fold tmp in Hfl, Hb. subst m'. split.
  - intros a Ha. destruct (Z.ltb_spec tmp size); [destruct (Z.eqb_spec tmp 0)|];
      rewrite write_bytes_lookup; replace (p + a - p) with a by lia.
    + rewrite bool_decide_true, Hzero by lia. unfold region_byte. by rewrite nth_overflow by lia.
    + case_bool_decide; [apply Hfile; lia|]. rewrite write_bytes_lookup, bool_decide_true by lia.
      replace (p + a - p) with a by lia. rewrite Hzero by lia.
      unfold region_byte. by rewrite nth_overflow by lia.
    + rewrite bool_decide_true by lia. apply Hfile. lia.
  - destruct (tmp <? size); [destruct (tmp =? 0)|].
    + apply write_bytes_same. lia.
    + eapply same_outside_trans; apply write_bytes_same; lia.
    + apply write_bytes_same. lia.
Qed.
End initialize.

(** The name is copied to fresh memory and read back for [open]. *)
Lemma region_name_ok (malloc : mem -> Z -> Z * mem) s base name pn mm :
  bytes_at (rmem s) base name -> Forall in_u8 name -> Forall (fun c => c <> 0) name ->
  malloc (rmem s) (length name + 1) = (pn, mm) ->
  malloc_at malloc (rmem s) (length name + 1) ->
  on_ram (from_string pn base (length name)) (with_rmem s mm) =
    Ok pn (with_rmem s (write_bytes pn (name ++ [0]) mm)) /\
  c_string pn (write_bytes pn (name ++ [0]) mm) = Ok name (write_bytes pn (name ++ [0]) mm) /\
  same_outside pn (length name + 1) (rmem s) (write_bytes pn (name ++ [0]) mm).
Proof.
  intros Hb Hu Hnz Hm Hfresh. unfold malloc_at in Hfresh. rewrite Hm in Hfresh.
  destruct Hfresh as (Hp & Hmap & Hfree & Hsame).
  assert (Hap : base + length name <= pn \/ pn + length name <= base).
  { destruct (decide (base + length name <= pn \/ pn + length name <= base)); [done|exfalso].
    assert (is_Some (rmem s !! Z.max base pn)) as [x Hx]
      by (eapply mapped_at; [apply bytes_at_mapped, Hb|lia]).
    rewrite Hfree in Hx by lia. done. }
  assert (Hb' : bytes_at mm base name).
  { intros i c Hi. pose proof (lookup_lt_Some _ _ _ Hi). rewrite Hsame; [by apply Hb|].
    intros Hq. specialize (Hfree _ Hq). by rewrite (Hb i c Hi) in Hfree. }
  split_and!.
  - change mm with (rmem (with_rmem s mm)) at 2. apply (on_ram_ok _ (with_rmem s mm)).
    by apply from_string_ok.
  - apply c_string_ok. split; [apply write_bytes_at|done].
  - eapply same_outside_trans; [exact Hsame|]. apply write_bytes_same. rewrite length_app. simpl. lia.
Qed.

(** C34: setting a region up gives it the next number and maps the file: every
    byte below the page-aligned size reads as the file's byte, or zero after
    the end of the file, and no memory outside the two new blocks changes. *)
Theorem bram_initialize_correct k malloc mmap files s base name file size pn mm p :
  0 <= k < 64 -> length (regions s) < MAX_REGIONS ->
  bytes_at (rmem s) base name -> Forall in_u8 name -> Forall (fun c => c <> 0) name ->
  malloc (rmem s) (length name + 1) = (pn, mm) -> malloc_at malloc (rmem s) (length name + 1) ->
  files name = Some file -> 0 < size \/ file <> [] ->
  length file + 2 ^ k < 2 ^ 64 -> 0 <= size -> size + 2 ^ k < 2 ^ 64 ->
  let n := Z.max (align_up size (2 ^ k)) (align_up (length file) (2 ^ k)) in
  mmap (write_bytes pn (name ++ [0]) mm) n = Some p -> exists s',
  behavioural_initialize (2 ^ k) malloc mmap files base (length name) size s = Ok (region_nr s) s' /\
  regions s' = regions s ++ [Region pn (align_up size (2 ^ k)) p] /\
  (forall a, 0 <= a < align_up size (2 ^ k) -> rmem s' !! (p + a) = Some (region_byte file a)) /\
  (forall q, ~ (pn <= q < pn + length name + 1) -> ~ (p <= q < p + n) -> rmem s' !! q = rmem s !! q).
Proof.
  intros Hk Hn Hb Hu Hnz Hm Hfresh Hfile Hne Hfl Hs Hsl n Hmap.
  destruct (region_name_ok malloc s base name pn mm Hb Hu Hnz Hm Hfresh) as (Hr1 & Hr2 & Hsame).
  set (m1 := write_bytes pn (name ++ [0]) mm) in *.
  pose proof (align_up_bounds size k Hk Hs Hsl) as [Hsb _].
  pose proof (align_up_bounds (length file) k Hk ltac:(lia) Hfl) as [Htb _].
  destruct (map_contents k Hk file (align_up size (2 ^ k)) p m1 Hfl ltac:(lia)) as [Hc Hs'].
  assert (Hz : align_up (length file) (2 ^ k) = 0 -> align_up size (2 ^ k) <> 0).
  { intros H1 H2. apply (align_up_zero (length file) k) in H1; [|done|lia|done].
    apply (align_up_zero size k) in H2; [|done..]. destruct Hne as [|Hne]; [lia|].
    apply Hne. apply length_zero_iff_nil. lia. }
  eexists (Ram _ _). split_and!; [|reflexivity|exact Hc|].
  - unfold behavioural_initialize, MAX_REGIONS in *. erewrite bind_ok by reflexivity.
    unfold region_nr at 1. if_false. run_with (cbv beta; rewrite Hm; exact Hr1). cbv zeta.
    run_with (by apply (on_ram_ok _ (with_rmem s m1))). rewrite Hfile.
    unfold map_at, mbind, M_bind, modify, mret, M_ret.
    destruct (Z.ltb_spec (align_up (length file) (2 ^ k)) (align_up size (2 ^ k)));
      cbn [rmem with_rmem].
    + replace n with (align_up size (2 ^ k)) in Hmap by lia. rewrite Hmap.
      by destruct (align_up (length file) (2 ^ k) =? 0).
    + replace n with (align_up (length file) (2 ^ k)) in Hmap by lia.
      destruct (Z.eqb_spec (align_up (length file) (2 ^ k)) 0); [exfalso; apply Hz; lia|].
      cbn [rmem with_rmem]. by rewrite Hmap.
  - intros q Hq1 Hq2. cbn. rewrite Hs' by (fold n; lia). apply Hsame. lia.
Qed.

(** A kernel and an allocator that place blocks at fixed addresses. *)
Definition demo_malloc (m : mem) (n : Z) : Z * mem := (1000, write_bytes 1000 (zeros n) m).

Lemma bram_initialize_correct_witness :
  let s := Ram (block 64 [97; 98]) [] in exists s',
  behavioural_initialize (2 ^ 2) demo_malloc (fun _ _ => Some 2000) (fun _ => Some [7; 8; 9])
    64 2 6 s = Ok 0 s' /\
  regions s' = [Region 1000 8 2000] /\
  (forall a, 0 <= a < 8 -> rmem s' !! (2000 + a) = Some (region_byte [7; 8; 9] a)) /\
  (forall q, ~ (1000 <= q < 1000 + 2%nat + 1) -> ~ (2000 <= q < 2000 + 8) ->
     rmem s' !! q = block 64 [97; 98] !! q).
Proof.
  intros s.
  apply (bram_initialize_correct 2 demo_malloc (fun _ _ => Some 2000) (fun _ => Some [7; 8; 9]) s 64
    [97; 98] [7; 8; 9] 6 1000 (write_bytes 1000 (zeros 3) (block 64 [97; 98])) 2000).
  - lia.
  - done.
  - decide_now.
  - decide_now.
  - decide_now.
  - reflexivity.
  - unfold malloc_at, demo_malloc. split; [done|]. split; [decide_now|]. split.
    + simpl length. intros q Hq. unfold s, block. cbn [rmem]. rewrite write_bytes_lookup, bool_decide_false.
      * apply lookup_empty.
      * simpl. lia.
    + apply write_bytes_same. unfold zeros. rewrite length_replicate. simpl. lia.
  - reflexivity.
  - left. lia.
  - simpl. lia.
  - lia.
  - lia.
  - reflexivity.
Defined.
