(* ===== verification/Litedram.v ===== *)
(** * The DRAM model of the simulation: litedram/extras/sim_litedram_c.cpp

    The VHDL side reaches a Verilated LiteDRAM core through six procedures: two
    set the inputs of a port from a vector, two put its outputs into a vector,
    one makes a clock pulse and one initialises.  The core is generated: its
    evaluation and its initial state are parameters, its ports are records.
    The layout of the vectors is documented in sim_litedram.vhdl, and the
    theorems are stated in its terms. *)

From S2P Require Import Prelude CMem Vhpi.

(** ** The ports of the core *)

Record wb_ctrl := WbCtrl {
  wb_ctrl_cti : Z; wb_ctrl_bte : Z; wb_ctrl_sel : Z; wb_ctrl_we : Z;
  wb_ctrl_stb : Z; wb_ctrl_cyc : Z; wb_ctrl_adr : Z; wb_ctrl_dat_w : Z
}.

(** Data of 128 bits is four words, the first the least significant. *)
Record user_port := UserPort {
  cmd_valid : Z; cmd_we : Z; wdata_valid : Z; rdata_ready : Z;
  cmd_addr : Z; wdata_we : Z; wdata_data : Z * Z * Z * Z
}.

Record outputs := Outputs {
  init_error : Z; init_done : Z; wb_ctrl_err : Z; wb_ctrl_ack : Z; wb_ctrl_dat_r : Z;
  cmd_ready : Z; wdata_ready : Z; rdata_valid : Z; rdata_data : Z * Z * Z * Z
}.

Record core (C : Type) := Core {
  c_clk : Z; c_wb : wb_ctrl; c_user : user_port; c_out : outputs; c_state : C
}.
Arguments Core {C}. Arguments c_clk {C}. Arguments c_wb {C}. Arguments c_user {C}.
Arguments c_out {C}. Arguments c_state {C}.

(** The static variables: the core, the time, and the trace, which is the times
    that have been dumped; the warnings printed, as expected and actual size;
    and the memory of the vectors. *)
Record dram (C : Type) := Dram {
  d_v : option (core C); d_time : Z; d_tfp : option (list Z);
  d_warn : list (Z * Z); d_mem : mem
}.
Arguments Dram {C}. Arguments d_v {C}. Arguments d_time {C}. Arguments d_tfp {C}.
Arguments d_warn {C}. Arguments d_mem {C}.

Section litedram.
Context (VM_TRACE : bool) (vhpi0 vhpi1 : Z) {C : Type}.
Context (core_new : core C) (core_eval : Z -> wb_ctrl -> user_port -> C -> outputs * C).

Definition set_v (v : core C) : M (dram C) unit :=
  modify (fun s => Dram (Some v) (d_time s) (d_tfp s) (d_warn s) (d_mem s)).
Definition set_tfp (t : option (list Z)) : M (dram C) unit :=
  modify (fun s => Dram (d_v s) (d_time s) t (d_warn s) (d_mem s)).
Definition set_time (t : Z) : M (dram C) unit :=
  modify (fun s => Dram (d_v s) t (d_tfp s) (d_warn s) (d_mem s)).
Definition on_mem {A} (c : M mem A) : M (dram C) A := fun s =>
  match c (d_mem s) with
  | Ok a m => Ok a (Dram (d_v s) (d_time s) (d_tfp s) (d_warn s) m)
  | Err e m => Err e (Dram (d_v s) (d_time s) (d_tfp s) (d_warn s) m)
  end.

(** [v->...]: the core must have been made. *)
Definition the_core : M (dram C) (core C) := fun s =>
  match d_v s with Some v => Ok v s | None => Err (Segv 0) s end.

Definition check_init (traces : bool) : M (dram C) unit :=
  v ← gets d_v;
  match v with
  | Some _ => mret tt
  | None =>
      _ ← set_v core_new;
      if VM_TRACE && traces then set_tfp (Some []) else mret tt
  end.

(** ** Vectors *)

Definition get_bit (p : Z) : M mem (Z * Z) :=
  b ← loadb p; mret (if b =? vhpi1 then 1 else 0, p + 1).

Definition get_bits_step : Z * Z * Z -> M mem (Z * Z * Z + Z * Z) := fun '(p, r, len) =>
  if len =? 0 then mret (inr (r, p)) else
  '(b, p) ← get_bit p;
  mret (inl (p, Z.lor (u64 (Z.shiftl r 1)) b, len - 1)).

Definition get_bits (p len : Z) : M mem (Z * Z) := loop (S (Z.to_nat len)) get_bits_step (p, 0, len).

Definition set_bit (p bit : Z) : M mem Z :=
  _ ← storeb p (if bit =? 0 then vhpi0 else vhpi1); mret (p + 1).

Definition set_bits_step (val : Z) : Z * Z -> M mem (Z * Z + Z) := fun '(p, len) =>
  if len =? 0 then mret (inr p) else
  p ← set_bit p (Z.land (Z.shiftr val (len - 1)) 1);
  mret (inl (p, len - 1)).

Definition set_bits (p val len : Z) : M mem Z := loop (S (Z.to_nat len)) (set_bits_step val) (p, len).

Definition check_size (s exp : Z) : M (dram C) unit :=
  if s =? exp then mret tt
  else modify (fun d => Dram (d_v d) (d_time d) (d_tfp d) (d_warn d ++ [(exp, s)]) (d_mem d)).

(** ** The procedures *)

Definition eval (v : core C) : core C :=
  let '(o, c) := core_eval (c_clk v) (c_wb v) (c_user v) (c_state v) in
  Core (c_clk v) (c_wb v) (c_user v) o c.

Definition do_eval : M (dram C) unit :=
  v ← the_core;
  _ ← set_v (eval v);
  t ← gets d_time;
  tfp ← gets d_tfp;
  _ ← (if VM_TRACE then
         match tfp with Some l => set_tfp (Some (l ++ [t])) | None => mret tt end
       else mret tt);
  set_time (u64 (t + 1)).

Definition litedram_set_wb (req : Z) : M (dram C) unit :=
  let orig := req in
  _ ← check_init false;
  '(cti, req) ← on_mem (get_bits req 3);
  '(bte, req) ← on_mem (get_bits req 2);
  '(sel, req) ← on_mem (get_bits req 4);
  '(we, req) ← on_mem (get_bit req);
  '(stb, req) ← on_mem (get_bit req);
  '(cyc, req) ← on_mem (get_bit req);
  '(adr, req) ← on_mem (get_bits req 30);
  '(dat_w, req) ← on_mem (get_bits req 32);
  v ← the_core;
  _ ← set_v (Core (c_clk v) (WbCtrl cti bte sel we stb cyc adr dat_w) (c_user v) (c_out v) (c_state v));
  _ ← check_size (req - orig) 74;
  do_eval.

Definition litedram_get_wb (req : Z) : M (dram C) unit :=
  let orig := req in
  _ ← check_init false;
  v ← the_core;
  let o := c_out v in
  req ← on_mem (set_bit req (init_error o));
  req ← on_mem (set_bit req (init_done o));
  req ← on_mem (set_bit req (wb_ctrl_err o));
  req ← on_mem (set_bit req (wb_ctrl_ack o));
  req ← on_mem (set_bits req (wb_ctrl_dat_r o) 32);
  check_size (req - orig) 36.

Definition litedram_set_user (req : Z) : M (dram C) unit :=
  let orig := req in
  _ ← check_init false;
  '(valid, req) ← on_mem (get_bit req);
  '(we, req) ← on_mem (get_bit req);
  '(wvalid, req) ← on_mem (get_bit req);
  '(rready, req) ← on_mem (get_bit req);
  '(addr, req) ← on_mem (get_bits req 24);
  '(wwe, req) ← on_mem (get_bits req 16);
  '(w3, req) ← on_mem (get_bits req 32);
  '(w2, req) ← on_mem (get_bits req 32);
  '(w1, req) ← on_mem (get_bits req 32);
  '(w0, req) ← on_mem (get_bits req 32);
  v ← the_core;
  _ ← set_v (Core (c_clk v) (c_wb v) (UserPort valid we wvalid rready addr wwe (w0, w1, w2, w3)) (c_out v) (c_state v));
  _ ← check_size (req - orig) 172;
  do_eval.

Definition litedram_get_user (req : Z) : M (dram C) unit :=
  let orig := req in
  _ ← check_init false;
  v ← the_core;
  let o := c_out v in
  let '(w0, w1, w2, w3) := rdata_data o in
  req ← on_mem (set_bit req (cmd_ready o));
  req ← on_mem (set_bit req (wdata_ready o));
  req ← on_mem (set_bit req (rdata_valid o));
  req ← on_mem (set_bits req w3 32);
  req ← on_mem (set_bits req w2 32);
  req ← on_mem (set_bits req w1 32);
  req ← on_mem (set_bits req w0 32);
  check_size (req - orig) 131.

Definition set_clk (clk : Z) : M (dram C) unit :=
  v ← the_core; set_v (Core clk (c_wb v) (c_user v) (c_out v) (c_state v)).

Definition litedram_clock : M (dram C) unit :=
  _ ← check_init false;
  _ ← set_clk 1;
  _ ← do_eval;
  _ ← set_clk 0;
  do_eval.

(** What [cleanup], run at the exit, leaves in the trace file. *)
Definition cleanup : M (dram C) (option (list Z)) := if VM_TRACE then gets d_tfp else mret None.

Definition sc_time_stamp : M (dram C) Z := gets d_time.

Definition litedram_init (trace_on : Z) : M (dram C) unit := check_init (negb (trace_on =? 0)).
End litedram.

(** ** Vectors as numbers *)

Section correct.
Context (vhpi0 vhpi1 : Z).
Hypothesis vhpi_distinct : vhpi0 <> vhpi1.
Hypothesis vhpi_bytes : in_u8 vhpi0 /\ in_u8 vhpi1.

Fixpoint vector_bits (m : mem) (p : Z) (n : nat) : list bool :=
  match n with
  | O => []
  | S n' => bool_decide (m !! p = Some vhpi1) :: vector_bits m (p + 1) n'
  end.

(** The number in a vector of [n] bits, the first the most significant. *)
Definition vector_number (m : mem) (p : Z) (n : nat) : Z := bits_value 0 (vector_bits m p n).

Lemma vector_bits_length m p n : length (vector_bits m p n) = n.
Proof. revert p. induction n; intros; simpl; auto. Qed.

Lemma vector_bits_add m p n1 n2 : vector_bits m p (n1 + n2) = vector_bits m p n1 ++ vector_bits m (p + n1) n2.
Proof.
  revert p. induction n1 as [|n1 IH]; intros p; simpl; [by rewrite Z.add_0_r|]. rewrite IH.
  by replace (p + 1 + n1) with (p + S n1) by lia.
Qed.

Lemma bits_value_shift l : forall acc, bits_value acc l = acc * 2 ^ length l + bits_value 0 l.
Proof.
  induction l as [|b l IH]; intros acc; cbn [bits_value length]; [simpl; lia|].
  rewrite IH, (IH (2 * 0 + Z.b2z b)), Nat2Z.inj_succ, Z.pow_succ_r by lia. ring.
Qed.

Lemma bits_value_app l1 l2 : bits_value 0 (l1 ++ l2) = bits_value 0 l1 * 2 ^ length l2 + bits_value 0 l2.
Proof.
  rewrite <- bits_value_shift. generalize 0. induction l1 as [|b l1 IH]; intros acc; [done|]. apply IH.
Qed.

Lemma bits_value_range l : 0 <= bits_value 0 l < 2 ^ length l.
Proof. apply (bits_value_bound 0 l 0). simpl. lia. Qed.

(** Part of a vector is part of its number. *)
Lemma vector_number_field m p (k off n : nat) : (off + n <= k)%nat ->
  vector_number m (p + off) n = bit_range (vector_number m p k) (k - off - 1) (k - off - n).
Proof.
  intros Hk. destruct (Nat.le_exists_sub (off + n) k Hk) as (r & -> & _).
  replace (r + (off + n))%nat with (off + (n + r))%nat by lia.
  replace (Z.of_nat (off + (n + r)) - off - n) with (Z.of_nat r) by lia.
  unfold vector_number, bit_range. rewrite !vector_bits_add, !bits_value_app, !length_app, !vector_bits_length.
  replace (Z.of_nat (off + (n + r)) - off - 1 - r + 1) with (Z.of_nat n) by lia.
  pose proof (bits_value_range (vector_bits m (p + off) n)) as Hb.
  pose proof (bits_value_range (vector_bits m (p + off + n) r)) as Hc.
  rewrite vector_bits_length in Hb, Hc. set (a := bits_value 0 (vector_bits m p off)).
  set (b := bits_value 0 (vector_bits m (p + off) n)) in *. set (c := bits_value 0 (vector_bits m (p + off + n) r)) in *.
  rewrite Z.shiftr_div_pow2, Nat2Z.inj_add, Z.pow_add_r by lia.
  replace (a * (2 ^ n * 2 ^ r) + (b * 2 ^ r + c)) with (c + (a * 2 ^ n + b) * 2 ^ r) by ring.
  rewrite Z.div_add, Z.div_small, Z.add_0_l by lia. rewrite Z.add_comm, Z_mod_plus_full. symmetry. by apply Z.mod_small.
Qed.

(** A vector the VHDL side made from a number gives the number. *)
Lemma vector_number_of m p (n : nat) v :
  bytes_at m p (vector vhpi0 vhpi1 (low_bits n v)) -> vector_number m p n = v mod 2 ^ n.
Proof.
  intros Hb. rewrite <- (Z.add_0_l (v mod 2 ^ n)). rewrite <- (Z.mul_0_l (2 ^ n)), <- (bits_value_low n v 0).
  unfold vector_number. f_equal. revert p Hb. induction n as [|n IH]; intros p Hb; [done|]. cbn [low_bits vector map] in Hb.
  apply bytes_at_cons in Hb as [Hx Hb]. cbn [vector_bits low_bits]. rewrite Hx. f_equal; [|by apply IH].
  unfold logic. destruct (Z.testbit v n); [by rewrite bool_decide_true|rewrite bool_decide_false; congruence].
Qed.

Lemma get_bit_ok m p : mapped m p 1 -> get_bit vhpi1 p m = Ok (vector_number m p 1, p + 1) m.
Proof.
  intros Hm. destruct (mapped_at m p 1 p Hm ltac:(lia)) as [b Hb]. unfold get_bit.
  run_with (by apply loadb_ok). unfold vector_number, vector_bits. rewrite Hb. cbn [bits_value].
  destruct (Z.eqb_spec b vhpi1) as [->|]; [by rewrite bool_decide_true|rewrite bool_decide_false; [done|congruence]].
Qed.

Lemma get_bits_loop m (n : nat) : forall p r (i : nat) f,
  mapped m p n -> 0 <= r < 2 ^ i -> (i + n <= 64)%nat -> (n < f)%nat ->
  loop f (get_bits_step vhpi1) (p, r, Z.of_nat n) m = Ok (bits_value r (vector_bits m p n), p + n) m.
Proof.
  induction n as [|n IH]; intros p r i f Hm Hr Hi Hf; (destruct f as [|f]; [lia|]).
  - apply loop_break. enter get_bits_step. if_true. unfold mret, M_ret. simpl. eq_lia.
  - assert (Hp : 2 ^ S i = 2 * 2 ^ i) by (rewrite Nat2Z.inj_succ, Z.pow_succ_r by lia; lia).
    assert (Hp64 : 2 ^ S i <= 2 ^ 64) by (apply Z.pow_le_mono_r; lia).
    set (b := bool_decide (m !! p = Some vhpi1)).
    assert (Hb : vector_number m p 1 = Z.b2z b) by done.
    pose proof (IH (p + 1) (2 * r + Z.b2z b) (S i) f) as E. rewrite <- Z.add_assoc in E.
    replace (1 + n) with (Z.of_nat (S n)) in E by lia. cbn [vector_bits bits_value]. fold b. rewrite <- E.
    + apply loop_continue. enter get_bits_step. if_false.
      run_with (apply get_bit_ok; eapply mapped_mono; [exact Hm|lia|lia]). rewrite Hb.
      rewrite Z.shiftl_mul_pow2, u64_small by lia.
      rewrite (lor_shifted r (Z.b2z b) 1) by (destruct b; simpl; lia). unfold mret, M_ret. change (2 ^ 1) with 2. eq_lia.
    + eapply mapped_mono; [exact Hm|lia|lia].
    + destruct b; simpl; lia.
    + lia.
    + lia.
Qed.

(** ** Writing *)

Lemma put_bit_ok m p b : mapped m p 1 ->
  set_bit vhpi0 vhpi1 p b m = Ok (p + 1) (write_bytes p (vector vhpi0 vhpi1 [negb (b =? 0)]) m).
Proof.
  intros Hm. unfold set_bit. run_with (apply storeb_ok; eapply mapped_at; [exact Hm|lia]).
  assert (E : (if b =? 0 then vhpi0 else vhpi1) = logic vhpi0 vhpi1 (negb (b =? 0))) by (by destruct (b =? 0)).
  rewrite E, u8_small by (by apply logic_in_u8). done.
Qed.

Lemma shifted_bit v n : 0 <= n -> negb (Z.land (Z.shiftr v n) 1 =? 0) = Z.testbit v n.
Proof.
  intros Hn. change 1 with (2 ^ 0). rewrite land_pow2, Z.shiftr_spec, negb_involutive by lia. done.
Qed.

Lemma set_bits_loop v (n : nat) : forall p m f, mapped m p n -> (n < f)%nat ->
  loop f (set_bits_step vhpi0 vhpi1 v) (p, Z.of_nat n) m =
    Ok (p + n) (write_bytes p (vector vhpi0 vhpi1 (low_bits n v)) m).
Proof.
  induction n as [|n IH]; intros p m f Hm Hf; (destruct f as [|f]; [lia|]).
  - apply loop_break. enter set_bits_step. if_true. unfold mret, M_ret. simpl. eq_lia.
  - cbn [low_bits vector map write_bytes].
    replace (p + S n) with (p + 1 + n) by lia. rewrite <- (IH (p + 1) _ f); [| |lia].
    + apply loop_continue. enter set_bits_step. if_false.
      run_with (apply put_bit_ok; eapply mapped_mono; [exact Hm|lia|lia]).
      replace (Z.of_nat (S n) - 1) with (Z.of_nat n) by lia. by rewrite shifted_bit by lia.
    + apply (write_bytes_mapped _ [_]). eapply mapped_mono; [exact Hm|lia|lia].
Qed.

Lemma set_bits_ok m p v (n : nat) : mapped m p n ->
  set_bits vhpi0 vhpi1 p v n m = Ok (p + n) (write_bytes p (vector vhpi0 vhpi1 (low_bits n v)) m).
Proof. intros Hm. unfold set_bits. rewrite Nat2Z.id. apply set_bits_loop; [done|lia]. Qed.

(** Fields one after the other, each a width and a value. *)
Definition fields_bits (fs : list (nat * Z)) : list bool := concat (map (fun '(n, v) => low_bits n v) fs).
Definition width (fs : list (nat * Z)) : nat := sum_list (map fst fs).

Lemma fields_bits_length fs : length (fields_bits fs) = width fs.
Proof.
  unfold fields_bits, width. induction fs as [|[n v] fs IH]; [done|]. simpl.
  by rewrite length_app, low_bits_length, IH.
Qed.

Lemma fields_bits_app fs1 fs2 : fields_bits (fs1 ++ fs2) = fields_bits fs1 ++ fields_bits fs2.
Proof. unfold fields_bits. by rewrite map_app, concat_app. Qed.

(** A field that was written is read back. *)
Lemma written_field m req k fs1 n v fs2 :
  bytes_at m req (vector vhpi0 vhpi1 (fields_bits (fs1 ++ (n, v) :: fs2))) ->
  width (fs1 ++ (n, v) :: fs2) = k ->
  bit_range (vector_number m req k) (k - width fs1 - 1) (k - width fs1 - n) = v mod 2 ^ n.
Proof.
  intros Hb Hk. pose proof (fields_bits_length (fs1 ++ (n, v) :: fs2)) as Hl.
  rewrite Hk, fields_bits_app, length_app, fields_bits_length in Hl.
  rewrite fields_bits_app in Hb. change (fields_bits ((n, v) :: fs2)) with (low_bits n v ++ fields_bits fs2) in *.
  rewrite length_app, low_bits_length in Hl.
  rewrite <- vector_number_field by lia. apply vector_number_of.
  unfold vector in Hb. rewrite !map_app in Hb. apply bytes_at_app in Hb as [_ Hb].
  rewrite length_map, fields_bits_length in Hb. by apply bytes_at_app in Hb as [Hb _].
Qed.

Lemma get_bits_ok m p (n : nat) : mapped m p n -> (n <= 64)%nat ->
  get_bits vhpi1 p n m = Ok (vector_number m p n, p + n) m.
Proof.
  intros Hm Hn. unfold get_bits. rewrite Nat2Z.id. apply (get_bits_loop m n p 0 0); [done|simpl; lia|lia|lia].
Qed.
End correct.

(** ** The procedures *)

Section procedures.
Context (VM_TRACE : bool) (vhpi0 vhpi1 : Z).
Hypothesis vhpi_distinct : vhpi0 <> vhpi1.
Hypothesis vhpi_bytes : in_u8 vhpi0 /\ in_u8 vhpi1.
Context {C : Type} (core_new : core C) (core_eval : Z -> wb_ctrl -> user_port -> C -> outputs * C).

Definition core_of (s : dram C) : core C := default core_new (d_v s).

Definition with_core (v : core C) (s : dram C) : dram C := Dram (Some v) (d_time s) (d_tfp s) (d_warn s) (d_mem s).
Definition with_mem (m : mem) (s : dram C) : dram C := Dram (d_v s) (d_time s) (d_tfp s) (d_warn s) m.

(** One evaluation of [v]: the time goes on and is in the trace. *)
Definition evaluated (v : core C) (s : dram C) : dram C :=
  Dram (Some (eval core_eval v)) (u64 (d_time s + 1))
    (if VM_TRACE then (fun l => l ++ [d_time s]) <$> d_tfp s else d_tfp s) (d_warn s) (d_mem s).

Definition with_wb (w : wb_ctrl) (v : core C) : core C := Core (c_clk v) w (c_user v) (c_out v) (c_state v).
Definition with_user (u : user_port) (v : core C) : core C := Core (c_clk v) (c_wb v) u (c_out v) (c_state v).
Definition with_clk (c : Z) (v : core C) : core C := Core c (c_wb v) (c_user v) (c_out v) (c_state v).

Lemma check_init_ok s : check_init VM_TRACE core_new false s = Ok tt (with_core (core_of s) s).
Proof. unfold check_init, core_of. destruct s as [[v|] ? ? ? ?]; [done|]. cbn. by rewrite andb_false_r. Qed.

Lemma do_eval_ok v s : do_eval VM_TRACE core_eval (with_core v s) = Ok tt (evaluated v s).
Proof. unfold do_eval, evaluated. destruct s as [? ? [l|] ? ?]; by destruct VM_TRACE. Qed.

Lemma dram_mem_ok {A} (c : M mem A) (s : dram C) a m : c (d_mem s) = Ok a m -> on_mem c s = Ok a (with_mem m s).
Proof. intros E. unfold on_mem. by rewrite E. Qed.

Lemma read_ok {A} (c : M mem A) (s : dram C) a : c (d_mem s) = Ok a (d_mem s) -> on_mem c s = Ok a s.
Proof. intros E. rewrite (dram_mem_ok c s a _ E). by destruct s. Qed.

(** A field of a vector of [k] bits, [off] bits from its start. *)
Lemma read_field (k off n : nat) (s : dram C) req p len :
  mapped (d_mem s) req k -> p = req + off -> len = Z.of_nat n -> (off + n <= k)%nat -> (n <= 64)%nat ->
  on_mem (get_bits vhpi1 p len) s =
    Ok (bit_range (vector_number vhpi1 (d_mem s) req k) (k - off - 1) (k - off - n), p + len) s.
Proof.
  intros Hm -> -> Hk Hn. apply read_ok. rewrite get_bits_ok; [|eapply mapped_mono; [exact Hm|lia|lia]|lia].
  by rewrite (vector_number_field vhpi1 _ req k off n).
Qed.

Lemma read_flag (k off : nat) (s : dram C) req p :
  mapped (d_mem s) req k -> p = req + off -> (off < k)%nat ->
  on_mem (get_bit vhpi1 p) s =
    Ok (bit_range (vector_number vhpi1 (d_mem s) req k) (k - off - 1) (k - off - 1), p + 1) s.
Proof.
  intros Hm -> Hk. apply read_ok. rewrite get_bit_ok; [|eapply mapped_mono; [exact Hm|lia|lia]].
  by rewrite (vector_number_field vhpi1 _ req k off 1) by lia.
Qed.

(** The fields of a request, as sim_litedram.vhdl documents them. *)
Definition wb_request (v : Z) : wb_ctrl :=
  WbCtrl (bit_range v 73 71) (bit_range v 70 69) (bit_range v 68 65) (bit_range v 64 64)
    (bit_range v 63 63) (bit_range v 62 62) (bit_range v 61 32) (bit_range v 31 0).

Definition user_request (v : Z) : user_port :=
  UserPort (bit_range v 171 171) (bit_range v 170 170) (bit_range v 169 169) (bit_range v 168 168)
    (bit_range v 167 144) (bit_range v 143 128)
    (bit_range v 31 0, bit_range v 63 32, bit_range v 95 64, bit_range v 127 96).

Ltac field k off n := run_with (apply (read_field k off n); [eassumption|lia|lia|lia|lia]).
Ltac flag k off := run_with (apply (read_flag k off); [eassumption|lia|lia]).

Lemma set_wb_ok req s : mapped (d_mem s) req 74%nat ->
  litedram_set_wb VM_TRACE vhpi1 core_new core_eval req s =
    Ok tt (evaluated (with_wb (wb_request (vector_number vhpi1 (d_mem s) req 74)) (core_of s)) s).
Proof.
  intros Hm. unfold litedram_set_wb. cbv zeta. run_with (apply check_init_ok).
  set (s1 := with_core (core_of s) s). assert (Hm1 : mapped (d_mem s1) req 74%nat) by done.
  field 74%nat 0%nat 3%nat. field 74%nat 3%nat 2%nat. field 74%nat 5%nat 4%nat.
  flag 74%nat 9%nat. flag 74%nat 10%nat. flag 74%nat 11%nat. field 74%nat 12%nat 30%nat. field 74%nat 42%nat 32%nat.
  run_with reflexivity. run_with reflexivity.
  run_with (unfold check_size; by if_true). by rewrite <- do_eval_ok.
Qed.

Lemma set_user_ok req s : mapped (d_mem s) req 172%nat ->
  litedram_set_user VM_TRACE vhpi1 core_new core_eval req s =
    Ok tt (evaluated (with_user (user_request (vector_number vhpi1 (d_mem s) req 172)) (core_of s)) s).
Proof.
  intros Hm. unfold litedram_set_user. cbv zeta. run_with (apply check_init_ok).
  set (s1 := with_core (core_of s) s). assert (Hm1 : mapped (d_mem s1) req 172%nat) by done.
  flag 172%nat 0%nat. flag 172%nat 1%nat. flag 172%nat 2%nat. flag 172%nat 3%nat.
  field 172%nat 4%nat 24%nat. field 172%nat 28%nat 16%nat. field 172%nat 44%nat 32%nat. field 172%nat 76%nat 32%nat.
  field 172%nat 108%nat 32%nat. field 172%nat 140%nat 32%nat.
  run_with reflexivity. run_with reflexivity.
  run_with (unfold check_size; by if_true). by rewrite <- do_eval_ok.
Qed.

Lemma clock_ok s :
  litedram_clock VM_TRACE core_new core_eval s =
    let s1 := evaluated (with_clk 1 (core_of s)) s in
    Ok tt (evaluated (with_clk 0 (eval core_eval (with_clk 1 (core_of s)))) s1).
Proof.
  unfold litedram_clock. run_with (apply check_init_ok). run_with reflexivity.
  run_with (apply (do_eval_ok (with_clk 1 (core_of s)) s)). run_with reflexivity.
  by rewrite <- do_eval_ok.
Qed.

(** Writing on after the fields [fs]. *)
Lemma write_field (k n : nat) fs v (s : dram C) m req p len :
  mapped m req k -> p = req + width fs -> len = Z.of_nat n -> (width fs + n <= k)%nat ->
  on_mem (set_bits vhpi0 vhpi1 p v len) (with_mem (write_bytes req (vector vhpi0 vhpi1 (fields_bits fs)) m) s) =
    Ok (p + len) (with_mem (write_bytes req (vector vhpi0 vhpi1 (fields_bits (fs ++ [(n, v)]))) m) s).
Proof.
  intros Hm -> -> Hk. erewrite dram_mem_ok.
  2:{ apply set_bits_ok; [done|]. cbn [d_mem with_mem]. apply write_bytes_mapped.
      eapply mapped_mono; [exact Hm|lia|lia]. }
  rewrite fields_bits_app. unfold vector. rewrite map_app, write_bytes_app, length_map, fields_bits_length.
  unfold fields_bits at 3. simpl concat. by rewrite app_nil_r.
Qed.

Definition flag (b : Z) : Z := Z.b2z (negb (b =? 0)).

Lemma write_flag (k : nat) fs b (s : dram C) m req p :
  mapped m req k -> p = req + width fs -> (width fs < k)%nat ->
  on_mem (set_bit vhpi0 vhpi1 p b) (with_mem (write_bytes req (vector vhpi0 vhpi1 (fields_bits fs)) m) s) =
    Ok (p + 1) (with_mem (write_bytes req (vector vhpi0 vhpi1 (fields_bits (fs ++ [(1%nat, flag b)]))) m) s).
Proof.
  intros Hm -> Hk. erewrite dram_mem_ok.
  2:{ apply put_bit_ok; [done|]. cbn [d_mem with_mem]. apply write_bytes_mapped.
      eapply mapped_mono; [exact Hm|lia|lia]. }
  rewrite fields_bits_app. unfold vector. rewrite map_app, write_bytes_app, length_map, fields_bits_length.
  unfold flag. by destruct (b =? 0).
Qed.

Lemma flag_mod b : flag b mod 2 ^ 1%nat = flag b.
Proof. unfold flag. by destruct (b =? 0). Qed.

(** The fields of an answer, as sim_litedram.vhdl documents them. *)
Definition wb_answer (o : outputs) (v : Z) : Prop :=
  bit_range v 35 35 = flag (init_error o) /\ bit_range v 34 34 = flag (init_done o) /\
  bit_range v 33 33 = flag (wb_ctrl_err o) /\ bit_range v 32 32 = flag (wb_ctrl_ack o) /\
  bit_range v 31 0 = u32 (wb_ctrl_dat_r o).

Definition user_answer (o : outputs) (v : Z) : Prop :=
  let '(w0, w1, w2, w3) := rdata_data o in
  bit_range v 130 130 = flag (cmd_ready o) /\ bit_range v 129 129 = flag (wdata_ready o) /\
  bit_range v 128 128 = flag (rdata_valid o) /\ bit_range v 127 96 = u32 w3 /\
  bit_range v 95 64 = u32 w2 /\ bit_range v 63 32 = u32 w1 /\ bit_range v 31 0 = u32 w0.

Ltac put k n := run_with (apply (write_field k n); [eassumption|cbn; lia|lia|cbn; lia]); cbn [app].
Ltac putf k := run_with (apply (write_flag k); [eassumption|cbn; lia|cbn; lia]); cbn [app].

(** The state before anything is written. *)
Ltac start_writing req :=
  lazymatch goal with |- _ ?st = _ =>
    change st with (with_mem (write_bytes req (vector vhpi0 vhpi1 (fields_bits [])) (d_mem st)) st) at 1
  end.

(** The fields of what was written, by position. *)
Ltac got fs i Hb :=
  first [exact (written_field vhpi0 vhpi1 vhpi_distinct _ _ _ (take i fs) _ _ (drop (S i) fs) Hb eq_refl)
    | rewrite <- flag_mod; exact (written_field vhpi0 vhpi1 vhpi_distinct _ _ _ (take i fs) _ _ (drop (S i) fs) Hb eq_refl)].

Lemma get_wb_ok req s : mapped (d_mem s) req 36%nat -> exists m',
  litedram_get_wb VM_TRACE vhpi0 vhpi1 core_new req s = Ok tt (with_mem m' (with_core (core_of s) s)) /\
  same_outside req 36 (d_mem s) m' /\ dom m' = dom (d_mem s) /\ wb_answer (c_out (core_of s)) (vector_number vhpi1 m' req 36).
Proof.
  intros Hm. unfold litedram_get_wb. cbv zeta. run_with (apply check_init_ok). run_with reflexivity.
  set (o := c_out (core_of s)).
  set (fs := [(1%nat, flag (init_error o)); (1%nat, flag (init_done o)); (1%nat, flag (wb_ctrl_err o));
    (1%nat, flag (wb_ctrl_ack o)); (32%nat, wb_ctrl_dat_r o)]).
  exists (write_bytes req (vector vhpi0 vhpi1 (fields_bits fs)) (d_mem s)). split; [|split; [|split]].
  - start_writing req. do 4 putf 36%nat. put 36%nat 32%nat. unfold check_size. by if_true.
  - apply write_bytes_same. unfold vector. rewrite length_map, fields_bits_length. done.
  - apply write_bytes_dom. unfold vector. rewrite length_map, fields_bits_length. exact Hm.
  - pose proof (write_bytes_at req (vector vhpi0 vhpi1 (fields_bits fs)) (d_mem s)) as Hb.
    unfold wb_answer. split_and!; [got fs 0%nat Hb|got fs 1%nat Hb|got fs 2%nat Hb|got fs 3%nat Hb|got fs 4%nat Hb].
Qed.

Lemma get_user_ok req s : mapped (d_mem s) req 131%nat -> exists m',
  litedram_get_user VM_TRACE vhpi0 vhpi1 core_new req s = Ok tt (with_mem m' (with_core (core_of s) s)) /\
  same_outside req 131 (d_mem s) m' /\ dom m' = dom (d_mem s) /\ user_answer (c_out (core_of s)) (vector_number vhpi1 m' req 131).
Proof.
  intros Hm. unfold litedram_get_user, user_answer. cbv zeta. run_with (apply check_init_ok). run_with reflexivity.
  set (o := c_out (core_of s)). destruct (rdata_data o) as [[[w0 w1] w2] w3].
  set (fs := [(1%nat, flag (cmd_ready o)); (1%nat, flag (wdata_ready o)); (1%nat, flag (rdata_valid o));
    (32%nat, w3); (32%nat, w2); (32%nat, w1); (32%nat, w0)]).
  exists (write_bytes req (vector vhpi0 vhpi1 (fields_bits fs)) (d_mem s)). split; [|split; [|split]].
  - start_writing req. do 3 putf 131%nat. do 4 put 131%nat 32%nat. unfold check_size. by if_true.
  - apply write_bytes_same. unfold vector. rewrite length_map, fields_bits_length. done.
  - apply write_bytes_dom. unfold vector. rewrite length_map, fields_bits_length. exact Hm.
  - pose proof (write_bytes_at req (vector vhpi0 vhpi1 (fields_bits fs)) (d_mem s)) as Hb.
    split_and!; [got fs 0%nat Hb|got fs 1%nat Hb|got fs 2%nat Hb|got fs 3%nat Hb|got fs 4%nat Hb|got fs 5%nat Hb|got fs 6%nat Hb].
Qed.

(** ** Sequences of calls *)

Inductive call := SetWb (req : Z) | GetWb (req : Z) | SetUser (req : Z) | GetUser (req : Z) | Clock | Init (on : Z).

Definition run_call (c : call) : M (dram C) unit :=
  match c with
  | SetWb req => litedram_set_wb VM_TRACE vhpi1 core_new core_eval req
  | GetWb req => litedram_get_wb VM_TRACE vhpi0 vhpi1 core_new req
  | SetUser req => litedram_set_user VM_TRACE vhpi1 core_new core_eval req
  | GetUser req => litedram_get_user VM_TRACE vhpi0 vhpi1 core_new req
  | Clock => litedram_clock VM_TRACE core_new core_eval
  | Init on => litedram_init VM_TRACE core_new on
  end.

Fixpoint run_calls (l : list call) : M (dram C) unit :=
  match l with
  | [] => mret tt
  | c :: l' => _ ← run_call c; run_calls l'
  end.

(** The vector a call uses is there. *)
Definition call_mapped (m : mem) (c : call) : Prop :=
  match c with
  | SetWb req => mapped m req 74%nat
  | GetWb req => mapped m req 36%nat
  | SetUser req => mapped m req 172%nat
  | GetUser req => mapped m req 131%nat
  | Clock | Init _ => True
  end.

(** How often a call evaluates the core. *)
Definition evals (c : call) : nat :=
  match c with SetWb _ | SetUser _ => 1 | Clock => 2 | GetWb _ | GetUser _ | Init _ => 0 end.

(** After [n] evaluations: the time is their number, the trace, if there is
    one, has every time once and in order, and no size was wrong. *)
Definition kept (traced : bool) (m0 : mem) (n : nat) (s : dram C) : Prop :=
  d_time s = u64 n /\ d_warn s = [] /\ dom (d_mem s) = dom m0 /\
  d_tfp s = (if traced then Some (map (fun i : nat => u64 i) (seq 0 n)) else None).

Section kept.
Context (traced : bool) (Htr : traced = true -> VM_TRACE = true).

Lemma kept_evaluated m0 n v s : kept traced m0 n s -> kept traced m0 (S n) (evaluated v s).
Proof.
  intros (Ht & Hw & Hd & Hf). unfold kept, evaluated. cbn [d_v d_time d_warn d_mem d_tfp]. split_and!; try done.
  - rewrite Ht. unfold u64. rewrite Zplus_mod_idemp_l. f_equal. lia.
  - rewrite Hf, Ht. destruct traced; [|by destruct VM_TRACE].
    rewrite Htr by done. cbn [fmap option_fmap option_map]. by rewrite seq_S, map_app.
Qed.

Lemma kept_core m0 n v s : kept traced m0 n s -> kept traced m0 n (with_core v s).
Proof. intros (? & ? & ? & ?). by split_and!. Qed.

Lemma kept_mem m0 n m s : kept traced m0 n s -> dom m = dom m0 -> kept traced m0 n (with_mem m s).
Proof. intros (? & ? & _ & ?) Hd. by split_and!. Qed.

(** Only the first call makes the core: [litedram_init] does nothing after it. *)
Lemma run_call_kept m0 n c s :
  kept traced m0 n s -> call_mapped m0 c -> (forall on, c = Init on -> is_Some (d_v s)) ->
  exists s', run_call c s = Ok tt s' /\ kept traced m0 (evals c + n) s' /\ is_Some (d_v s').
Proof.
  intros Hk Hc Hv. pose proof Hk as (_ & _ & Hd & _).
  destruct c as [req|req|req|req| |on]; cbn [run_call call_mapped evals Nat.add] in *;
    try apply (mapped_same_dom m0 (d_mem s)) in Hc; try done.
  - eexists. split; [by apply set_wb_ok|]. split; [by apply kept_evaluated|done].
  - destruct (get_wb_ok req s Hc) as (m' & E & _ & Hdom & _). eexists. split; [exact E|].
    split; [apply kept_mem; [by apply kept_core|congruence]|done].
  - eexists. split; [by apply set_user_ok|]. split; [by apply kept_evaluated|done].
  - destruct (get_user_ok req s Hc) as (m' & E & _ & Hdom & _). eexists. split; [exact E|].
    split; [apply kept_mem; [by apply kept_core|congruence]|done].
  - eexists. split; [apply clock_ok|]. cbv zeta. split; [by do 2 apply kept_evaluated|done].
  - specialize (Hv on eq_refl). exists s. split; [|done]. unfold litedram_init, check_init. destruct Hv as [v Hv].
    run_with reflexivity. by rewrite Hv.
Qed.

Lemma run_calls_kept m0 l : forall n s,
  kept traced m0 n s -> Forall (call_mapped m0) l ->
  match l with Init _ :: _ => is_Some (d_v s) | _ => True end ->
  exists s', run_calls l s = Ok tt s' /\ kept traced m0 (sum_list (map evals l) + n) s'.
Proof.
  induction l as [|c l IH]; intros n s Hk Hl Hv; [by exists s|]. apply Forall_cons_iff in Hl as [Hc Hl].
  destruct (run_call_kept m0 n c s Hk Hc) as (s1 & E1 & Hk1 & Hv1); [by intros on ->|].
  destruct (IH _ s1 Hk1 Hl) as (s' & E & Hk'); [by destruct l as [|[]]|].
  exists s'. split; [by cbn [run_calls]; run_with (exact E1)|]. simpl.
  by replace (evals c + sum_list (map evals l) + n)%nat with (sum_list (map evals l) + (evals c + n))%nat by lia.
Qed.
End kept.
End procedures.

(** ** Theorems *)

(** C19: the vector of a request reaches the ports of the DRAM core as
    sim_litedram.vhdl documents it.  Whatever the vector holds, the eight fields
    of a control request, and the seven of a user request with its 128 bits of
    data in four words, are those bits of its number; the core is evaluated once
    with them, its other port as it was, the time goes on by one, no warning is
    printed and no memory changes. *)
Theorem litedram_inputs VM_TRACE vhpi1 {C} (core_new : core C) core_eval req s :
  let v := core_of core_new s in
  (mapped (d_mem s) req 74%nat ->
   litedram_set_wb VM_TRACE vhpi1 core_new core_eval req s =
     Ok tt (evaluated VM_TRACE core_eval (with_wb (wb_request (vector_number vhpi1 (d_mem s) req 74)) v) s)) /\
  (mapped (d_mem s) req 172%nat ->
   litedram_set_user VM_TRACE vhpi1 core_new core_eval req s =
     Ok tt (evaluated VM_TRACE core_eval (with_user (user_request (vector_number vhpi1 (d_mem s) req 172)) v) s)).
Proof. split; intros Hm; [by apply set_wb_ok|by apply set_user_ok]. Qed.

(** C25: the answers of the core reach the VHDL side as sim_litedram.vhdl
    documents them: each flag and the data words are those bits of the number
    in the vector, nothing else in memory changes, and neither do the core, the
    time and the warnings. *)
Theorem litedram_outputs VM_TRACE vhpi0 vhpi1 {C} (core_new : core C) req s :
  vhpi0 <> vhpi1 -> in_u8 vhpi0 /\ in_u8 vhpi1 ->
  let v := core_of core_new s in
  (mapped (d_mem s) req 36%nat -> exists m',
   litedram_get_wb VM_TRACE vhpi0 vhpi1 core_new req s = Ok tt (with_mem m' (with_core v s)) /\
   same_outside req 36 (d_mem s) m' /\ wb_answer (c_out v) (vector_number vhpi1 m' req 36)) /\
  (mapped (d_mem s) req 131%nat -> exists m',
   litedram_get_user VM_TRACE vhpi0 vhpi1 core_new req s = Ok tt (with_mem m' (with_core v s)) /\
   same_outside req 131 (d_mem s) m' /\ user_answer (c_out v) (vector_number vhpi1 m' req 131)).
Proof.
  intros Hd Hb v. split; intros Hm.
  - destruct (get_wb_ok VM_TRACE vhpi0 vhpi1 Hd Hb core_new req s Hm) as (m' & E & Hs & _ & Ha). by exists m'.
  - destruct (get_user_ok VM_TRACE vhpi0 vhpi1 Hd Hb core_new req s Hm) as (m' & E & Hs & _ & Ha). by exists m'.
Qed.

(** Tracing starts with the first call or never. *)
Definition starts_tracing (l : list call) : bool :=
  match l with Init on :: _ => negb (on =? 0) | _ => false end.

(** C26: time and trace.  In a build with or without tracing, every sequence of
    calls from the start whose vectors are mapped completes; the simulation time
    is then the number of evaluations, two for a clock pulse and one for a
    request, and no call has found a vector of the wrong size.  There is a trace
    exactly when the build has tracing and the first call is [litedram_init] with
    tracing on, and it then has every one of those times once and in order. *)
Theorem litedram_trace VM_TRACE vhpi0 vhpi1 {C} (core_new : core C) core_eval m l :
  vhpi0 <> vhpi1 -> in_u8 vhpi0 /\ in_u8 vhpi1 -> Forall (call_mapped m) l ->
  exists s', run_calls VM_TRACE vhpi0 vhpi1 core_new core_eval l (Dram None 0 None [] m) = Ok tt s' /\
  let n := sum_list (map evals l) in
  d_time s' = u64 n /\
  d_tfp s' = (if VM_TRACE && starts_tracing l then Some (map (fun i : nat => u64 i) (seq 0 n)) else None) /\
  d_warn s' = [] /\ dom (d_mem s') = dom m.
Proof.
  intros Hd Hb Hl.
  assert (Hrun : forall tr s, (tr = true -> VM_TRACE = true) -> kept tr m 0 s ->
    forall l, Forall (call_mapped m) l -> match l with Init _ :: _ => is_Some (d_v s) | _ => True end ->
    exists s', run_calls VM_TRACE vhpi0 vhpi1 core_new core_eval l s = Ok tt s' /\ kept tr m (sum_list (map evals l)) s').
  { intros tr s Htr Hk l' Hl' Hv.
    destruct (run_calls_kept VM_TRACE vhpi0 vhpi1 Hd Hb core_new core_eval tr Htr m l' 0 s Hk Hl' Hv) as (s' & E & Hk').
    rewrite Nat.add_0_r in Hk'. by exists s'. }
  assert (Hinit : forall on l', l = Init on :: l' -> exists s,
    run_calls VM_TRACE vhpi0 vhpi1 core_new core_eval l (Dram None 0 None [] m) =
      run_calls VM_TRACE vhpi0 vhpi1 core_new core_eval l' s /\ is_Some (d_v s) /\
    kept (VM_TRACE && negb (on =? 0)) m 0 s).
  { intros on l' ->. exists (Dram (Some core_new) 0 (if VM_TRACE && negb (on =? 0) then Some [] else None) [] m).
    split; [|by split; [|split_and!; destruct VM_TRACE, (on =? 0)]].
    cbn [run_calls run_call]. unfold litedram_init. by destruct VM_TRACE, (on =? 0). }
  destruct l as [|c l]; [by eexists; rewrite andb_false_r|].
  assert (Hc : (exists on, c = Init on) \/ ~ exists on, c = Init on) by (destruct c; try (right; by intros []); left; by eexists).
  destruct Hc as [[on ->]|Hc].
  - destruct (Hinit on l eq_refl) as (s & E & Hv & Hk). apply Forall_cons_iff in Hl as [_ Hl].
    destruct (Hrun (VM_TRACE && negb (on =? 0)) s ltac:(by destruct VM_TRACE) Hk l Hl) as (s' & E' & ? & ? & ? & ?); [by destruct l as [|[]]|].
    exists s'. by rewrite E.
  - destruct (Hrun false (Dram None 0 None [] m) ltac:(done) ltac:(by split_and!) (c :: l) Hl) as (s' & E & ? & ? & ? & ?).
    { destruct c; try done. destruct Hc. by eexists. }
    exists s'. split; [done|]. replace (VM_TRACE && starts_tracing (c :: l)) with false; [done|].
    destruct c; cbn [starts_tracing]; try by rewrite andb_false_r. destruct Hc. by eexists.
Qed.

(** A core that counts its evaluations, acknowledges strobes and shows the
    address it was given. *)
Module Demo.
Definition new : core Z :=
  Core 0 (WbCtrl 0 0 0 0 0 0 0 0) (UserPort 0 0 0 0 0 0 (0, 0, 0, 0)) (Outputs 0 0 0 0 0 0 0 0 (0, 0, 0, 0)) 0.

Definition step (clk : Z) (w : wb_ctrl) (u : user_port) (n : Z) : outputs * Z :=
  (Outputs 0 1 0 (wb_ctrl_stb w) (wb_ctrl_adr w) (cmd_valid u) 0 clk (wdata_data u), n + 1).

Definition memory : mem :=
  write_bytes 0 (vector 2 3 (low_bits 74 (2 ^ 63 + 4096 * 2 ^ 32 + 7)))
    (write_bytes 100 (replicate 172 2) (block 300 (replicate 131 0))).
Definition fresh : dram Z := Dram None 0 None [] memory.

Lemma litedram_inputs_witness :
  litedram_set_wb true 3 new step 0 fresh =
    Ok tt (evaluated true step (with_wb (wb_request (vector_number 3 memory 0 74)) new) fresh).
Proof. apply (litedram_inputs true 3 new step 0 fresh). decide_now. Defined.

Lemma litedram_outputs_witness : exists m',
  litedram_get_wb true 2 3 new 300 fresh = Ok tt (with_mem m' (with_core new fresh)) /\
  same_outside 300 36 memory m' /\ wb_answer (c_out new) (vector_number 3 m' 300 36).
Proof.
  apply (litedram_outputs true 2 3 new 300 fresh); [lia|unfold in_u8; lia|decide_now].
Defined.

Lemma litedram_trace_witness : exists s',
  run_calls true 2 3 new step [Init 1; SetWb 0; Clock; GetWb 300] fresh = Ok tt s' /\
  d_time s' = 3 /\ d_tfp s' = Some [0; 1; 2] /\ d_warn s' = [] /\ dom (d_mem s') = dom memory.
Proof.
  apply (litedram_trace true 2 3 new step memory [Init 1; SetWb 0; Clock; GetWb 300]); [lia|unfold in_u8; lia|].
  repeat constructor; decide_now.
Defined.

(** The word read back over the control port. *)
Example control_access :
  let s' := out_state (run_calls true 2 3 new step [SetWb 0; Clock; GetWb 300] fresh) in
  vector_number 3 (d_mem s') 300 36 = 2 ^ 34 + 2 ^ 32 + 4096.
Proof. vm_compute. reflexivity. Qed.

(** Tracing asked for after the first call never starts. *)
Example late_trace :
  d_tfp (out_state (run_calls true 2 3 new step [Clock; Init 1; Clock] fresh)) = None.
Proof. vm_compute. reflexivity. Qed.
End Demo.
