(* ===== verification/SimLink.v ===== *)
(** * The simulation back end of the debug tool: mw_debug.c, sim_command

    A command travels as a length byte and 74 bits: two of operation, 64 of
    data and eight of address, packed from the least significant bit of the
    first byte.  [add_bits] and [read_bits] are proved to add and extract bit
    fields of the little-endian number the buffer holds. *)

From S2P Require Import Prelude CMem LibcMem.

(** The socket: what [write] answers, and the bytes [read] delivers, none at
    the end or on an error. *)
Class Link (T : Type) := {
  link_write : list Z -> T -> Z * T;
  link_read : Z -> T -> list Z * T
}.

(** One round of [add_bits] at pointer [p] and bit [b]; [c] rounds are left. *)
Definition add_bits_step (d : Z) : Z * Z * Z * Z * Z -> M mem (Z * Z * Z * Z * Z + Z * Z) :=
  fun '(p, b, md, ms, c) =>
    if c =? 0 then mret (inr (p, b)) else
    _ ← (if Z.land d ms =? 0 then mret tt
         else x ← loadb p; storeb p (Z.lor x md));
    let ms := u64 (Z.shiftl ms 1) in
    if b =? 7 then mret (inl (p + 1, 0, 1, ms, c - 1))
    else mret (inl (p, b + 1, u8 (Z.shiftl md 1), ms, c - 1)).

Definition add_bits (p b d c : Z) : M mem (Z * Z) :=
  loop (S (Z.to_nat c)) (add_bits_step d) (p, b, u8 (Z.shiftl 1 b), 1, c).

Definition read_bits_step : Z * Z * Z * Z * Z * Z -> M mem (Z * Z * Z * Z * Z * Z + Z * Z * Z) :=
  fun '(p, b, ms, md, d, c) =>
    if c =? 0 then mret (inr (d, p, b)) else
    x ← loadb p;
    let d := if Z.land x ms =? 0 then d else Z.lor d md in
    let md := u64 (Z.shiftl md 1) in
    if b =? 7 then mret (inl (p + 1, 0, 1, md, d, c - 1))
    else mret (inl (p, b + 1, u8 (Z.shiftl ms 1), md, d, c - 1)).

Definition read_bits (p b c : Z) : M mem (Z * Z * Z) :=
  loop (S (Z.to_nat c)) read_bits_step (p, b, u8 (Z.shiftl 1 b), 1, 0, c).

(** The bytes of a local array from its start. *)
Definition array_bytes (n : nat) (a : mem) : list Z := map (fun i => default 0 (a !! Z.of_nat i)) (seq 0 n).

(** The message for a command, built in [buf[16]]; its length is the pointer
    the bits ended at. *)
Definition sim_message (op d addr : Z) : M mem Z :=
  '(p, b) ← add_bits 1 0 op 2;
  '(p, b) ← add_bits p b d 64;
  '(p, b) ← add_bits p b addr 8;
  let p := if b =? 0 then p else p + 1 in
  _ ← storeb 0 74;
  mret p.

Definition empty_buf : mem := write_bytes 0 (replicate 16 0) ∅.

(** [data] is what the pointer argument points to, if it is not NULL. *)
Definition sim_command {T} `{Link T} (op addr : Z) (data : option Z) : M T (Z * option Z) := fun t =>
  let d := default 0 data in
  match sim_message op d addr empty_buf with
  | Err e _ => Err e t
  | Ok n buf =>
      let '(r, t) := link_write (take (Z.to_nat n) (array_bytes 16 buf)) t in
      if r <? 0 then Ok (-1, data) t else
      let '(l, t) := link_read 16 t in
      let buf := write_bytes 0 l buf in
      match (('(r, p, b) ← read_bits 1 0 2;
              match data with
              | None => mret (r, None)
              | Some _ => '(v, _, _) ← read_bits p b 64; mret (r, Some v)
              end) : M mem (Z * option Z)) buf with
      | Ok a _ => Ok a t
      | Err e _ => Err e t
      end
  end.

(** ** The number in a buffer *)

Lemma le_value_app l1 l2 : le_value (l1 ++ l2) = le_value l1 + 256 ^ length l1 * le_value l2.
Proof.
  induction l1 as [|b l1 IH]; simpl length; cbn [app le_value]; [simpl; lia|].
  rewrite IH, Nat2Z.inj_succ, Z.pow_succ_r by lia. lia.
Qed.

Lemma le_value_insert l (i : nat) x y :
  l !! i = Some y -> le_value (<[i := x]> l) = le_value l + (x - y) * 256 ^ i.
Proof.
  revert i. induction l as [|b l IH]; intros [|i] Hi; simpl in Hi; [done|done| |].
  - injection Hi as ->. change (<[O := x]> (y :: l)) with (x :: l). cbn [le_value]. simpl Z.pow. lia.
  - change (<[S i := x]> (b :: l)) with (b :: <[i := x]> l). cbn [le_value]. rewrite (IH i Hi).
    rewrite Nat2Z.inj_succ, Z.pow_succ_r by lia. lia.
Qed.

(** Bit [b] of byte [i] is bit [8 * i + b] of the number. *)
Lemma le_value_bit l (i : nat) x b :
  Forall in_u8 l -> l !! i = Some x -> 0 <= b < 8 ->
  Z.testbit (le_value l) (8 * i + b) = Z.testbit x b.
Proof.
  intros Hu. revert i. induction Hu as [|y l Hy Hl IH]; intros i Hi Hb; [done|].
  unfold in_u8 in Hy. cbn [le_value].
  assert (E : y + 256 * le_value l = Z.lor (le_value l * 2 ^ 8) y)
    by (rewrite lor_shifted by lia; lia).
  rewrite E, Z.lor_spec, Z.mul_pow2_bits by lia. destruct i as [|i]; simpl in Hi.
  - injection Hi as ->. rewrite Z.testbit_neg_r by lia.
    by replace (8 * 0%nat + b) with b by lia.
  - rewrite (testbit_above y 8), orb_false_r by lia.
    replace (8 * S i + b - 8) with (8 * i + b) by lia. by apply IH.
Qed.

(** A field of a number is read from enough of its bytes. *)
Lemma le_bytes_field (n : nat) v j k : 0 <= j -> 0 <= k -> j + k <= 8 * n ->
  Z.shiftr (le_value (le_bytes n v)) j mod 2 ^ k = Z.shiftr v j mod 2 ^ k.
Proof.
  intros Hj Hk Hn. rewrite le_value_bytes_mod. change 256 with (2 ^ 8). rewrite <- Z.pow_mul_r by lia.
  apply Z.bits_inj'. intros i Hi. rewrite !testbit_mod_pow2, !Z.shiftr_spec by lia.
  destruct (Z.ltb_spec i k); [|done]. cbn [andb]. by rewrite Z.mod_pow2_bits_low by lia.
Qed.

(** ** Adding and extracting bits *)

(** One bit of [d] added at bit [b] of byte [i]. *)
Definition set_bit (l : list Z) (i : nat) (b : Z) (t : bool) : list Z :=
  if t then <[i := nth i l 0 + 2 ^ b]> l else l.

Lemma set_bit_ok l (i : nat) b t :
  Forall in_u8 l -> (i < length l)%nat -> 0 <= b < 8 -> le_value l < 2 ^ (8 * i + b) ->
  let x := nth i l 0 in
  l !! i = Some x /\ Z.lor x (2 ^ b) = x + 2 ^ b /\ 0 <= x + 2 ^ b < 256 /\
  length (set_bit l i b t) = length l /\ Forall in_u8 (set_bit l i b t) /\
  le_value (set_bit l i b t) = le_value l + Z.b2z t * 2 ^ (8 * i + b) /\
  le_value (set_bit l i b t) < 2 ^ (8 * i + b + 1).
Proof.
  intros Hu Hi Hb Hlt x. destruct (lookup_lt_is_Some_2 l i Hi) as [y Hy].
  assert (E : x = y) by (subst x; by apply nth_lookup_Some).
  assert (Hx : 0 <= y < 256) by (by eapply Forall_lookup_1 in Hu).
  pose proof (le_value_range l Hu) as [Hl0 _].
  assert (Hbit : forall k, b <= k < 8 -> Z.testbit y k = false).
  { intros k Hk. rewrite <- (le_value_bit l i y k) by (done || lia).
    apply (testbit_above _ (8 * i + b)); lia. }
  assert (Hyb : y < 2 ^ b).
  { destruct (decide (y = 0)); [lia|]. apply Z.log2_lt_pow2; [lia|].
    destruct (decide (Z.log2 y < b)); [done|exfalso].
    assert (Z.log2 y < 8) by (apply Z.log2_lt_pow2; lia).
    pose proof (Z.bit_log2 y ltac:(lia)) as Ht. by rewrite Hbit in Ht by lia. }
  assert (Hpow : 2 ^ b <= 128) by (change 128 with (2 ^ 7); apply Z.pow_le_mono_r; lia).
  assert (Hp : 2 ^ (8 * i + b) = 2 ^ b * 256 ^ i)
    by (rewrite Z.pow_add_r, Z.pow_mul_r by lia; change (2 ^ 8) with 256; lia).
  assert (Hps : 2 ^ (8 * i + b + 1) = 2 * 2 ^ (8 * i + b)) by (rewrite Z.pow_add_r by lia; lia).
  rewrite E. split; [done|]. split.
  { rewrite Z.lor_comm. pose proof (lor_shifted 1 y b ltac:(lia) ltac:(lia)) as Hor.
    rewrite Z.mul_1_l in Hor. rewrite Hor. lia. }
  split; [lia|]. unfold set_bit. fold x. rewrite E. destruct t; cbn [Z.b2z].
  - rewrite length_insert, (le_value_insert l i _ y Hy). split; [done|]. split; [|lia].
    apply Forall_insert; [done|]. unfold in_u8. lia.
  - split_and!; try done; lia.
Qed.

Lemma shiftr_bits d j (c : nat) : 0 <= j ->
  Z.shiftr d j mod 2 ^ S c = Z.b2z (Z.testbit d j) + 2 * (Z.shiftr d (j + 1) mod 2 ^ c).
Proof.
  intros Hj. rewrite Nat2Z.inj_succ, Z.pow_succ_r, Z.rem_mul_r by lia.
  rewrite <- (Z.shiftr_div_pow2 _ 1), Z.shiftr_shiftr by lia. change (2 ^ 1) with 2.
  rewrite Z.testbit_spec', Z.shiftr_div_pow2 by lia. done.
Qed.

(** The masks the two loops shift along. *)
Lemma shl_mask8 b : 0 <= b < 7 -> u8 (Z.shiftl (2 ^ b) 1) = 2 ^ (b + 1).
Proof.
  intros Hb. rewrite Z.shiftl_mul_pow2, <- Z.pow_add_r by lia. apply u8_small. split; [lia|].
  apply Z.pow_lt_mono_r; lia.
Qed.

Lemma shl_mask64 j : 0 <= j -> u64 (Z.shiftl (2 ^ j) 1) = u64 (2 ^ (j + 1)).
Proof. intros Hj. by rewrite Z.shiftl_mul_pow2, Z.pow_add_r by lia. Qed.

Lemma first_mask b : 0 <= b < 8 -> u8 (Z.shiftl 1 b) = 2 ^ b.
Proof.
  intros Hb. rewrite Z.shiftl_1_l. apply u8_small. split; [lia|]. apply Z.pow_lt_mono_r; lia.
Qed.

Lemma add_bits_one d (i : nat) b j (c : nat) l m base :
  bytes_at m base l -> Forall in_u8 l -> (i < length l)%nat -> 0 <= b < 8 -> 0 <= j < 64 ->
  le_value l < 2 ^ (8 * i + b) ->
  add_bits_step d (base + i, b, 2 ^ b, u64 (2 ^ j), Z.of_nat (S c)) m =
    Ok (inl (if b =? 7 then (base + S i, 0, 2 ^ 0, u64 (2 ^ (j + 1)), Z.of_nat c)
             else (base + i, b + 1, 2 ^ (b + 1), u64 (2 ^ (j + 1)), Z.of_nat c)))
       (write_bytes base (set_bit l i b (Z.testbit d j)) m).
Proof.
  intros Hb Hu Hi Hbr Hj Hlt.
  destruct (set_bit_ok l i b (Z.testbit d j) Hu Hi Hbr Hlt) as (Hx & Hor & Hr & _).
  assert (Hj64 : 2 ^ j < 2 ^ 64) by (apply Z.pow_lt_mono_r; lia).
  assert (0 < 2 ^ j) by (apply Z.pow_pos_nonneg; lia).
  enter add_bits_step. if_false. rewrite (u64_small (2 ^ j)), land_pow2 by lia.
  rewrite shl_mask64 by lia. replace (Z.of_nat (S c) - 1) with (Z.of_nat c) by lia.
  assert (Hstep : ((if negb (Z.testbit d j) then mret tt
      else x ← loadb (base + i); storeb (base + i) (Z.lor x (2 ^ b))) : M mem unit) m =
    Ok tt (write_bytes base (set_bit l i b (Z.testbit d j)) m)).
  { unfold set_bit. destruct (Z.testbit d j); cbn [negb].
    - run_with (apply loadb_ok, Hb, Hx). rewrite storeb_ok by (eexists; apply Hb, Hx).
      rewrite Hor, u8_small by lia. f_equal. by apply write_bytes_update.
    - unfold mret, M_ret. f_equal. symmetry. by apply write_bytes_id. }
  run_with (exact Hstep). destruct (Z.eqb_spec b 7).
  - unfold mret, M_ret. eq_lia.
  - by rewrite shl_mask8 by lia.
Qed.

Lemma add_bits_loop d (c : nat) : forall (i : nat) b j l m base f,
  bytes_at m base l -> Forall in_u8 l -> 0 <= b < 8 -> 0 <= j -> j + c <= 64 ->
  8 * i + b + c <= 8 * length l -> le_value l < 2 ^ (8 * i + b) -> (c < f)%nat ->
  exists l' (i' : nat) b', length l' = length l /\ Forall in_u8 l' /\
  le_value l' = le_value l + Z.shiftr d j mod 2 ^ c * 2 ^ (8 * i + b) /\
  8 * i' + b' = 8 * i + b + c /\ 0 <= b' < 8 /\
  loop f (add_bits_step d) (base + i, b, 2 ^ b, u64 (2 ^ j), Z.of_nat c) m =
    Ok (base + i', b') (write_bytes base l' m).
Proof.
  induction c as [|c IH]; intros i b j l m base f Hb Hu Hbr Hj Hjc Hlen Hlt Hf;
    (destruct f as [|f]; [lia|]).
  { exists l, i, b. split_and!; try done; try lia.
    - change (2 ^ 0%nat) with 1. rewrite Z.mod_1_r. lia.
    - rewrite write_bytes_id by done. by apply loop_break. }
  assert (Hi : (i < length l)%nat) by lia.
  destruct (set_bit_ok l i b (Z.testbit d j) Hu Hi Hbr Hlt) as (_ & _ & _ & Hl1 & Hu1 & Hv1 & Hlt1).
  set (l1 := set_bit l i b (Z.testbit d j)) in *.
  pose proof (add_bits_one d i b j c l m base Hb Hu Hi Hbr ltac:(lia) Hlt) as Hstep. fold l1 in Hstep.
  set (i1 := if b =? 7 then S i else i). set (b1 := if b =? 7 then 0 else b + 1).
  assert (Hpos : 8 * i1 + b1 = 8 * i + b + 1) by (subst i1 b1; destruct (Z.eqb_spec b 7); lia).
  destruct (IH i1 b1 (j + 1) l1 (write_bytes base l1 m) base f) as (l2 & i2 & b2 & Hl2 & Hu2 & Hv2 & Hp2 & Hb2 & Hrun).
  - apply write_bytes_at.
  - done.
  - subst b1. destruct (Z.eqb_spec b 7); lia.
  - lia.
  - lia.
  - lia.
  - by rewrite Hpos.
  - lia.
  - exists l2, i2, b2. rewrite Hl2, Hl1. split_and!; try done; try lia.
    + rewrite Hv2, Hv1, Hpos, shiftr_bits, (Z.pow_add_r 2 (8 * i + b) 1) by lia.
      change (2 ^ 1) with 2. ring.
    + rewrite write_bytes_twice in Hrun by congruence. rewrite <- Hrun.
      apply loop_continue. rewrite Hstep. subst i1 b1. by destruct (b =? 7).
Qed.

Lemma position_unique (i : nat) b pos : 8 * i + b = pos -> 0 <= b < 8 -> Z.of_nat i = pos / 8 /\ b = pos mod 8.
Proof. intros. pose proof (Z.div_mod pos 8). pose proof (Z.mod_pos_bound pos 8). lia. Qed.

(** Adding the low [c] bits of [d] at bit [pos] of a buffer that holds a number
    with no bits from there on. *)
Lemma add_bits_ok d c pos (n : nat) v m base :
  bytes_at m base (le_bytes n v) -> 0 <= v < 2 ^ pos -> 0 <= pos -> 0 <= c <= 64 -> pos + c <= 8 * n ->
  add_bits (base + pos / 8) (pos mod 8) d c m =
    Ok (base + (pos + c) / 8, (pos + c) mod 8)
       (write_bytes base (le_bytes n (v + d mod 2 ^ c * 2 ^ pos)) m).
Proof.
  intros Hb Hv Hpos Hc Hn. pose proof (Z.div_mod pos 8) as Hdm. pose proof (Z.mod_pos_bound pos 8) as Hm.
  assert (Hvn : v < 256 ^ n).
  { change 256 with (2 ^ 8). rewrite <- Z.pow_mul_r by lia.
    apply Z.lt_le_trans with (2 ^ pos); [lia|]. apply Z.pow_le_mono_r; lia. }
  assert (Hp : 8 * Z.to_nat (pos / 8) + pos mod 8 = pos) by lia.
  destruct (add_bits_loop d (Z.to_nat c) (Z.to_nat (pos / 8)) (pos mod 8) 0 (le_bytes n v) m base
    (S (Z.to_nat c)) Hb (le_bytes_in_u8 n v)) as (l' & i' & b' & Hl & Hu & Hv' & Hp' & Hb' & Hrun);
    [lia|lia|lia|rewrite le_bytes_length; lia|rewrite Hp, le_value_bytes by lia; lia|lia|].
  rewrite Hp, Z.shiftr_0_r, le_value_bytes in Hv' by lia. rewrite le_bytes_length in Hl.
  destruct (position_unique i' b' (pos + c) ltac:(lia) Hb') as [<- <-].
  rewrite (Z2Nat.id c) in Hv', Hrun by lia. rewrite <- Hv', <- Hl, le_bytes_value by done.
  unfold add_bits. rewrite first_mask by lia. rewrite Z2Nat.id in Hrun by lia. exact Hrun.
Qed.

(** ** Extracting *)

Lemma read_bits_loop (c : nat) : forall (i : nat) b j d l m base f,
  bytes_at m base l -> Forall in_u8 l -> 0 <= b < 8 -> 0 <= j -> j + c <= 64 ->
  8 * i + b + c <= 8 * length l -> 0 <= d < 2 ^ j -> (c < f)%nat ->
  exists (i' : nat) b', 8 * i' + b' = 8 * i + b + c /\ 0 <= b' < 8 /\
  loop f read_bits_step (base + i, b, 2 ^ b, u64 (2 ^ j), d, Z.of_nat c) m =
    Ok (d + Z.shiftr (le_value l) (8 * i + b) mod 2 ^ c * 2 ^ j, base + i', b') m.
Proof.
  induction c as [|c IH]; intros i b j d l m base f Hb Hu Hbr Hj Hjc Hlen Hd Hf;
    (destruct f as [|f]; [lia|]).
  { exists i, b. split_and!; try lia. change (2 ^ 0%nat) with 1. rewrite Z.mod_1_r, Z.mul_0_l, Z.add_0_r.
    by apply loop_break. }
  assert (Hi : (i < length l)%nat) by lia. destruct (lookup_lt_is_Some_2 l i Hi) as [x Hx].
  set (i1 := if b =? 7 then S i else i). set (b1 := if b =? 7 then 0 else b + 1).
  assert (Hpos : 8 * i1 + b1 = 8 * i + b + 1) by (subst i1 b1; destruct (Z.eqb_spec b 7); lia).
  assert (0 < 2 ^ j) by (apply Z.pow_pos_nonneg; lia).
  assert (Hj64 : 2 ^ j < 2 ^ 64) by (apply Z.pow_lt_mono_r; lia).
  set (t := Z.testbit (le_value l) (8 * i + b)).
  assert (Hj1 : 2 ^ (j + 1) = 2 * 2 ^ j) by (rewrite Z.pow_add_r by lia; lia).
  destruct (IH i1 b1 (j + 1) (d + Z.b2z t * 2 ^ j) l m base f) as (i2 & b2 & Hp2 & Hb2 & Hrun);
    [done|done|subst b1; destruct (Z.eqb_spec b 7); lia|lia|lia|lia|destruct t; simpl; lia|lia|].
  exists i2, b2. split_and!; [lia..|]. rewrite shiftr_bits by lia. fold t. rewrite Hpos in Hrun.
  replace (d + (Z.b2z t + 2 * (Z.shiftr (le_value l) (8 * i + b + 1) mod 2 ^ c)) * 2 ^ j)
    with (d + Z.b2z t * 2 ^ j + Z.shiftr (le_value l) (8 * i + b + 1) mod 2 ^ c * 2 ^ (j + 1)) by (rewrite Hj1; ring).
  rewrite <- Hrun. apply loop_continue. enter read_bits_step. if_false.
  run_with (apply loadb_ok, Hb, Hx). rewrite land_pow2 by lia.
  rewrite <- (le_value_bit l i x b) by done. fold t. rewrite (u64_small (2 ^ j)) by lia.
  replace (Z.of_nat (S c) - 1) with (Z.of_nat c) by lia.
  assert (Hor : (if negb t then d else Z.lor d (2 ^ j)) = d + Z.b2z t * 2 ^ j).
  { destruct t; cbn [negb Z.b2z]; [|lia]. rewrite Z.lor_comm.
    pose proof (lor_shifted 1 d j ltac:(lia) ltac:(lia)) as Hs. rewrite Z.mul_1_l in Hs.
    rewrite Hs. lia. }
  rewrite shl_mask64, Hor by lia. subst i1 b1. destruct (Z.eqb_spec b 7); unfold mret, M_ret; [eq_lia|].
  by rewrite shl_mask8 by lia.
Qed.

Lemma read_bits_ok c pos l m base :
  bytes_at m base l -> Forall in_u8 l -> 0 <= pos -> 0 <= c <= 64 -> pos + c <= 8 * length l ->
  read_bits (base + pos / 8) (pos mod 8) c m =
    Ok (Z.shiftr (le_value l) pos mod 2 ^ c, base + (pos + c) / 8, (pos + c) mod 8) m.
Proof.
  intros Hb Hu Hpos Hc Hlen. pose proof (Z.div_mod pos 8) as Hdm. pose proof (Z.mod_pos_bound pos 8) as Hm.
  assert (Hp : 8 * Z.to_nat (pos / 8) + pos mod 8 = pos) by lia.
  destruct (read_bits_loop (Z.to_nat c) (Z.to_nat (pos / 8)) (pos mod 8) 0 0 l m base
    (S (Z.to_nat c)) Hb Hu) as (i' & b' & Hp' & Hb' & Hrun);
    [lia|lia|lia|lia|change (2 ^ 0) with 1; lia|lia|].
  destruct (position_unique i' b' (pos + c) ltac:(lia) Hb') as [<- <-].
  change (2 ^ 0) with 1 in Hrun.
  rewrite Hp, Z.mul_1_r, Z.add_0_l, !Z2Nat.id in Hrun by lia.
  unfold read_bits. rewrite first_mask by lia. exact Hrun.
Qed.

(** ** The request *)

Lemma array_bytes_at m l : bytes_at m 0 l -> array_bytes (length l) m = l.
Proof.
  intros Hb. apply list_eq. intros i. unfold array_bytes. rewrite list_lookup_fmap.
  destruct (decide (i < length l)%nat) as [Hi|Hi].
  - rewrite lookup_seq_lt by done. destruct (lookup_lt_is_Some_2 l i Hi) as [x Hx].
    rewrite Hx. simpl. pose proof (Hb i x Hx) as Hm. rewrite Z.add_0_l in Hm. by rewrite Hm.
  - rewrite lookup_seq_ge, lookup_ge_None_2 by lia. done.
Qed.

Lemma le_bytes_take n k v : (n <= k)%nat -> take n (le_bytes k v) = le_bytes n v.
Proof.
  revert k v. induction n as [|n IH]; intros [|k] v Hk; simpl; try done; [lia|].
  f_equal. apply IH. lia.
Qed.

(** The number a request carries: operation, data and address. *)
Definition request (op d addr : Z) : Z := op mod 4 + d mod 2 ^ 64 * 4 + addr mod 256 * 2 ^ 66.

Lemma request_range op d addr : 0 <= request op d addr < 2 ^ 74.
Proof.
  unfold request. pose proof (Z.mod_pos_bound op 4). pose proof (Z.mod_pos_bound d (2 ^ 64)).
  pose proof (Z.mod_pos_bound addr 256). lia.
Qed.

Lemma le_bytes_zero n : le_bytes n 0 = replicate n 0.
Proof. induction n; simpl; f_equal; auto. Qed.

Lemma sim_message_ok op d addr :
  sim_message op d addr empty_buf =
    Ok 11 (write_bytes 0 (74 :: le_bytes 15 (request op d addr)) empty_buf).
Proof.
  assert (H1 : 0 <= 0 + op mod 2 ^ 2 * 2 ^ 0 < 2 ^ 2)
    by (pose proof (Z.mod_pos_bound op 4 ltac:(lia)); change (2 ^ 2) with 4; lia).
  assert (H2 : 0 <= 0 + op mod 2 ^ 2 * 2 ^ 0 + d mod 2 ^ 64 * 2 ^ 2 < 2 ^ 66)
    by (pose proof (Z.mod_pos_bound d (2 ^ 64) ltac:(lia)); lia).
  assert (Hb0 : bytes_at empty_buf 1 (le_bytes 15 0)).
  { apply (bytes_at_cons _ 0 0). exact (write_bytes_at 0 (replicate 16 0) ∅). }
  unfold sim_message.
  run_with (apply (add_bits_ok op 2 0 15 0 empty_buf 1 Hb0); [done|lia..]).
  run_with (apply (add_bits_ok d 64 2 15 (0 + op mod 2 ^ 2 * 2 ^ 0) _ 1); [apply write_bytes_at|exact H1|lia..]).
  rewrite write_bytes_twice by (by rewrite !le_bytes_length).
  run_with (apply (add_bits_ok addr 8 66 15 (0 + op mod 2 ^ 2 * 2 ^ 0 + d mod 2 ^ 64 * 2 ^ 2) _ 1);
    [apply write_bytes_at|exact H2|lia..]).
  rewrite write_bytes_twice by (by rewrite !le_bytes_length).
  change ((66 + 8) mod 8 =? 0) with false. change (1 + (66 + 8) / 8) with 10. cbv beta iota zeta.
  run_with (apply storeb_ok; rewrite write_bytes_lookup, bool_decide_false by lia;
    eexists; reflexivity).
  unfold mret, M_ret. f_equal. change (u8 74) with 74.
  replace (0 + op mod 2 ^ 2 * 2 ^ 0 + d mod 2 ^ 64 * 2 ^ 2 + addr mod 2 ^ 8 * 2 ^ 66)
    with (request op d addr)
    by (unfold request; change (2 ^ 2) with 4; change (2 ^ 0) with 1; change (2 ^ 8) with 256; ring).
  apply (write_bytes_cons 0 74).
Qed.

(** ** The command *)

Lemma le_value_low (l1 l2 : list Z) k j :
  Forall in_u8 l1 -> 0 <= j -> 0 <= k -> j + k <= 8 * length l1 ->
  Z.shiftr (le_value (l1 ++ l2)) j mod 2 ^ k = Z.shiftr (le_value l1) j mod 2 ^ k.
Proof.
  intros Hu Hj Hk Hlen. rewrite le_value_app. change 256 with (2 ^ 8). rewrite <- Z.pow_mul_r by lia.
  apply Z.bits_inj'. intros n Hn. rewrite !testbit_mod_pow2, !Z.shiftr_spec by lia.
  destruct (Z.ltb_spec n k); [|done]. cbn [andb].
  rewrite <- (Z.mod_pow2_bits_low (le_value l1 + _) (8 * length l1)) by lia.
  rewrite Z.mul_comm, Z_mod_plus_full, Z.mod_pow2_bits_low by lia. done.
Qed.

Lemma write_bytes_over p l1 l2 m : (length l1 <= length l2)%nat ->
  write_bytes p l1 (write_bytes p l2 m) = write_bytes p (l1 ++ drop (length l1) l2) m.
Proof.
  intros Hl. rewrite write_bytes_app. rewrite <- (take_drop (length l1) l2) at 1.
  rewrite write_bytes_app, length_take_le by done. apply map_eq. intros q.
  rewrite !write_bytes_lookup, length_take_le by done.
  repeat case_bool_decide; try done; lia.
Qed.

(** A command on a link that accepts the request and answers [resp]. *)
Lemma sim_command_ok {T} `{Link T} op addr data (t t1 t2 : T) r s payload :
  link_write (74 :: le_bytes 10 (request op (default 0 data) addr)) t = (r, t1) -> 0 <= r ->
  link_read 16 t1 = (s :: payload, t2) -> Forall in_u8 (s :: payload) ->
  (9 <= length payload <= 15)%nat ->
  sim_command op addr data t =
    Ok (le_value payload mod 4, (fun _ => Z.shiftr (le_value payload) 2 mod 2 ^ 64) <$> data) t2.
Proof.
  intros Hw Hr Hrd Hu Hlen. unfold sim_command. rewrite sim_message_ok.
  set (v := request op (default 0 data) addr) in *.
  set (req := 74 :: le_bytes 15 v).
  assert (Hreq : length req = 16%nat) by (subst req; cbn [length]; by rewrite le_bytes_length).
  rewrite <- Hreq at 1.
  rewrite array_bytes_at by apply write_bytes_at.
  assert (Htk : take (Z.to_nat 11) req = 74 :: le_bytes 10 v).
  { subst req. change (Z.to_nat 11) with 11%nat. cbn [take]. by rewrite le_bytes_take by lia. }
  rewrite Htk, Hw. destruct (Z.ltb_spec r 0); [lia|]. rewrite Hrd.
  rewrite write_bytes_over by (rewrite Hreq; cbn [length]; lia).
  set (rest := drop (length (s :: payload)) req).
  assert (Hb : bytes_at (write_bytes 0 ((s :: payload) ++ rest) empty_buf) 1 (payload ++ rest)).
  { apply (bytes_at_cons _ 0 s). apply write_bytes_at. }
  assert (Hu' : Forall in_u8 (payload ++ rest)).
  { apply Forall_app. split; [by inversion Hu|]. subst rest. apply Forall_drop. subst req.
    constructor; [unfold in_u8; lia|apply le_bytes_in_u8]. }
  assert (Hup : Forall in_u8 payload) by (by inversion Hu).
  pose proof (read_bits_ok 2 0 _ _ 1 Hb Hu') as R1. pose proof (read_bits_ok 64 2 _ _ 1 Hb Hu') as R2.
  rewrite length_app in R1, R2.
  rewrite le_value_low in R1, R2 by (done || lia). rewrite Z.shiftr_0_r in R1.
  erewrite bind_ok by (apply R1; lia). cbv beta iota zeta.
  destruct data as [d|]; [|done].
  erewrite bind_ok by (apply R2; lia). done.
Qed.
