(* ===== verification/Jtag.v ===== *)
(** * The debug socket of the simulator: sim_jtag_socket_c.c

    The VHDL model of the debug port polls [sim_jtag_read_msg] for a message
    and answers with [sim_jtag_write_msg].  A message is a vector of bits, least
    significant first, and travels as a byte with the number of bits followed
    by the bits, packed.  The system calls are the operations of [Net];
    diagnostics on the terminal are left out. *)

From S2P Require Import Prelude CMem Vhpi SimLink.

(** The system calls.  [net_read] answers [None] for an error and no bytes when
    the peer has closed. *)
Class Net (T : Type) := {
  net_ignore_sigpipe : T -> T;
  net_socket : T -> Z * T;
  net_nonblock : Z -> T -> T;
  net_reuse : Z -> T -> T;
  net_bind : Z -> Z -> T -> Z * T;
  net_listen : Z -> T -> Z * T;
  net_accept : Z -> T -> Z * T;
  net_poll : Z -> T -> Z * T;
  net_read : Z -> Z -> T -> option (list Z) * T;
  net_send : Z -> list Z -> T -> Z * T;
  net_close : Z -> T -> T
}.

(** The two static descriptors, the network, and the memory of the vectors. *)
Record jtag (T : Type) := Jtag { j_fd : Z; j_cfd : Z; j_net : T; j_mem : mem }.
Arguments Jtag {T}.
Arguments j_fd {T}. Arguments j_cfd {T}. Arguments j_net {T}. Arguments j_mem {T}.

Definition TCP_PORT : Z := 13245.
Definition MAX_PACKET : Z := 32.

Section jtag.
Context {T : Type} `{Net T} (vhpi0 vhpi1 : Z).

Definition set_fd (fd : Z) : M (jtag T) unit := modify (fun j => Jtag fd (j_cfd j) (j_net j) (j_mem j)).
Definition set_cfd (fd : Z) : M (jtag T) unit := modify (fun j => Jtag (j_fd j) fd (j_net j) (j_mem j)).
Definition net_do (f : T -> T) : M (jtag T) unit := modify (fun j => Jtag (j_fd j) (j_cfd j) (f (j_net j)) (j_mem j)).
Definition net_call {A} (f : T -> A * T) : M (jtag T) A := fun j =>
  let '(a, t) := f (j_net j) in Ok a (Jtag (j_fd j) (j_cfd j) t (j_mem j)).
Definition on_mem {A} (c : M mem A) : M (jtag T) A := fun j =>
  match c (j_mem j) with
  | Ok a m => Ok a (Jtag (j_fd j) (j_cfd j) (j_net j) m)
  | Err e m => Err e (Jtag (j_fd j) (j_cfd j) (j_net j) m)
  end.

Definition open_fail : M (jtag T) unit :=
  fd ← gets j_fd;
  _ ← (if fd >=? 0 then net_do (net_close fd) else mret tt);
  set_fd (-2).

Definition open_socket : M (jtag T) unit :=
  fd ← gets j_fd;
  if (fd >=? 0) || (fd <? -1) then mret tt else
  _ ← net_do net_ignore_sigpipe;
  fd ← net_call net_socket;
  _ ← set_fd fd;
  if fd <? 0 then open_fail else
  _ ← net_do (net_nonblock fd);
  _ ← net_do (net_reuse fd);
  rc ← net_call (net_bind fd TCP_PORT);
  if rc <? 0 then open_fail else
  rc ← net_call (net_listen fd);
  if rc <? 0 then open_fail else mret tt.

Definition check_connection : M (jtag T) unit :=
  fd ← gets j_fd;
  c ← net_call (net_accept fd);
  set_cfd c.

(** Bit [i] of the received [data], whose first byte is the size. *)
Definition unpack_step (data : list Z) (out_msg size : Z) : Z -> M mem (Z + unit) := fun i =>
  if i <? size then
    match data !! Z.to_nat (Z.shiftr i 3 + 1) with
    | None => throw UB
    | Some x =>
        _ ← storeb (out_msg + i) (if Z.land x (Z.shiftl 1 (Z.land i 7)) =? 0 then vhpi0 else vhpi1);
        mret (inl (i + 1))
    end
  else mret (inr tt).

(** What is done with a packet that arrived; the answer is the size. *)
Definition unpack (data : list Z) (out_msg : Z) : M mem Z :=
  let rc := Z.of_nat (length data) in
  let size := default 0 (head data) in
  if size =? 255 then mret size else
  let size := if (rc - 1) * 8 <? size then u8 ((rc - 1) * 8) else size in
  _ ← loop 256 (unpack_step data out_msg size) 0;
  mret size.

(** The part of [sim_jtag_read_msg] before [finish]. *)
Definition receive (out_msg : Z) : M (jtag T) Z :=
  fd ← gets j_fd;
  _ ← (if fd =? -1 then open_socket else mret tt);
  fd ← gets j_fd;
  if fd <? 0 then mret 0 else
  cfd ← gets j_cfd;
  _ ← (if cfd <? 0 then check_connection else mret tt);
  cfd ← gets j_cfd;
  if cfd <? 0 then mret 0 else
  rc ← net_call (net_poll cfd);
  if rc <=? 0 then mret 0 else
  data ← net_call (net_read cfd MAX_PACKET);
  match data with
  | None | Some [] =>
      _ ← net_do (net_close cfd);
      _ ← set_cfd (-1);
      mret 0
  | Some data => on_mem (unpack data out_msg)
  end.

Definition sim_jtag_read_msg (out_msg out_size : Z) : M (jtag T) unit :=
  size ← receive out_msg;
  on_mem (to_std_logic_vector vhpi0 vhpi1 size out_size 8).

(** Bit [i] of the message in [vec] goes to the array [data]. *)
Definition pack_step (vec : mem) (in_msg size : Z) : Z -> M mem (Z + unit) := fun i =>
  if i <? size then
    let byte := Z.shiftr i 3 in
    let bit := Z.shiftl 1 (Z.land i 7) in
    b ← on_object vec (loadb (in_msg + i));
    x ← loadb (byte + 1);
    _ ← storeb (byte + 1) (if b =? vhpi1 then Z.lor x bit else Z.land x (Z.lnot bit));
    mret (inl (i + 1))
  else mret (inr tt).

(** The bytes handed to [write]; [data] is the array as it was on the stack. *)
Definition pack (vec : mem) (in_msg size : Z) : M mem (list Z) :=
  _ ← storeb 0 size;
  _ ← loop 256 (pack_step vec in_msg size) 0;
  gets (fun data => array_bytes (Z.to_nat ((size + 7) / 8)) data).

Definition sim_jtag_write_msg (data : mem) (in_msg in_size : Z) : M (jtag T) unit :=
  size ← on_mem (from_std_logic_vector vhpi0 vhpi1 in_size 8);
  vec ← gets j_mem;
  bytes ← on_object data (pack vec in_msg (u8 size));
  cfd ← gets j_cfd;
  _ ← net_call (net_send cfd bytes);
  mret tt.
End jtag.

(** ** Messages *)

Section correct.
Context (vhpi0 vhpi1 : Z).
Hypothesis vhpi_distinct : vhpi0 <> vhpi1.
Hypothesis vhpi_bytes : in_u8 vhpi0 /\ in_u8 vhpi1.

(** The [n] low bits of [v], least significant first. *)
Definition lsb_bits (n : nat) (v : Z) : list bool := map (fun i : nat => Z.testbit v i) (seq 0 n).

Lemma lsb_bits_length n v : length (lsb_bits n v) = n.
Proof. unfold lsb_bits. by rewrite length_map, length_seq. Qed.

Lemma lsb_bits_S n v : lsb_bits (S n) v = lsb_bits n v ++ [Z.testbit v n].
Proof. unfold lsb_bits. by rewrite seq_S, map_app. Qed.

Lemma lsb_bits_lookup n v (i : nat) : (i < n)%nat -> lsb_bits n v !! i = Some (Z.testbit v i).
Proof. intros Hi. unfold lsb_bits. by rewrite list_lookup_fmap, lookup_seq_lt. Qed.

Lemma lsb_bits_mod (n : nat) v : lsb_bits n (v mod 2 ^ n) = lsb_bits n v.
Proof.
  unfold lsb_bits. apply map_ext_in. intros i Hi%in_seq. by rewrite Z.mod_pow2_bits_low by lia.
Qed.

Lemma byte_of i : 0 <= i -> Z.shiftr i 3 = i / 8 /\ Z.land i 7 = i mod 8.
Proof.
  intros Hi. split; [by rewrite Z.shiftr_div_pow2|].
  change 7 with (Z.ones 3). by rewrite Z.land_ones by lia.
Qed.

Lemma unpack_loop s payload out_msg size (k : nat) : forall (i : nat) m f,
  Forall in_u8 payload -> size = i + k -> size <= 8 * length payload ->
  mapped m out_msg size -> (k < f)%nat ->
  loop f (unpack_step vhpi0 vhpi1 (s :: payload) out_msg size) (Z.of_nat i)
    (write_bytes out_msg (vector vhpi0 vhpi1 (lsb_bits i (le_value payload))) m) =
  Ok tt (write_bytes out_msg (vector vhpi0 vhpi1 (lsb_bits (i + k) (le_value payload))) m).
Proof.
  induction k as [|k IH]; intros i m f Hu Hs Hlen Hm Hf; (destruct f as [|f]; [lia|]).
  - rewrite Nat.add_0_r. apply loop_break. enter unpack_step. by if_false.
  - replace (i + S k)%nat with (S i + k)%nat by lia. rewrite <- (IH (S i) m f) by (done || lia).
    apply loop_continue. enter unpack_step. if_true.
    destruct (byte_of i ltac:(lia)) as [-> ->].
    pose proof (Z.div_mod i 8 ltac:(lia)). pose proof (Z.mod_pos_bound i 8 ltac:(lia)).
    assert (Hi : (Z.to_nat (i / 8) < length payload)%nat) by lia.
    destruct (lookup_lt_is_Some_2 payload _ Hi) as [x Hx].
    assert (Hsx : (s :: payload) !! Z.to_nat (i / 8 + 1) = Some x)
      by (replace (Z.to_nat (i / 8 + 1)) with (S (Z.to_nat (i / 8))) by lia; exact Hx).
    rewrite Hsx.
    rewrite Z.shiftl_1_l, land_pow2 by lia.
    rewrite <- (le_value_bit payload (Z.to_nat (i / 8)) x) by (done || lia).
    replace (8 * Z.to_nat (i / 8) + i mod 8) with (Z.of_nat i) by lia.
    replace (if negb (Z.testbit (le_value payload) i) then vhpi0 else vhpi1)
      with (logic vhpi0 vhpi1 (Z.testbit (le_value payload) i)) by (by destruct Z.testbit).
    run_with (apply storeb_ok; apply (write_bytes_mapped _ _ _ out_msg size Hm); lia).
    unfold mret, M_ret. rewrite u8_small by (by apply logic_in_u8).
    f_equal; [do 2 f_equal; lia|].
    rewrite lsb_bits_S. unfold vector. rewrite map_app, write_bytes_app, length_map, lsb_bits_length. done.
Qed.

(** A packet of [size] bits and enough bytes for them: the message is the bits
    of the packet's number and the size is reported as it is. *)
Lemma unpack_ok size payload out_msg m :
  Forall in_u8 payload -> 0 <= size < 255 -> size <= 8 * length payload -> mapped m out_msg size ->
  unpack vhpi0 vhpi1 (size :: payload) out_msg m =
    Ok size (write_bytes out_msg (vector vhpi0 vhpi1 (lsb_bits (Z.to_nat size) (le_value payload))) m).
Proof.
  intros Hu Hs Hlen Hm. unfold unpack. cbn [length]. change (default 0 (head (size :: payload))) with size.
  cbv zeta. if_false.
  assert (E : ((S (length payload) - 1) * 8 <? size) = false) by (apply Z.ltb_ge; lia). rewrite E.
  pose proof (unpack_loop size payload out_msg size (Z.to_nat size) 0 m 256 Hu) as Hloop.
  run_with (apply Hloop; [lia|done|done|lia]). done.
Qed.

(** ** Packing *)

(** The first [i] bits of [v] are in place in the bytes [l]. *)
Definition packed (v : Z) (i : Z) (l : list Z) : Prop :=
  Forall in_u8 l /\ forall (q : nat) b x, l !! q = Some x -> 0 <= b < 8 -> 8 * q + b < i ->
    Z.testbit x b = Z.testbit v (8 * q + b).

(** Bit [b] of a byte set or cleared the way the code does it. *)
Definition put_bit (x b : Z) (t : bool) : Z :=
  if t then Z.lor x (2 ^ b) else Z.land x (Z.lnot (2 ^ b)).

Lemma put_bit_spec x b t k : 0 <= b -> 0 <= k ->
  Z.testbit (put_bit x b t) k = if k =? b then t else Z.testbit x k.
Proof.
  intros Hb Hk. unfold put_bit. destruct t.
  - rewrite Z.lor_spec, Z.pow2_bits_eqb, (Z.eqb_sym b) by lia.
    destruct (k =? b); [by rewrite orb_true_r|by rewrite orb_false_r].
  - rewrite Z.land_spec, Z.lnot_spec, Z.pow2_bits_eqb, (Z.eqb_sym b) by lia.
    destruct (k =? b); [by rewrite andb_false_r|by rewrite andb_true_r].
Qed.

Lemma testbits_in_u8 x : 0 <= x -> (forall k, 8 <= k -> Z.testbit x k = false) -> in_u8 x.
Proof.
  intros H0 Hk. unfold in_u8. split; [done|]. destruct (decide (x = 0)) as [->|]; [lia|].
  apply Z.log2_lt_pow2; [lia|]. destruct (decide (Z.log2 x < 8)); [done|].
  pose proof (Z.bit_log2 x ltac:(lia)) as Hb. by rewrite Hk in Hb by lia.
Qed.

Lemma put_bit_in_u8 x b t : in_u8 x -> 0 <= b < 8 -> in_u8 (put_bit x b t).
Proof.
  intros Hx Hb. unfold in_u8 in Hx. apply testbits_in_u8.
  - assert (0 <= 2 ^ b) by lia. unfold put_bit. destruct t; [apply Z.lor_nonneg; lia|].
    apply Z.land_nonneg. lia.
  - intros k Hk. rewrite put_bit_spec by lia. replace (k =? b) with false by lia.
    apply (testbit_above x 8); lia.
Qed.

Lemma packed_step v (i : nat) l x :
  packed v i l -> l !! Z.to_nat (i / 8) = Some x ->
  packed v (S i) (<[Z.to_nat (i / 8) := put_bit x (i mod 8) (Z.testbit v i)]> l).
Proof.
  intros [Hu Hp] Hx. pose proof (Z.div_mod i 8 ltac:(lia)). pose proof (Z.mod_pos_bound i 8 ltac:(lia)).
  assert (in_u8 x) by (by eapply Forall_lookup_1 in Hu). split.
  - apply Forall_insert; [done|]. by apply put_bit_in_u8.
  - intros q b y Hy Hb Hlt. destruct (decide (q = Z.to_nat (i / 8))) as [->|Hne].
    + rewrite list_lookup_insert_eq in Hy by (by eapply lookup_lt_Some). injection Hy as <-.
      rewrite put_bit_spec by lia. destruct (Z.eqb_spec b (i mod 8)) as [->|].
      * f_equal. lia.
      * apply Hp; [done|done|]. lia.
    + rewrite list_lookup_insert_ne in Hy by done. apply Hp; [done|done|].
      destruct (decide (8 * q + b = i)); [|lia]. exfalso. lia.
Qed.

Lemma le_bytes_lookup n v (q : nat) : (q < n)%nat -> le_bytes n v !! q = Some (Z.shiftr v (8 * q) mod 256).
Proof.
  revert v q. induction n as [|n IH]; intros v [|q] Hq; try lia; cbn [le_bytes].
  - by rewrite Z.shiftr_0_r.
  - change ((v mod 256 :: le_bytes n (v / 256)) !! S q) with (le_bytes n (v / 256) !! q).
    rewrite IH by lia. change 256 with (2 ^ 8) at 1. rewrite <- Z.shiftr_div_pow2, Z.shiftr_shiftr by lia.
    do 3 f_equal. lia.
Qed.

(** Bytes whose bits are all in place are the bytes of the number. *)
Lemma packed_bytes v i l (k : nat) :
  packed v i l -> (k <= length l)%nat -> 8 * k <= i -> take k l = le_bytes k v.
Proof.
  intros [Hu Hp] Hk Hi. apply list_eq. intros q. destruct (decide (q < k)%nat) as [Hq|Hq].
  - rewrite lookup_take_lt, le_bytes_lookup by done.
    destruct (lookup_lt_is_Some_2 l q ltac:(lia)) as [x Hx]. rewrite Hx. f_equal.
    assert (Hxr : in_u8 x) by (by eapply Forall_lookup_1 in Hu). unfold in_u8 in Hxr.
    apply Z.bits_inj'. intros b Hb. change 256 with (2 ^ 8).
    rewrite testbit_mod_pow2, Z.shiftr_spec by lia. destruct (Z.ltb_spec b 8).
    + rewrite (Hp q b x) by (done || lia). cbn [andb]. f_equal. lia.
    + by rewrite (testbit_above x 8) by lia.
  - rewrite lookup_take_ge, lookup_ge_None_2 by (rewrite ?le_bytes_length; lia). done.
Qed.

Lemma pack_loop vec in_msg (n : nat) v (k : nat) : forall (i : nat) l data f,
  bytes_at vec in_msg (vector vhpi0 vhpi1 (lsb_bits n v)) -> n = (i + k)%nat ->
  packed v i l -> n <= 8 * length l -> bytes_at data 1 l -> (k < f)%nat ->
  exists l', packed v n l' /\ length l' = length l /\
  loop f (pack_step vhpi1 vec in_msg n) (Z.of_nat i) data = Ok tt (write_bytes 1 l' data).
Proof.
  induction k as [|k IH]; intros i l data f Hvec Hn Hp Hlen Hb Hf; (destruct f as [|f]; [lia|]).
  - exists l. rewrite Nat.add_0_r in Hn. subst i. split_and!; [done..|].
    rewrite write_bytes_id by done. apply loop_break. enter pack_step. by if_false.
  - pose proof (Z.div_mod i 8 ltac:(lia)). pose proof (Z.mod_pos_bound i 8 ltac:(lia)).
    destruct (lookup_lt_is_Some_2 l (Z.to_nat (i / 8)) ltac:(lia)) as [x Hx].
    set (l1 := <[Z.to_nat (i / 8) := put_bit x (i mod 8) (Z.testbit v i)]> l).
    assert (Hl1 : length l1 = length l) by apply length_insert.
    destruct (IH (S i) l1 (write_bytes 1 l1 data) f) as (l' & Hp' & Hl' & Hrun);
      [done|lia|by apply packed_step|lia|apply write_bytes_at|lia|].
    exists l'. split_and!; [done|lia|]. rewrite write_bytes_twice in Hrun by lia. rewrite <- Hrun.
    apply loop_continue. enter pack_step. if_true. destruct (byte_of i ltac:(lia)) as [-> ->].
    assert (Hbit : vec !! (in_msg + i) = Some (logic vhpi0 vhpi1 (Z.testbit v i))).
    { apply Hvec. unfold vector. by rewrite list_lookup_fmap, lsb_bits_lookup by lia. }
    run_with (unfold on_object; by rewrite (loadb_ok _ _ _ Hbit)).
    assert (Hd : data !! (i / 8 + 1) = Some x).
    { replace (i / 8 + 1) with (1 + Z.to_nat (i / 8)) by lia. by apply Hb. }
    run_with (by apply loadb_ok).
    assert (Hput : (if logic vhpi0 vhpi1 (Z.testbit v i) =? vhpi1 then Z.lor x (Z.shiftl 1 (i mod 8))
      else Z.land x (Z.lnot (Z.shiftl 1 (i mod 8)))) = put_bit x (i mod 8) (Z.testbit v i)).
    { rewrite Z.shiftl_1_l. unfold put_bit, logic. destruct (Z.testbit v i); [by rewrite Z.eqb_refl|].
      by rewrite (proj2 (Z.eqb_neq vhpi0 vhpi1)). }
    rewrite Hput. run_with (apply storeb_ok; by eexists).
    unfold mret, M_ret. f_equal; [do 2 f_equal; lia|].
    assert (Hxu : in_u8 x) by (destruct Hp as [Hu _]; by eapply Forall_lookup_1 in Hu).
    rewrite u8_small by (by apply put_bit_in_u8).
    replace (i / 8 + 1) with (1 + Z.to_nat (i / 8)) by lia.
    apply write_bytes_update; [done|by eapply lookup_lt_Some].
Qed.

(** A message of [n] bits goes out as its size and the bytes of its number, but
    for the last: the length counts the size byte among the payload. *)
Lemma pack_ok vec in_msg (n : nat) v (junk : list Z) :
  bytes_at vec in_msg (vector vhpi0 vhpi1 (lsb_bits n v)) -> Forall in_u8 junk ->
  length junk = 32%nat -> 0 < n <= 248 -> exists data,
  pack vhpi1 vec in_msg n (block 0 junk) = Ok (Z.of_nat n :: le_bytes (Z.to_nat ((n - 1) / 8)) v) data.
Proof.
  intros Hvec Hu Hj Hn. destruct junk as [|j0 junk]; [done|]. apply Forall_cons_iff in Hu as [_ Hu].
  injection Hj as Hj. unfold pack. assert (Hb : bytes_at (block 0 (j0 :: junk)) 0 (j0 :: junk)) by apply write_bytes_at.
  apply bytes_at_cons in Hb as [Hb0 Hb].
  run_with (apply storeb_ok; by eexists).
  set (d0 := <[0 := u8 n]> (block 0 (j0 :: junk))).
  destruct (pack_loop vec in_msg n v n 0 junk d0 256 Hvec) as (l' & Hp & Hl & Hrun); [done| |lia| |lia|].
  - split; [done|]. intros. lia.
  - intros q x Hx. subst d0. rewrite lookup_insert_ne by lia. by apply Hb.
  - run_with (exact Hrun). eexists. unfold gets. f_equal.
    set (k := Z.to_nat ((n - 1) / 8)).
    pose proof (Z.div_mod (n - 1) 8 ltac:(lia)). pose proof (Z.mod_pos_bound (n - 1) 8 ltac:(lia)).
    assert (E : Z.to_nat ((n + 7) / 8) = S k).
    { replace (n + 7) with (n - 1 + 1 * 8) by lia. rewrite Z.div_add by lia. lia. }
    rewrite E. rewrite <- (packed_bytes v n l' k Hp) by lia.
    assert (Hlen : S k = length (Z.of_nat n :: take k l')) by (cbn [length]; rewrite length_take_le; lia).
    rewrite Hlen. apply array_bytes_at. apply bytes_at_cons. split.
    + rewrite write_bytes_lookup, bool_decide_false by lia. subst d0.
      by rewrite lookup_insert_eq, u8_small by lia.
    + intros q x Hx. rewrite <- (take_drop k l'). rewrite write_bytes_app, write_bytes_lookup.
      pose proof (lookup_lt_Some _ _ _ Hx). rewrite bool_decide_false by lia. by apply write_bytes_at.
Qed.
End correct.

(** ** The two entry points *)

Section entry_points.
Context {T : Type} `{Net T} (vhpi0 vhpi1 : Z).
Hypothesis vhpi_distinct : vhpi0 <> vhpi1.
Hypothesis vhpi_bytes : in_u8 vhpi0 /\ in_u8 vhpi1.

Definition connected (j : jtag T) : Prop := 0 <= j_fd j /\ 0 <= j_cfd j.

Definition with_net (t : T) (j : jtag T) : jtag T := Jtag (j_fd j) (j_cfd j) t (j_mem j).
Definition with_mem (m : mem) (j : jtag T) : jtag T := Jtag (j_fd j) (j_cfd j) (j_net j) m.

Lemma on_mem_ok {A} (c : M mem A) (j : jtag T) a m :
  c (j_mem j) = Ok a m -> on_mem c j = Ok a (with_mem m j).
Proof. intros E. unfold on_mem. by rewrite E. Qed.

Lemma net_call_ok {A} (f : T -> A * T) (j : jtag T) a t :
  f (j_net j) = (a, t) -> net_call f j = Ok a (with_net t j).
Proof. intros E. unfold net_call. by rewrite E. Qed.

(** With a client connected, what [receive] does is decided by [poll] and
    [read]. *)
Lemma receive_connected out_msg (j : jtag T) rc t1 :
  connected j -> net_poll (j_cfd j) (j_net j) = (rc, t1) ->
  receive vhpi0 vhpi1 out_msg j =
    if rc <=? 0 then Ok 0 (with_net t1 j) else
    (data ← net_call (net_read (j_cfd j) MAX_PACKET);
     match data with
     | None | Some [] =>
         _ ← net_do (net_close (j_cfd j));
         _ ← set_cfd (-1);
         mret 0
     | Some data => on_mem (unpack vhpi0 vhpi1 data out_msg)
     end) (with_net t1 j).
Proof.
  intros [Hfd Hc] Hp. unfold receive.
  run_with reflexivity. if_false. run_with reflexivity. run_with reflexivity. if_false.
  run_with reflexivity. if_false. run_with reflexivity. run_with reflexivity. if_false.
  run_with (by apply net_call_ok). by destruct (rc <=? 0).
Qed.

Lemma read_msg_ok out_msg out_size (j : jtag T) rc t1 t2 size payload :
  connected j -> net_poll (j_cfd j) (j_net j) = (rc, t1) -> 0 < rc ->
  net_read (j_cfd j) MAX_PACKET t1 = (Some (size :: payload), t2) ->
  Forall in_u8 payload -> 0 <= size < 255 -> size <= 8 * length payload ->
  mapped (j_mem j) out_msg size -> mapped (j_mem j) out_size 8%nat ->
  sim_jtag_read_msg vhpi0 vhpi1 out_msg out_size j =
    Ok tt (with_mem (write_bytes out_size (vector vhpi0 vhpi1 (low_bits 8 size))
             (write_bytes out_msg (vector vhpi0 vhpi1 (lsb_bits (Z.to_nat size) (le_value payload))) (j_mem j)))
           (with_net t2 j)).
Proof.
  intros Hc Hp Hrc Hr Hu Hs Hlen Hm Hm8. unfold sim_jtag_read_msg.
  assert (Hrecv : receive vhpi0 vhpi1 out_msg j = Ok size (with_mem
    (write_bytes out_msg (vector vhpi0 vhpi1 (lsb_bits (Z.to_nat size) (le_value payload))) (j_mem j)) (with_net t2 j))).
  { rewrite (receive_connected _ _ _ _ Hc Hp). if_false.
    run_with (by apply net_call_ok). apply on_mem_ok. by apply unpack_ok. }
  run_with (exact Hrecv). erewrite on_mem_ok; [reflexivity|].
  apply (to_vector_ok vhpi0 vhpi1 vhpi_bytes _ out_size size 8); [|lia]. by apply write_bytes_mapped.
Qed.

(** A client that has connected is accepted first, and then served as if it had
    been accepted before. *)
Lemma read_msg_accepts out_msg out_size (j : jtag T) c t1 :
  0 <= j_fd j -> j_cfd j < 0 -> net_accept (j_fd j) (j_net j) = (c, t1) -> 0 <= c ->
  sim_jtag_read_msg vhpi0 vhpi1 out_msg out_size j =
    sim_jtag_read_msg vhpi0 vhpi1 out_msg out_size (Jtag (j_fd j) c t1 (j_mem j)).
Proof.
  intros Hfd Hcfd Ha Hc. unfold sim_jtag_read_msg.
  assert (E : receive vhpi0 vhpi1 out_msg j = receive vhpi0 vhpi1 out_msg (Jtag (j_fd j) c t1 (j_mem j))).
  { set (j1 := Jtag (j_fd j) c t1 (j_mem j)).
    assert (Hj1 : j_fd j1 = j_fd j /\ j_cfd j1 = c) by done. set (R := receive _ _ _ j1). unfold receive.
    run_with reflexivity. if_false. run_with reflexivity. run_with reflexivity. if_false. run_with reflexivity. if_true.
    run_with (unfold check_connection; run_with reflexivity; run_with (by apply net_call_ok); reflexivity).
    fold j1. match goal with |- ?l = R => set (L := l) end. subst R. unfold receive.
    run_with reflexivity. if_false. run_with reflexivity. run_with reflexivity. if_false. run_with reflexivity. if_false.
    by run_with reflexivity. }
  unfold mbind, M_bind. by rewrite E.
Qed.

(** Nothing to read, or a client that has gone, is reported as an empty
    message; in the second case the descriptor is given up. *)
Lemma read_msg_idle out_msg out_size (j : jtag T) rc t1 :
  connected j -> net_poll (j_cfd j) (j_net j) = (rc, t1) -> mapped (j_mem j) out_size 8%nat ->
  let m := write_bytes out_size (vector vhpi0 vhpi1 (low_bits 8 0)) (j_mem j) in
  (rc <= 0 -> sim_jtag_read_msg vhpi0 vhpi1 out_msg out_size j = Ok tt (with_mem m (with_net t1 j))) /\
  (forall data t2, 0 < rc -> net_read (j_cfd j) MAX_PACKET t1 = (data, t2) -> data = None \/ data = Some [] ->
     sim_jtag_read_msg vhpi0 vhpi1 out_msg out_size j =
       Ok tt (Jtag (j_fd j) (-1) (net_close (j_cfd j) t2) m)).
Proof.
  intros Hc Hp Hm m. pose proof (receive_connected out_msg _ _ _ Hc Hp) as Hrecv.
  pose proof (to_vector_ok vhpi0 vhpi1 vhpi_bytes _ out_size 0 8 Hm ltac:(lia)) as Hv.
  unfold sim_jtag_read_msg. split.
  - intros Hrc. run_with (rewrite Hrecv; by if_true). by erewrite on_mem_ok.
  - intros data t2 Hrc Hr Hd.
    assert (E : receive vhpi0 vhpi1 out_msg j = Ok 0 (Jtag (j_fd j) (-1) (net_close (j_cfd j) t2) (j_mem j))).
    { rewrite Hrecv. if_false. run_with (by apply net_call_ok). by destruct Hd as [-> | ->]. }
    run_with (exact E). by erewrite on_mem_ok.
Qed.

Lemma write_msg_ok in_msg in_size (j : jtag T) (n : nat) v junk r t :
  bytes_at (j_mem j) in_msg (vector vhpi0 vhpi1 (lsb_bits n v)) ->
  bytes_at (j_mem j) in_size (vector vhpi0 vhpi1 (low_bits 8 n)) ->
  Forall in_u8 junk -> length junk = 32%nat -> 0 < n <= 248 ->
  net_send (j_cfd j) (Z.of_nat n :: le_bytes (Z.to_nat ((n - 1) / 8)) v) (j_net j) = (r, t) ->
  sim_jtag_write_msg vhpi0 vhpi1 (block 0 junk) in_msg in_size j = Ok tt (with_net t j).
Proof.
  intros Hmsg Hsize Hu Hj Hn Hs. unfold sim_jtag_write_msg.
  run_with (apply on_mem_ok; apply (to_from_vector vhpi0 vhpi1 vhpi_distinct _ in_size n 8);
    [lia|exact Hsize]).
  run_with reflexivity. change (2 ^ 8%nat) with (2 ^ 8). rewrite Z.mod_small, u8_small by lia.
  destruct (pack_ok vhpi0 vhpi1 vhpi_distinct (j_mem j) in_msg n v junk) as [data Hpack]; [done..|].
  change (j_mem (with_mem (j_mem j) j)) with (j_mem j).
  run_with (unfold on_object; by rewrite Hpack). run_with reflexivity.
  run_with (by apply net_call_ok). by destruct j.
Qed.
End entry_points.

(** ** A debug command from the tool to the hardware and back *)

(** A connected stream with nothing in flight: what one end writes is what the
    other end's next [read] delivers.  [wire_idle], [wire_down] and [wire_up]
    tell what is in flight, and in which direction. *)
Class Wire (T : Type) := {
  wire_link :: Link T;
  wire_net :: Net T;
  wire_idle : T -> Prop;
  wire_down : list Z -> T -> Prop;
  wire_up : list Z -> T -> Prop;
  wire_write t l : wire_idle t -> exists r t', link_write l t = (r, t') /\ 0 <= r /\ wire_down l t';
  wire_poll c t l : wire_down l t -> 0 <= c -> exists r t', net_poll c t = (r, t') /\ 0 < r /\ wire_down l t';
  wire_read c t l : wire_down l t -> 0 <= c -> (length l <= 32)%nat ->
    exists t', net_read c MAX_PACKET t = (Some l, t') /\ wire_idle t';
  wire_send c t l : wire_idle t -> 0 <= c -> exists r t', net_send c l t = (r, t') /\ wire_up l t';
  wire_reply t l : wire_up l t -> (length l <= 16)%nat -> exists t', link_read 16 t = (l, t') /\ wire_idle t'
}.

Section transaction.
Context {T H : Type} `{Wire T} (vhpi0 vhpi1 : Z).

(** Where the VHDL side keeps its four vectors; the simulated system, of state
    [H], and what it does between the two calls, [hw], with those vectors; and
    the debug port it has: [scan v h] is the answer to the message [v]. *)
Context (out_msg out_size in_msg in_size : Z) (hw : mem -> H -> mem * H) (scan : Z -> H -> Z * H).

Definition vhdl_memory (m : mem) : Prop :=
  mapped m out_msg 74%nat /\ mapped m out_size 8%nat.

Definition vhdl_port : Prop := forall m h v,
  vhdl_memory m ->
  bytes_at m out_msg (vector vhpi0 vhpi1 (lsb_bits 74 v)) ->
  bytes_at m out_size (vector vhpi0 vhpi1 (low_bits 8 74)) ->
  let '(m', h') := hw m h in
  vhdl_memory m' /\
  bytes_at m' in_msg (vector vhpi0 vhpi1 (lsb_bits 74 (scan (v mod 2 ^ 74) h).1)) /\
  bytes_at m' in_size (vector vhpi0 vhpi1 (low_bits 8 74)) /\
  h' = (scan (v mod 2 ^ 74) h).2.

(** A computation of the socket code beside the simulated system. *)
Definition on_jtag {A} (c : M (jtag T) A) : M (jtag T * H) A := fun '(j, h) =>
  match c j with
  | Ok a j => Ok a (j, h)
  | Err e j => Err e (j, h)
  end.

(** The simulator serving one message, [junk] being the stack it finds. *)
Definition serve (junk : list Z) : M (jtag T * H) unit :=
  _ ← on_jtag (sim_jtag_read_msg vhpi0 vhpi1 out_msg out_size);
  _ ← modify (fun '(j, h) => let '(m, h) := hw (j_mem j) h in
                (Jtag (j_fd j) (j_cfd j) (j_net j) m, h));
  on_jtag (sim_jtag_write_msg vhpi0 vhpi1 (block 0 junk) in_msg in_size).

(** The tool's link when the simulator is at the other end: it serves while
    the tool waits for its answer. *)
Definition served_link (junk : list Z) : Link (jtag T * H) := {|
  link_write l '(j, h) := let '(r, t) := link_write l (j_net j) in (r, (with_net t j, h));
  link_read n s :=
    let '(j, h) := out_state (serve junk s) in
    let '(l, t) := link_read n (j_net j) in (l, (with_net t j, h))
|}.

Definition ready (j : jtag T) : Prop := connected j /\ wire_idle (j_net j) /\ vhdl_memory (j_mem j).
End transaction.

Section served.
Context {T H : Type} `{Wire T} (vhpi0 vhpi1 : Z).
Hypothesis vhpi_distinct : vhpi0 <> vhpi1.
Hypothesis vhpi_bytes : in_u8 vhpi0 /\ in_u8 vhpi1.
Context (out_msg out_size in_msg in_size : Z) (hw : mem -> H -> mem * H) (scan : Z -> H -> Z * H).
Hypothesis areas : out_msg + 74 <= out_size \/ out_size + 8 <= out_msg.
Hypothesis port : vhdl_port vhpi0 vhpi1 out_msg out_size in_msg in_size hw scan.

Lemma on_jtag_ok {A} (c : M (jtag T) A) j (h : H) a j' :
  c j = Ok a j' -> on_jtag c (j, h) = Ok a (j', h).
Proof. intros E. unfold on_jtag. by rewrite E. Qed.

Lemma serve_ok junk (j : jtag T) (h : H) v :
  connected j -> vhdl_memory out_msg out_size (j_mem j) -> 0 <= v < 2 ^ 74 ->
  wire_down (74 :: le_bytes 10 v) (j_net j) -> Forall in_u8 junk -> length junk = 32%nat ->
  exists j', serve vhpi0 vhpi1 out_msg out_size in_msg in_size hw junk (j, h) = Ok tt (j', (scan v h).2) /\
  connected j' /\ vhdl_memory out_msg out_size (j_mem j') /\
  wire_up (74 :: le_bytes 9 (scan v h).1) (j_net j').
Proof.
  intros Hc [Hm1 Hm2] Hv Hd Hu Hj. pose proof Hc as [_ Hcfd].
  destruct (wire_poll (j_cfd j) _ _ Hd Hcfd) as (rc & t1 & Hp & Hrc & Hd1).
  destruct (wire_read (j_cfd j) _ _ Hd1 Hcfd) as (t2 & Hr & Hi);
    [cbn [length]; rewrite le_bytes_length; lia|].
  pose proof (le_value_bytes 10 v ltac:(lia)) as Hval.
  assert (Hlen : length (le_bytes 10 v) = 10%nat) by apply le_bytes_length.
  pose proof (read_msg_ok vhpi0 vhpi1 vhpi_bytes out_msg out_size j rc t1 t2 74 (le_bytes 10 v)
    Hc Hp Hrc Hr (le_bytes_in_u8 10 v) ltac:(lia) ltac:(lia) Hm1 Hm2) as Hread.
  rewrite Hval in Hread. change (Z.to_nat 74) with 74%nat in Hread.
  set (m1 := write_bytes out_size _ _) in Hread.
  assert (Hport := port m1 h v). destruct (hw m1 h) as [m2 h2] eqn:Hhw.
  destruct Hport as (Hm' & Hmsg & Hsize & Hh).
  { split; by apply write_bytes_mapped, write_bytes_mapped. }
  { apply bytes_at_write_other; [|apply write_bytes_at].
    unfold vector. rewrite !length_map, lsb_bits_length, low_bits_length. lia. }
  { apply write_bytes_at. }
  rewrite Z.mod_small in Hmsg, Hh by done. subst h2.
  destruct (wire_send (j_cfd j) t2 (74 :: le_bytes 9 (scan v h).1) Hi Hcfd) as (r & t3 & Hs & Hup).
  unfold serve. run_with (by apply on_jtag_ok).
  run_with (unfold modify; cbn [j_mem with_mem with_net]; by rewrite Hhw).
  erewrite on_jtag_ok.
  2:{ by eapply (write_msg_ok vhpi0 vhpi1 vhpi_distinct in_msg in_size _ 74 (scan v h).1 junk r t3). }
  by exists (Jtag (j_fd j) (j_cfd j) t3 m2).
Qed.

Lemma transaction_ok junk op addr data (j : jtag T) (h : H) :
  ready out_msg out_size j -> Forall in_u8 junk -> length junk = 32%nat ->
  let '(r, h') := scan (request op (default 0 data) addr) h in
  exists j', ready out_msg out_size j' /\
  @sim_command _ (served_link vhpi0 vhpi1 out_msg out_size in_msg in_size hw junk) op addr data (j, h) =
    Ok (r mod 4, (fun _ => Z.shiftr r 2 mod 2 ^ 64) <$> data) (j', h').
Proof.
  intros (Hc & Hi & Hm) Hu Hj. set (v := request op (default 0 data) addr).
  destruct (wire_write _ (74 :: le_bytes 10 v) Hi) as (r & t1 & Hw & Hr & Hd).
  destruct (serve_ok junk (with_net t1 j) h v Hc Hm (request_range _ _ _) Hd Hu Hj)
    as (j2 & Hserve & Hc2 & Hm2 & Hup).
  destruct (scan v h) as [w h'] eqn:Hscan. cbn [fst snd] in *.
  destruct (wire_reply _ _ Hup) as (t3 & Hrd & Hi3); [cbn [length]; rewrite le_bytes_length; lia|].
  exists (with_net t3 j2). split; [done|].
  assert (Hlen : length (le_bytes 9 w) = 9%nat) by apply le_bytes_length.
  rewrite (@sim_command_ok _ (served_link vhpi0 vhpi1 out_msg out_size in_msg in_size hw junk)
    op addr data (j, h) (with_net t1 j, h) (with_net t3 j2, h') r 74 (le_bytes 9 w)).
  - pose proof (le_bytes_field 9 w 0 2 ltac:(lia) ltac:(lia) ltac:(lia)) as E1.
    pose proof (le_bytes_field 9 w 2 64 ltac:(lia) ltac:(lia) ltac:(lia)) as E2.
    rewrite !Z.shiftr_0_r in E1. change (2 ^ 2) with 4 in E1. by rewrite E1, E2.
  - unfold served_link. cbn [link_write]. fold v. by rewrite Hw.
  - done.
  - unfold served_link. cbn [link_read]. rewrite Hserve. cbn [out_state]. by rewrite Hrd.
  - constructor; [unfold in_u8; lia|apply le_bytes_in_u8].
  - lia.
Qed.
End served.

(** C10: a debug command goes through both ends of the simulation link and
    back.  Whatever the operation, address and data, the debug port of the
    simulated system receives exactly the 74 bits of the request, and the tool
    gets the two status bits and, when it asked for it, the 64 data bits of the
    port's answer, although the answer's last byte is never sent; the system is
    in the state the port leaves it in and the link as it was found. *)
Theorem debug_transaction {T H} `{Wire T} vhpi0 vhpi1 out_msg out_size in_msg in_size hw scan
    junk op addr data (j : jtag T) (h : H) :
  vhpi0 <> vhpi1 -> in_u8 vhpi0 /\ in_u8 vhpi1 ->
  out_msg + 74 <= out_size \/ out_size + 8 <= out_msg ->
  vhdl_port vhpi0 vhpi1 out_msg out_size in_msg in_size hw scan ->
  ready out_msg out_size j -> Forall in_u8 junk -> length junk = 32%nat ->
  let '(r, h') := scan (request op (default 0 data) addr) h in
  exists j', ready out_msg out_size j' /\
  @sim_command _ (served_link vhpi0 vhpi1 out_msg out_size in_msg in_size hw junk) op addr data (j, h) =
    Ok (r mod 4, (fun _ => Z.shiftr r 2 mod 2 ^ 64) <$> data) (j', h').
Proof. intros. by apply transaction_ok. Qed.

(** A stream as two queues of packets, and a system whose debug port is any
    [scan]: the VHDL side reads the message from its vector and puts the answer
    in the other. *)
Module Pipe.
Record pipe := { down : list (list Z); up : list (list Z) }.

#[export] Instance pipe_link : Link pipe := {
  link_write l t := (Z.of_nat (length l), {| down := down t ++ [l]; up := up t |});
  link_read _ t :=
    match up t with
    | [] => ([], t)
    | l :: u => (l, {| down := down t; up := u |})
    end
}.

#[export] Instance pipe_net : Net pipe := {
  net_ignore_sigpipe t := t;
  net_socket t := (3, t);
  net_nonblock _ t := t;
  net_reuse _ t := t;
  net_bind _ _ t := (0, t);
  net_listen _ t := (0, t);
  net_accept _ t := (4, t);
  net_poll _ t := (Z.of_nat (length (down t)), t);
  net_read _ _ t :=
    match down t with
    | [] => (None, t)
    | l :: d => (Some l, {| down := d; up := up t |})
    end;
  net_send _ l t := (Z.of_nat (length l), {| down := down t; up := up t ++ [l] |});
  net_close _ t := t
}.

#[export] Instance pipe_wire : Wire pipe.
Proof.
  refine {| wire_idle t := t = {| down := []; up := [] |};
            wire_down l t := t = {| down := [l]; up := [] |};
            wire_up l t := t = {| down := []; up := [l] |} |}.
  - intros t l ->. by do 2 eexists; split; [reflexivity|]; split; [lia|].
  - intros c t l -> _. by do 2 eexists; split; [reflexivity|]; split; [simpl; lia|].
  - intros c t l -> _ _. by eexists; split; [reflexivity|].
  - intros c t l -> _. by do 2 eexists; split; [reflexivity|].
  - intros t l -> _. by eexists; split; [reflexivity|].
Defined.

(** The number whose bits, least significant first, are in a vector. *)
Fixpoint bits_number (l : list Z) : Z :=
  match l with
  | [] => 0
  | b :: l' => (if b =? 3 then 1 else 0) + 2 * bits_number l'
  end.

Definition system {H} (scan : Z -> H -> Z * H) (m : mem) (h : H) : mem * H :=
  let '(r, h) := scan (bits_number (array_bytes 74 m)) h in
  (write_bytes 190 (vector 2 3 (low_bits 8 74)) (write_bytes 100 (vector 2 3 (lsb_bits 74 r)) m), h).

Lemma bits_number_vector (n : nat) v :
  bits_number (vector 2 3 (lsb_bits n v)) = v mod 2 ^ n.
Proof.
  revert v. induction n as [|n IH]; intros v; [simpl; by rewrite Z.mod_1_r|].
  unfold lsb_bits. cbn [seq map vector bits_number].
  assert (E : map (fun i : nat => Z.testbit v i) (seq 1 n) = lsb_bits n (v / 2)).
  { unfold lsb_bits. rewrite <- seq_shift, map_map. apply map_ext. intros i.
    change (v / 2) with (v / 2 ^ 1). rewrite Z.div_pow2_bits by lia. f_equal. lia. }
  unfold vector in IH. rewrite E, IH, Nat2Z.inj_succ, Z.pow_succ_r, Z.rem_mul_r by lia.
  change (Z.testbit v 0%nat) with (Z.testbit v 0). rewrite Z.bit0_odd, Zmod_odd. by destruct (Z.odd v).
Qed.

Lemma system_port {H} (scan : Z -> H -> Z * H) : vhdl_port 2 3 0 80 100 190 (system scan) scan.
Proof.
  intros m h v [Hm1 Hm2] Hmsg Hsize.
  assert (Hl : forall w, length (vector 2 3 (lsb_bits 74 w)) = 74%nat)
    by (intros; unfold vector; rewrite length_map; apply lsb_bits_length).
  pose proof (array_bytes_at m _ Hmsg) as Ha. rewrite Hl in Ha. unfold system.
  rewrite Ha, bits_number_vector. change (2 ^ 74%nat) with (2 ^ 74).
  destruct (scan (v mod 2 ^ 74) h) as [r h']. split_and!; try done.
  - split; by apply write_bytes_mapped, write_bytes_mapped.
  - apply bytes_at_write_other; [rewrite Hl; left; lia|apply write_bytes_at].
  - apply write_bytes_at.
Qed.

(** A port that answers with the message it was sent and counts them. *)
Definition echo (v h : Z) : Z * Z := (v, h + 1).

Definition start : jtag pipe :=
  Jtag 3 4 {| down := []; up := [] |} (block 0 (replicate 200 2)).

Lemma start_ready : ready 0 80 start.
Proof. split; [done|]. split; [done|]. split; decide_now. Qed.

(** A write of 5 to address 16: the port's echo has the operation as its status
    and the data. *)
Lemma debug_transaction_witness : exists j', ready 0 80 j' /\
  @sim_command _ (served_link 2 3 0 80 100 190 (system echo) (replicate 32 85)) 2 16 (Some 5) (start, 7) =
    Ok (2, Some 5) (j', 8).
Proof.
  apply (debug_transaction 2 3 0 80 100 190 (system echo) echo (replicate 32 85) 2 16 (Some 5) start 7).
  - lia.
  - unfold in_u8. lia.
  - lia.
  - apply system_port.
  - apply start_ready.
  - apply Forall_replicate. unfold in_u8. lia.
  - done.
Defined.
End Pipe.

(** A message of more than 248 bits does not fit the array the answer is built
    in. *)
Lemma pack_overflow : exists data,
  pack 3 (block 0 (replicate 255 2)) 0 249 (block 0 (replicate 32 0)) = Err (Segv 32) data.
Proof. eexists. vm_compute. reflexivity. Qed.

(** The answer to a 74-bit message is ten bytes long, one short of the size and
    the ten bytes of bits. *)
Lemma pack_short : exists data,
  pack 3 (block 0 (replicate 74 3)) 0 74 (block 0 (replicate 32 0)) = Ok (74 :: replicate 9 255) data.
Proof. eexists. vm_compute. reflexivity. Qed.
