(* ===== verification/MwDebug.v ===== *)
(** * The debug tool: mw_debug.c

    The tool talks to the debug port through a back end whose [command] is an
    operation of the class [Backend]; the simulation back end is [SimLink]'s
    [sim_command].  The text printed on standard output and the files are part
    of the state; what goes to standard error is not.  The host is
    little-endian. *)

From S2P Require Import Prelude CMem Ctype Vsnprintf SimLink.

(** [command op addr data]: the status and what the data pointer then points
    to; no data is a null pointer. *)
Class Backend (T : Type) := backend_command : Z -> Z -> option Z -> M T (Z * option Z).

#[export] Instance sim_backend {T} `{Link T} : Backend T := sim_command.

(** Files by name, the names that cannot be opened for writing, and the bytes
    there is still room for. *)
Record fs := Fs { files : gmap (list Z) (list Z); locked : gset (list Z); room : Z }.

Record tool (T : Type) := Tool {
  t_dev : T; t_core : Z; t_debug : bool; t_out : list Z; t_fs : fs
}.
Arguments Tool {T}. Arguments t_dev {T}. Arguments t_core {T}. Arguments t_debug {T}.
Arguments t_out {T}. Arguments t_fs {T}.

Definition with_dev {T} (t : T) (s : tool T) : tool T := Tool t (t_core s) (t_debug s) (t_out s) (t_fs s).
Definition with_out {T} (l : list Z) (s : tool T) : tool T := Tool (t_dev s) (t_core s) (t_debug s) l (t_fs s).
Definition with_fs {T} (f : fs) (s : tool T) : tool T := Tool (t_dev s) (t_core s) (t_debug s) (t_out s) f.

Definition DBG_WB_ADDR : Z := 0.
Definition DBG_WB_DATA : Z := 1.
Definition DBG_WB_CTRL : Z := 2.
Definition core_reg (r core : Z) : Z := u8 (r + Z.shiftl core 4).
Definition DBG_CORE_CTRL := core_reg 16.
Definition DBG_CORE_STAT := core_reg 17.
Definition DBG_CORE_NIA := core_reg 18.
Definition DBG_CORE_MSR := core_reg 19.
Definition DBG_CORE_GSPR_INDEX := core_reg 20.
Definition DBG_CORE_GSPR_DATA := core_reg 21.
Definition DBG_LOG_ADDR := core_reg 22.
Definition DBG_LOG_DATA := core_reg 23.
Definition DBG_LOG_TRIGGER := core_reg 24.
Definition DBG_LOG_MTRIGGER := core_reg 25.

Definition DBG_CORE_CTRL_STOP : Z := 1.
Definition DBG_CORE_CTRL_RESET : Z := 2.
Definition DBG_CORE_CTRL_ICRESET : Z := 4.
Definition DBG_CORE_CTRL_STEP : Z := 8.
Definition DBG_CORE_CTRL_START : Z := 16.
Definition DBG_CORE_STAT_STOPPING : Z := 1.
Definition DBG_CORE_STAT_STOPPED : Z := 2.
Definition DBG_CORE_STAT_TERM : Z := 4.

(** ** Text *)

Definition hex (v : Z) : list Z := num_text false 16 v.
Definition dec (v : Z) : list Z :=
  if v <? 0 then 45 :: num_text false 10 (- v) else num_text false 10 v.
Definition zeros (w : nat) (l : list Z) : list Z := replicate (w - length l) 48 ++ l.
Definition hex16 (v : Z) : list Z := zeros 16 (hex v).

Section tool.
Context {T : Type} `{Backend T}.

(** The number of times a pending operation is polled for at most, and what an
    uninitialised variable holds. *)
Context (polls : nat) (junk : Z).

Definition on_dev {A} (c : M T A) : M (tool T) A := fun s =>
  match c (t_dev s) with
  | Ok a t => Ok a (with_dev t s)
  | Err e t => Err e (with_dev t s)
  end.

Definition print (l : list Z) : M (tool T) unit := modify (fun s => with_out (t_out s ++ l) s).

Definition check (r : Z) : M (tool T) unit := if r >=? 0 then mret tt else throw (Exit 1).

(** ** Registers *)

Definition poll_read : Z -> M T (Z + Z * Z) := fun data =>
  '(rc, d) ← backend_command 0 0 (Some data);
  let data := default data d in
  if rc <? 0 then mret (inr (rc, data))
  else if rc =? 0 then mret (inr (0, data))
  else mret (inl data).

Definition dmi_read (addr data : Z) : M T (Z * Z) :=
  '(rc, d) ← backend_command 1 addr (Some data);
  let data := default data d in
  if rc <? 0 then mret (rc, data) else loop polls poll_read data.

Definition poll_write : unit -> M T (unit + Z) := fun _ =>
  '(rc, _) ← backend_command 0 0 None;
  if rc <? 0 then mret (inr rc)
  else if rc =? 0 then mret (inr 0)
  else mret (inl tt).

Definition dmi_write (addr data : Z) : M T Z :=
  '(rc, _) ← backend_command 2 addr (Some data);
  if rc <? 0 then mret rc else loop polls poll_write tt.

(** A read or a write of a register that must succeed. *)
Definition read_reg (addr data : Z) : M (tool T) Z :=
  '(rc, v) ← on_dev (dmi_read addr data); _ ← check rc; mret v.
Definition write_reg (addr data : Z) : M (tool T) unit :=
  rc ← on_dev (dmi_write addr data); check rc.

(** ** The core *)

Definition bit_of (v m : Z) : bool := negb (Z.land v m =? 0).

Definition status_text (stat : Z) : list Z :=
  if bit_of stat DBG_CORE_STAT_STOPPED then
    codes "stopped" ++
    (if negb (bit_of stat DBG_CORE_STAT_STOPPING) then codes " (restarting?)"
     else if bit_of stat DBG_CORE_STAT_TERM then codes " (terminated)" else [])
  else if bit_of stat DBG_CORE_STAT_STOPPING then
    codes "stopping" ++ (if bit_of stat DBG_CORE_STAT_TERM then codes " (terminated)" else [])
  else if bit_of stat DBG_CORE_STAT_TERM then codes "odd state (TERM but no STOP)"
  else codes "running".

Definition core_status : M (tool T) unit :=
  core ← gets t_core;
  stat ← read_reg (DBG_CORE_STAT core) junk;
  nia ← read_reg (DBG_CORE_NIA core) junk;
  msr ← read_reg (DBG_CORE_MSR core) junk;
  debug ← gets t_debug;
  _ ← (if debug : bool then print (codes "Core status = 0x" ++ hex stat ++ [10]) else mret tt);
  _ ← print (codes "Core" ++ dec core ++ codes ": " ++ status_text stat ++ [10]);
  _ ← print (codes " NIA: " ++ hex16 nia ++ [10]);
  print (codes " MSR: " ++ hex16 msr ++ [10]).

Definition core_stop : M (tool T) unit :=
  core ← gets t_core; write_reg (DBG_CORE_CTRL core) DBG_CORE_CTRL_STOP.
Definition core_start : M (tool T) unit :=
  core ← gets t_core; write_reg (DBG_CORE_CTRL core) DBG_CORE_CTRL_START.
Definition core_reset : M (tool T) unit :=
  core ← gets t_core; write_reg (DBG_CORE_CTRL core) DBG_CORE_CTRL_RESET.
Definition icache_reset : M (tool T) unit :=
  core ← gets t_core; write_reg (DBG_CORE_CTRL core) DBG_CORE_CTRL_ICRESET.

Definition core_step : M (tool T) unit :=
  core ← gets t_core;
  stat ← read_reg (DBG_CORE_STAT core) junk;
  if negb (bit_of stat DBG_CORE_STAT_STOPPED) then print (codes "Core not stopped !" ++ [10])
  else write_reg (DBG_CORE_CTRL core) DBG_CORE_CTRL_STEP.

Definition fast_spr_names : list (list Z) :=
  [codes "lr"; codes "ctr"; codes "srr0"; codes "srr1"; codes "hsrr0"; codes "hsrr1";
   codes "sprg0"; codes "sprg1"; codes "sprg2"; codes "sprg3";
   codes "hsprg0"; codes "hsprg1"; codes "xer"; codes "tar";
   codes "fscr"; codes "lpcr"; codes "heir"; codes "cfar"].

Definition ldst_spr_names : list (list Z) := [codes "pidr"; codes "ptcr"; codes "dsisr"; codes "dar"].

Definition reg_name (reg : Z) : list Z :=
  if reg <=? 31 then 114 :: dec (s64 reg)
  else if u64 (reg - 32) <? length fast_spr_names then default [] (fast_spr_names !! Z.to_nat (reg - 32))
  else if reg <? 60 then codes "gspr" ++ dec (s64 reg)
  else if reg <? 64 then default [] (ldst_spr_names !! Z.to_nat (reg - 60))
  else codes "FPR" ++ dec (s64 (reg - 64)).

(** The registers [gpr_read] goes through. *)
Definition gpr_count (reg count : Z) : Z := if u64 (reg + count) >? 96 then u64 (96 - reg) else count.

Definition gpr_step : Z * Z -> M (tool T) (Z * Z + unit) := fun '(reg, count) =>
  if count =? 0 then mret (inr tt) else
  core ← gets t_core;
  _ ← write_reg (DBG_CORE_GSPR_INDEX core) reg;
  data ← read_reg (DBG_CORE_GSPR_DATA core) 3735928559;
  _ ← print (reg_name reg);
  _ ← print (codes ":" ++ 9 :: hex16 data ++ [10]);
  mret (inl (u64 (reg + 1), u64 (count - 1))).

Definition gpr_read (reg count : Z) : M (tool T) unit :=
  let reg := Z.land reg 127 in
  let count := gpr_count reg count in
  loop (S (Z.to_nat count)) gpr_step (reg, count).

(** ** Memory *)

Definition shown (c : Z) : Z := if (32 <=? c) && (c <? 127) then c else 46.

Definition mem_read_step (count : Z) : Z * Z -> M (tool T) (Z * Z + unit) := fun '(i, addr) =>
  if i <? count then
    '(rc, data) ← on_dev (dmi_read DBG_WB_DATA junk);
    if rc <? 0 then mret (inr tt) else
    _ ← print (hex16 addr ++ codes ": " ++ hex16 data ++ codes "  ");
    _ ← print (map shown (le_bytes 8 data));
    _ ← print [10];
    if i =? 2 ^ 31 - 1 then throw UB else mret (inl (i + 1, u64 (addr + 8)))
  else mret (inr tt).

Definition mem_read (addr count : Z) : M (tool T) unit :=
  rc ← on_dev (dmi_write DBG_WB_CTRL 2047);
  if rc <? 0 then mret tt else
  rc ← on_dev (dmi_write DBG_WB_ADDR addr);
  if rc <? 0 then mret tt else
  loop (S (Z.to_nat count)) (mem_read_step count) (0, addr).

Definition mem_write (addr data : Z) : M (tool T) unit :=
  _ ← write_reg DBG_WB_CTRL 2047;
  _ ← write_reg DBG_WB_ADDR addr;
  write_reg DBG_WB_DATA data.

(** The progress report of [load] and [save], after the new [count]. *)
Definition progress (count : Z) : M (tool T) unit :=
  if count mod 1024 =? 0 then print (hex count ++ codes "..." ++ [13]) else mret tt.

(** [count += 8] of a signed integer. *)
Definition add8 (count : Z) : M (tool T) Z := if count + 8 <? 2 ^ 31 then mret (count + 8) else throw UB.

(** [rest] is what has not been read of the file. *)
Definition load_step : list Z * Z -> M (tool T) (list Z * Z + Z) := fun '(rest, count) =>
  match rest with
  | [] => mret (inr count)
  | _ =>
      _ ← write_reg DBG_WB_DATA (le_value (take 8 rest));
      count ← add8 count;
      _ ← progress count;
      mret (inl (drop 8 rest, count))
  end.

Definition load (filename : list Z) (addr : Z) : M (tool T) unit :=
  f ← gets t_fs;
  match files f !! filename with
  | None => throw (Exit 1)
  | Some l =>
      _ ← write_reg DBG_WB_CTRL 2047;
      _ ← write_reg DBG_WB_ADDR addr;
      count ← loop (S (length l)) load_step (l, 0);
      print (hex count ++ codes " done." ++ [10])
  end.

(** [write] of [l] at offset [off] of a file: the number of bytes written. *)
Definition file_write (filename : list Z) (off : Z) (l : list Z) : M (tool T) Z := fun s =>
  let f := t_fs s in
  let l := take (Z.to_nat (room f)) l in
  let old := default [] (files f !! filename) in
  let new := take (Z.to_nat off) old ++ l ++ drop (Z.to_nat off + length l) old in
  if room f <=? 0 then Ok (-1) s
  else Ok (Z.of_nat (length l)) (with_fs (Fs (<[filename := new]> (files f)) (locked f) (room f - length l)) s).

(** Opening for writing, with or without truncation. *)
Definition file_open (filename : list Z) (trunc : bool) : M (tool T) bool := fun s =>
  let f := t_fs s in
  if bool_decide (filename ∈ locked f) then Ok false s else
  let l := if trunc then [] else default [] (files f !! filename) in
  Ok true (with_fs (Fs (<[filename := l]> (files f)) (locked f) (room f)) s).

(** [off] is the file's offset. *)
Definition save_step (filename : list Z) (size : Z) : Z * Z -> M (tool T) (Z * Z + Z) :=
  fun '(off, count) =>
    data ← read_reg DBG_WB_DATA junk;
    rc ← file_write filename off (le_bytes 8 data);
    if rc <=? 0 then mret (inr count) else
    count ← add8 count;
    _ ← progress count;
    if count >=? size then mret (inr count) else mret (inl (off + rc, count)).

Definition save (filename : list Z) (addr size : Z) : M (tool T) unit :=
  ok ← file_open filename false;
  if negb (ok : bool) then throw (Exit 1) else
  _ ← write_reg DBG_WB_CTRL 2047;
  _ ← write_reg DBG_WB_ADDR addr;
  count ← loop (S (Z.to_nat size)) (save_step filename size) (0, 0);
  print (hex count ++ codes " done." ++ [10]).

(** ** The log *)

Definition LOG_STOP : Z := 2147483648.

Definition log_start : M (tool T) unit :=
  core ← gets t_core; write_reg (DBG_LOG_ADDR core) 0.

(** The first power of two above half the write pointer. *)
Definition log_size_step (waddr : Z) : Z -> M (tool T) (Z + Z) := fun lsize =>
  if lsize =? 0 then mret (inr lsize)
  else if Z.shiftr waddr 1 <? lsize then mret (inr lsize)
  else mret (inl (u64 (Z.shiftl lsize 1))).

Definition log_size (waddr : Z) : M (tool T) Z := loop 66 (log_size_step waddr) 1.

Definition log_stop : M (tool T) unit :=
  core ← gets t_core;
  _ ← write_reg (DBG_LOG_ADDR core) LOG_STOP;
  laddr ← read_reg (DBG_LOG_ADDR core) junk;
  let waddr := Z.shiftr laddr 32 in
  lsize ← log_size waddr;
  let waddr := Z.land waddr (Z.lnot lsize) in
  _ ← print (codes "Log size = " ++ dec lsize ++ codes " entries, ");
  print (codes "write ptr = " ++ hex waddr ++ [10]).

(** The buffered stream of [log_dump]: what is written goes to a buffer of the
    file's block size, which is written out at [off] when the next item does not
    fit, so that an error shows up late; closing writes the rest and its result
    is not looked at; an exit writes the rest too. *)
Definition BUFSIZ : Z := 4096.

Definition flush (filename : list Z) (off : Z) (buf : list Z) : M (tool T) bool :=
  if (length buf =? 0)%nat then mret true else
  rc ← file_write filename off buf; mret (rc =? length buf).

Definition fwrite (filename : list Z) (off : Z) (buf item : list Z) : M (tool T) (option (list Z)) :=
  if BUFSIZ <? Z.of_nat (length buf + length item) then
    ok ← flush filename off buf;
    mret (if ok : bool then Some item else None)
  else mret (Some (buf ++ item)).

Definition fclose (filename : list Z) (off : Z) (buf : list Z) : M (tool T) unit :=
  _ ← flush filename off buf; mret tt.

Definition at_exit {A} (h : M (tool T) unit) (c : M (tool T) A) : M (tool T) A := fun s =>
  match c s with
  | Err (Exit n) s' => (_ ← h; throw (Exit n)) s'
  | r => r
  end.

(** The state is the number of words read and those of their bytes that are
    still in the buffer. *)
Definition log_dump_step (filename : list Z) (core n : Z) : Z * list Z -> M (tool T) (Z * list Z + list Z) :=
  fun '(i, buf) =>
  let off := 8 * i - length buf in
  if i <? n then
    ldata ← at_exit (fclose filename off buf) (read_reg (DBG_LOG_DATA core) junk);
    buf' ← fwrite filename off buf (le_bytes 8 ldata);
    match buf' with
    | None => throw (Exit 1)
    | Some buf =>
        _ ← (if i mod 128 =? 0 then print (dec (u64 (i * 8)) ++ codes "..." ++ [13]) else mret tt);
        mret (inl (i + 1, buf))
    end
  else mret (inr buf).

Definition log_dump (filename : list Z) : M (tool T) unit :=
  ok ← file_open filename true;
  if negb (ok : bool) then throw (Exit 1) else
  core ← gets t_core;
  orig_laddr ← read_reg (DBG_LOG_ADDR core) junk;
  _ ← (if negb (bit_of orig_laddr LOG_STOP) then write_reg (DBG_LOG_ADDR core) LOG_STOP else mret tt);
  let waddr := Z.shiftr orig_laddr 32 in
  lsize ← log_size waddr;
  let waddr := Z.land waddr (Z.lnot lsize) in
  _ ← print (codes "Log size = " ++ dec lsize ++ codes " entries" ++ [10]);
  let laddr := Z.lor LOG_STOP (u64 (Z.shiftl waddr 2)) in
  _ ← write_reg (DBG_LOG_ADDR core) laddr;
  let n := u64 (lsize * 4) in
  buf ← loop (S (Z.to_nat n)) (log_dump_step filename core n) (0, []);
  _ ← fclose filename (8 * n - length buf) buf;
  _ ← print (dec (u64 (lsize * 32)) ++ codes " done" ++ [10]);
  write_reg (DBG_LOG_ADDR core) orig_laddr.

Definition trig_show (name : list Z) (reg : Z) : M (tool T) unit :=
  trig ← read_reg reg junk;
  _ ← print (if bit_of trig 1 then name ++ codes " trigger at " ++ hex (Z.land trig (u64 (-4)))
             else name ++ codes " trigger disabled");
  print (codes ", " ++ (if bit_of trig 2 then [] else codes "not ") ++ codes "triggered" ++ [10]).

Definition trig_value (addr : Z) : Z := Z.lor (Z.land addr (u64 (Z.lnot 2))) 1.

Definition ltrig_show : M (tool T) unit :=
  core ← gets t_core; trig_show (codes "log stop") (DBG_LOG_TRIGGER core).
Definition ltrig_off : M (tool T) unit := core ← gets t_core; write_reg (DBG_LOG_TRIGGER core) 0.
Definition ltrig_set (addr : Z) : M (tool T) unit :=
  core ← gets t_core; write_reg (DBG_LOG_TRIGGER core) (trig_value addr).
Definition mtrig_show : M (tool T) unit :=
  core ← gets t_core; trig_show (codes "log memory stop") (DBG_LOG_MTRIGGER core).
Definition mtrig_off : M (tool T) unit := core ← gets t_core; write_reg (DBG_LOG_MTRIGGER core) 0.
Definition mtrig_set (addr : Z) : M (tool T) unit :=
  core ← gets t_core; write_reg (DBG_LOG_MTRIGGER core) (trig_value addr).
End tool.

(** ** The command line *)

(** The host's [strtoul] on a whole argument: blanks, a sign, a prefix in base
    sixteen, and as many digits as there are, saturated. *)
Definition host_space (c : Z) : bool := (c =? 32) || ((9 <=? c) && (c <=? 13)).
Definition host_digit (base c : Z) : option Z :=
  let d := if (48 <=? c) && (c <=? 57) then c - 48
           else if (97 <=? c) && (c <=? 122) then c - 87
           else if (65 <=? c) && (c <=? 90) then c - 55 else 36 in
  if d <? base then Some d else None.

Fixpoint host_skip (s : list Z) : list Z :=
  match s with c :: s' => if host_space c then host_skip s' else s | [] => [] end.

Fixpoint host_digits (base acc : Z) (s : list Z) : Z :=
  match s with
  | [] => acc
  | c :: s' => match host_digit base c with Some d => host_digits base (acc * base + d) s' | None => acc end
  end.

Definition host_sign (s : list Z) : bool * list Z :=
  match s with
  | 45 :: s' => (true, s')
  | 43 :: s' => (false, s')
  | _ => (false, s)
  end.

Definition host_prefix (base : Z) (s : list Z) : list Z :=
  match s with
  | 48 :: x :: c :: s' =>
      if (base =? 16) && ((x =? 120) || (x =? 88)) && bool_decide (is_Some (host_digit 16 c)) then c :: s' else s
  | _ => s
  end.

Definition host_strtoul (base : Z) (s : list Z) : Z :=
  let '(neg, s) := host_sign (host_skip s) in
  let v := host_digits base 0 (host_prefix base s) in
  if 2 ^ 64 <=? v then 2 ^ 64 - 1 else if neg then u64 (- v) else v.

(** [atoi]: the saturated long, cut to an [int]. *)
Definition host_atoi (s : list Z) : Z :=
  let '(neg, s) := host_sign (host_skip s) in
  let v := host_digits 10 0 s in
  s32 (Z.max (- 2 ^ 63) (Z.min (2 ^ 63 - 1) (if neg then - v else v))).

Inductive backend_kind := Sim | Bscane2 | Ecp5.

(** What the options have set: the back end, the target, the frequency. *)
Record settings := Settings { o_backend : option backend_kind; o_target : option (list Z); o_freq : Z }.

Definition named (s : list Z) (name : string) : bool := bool_decide (s = codes name).

Section main.
Context {T : Type} `{Backend T} (polls : nat) (junk : Z).

(** One option as [getopt_long] reports it. *)
Definition set_option (o : settings) (c : Z) (optarg : option (list Z)) : M (tool T) settings :=
  if c =? 99 then
    match optarg with
    | None => throw (Segv 0)
    | Some s =>
        let core := u32 (host_atoi s) in
        _ ← modify (fun t => Tool (t_dev t) core (t_debug t) (t_out t) (t_fs t));
        if core >=? 15 then throw (Exit 1) else mret o
    end
  else if c =? 104 then throw (Exit 1)
  else if c =? 98 then
    match optarg with
    | None => throw (Segv 0)
    | Some s =>
        if named s "sim" then mret (Settings (Some Sim) (o_target o) (o_freq o))
        else if named s "jtag" || named s "bscane2" then mret (Settings (Some Bscane2) (o_target o) (o_freq o))
        else if named s "ecp5" then mret (Settings (Some Ecp5) (o_target o) (o_freq o))
        else throw (Exit 1)
    end
  else if c =? 116 then mret (Settings (o_backend o) optarg (o_freq o))
  else if c =? 115 then
    match optarg with
    | None => throw (Segv 0)
    | Some s =>
        let freq := host_atoi s in
        if freq =? 0 then throw (Exit 1) else mret (Settings (o_backend o) (o_target o) freq)
    end
  else if c =? 100 then
    _ ← modify (fun t => Tool (t_dev t) (t_core t) true (t_out t) (t_fs t)); mret o
  else mret o.

Fixpoint set_options (o : settings) (opts : list (Z * option (list Z))) : M (tool T) settings :=
  match opts with
  | [] => mret o
  | (c, a) :: opts => o ← set_option o c a; set_options o opts
  end.

Definition usage {A} : M (tool T) A := throw (Exit 1).

Definition first_is (f : Z -> Z) (s : list Z) : bool := negb (f (default 0 (head s)) =? 0).

Definition strtoul16 := host_strtoul 16.

(** The commands that are not followed by arguments. *)
Definition plain_command (cmd : list Z) : option (M (tool T) unit) :=
  if named cmd "creset" then Some (core_reset polls)
  else if named cmd "icreset" then Some (icache_reset polls)
  else if named cmd "stop" then Some (core_stop polls)
  else if named cmd "start" then Some (core_start polls)
  else if named cmd "step" then Some (core_step polls junk)
  else if named cmd "quit" then Some (_ ← on_dev (dmi_write polls 255 0); mret tt)
  else if named cmd "status" then Some (mret tt)
  else if named cmd "lstart" then Some (log_start polls)
  else if named cmd "lstop" then Some (log_stop polls junk)
  else None.

(** The loop over the arguments. *)
Fixpoint commands (args : list (list Z)) : M (tool T) unit :=
  match args with
  | [] => mret tt
  | cmd :: args =>
      if named cmd "dmiread" then
        match args with
        | a :: args =>
            let addr := u8 (strtoul16 a) in
            '(_, data) ← on_dev (dmi_read polls addr junk);
            _ ← print (zeros 2 (hex addr) ++ codes ": " ++ hex16 data ++ [10]);
            commands args
        | _ => usage
        end
      else if named cmd "dmiwrite" then
        match args with
        | a :: d :: args =>
            _ ← on_dev (dmi_write polls (u8 (strtoul16 a)) (strtoul16 d));
            commands args
        | _ => usage
        end
      else if named cmd "mr" then
        match args with
        | a :: args =>
            match args with
            | n :: args' =>
                if first_is isxdigit n then
                  _ ← mem_read polls junk (strtoul16 a) (strtoul16 n); commands args'
                else _ ← mem_read polls junk (strtoul16 a) 1; commands args
            | [] => _ ← mem_read polls junk (strtoul16 a) 1; commands args
            end
        | _ => usage
        end
      else if named cmd "mw" then
        match args with
        | a :: d :: args => _ ← mem_write polls (strtoul16 a) (strtoul16 d); commands args
        | _ => usage
        end
      else if named cmd "load" then
        match args with
        | f :: args =>
            match args with
            | a :: args' =>
                if first_is isxdigit a then _ ← load polls f (strtoul16 a); commands args'
                else _ ← load polls f 0; commands args
            | [] => _ ← load polls f 0; commands args
            end
        | _ => usage
        end
      else if named cmd "save" then
        match args with
        | f :: a :: n :: args => _ ← save polls junk f (strtoul16 a) (strtoul16 n); commands args
        | _ => usage
        end
      else if named cmd "gpr" then
        match args with
        | r :: args =>
            match args with
            | n :: args' =>
                if first_is isdigit n then
                  _ ← gpr_read polls (host_strtoul 10 r) (host_strtoul 10 n); commands args'
                else _ ← gpr_read polls (host_strtoul 10 r) 1; commands args
            | [] => _ ← gpr_read polls (host_strtoul 10 r) 1; commands args
            end
        | _ => usage
        end
      else if named cmd "ldump" then
        match args with
        | f :: args => _ ← log_dump polls junk f; commands args
        | _ => usage
        end
      else if named cmd "ltrig" then
        match args with
        | [] => ltrig_show polls junk
        | a :: args => _ ← (if named a "off" then ltrig_off polls else ltrig_set polls (strtoul16 a)); commands args
        end
      else if named cmd "mtrig" then
        match args with
        | [] => mtrig_show polls junk
        | a :: args => _ ← (if named a "off" then mtrig_off polls else mtrig_set polls (strtoul16 a)); commands args
        end
      else
        match plain_command cmd with
        | Some c => _ ← c; commands args
        | None => usage
        end
  end.

(** [init] initialises the chosen back end; [opts] and [args] are what
    [getopt_long] makes of the command line. *)
Definition main (init : backend_kind -> option (list Z) -> Z -> M (tool T) Z)
    (opts : list (Z * option (list Z))) (args : list (list Z)) : M (tool T) Z :=
  o ← set_options (Settings None None 0) opts;
  rc ← init (default Bscane2 (o_backend o)) (o_target o) (o_freq o);
  if rc <? 0 then throw (Exit 1) else
  _ ← commands args;
  _ ← core_status polls junk;
  mret 0.
End main.
