(* ===== verification/MwDebugSpec.v ===== *)
(** * What the debug tool does to the debug port

    The port is a set of registers: reading one gives a value and may change
    the device, writing one changes it.  A back end implements the port when
    every operation that is started is reported done within a number of polls.
    The tool's theorems are proved against that contract and, for memory,
    against what the port's bus registers do. *)

From S2P Require Import Prelude CMem Ctype Vsnprintf SimLink MwDebug.

(** ** Contracts *)

Class Device (D : Type) := {
  rd : Z -> D -> Z * D;
  wr : Z -> Z -> D -> D
}.

(** [dmi_busy n v d t]: an operation is pending that is done after [n] more
    polls, gives [v] and leaves the device [d]. *)
Class Dmi (T D : Type) `{Backend T} `{Device D} (polls : nat) := {
  dmi_idle : T -> Prop;
  dmi_dev : T -> D;
  dmi_busy : nat -> option Z -> D -> T -> Prop;
  dmi_start_read t a x : dmi_idle t -> in_u8 a -> exists r y t' n,
    backend_command 1 a (Some x) t = Ok (r, y) t' /\ 0 <= r /\ (n < polls)%nat /\
    dmi_busy n (Some (rd a (dmi_dev t)).1) (rd a (dmi_dev t)).2 t';
  dmi_start_write t a v : dmi_idle t -> in_u8 a -> in_u64 v -> exists r y t' n,
    backend_command 2 a (Some v) t = Ok (r, y) t' /\ 0 <= r /\ (n < polls)%nat /\
    dmi_busy n None (wr a v (dmi_dev t)) t';
  dmi_poll n v d t q : dmi_busy n v d t -> (is_Some q <-> is_Some v) -> exists r y t',
    backend_command 0 0 q t = Ok (r, y) t' /\
    match n with
    | O => r = 0 /\ y = v /\ dmi_idle t' /\ dmi_dev t' = d
    | S n' => 0 < r /\ dmi_busy n' v d t'
    end
}.

Section tool.
Context {T D : Type} `{Backend T} `{Device D} (polls : nat) `{!Dmi T D polls} (junk : Z).

Lemma poll_read_ok n : forall v d t x f,
  dmi_busy n (Some v) d t -> (n < f)%nat ->
  exists t', loop f poll_read x t = Ok (0, v) t' /\ dmi_idle t' /\ dmi_dev t' = d.
Proof.
  induction n as [|n IH]; intros v d t x f Hb Hf; (destruct f as [|f]; [lia|]);
    destruct (dmi_poll _ _ _ _ (Some x) Hb) as (r & y & t1 & Hc & Hr); try done.
  - destruct Hr as (-> & -> & Hi & Hd). exists t1. split; [|done]. apply loop_break.
    enter poll_read. by run_with (exact Hc).
  - destruct Hr as [Hr Hb1]. destruct (IH v d t1 (default x y) f Hb1 ltac:(lia)) as (t' & Hl & Hi).
    exists t'. split; [|done]. rewrite <- Hl. apply loop_continue. enter poll_read.
    run_with (exact Hc). if_false. by if_false.
Qed.

Lemma poll_write_ok n : forall d t f,
  dmi_busy n None d t -> (n < f)%nat ->
  exists t', loop f poll_write tt t = Ok 0 t' /\ dmi_idle t' /\ dmi_dev t' = d.
Proof.
  induction n as [|n IH]; intros d t f Hb Hf; (destruct f as [|f]; [lia|]);
    destruct (dmi_poll _ _ _ _ None Hb) as (r & y & t1 & Hc & Hr); try done.
  - destruct Hr as (-> & _ & Hi & Hd). exists t1. split; [|done]. apply loop_break.
    enter poll_write. by run_with (exact Hc).
  - destruct Hr as [Hr Hb1]. destruct (IH d t1 f Hb1 ltac:(lia)) as (t' & Hl & Hi).
    exists t'. split; [|done]. rewrite <- Hl. apply loop_continue. enter poll_write.
    run_with (exact Hc). if_false. by if_false.
Qed.

Lemma dmi_read_ok t a x : dmi_idle t -> in_u8 a ->
  exists t', dmi_read polls a x t = Ok (0, (rd a (dmi_dev t)).1) t' /\
  dmi_idle t' /\ dmi_dev t' = (rd a (dmi_dev t)).2.
Proof.
  intros Hi Ha. destruct (dmi_start_read t a x Hi Ha) as (r & y & t1 & n & Hc & Hr & Hn & Hb).
  destruct (poll_read_ok n _ _ t1 (default x y) polls Hb Hn) as (t' & Hl & Hi').
  exists t'. split; [|done]. unfold dmi_read. run_with (exact Hc). by if_false.
Qed.

Lemma dmi_write_ok t a v : dmi_idle t -> in_u8 a -> in_u64 v ->
  exists t', dmi_write polls a v t = Ok 0 t' /\ dmi_idle t' /\ dmi_dev t' = wr a v (dmi_dev t).
Proof.
  intros Hi Ha Hv. destruct (dmi_start_write t a v Hi Ha Hv) as (r & y & t1 & n & Hc & Hr & Hn & Hb).
  destruct (poll_write_ok n _ t1 polls Hb Hn) as (t' & Hl & Hi').
  exists t'. split; [|done]. unfold dmi_write. run_with (exact Hc). by if_false.
Qed.

(** ** The tool's state, as the operations change it *)

Definition dev (s : tool T) : D := dmi_dev (t_dev s).
Definition idle (s : tool T) : Prop := dmi_idle (t_dev s).

(** [s'] is [s] but for the device, which is [d]. *)
Definition moved (d : D) (s s' : tool T) : Prop :=
  idle s' /\ dev s' = d /\ t_core s' = t_core s /\ t_debug s' = t_debug s /\
  t_out s' = t_out s /\ t_fs s' = t_fs s.

Lemma moved_trans d1 d2 s s1 s2 : moved d1 s s1 -> moved d2 s1 s2 -> moved d2 s s2.
Proof. intros (? & ? & ? & ? & ? & ?) (? & ? & ? & ? & ? & ?). unfold moved. split_and!; congruence. Qed.

(** [s'] is [s] but for the device, which is [d], the files, which are [f], and
    the text [o] that has been printed. *)
Definition became (d : D) (o : list Z) (f : fs) (s s' : tool T) : Prop :=
  idle s' /\ dev s' = d /\ t_core s' = t_core s /\ t_debug s' = t_debug s /\
  t_out s' = t_out s ++ o /\ t_fs s' = f.

Lemma moved_became d s s' : moved d s s' -> became d [] (t_fs s) s s'.
Proof. intros (? & ? & ? & ? & ? & ?). unfold became. rewrite app_nil_r. by split_and!. Qed.

Lemma became_moved d1 d2 o f s s1 s2 : became d1 o f s s1 -> moved d2 s1 s2 -> became d2 o f s s2.
Proof. intros (? & ? & ? & ? & ? & ?) (? & ? & ? & ? & ? & ?). unfold became. split_and!; congruence. Qed.

Lemma became_print d o f l s s1 : became d o f s s1 -> became d (o ++ l) f s (with_out (t_out s1 ++ l) s1).
Proof.
  intros (? & ? & ? & ? & E & ?). unfold became. split_and!; try done. simpl. by rewrite E, app_assoc.
Qed.

Lemma core_reg_u8 r c : in_u8 (core_reg r c).
Proof. apply u8_range. Qed.

Lemma wp_read_reg s a x (Q : Z -> tool T -> Prop) :
  idle s -> in_u8 a ->
  (forall s', moved (rd a (dev s)).2 s s' -> Q (rd a (dev s)).1 s') ->
  wp (read_reg polls a x) Q s.
Proof.
  intros Hi Ha HQ. destruct (dmi_read_ok (t_dev s) a x Hi Ha) as (t' & Hr & Hi' & Hd).
  unfold read_reg. apply wp_bind. unfold on_dev, wp at 1. rewrite Hr. apply HQ. done.
Qed.

Lemma wp_write_reg s a v (Q : unit -> tool T -> Prop) :
  idle s -> in_u8 a -> in_u64 v ->
  (forall s', moved (wr a v (dev s)) s s' -> Q tt s') ->
  wp (write_reg polls a v) Q s.
Proof.
  intros Hi Ha Hv HQ. destruct (dmi_write_ok (t_dev s) a v Hi Ha Hv) as (t' & Hr & Hi' & Hd).
  unfold write_reg. apply wp_bind. unfold on_dev, wp at 1. rewrite Hr. apply HQ. done.
Qed.

Lemma wp_print s l (Q : unit -> tool T -> Prop) : Q tt (with_out (t_out s ++ l) s) -> wp (print l) Q s.
Proof. done. Qed.
End tool.
Arguments dev {T D _ _ polls _}. Arguments idle {T D _ _ polls _}. Arguments moved {T D _ _ polls _}.
Arguments became {T D _ _ polls _}.

(** ** Memory *)

(** The port's bus registers.  [wb_full]: whole words are transferred and the
    address moves on by eight after each; memory has [wb_slots] words. *)
Class Wishbone (D : Type) `{Device D} := {
  wb_slots : Z;
  wb_addr : D -> Z;
  wb_full : D -> Prop;
  wb_word : D -> Z -> Z;
  wb_slots_pos : 0 < wb_slots;
  wb_word_u64 d k : in_u64 (wb_word d k);
  wb_ctrl_write d : let d' := wr DBG_WB_CTRL 2047 d in
    wb_full d' /\ forall k, wb_word d' k = wb_word d k;
  wb_addr_write d a : in_u64 a -> let d' := wr DBG_WB_ADDR a d in
    wb_addr d' = a /\ (wb_full d -> wb_full d') /\ forall k, wb_word d' k = wb_word d k;
  wb_data_write d v : wb_full d -> in_u64 v -> let d' := wr DBG_WB_DATA v d in
    wb_full d' /\ wb_addr d' = u64 (wb_addr d + 8) /\
    forall k, wb_word d' k = if k =? (wb_addr d / 8) mod wb_slots then v else wb_word d k;
  wb_data_read d : wb_full d -> let '(v, d') := rd DBG_WB_DATA d in
    v = wb_word d ((wb_addr d / 8) mod wb_slots) /\
    wb_full d' /\ wb_addr d' = u64 (wb_addr d + 8) /\ forall k, wb_word d' k = wb_word d k
}.

Section memory.
Context {T D : Type} `{Backend T} `{Device D} (polls : nat) `{!Dmi T D polls} `{!Wishbone D} (junk : Z).

(** The word of memory at an address. *)
Definition slot (a : Z) : Z := (a / 8) mod wb_slots.

(** The port is set up for word [i] from the address [a]. *)
Definition at_word (d : D) (a i : Z) : Prop := wb_full d /\ wb_addr d = u64 (a + 8 * i).

(** [n] words [w] from the address [a] of [d0] are in the memory of [d], which
    is otherwise that of [d0]. *)
Definition holds (d0 d : D) (a n : Z) (w : Z -> Z) : Prop :=
  (forall j, 0 <= j < n -> wb_word d (slot (a + 8 * j)) = w j) /\
  (forall k, (forall j, 0 <= j < n -> slot (a + 8 * j) <> k) -> wb_word d k = wb_word d0 k).

Lemma slot_inj a i j : 0 <= i < wb_slots -> 0 <= j < wb_slots -> slot (a + 8 * i) = slot (a + 8 * j) -> i = j.
Proof.
  unfold slot. rewrite !(Z.mul_comm 8), !Z.div_add by lia. intros Hi Hj E.
  pose proof wb_slots_pos as Hp.
  assert (H1 : (a / 8 + i - (a / 8 + j)) mod wb_slots = 0) by (rewrite Zminus_mod, E, Z.sub_diag, Z.mod_0_l; lia).
  replace (a / 8 + i - (a / 8 + j)) with (i - j) in H1 by lia.
  destruct (decide (i = j)) as [|Hne]; [done|]. destruct (decide (j < i)).
  - rewrite Z.mod_small in H1 by lia. lia.
  - rewrite <- (Z_mod_plus_full _ 1), Z.mod_small in H1 by lia. lia.
Qed.

Lemma holds_step d0 d d' a n w v :
  holds d0 d a n w -> 0 <= n < wb_slots -> w n = v ->
  (forall k, wb_word d' k = if k =? slot (a + 8 * n) then v else wb_word d k) ->
  holds d0 d' a (n + 1) w.
Proof.
  intros [Hin Hout] Hn Hv Hd'. split.
  - intros j Hj. rewrite Hd'. destruct (Z.eqb_spec (slot (a + 8 * j)) (slot (a + 8 * n))) as [E|E].
    + apply slot_inj in E; [|lia|lia]. by subst.
    + apply Hin. assert (j <> n) by (by intros ->). lia.
  - intros k Hk. rewrite Hd'. destruct (Z.eqb_spec k (slot (a + 8 * n))) as [->|_].
    + by destruct (Hk n ltac:(lia)).
    + apply Hout. intros j Hj. apply Hk. lia.
Qed.

Lemma at_word_next a i x : u64 (u64 (a + 8 * i) + 8) = u64 (a + 8 * (i + 1)) /\
  (0 <= a -> 0 <= i -> a + 8 * i < 2 ^ 64 -> (u64 (a + 8 * i) / 8) mod x = ((a + 8 * i) / 8) mod x).
Proof.
  split.
  - unfold u64. rewrite Zplus_mod_idemp_l. f_equal. lia.
  - intros. by rewrite u64_small by lia.
Qed.

(** The two writes that set the port up. *)
Lemma wp_setup {A} s a (c : M (tool T) A) Q :
  idle s -> in_u64 a ->
  (forall s' d, moved d s s' -> at_word d a 0 -> (forall k, wb_word d k = wb_word (dev s) k) -> wp c Q s') ->
  wp (_ ← write_reg polls DBG_WB_CTRL 2047; _ ← write_reg polls DBG_WB_ADDR a; c) Q s.
Proof.
  intros Hi Ha HQ. apply wp_bind, (wp_write_reg (D := D) polls); [done|unfold in_u8, DBG_WB_CTRL; lia|unfold in_u64; lia|].
  intros s1 Hm1. pose proof Hm1 as (Hi1 & Hd1 & _). apply wp_bind, (wp_write_reg (D := D) polls); [done|unfold in_u8, DBG_WB_ADDR; lia|done|].
  intros s2 Hm2. destruct (wb_ctrl_write (dev s)) as [Hf Hw].
  destruct (wb_addr_write (dev s1) a Ha) as (Ha' & Hf' & Hw'). rewrite Hd1 in *.
  apply (HQ s2 (wr DBG_WB_ADDR a (wr DBG_WB_CTRL 2047 (dev s)))).
  - by eapply moved_trans.
  - split; [by apply Hf'|]. rewrite Ha', Z.add_0_r. symmetry. by apply u64_small.
  - intros k. by rewrite Hw', Hw.
Qed.

Lemma wp_store s a i v (Q : unit -> tool T -> Prop) :
  idle s -> at_word (dev s) a i -> in_u64 v -> 0 <= a -> 0 <= i -> a + 8 * i < 2 ^ 64 ->
  (forall s' d, moved d s s' -> at_word d a (i + 1) ->
     (forall k, wb_word d k = if k =? slot (a + 8 * i) then v else wb_word (dev s) k) -> Q tt s') ->
  wp (write_reg polls DBG_WB_DATA v) Q s.
Proof.
  intros Hi [Hf Ha] Hv Ha0 Hi0 Hlt HQ. apply (wp_write_reg (D := D) polls); [done|unfold in_u8, DBG_WB_DATA; lia|done|].
  intros s' Hm. destruct (wb_data_write (dev s) v Hf Hv) as (Hf' & Ha' & Hw').
  destruct (at_word_next a i wb_slots) as [En Es]. apply (HQ s' _ Hm).
  - split; [done|]. rewrite Ha', Ha. exact En.
  - intros k. rewrite Hw', Ha, Es by done. done.
Qed.

Lemma wp_fetch s a i x (Q : Z -> tool T -> Prop) :
  idle s -> at_word (dev s) a i -> 0 <= a -> 0 <= i -> a + 8 * i < 2 ^ 64 ->
  (forall s' d, moved d s s' -> at_word d a (i + 1) ->
     (forall k, wb_word d k = wb_word (dev s) k) -> Q (wb_word (dev s) (slot (a + 8 * i))) s') ->
  wp (read_reg polls DBG_WB_DATA x) Q s.
Proof.
  intros Hi [Hf Ha] Ha0 Hi0 Hlt HQ. apply (wp_read_reg (D := D) polls); [done|unfold in_u8, DBG_WB_DATA; lia|].
  intros s' Hm. pose proof (wb_data_read (dev s) Hf) as Hr.
  destruct (rd DBG_WB_DATA (dev s)) as [v d'] eqn:E. destruct Hr as (-> & Hf' & Ha' & Hw').
  destruct (at_word_next a i wb_slots) as [En Es]. cbn [fst snd] in *. rewrite Ha, Es by done.
  apply (HQ s' _ Hm); [|done]. split; [done|]. by rewrite Ha', Ha.
Qed.

Lemma mem_write_ok s a v :
  idle s -> in_u64 a -> in_u64 v ->
  wp (mem_write polls a v) (fun _ s' => exists d, moved d s s' /\ holds (dev s) d a 1 (fun _ => v)) s.
Proof.
  intros Hi Ha Hv. pose proof wb_slots_pos. unfold in_u64 in Ha.
  unfold mem_write. apply wp_setup; [done..|]. intros s1 d1 Hm1 Hat Hw1. pose proof Hm1 as (Hi1 & Hd1 & _).
  eapply (wp_store _ a 0); [done|by rewrite Hd1|done|lia|lia|lia|].
  intros s2 d2 Hm2 _ Hw2. exists d2. split; [by eapply moved_trans|].
  apply (holds_step (dev s) d1 d2 a 0 (fun _ => v) v); [|lia|done|by rewrite <- Hd1].
  split; [lia|]. intros k _. apply Hw1.
Qed.

(** The reports [load] and [save] print while they go through [n] words. *)
Definition progress_text (i : Z) : list Z :=
  if (8 * i) mod 1024 =? 0 then hex (8 * i) ++ codes "..." ++ [13] else [].
Definition progress_texts (n : nat) : list Z := concat (map (fun i : nat => progress_text (i + 1)) (seq 0 n)).
Definition done_text (n : nat) : list Z := progress_texts n ++ hex (8 * n) ++ codes " done." ++ [10].

Lemma progress_texts_S n : progress_texts (S n) = progress_texts n ++ progress_text (n + 1).
Proof. unfold progress_texts. rewrite seq_S, map_app, concat_app. simpl. by rewrite app_nil_r. Qed.

Lemma wp_progress (i : nat) d o f s s1 (Q : unit -> tool T -> Prop) :
  became d (o ++ progress_texts i) f s s1 ->
  (forall s2, became d (o ++ progress_texts (S i)) f s s2 -> Q tt s2) ->
  wp (progress (8 * (i + 1))) Q s1.
Proof.
  intros Hb HQ. unfold progress. rewrite progress_texts_S, app_assoc in HQ. unfold progress_text in HQ.
  destruct ((8 * (i + 1)) mod 1024 =? 0).
  - apply wp_print, HQ. by apply became_print.
  - apply HQ. by rewrite app_nil_r.
Qed.

Lemma wp_add8 count s (Q : Z -> tool T -> Prop) : count + 8 < 2 ^ 31 -> Q (count + 8) s -> wp (add8 count) Q s.
Proof. intros Hc HQ. unfold add8. by if_true. Qed.

(** Word [j] of a file, short at its end. *)
Definition file_word (l : list Z) (j : Z) : Z := le_value (take 8 (drop (Z.to_nat (8 * j)) l)).

Lemma file_word_u64 l j : Forall in_u8 l -> in_u64 (file_word l j).
Proof.
  intros Hu. unfold file_word, in_u64. pose proof (length_take (drop (Z.to_nat (8 * j)) l) 8) as Hl.
  destruct (le_value_range (take 8 (drop (Z.to_nat (8 * j)) l))) as [H1 H2]; [by apply Forall_take, Forall_drop|].
  split; [done|]. eapply Z.lt_le_trans; [exact H2|]. change (2 ^ 64) with (256 ^ 8).
  apply Z.pow_le_mono_r; lia.
Qed.

Section load.
Context (s : tool T) (l : list Z) (a : Z) (n : nat).
Hypothesis words : 8 * n - 8 < length l <= 8 * n.
Hypothesis small : 8 * n < 2 ^ 31.
Hypothesis fits : n <= wb_slots.
Hypothesis below : 0 <= a < 2 ^ 64 /\ a + 8 * n <= 2 ^ 64.
Hypothesis bytes : Forall in_u8 l.

Definition load_inv : list Z * Z -> tool T -> Prop := fun '(rest, count) s' =>
  exists (i : nat) d, (i <= n)%nat /\ rest = drop (8 * i) l /\ count = 8 * i /\
  became d (progress_texts i) (t_fs s) s s' /\ at_word d a i /\ holds (dev s) d a i (file_word l).

Lemma load_step_ok x s1 : load_inv x s1 -> wp (load_step polls x) (fun r s' =>
  match r with
  | inl x' => load_inv x' s' /\ (length x'.1 < length x.1)%nat
  | inr count => count = 8 * n /\ exists d, became d (progress_texts n) (t_fs s) s s' /\
      holds (dev s) d a n (file_word l)
  end) s1.
Proof.
  destruct x as [rest count]. intros (i & d & Hi & -> & -> & Hb & Hat & Hh).
  pose proof (length_drop l (8 * i)) as Hlen. pose proof Hb as (Hi1 & Hd1 & _). unfold load_step.
  destruct (drop (8 * i) l) as [|c rest] eqn:E.
  - simpl in Hlen. assert (i = n) as -> by lia. split; [done|]. eauto.
  - cbn [length] in Hlen. rewrite <- E. assert (Hin : (i < n)%nat) by lia.
    assert (Hw : le_value (take 8 (drop (8 * i) l)) = file_word l i)
      by (unfold file_word; do 3 f_equal; lia).
    rewrite Hw. apply wp_bind. eapply (wp_store _ a i); [done|by rewrite Hd1|by apply file_word_u64|lia..|].
    intros s2 d2 Hm2 Hat2 Hw2. rewrite Hd1 in Hw2. apply wp_bind, wp_add8; [lia|]. apply wp_bind.
    replace (8 * Z.of_nat i + 8) with (8 * (Z.of_nat i + 1)) by lia.
    eapply (wp_progress i d2 [] (t_fs s) s); [by eapply became_moved|]. intros s3 Hb3. apply wp_ret. split.
    + exists (S i), d2. rewrite drop_drop. split_and!; [lia|f_equal; lia|lia|done| |].
      * by replace (Z.of_nat (S i)) with (i + 1) by lia.
      * replace (Z.of_nat (S i)) with (i + 1) by lia. eapply holds_step; [exact Hh|lia|reflexivity|exact Hw2].
    + cbn [fst]. rewrite E, <- E, length_drop, E. cbn [length]. lia.
Qed.

Lemma load_ok filename :
  idle s -> files (t_fs s) !! filename = Some l ->
  wp (load polls filename a) (fun _ s' => exists d,
    became d (done_text n) (t_fs s) s s' /\ holds (dev s) d a n (file_word l)) s.
Proof.
  intros Hi Hf. unfold load. apply wp_bind, wp_gets. rewrite Hf.
  apply wp_setup; [done|unfold in_u64; lia|]. intros s1 d1 Hm1 Hat1 Hw1. apply wp_bind.
  eapply wp_mono.
  - eapply (wp_loop load_inv (fun x => length x.1)); [|simpl; lia|apply load_step_ok].
    exists 0%nat, d1. split_and!; [lia|done|done|by apply moved_became|done|].
    split; [lia|]. intros k _. apply Hw1.
  - intros count s2 (-> & d & Hb & Hh). apply wp_print. exists d. split; [|done]. by apply became_print.
Qed.
End load.

(** ** Saving *)

(** The bytes of [n] words of memory from the address [a]. *)
Definition mem_bytes (d : D) (a : Z) (n : nat) : list Z :=
  concat (map (fun i : nat => le_bytes 8 (wb_word d (slot (a + 8 * i)))) (seq 0 n)).

Lemma mem_bytes_S d a n :
  mem_bytes d a (S n) = mem_bytes d a n ++ le_bytes 8 (wb_word d (slot (a + 8 * n))).
Proof. unfold mem_bytes. rewrite seq_S, map_app, concat_app. cbn [map concat]. by rewrite app_nil_r. Qed.

Lemma mem_bytes_length d a n : length (mem_bytes d a n) = (8 * n)%nat.
Proof. induction n as [|n IH]; [done|]. rewrite mem_bytes_S, length_app, IH, le_bytes_length. lia. Qed.

(** The files when [filename] has [l] written at its start and [used] bytes of
    room are gone. *)
Definition file_over (f : fs) (filename l : list Z) : fs :=
  Fs (<[filename := l ++ drop (length l) (default [] (files f !! filename))]> (files f))
     (locked f) (room f - length l).

Lemma file_write_ok f filename l k (s1 : tool T) :
  t_fs s1 = file_over f filename l -> 0 < length k <= room f - length l ->
  file_write filename (length l) k s1 =
    Ok (Z.of_nat (length k)) (with_fs (file_over f filename (l ++ k)) s1).
Proof.
  intros E Hk. unfold file_write. rewrite E. cbn [room files locked file_over].
  rewrite take_ge by lia. if_false. f_equal. f_equal. unfold file_over.
  rewrite lookup_insert_eq, insert_insert_eq, length_app. cbn [default]. f_equal; [|lia].
  f_equal. unfold id. rewrite Nat2Z.id, take_app_length, drop_app, drop_ge by lia. cbn [app].
  rewrite drop_drop, <- app_assoc. do 3 f_equal. lia.
Qed.

Section save.
Context (s : tool T) (a size : Z) (n : nat) (filename : list Z).
Hypothesis words : size <= 8 * n /\ (0 < n)%nat /\ (8 * n < size + 8 \/ n = 1%nat).
Hypothesis small : 8 * n < 2 ^ 31.
Hypothesis below : 0 <= a < 2 ^ 64 /\ a + 8 * n <= 2 ^ 64.
Hypothesis enough_room : 8 * n <= room (t_fs s).

Definition save_inv (x : Z * Z) (s' : tool T) : Prop :=
  exists (i : nat) d, (i < n)%nat /\ x = (8 * i, 8 * i) /\
  became d (progress_texts i) (file_over (t_fs s) filename (mem_bytes (dev s) a i)) s s' /\
  at_word d a i /\ forall k, wb_word d k = wb_word (dev s) k.

Lemma save_step_ok x s1 : save_inv x s1 -> wp (save_step polls junk filename size x) (fun r s' =>
  match r with
  | inl x' => save_inv x' s' /\ (Z.to_nat (n - 1 - x'.2 / 8) < Z.to_nat (n - 1 - x.2 / 8))%nat
  | inr count => count = 8 * n /\ exists d,
      became d (progress_texts n) (file_over (t_fs s) filename (mem_bytes (dev s) a n)) s s' /\
      forall k, wb_word d k = wb_word (dev s) k
  end) s1.
Proof.
  intros (i & d & Hi & -> & Hb & Hat & Hw). pose proof Hb as (Hi1 & Hd1 & Hb'). unfold save_step.
  apply wp_bind. eapply (wp_fetch _ a i); [done|by rewrite Hd1|lia..|].
  intros s2 d2 Hm2 Hat2 Hw2. rewrite Hd1 in Hw2 |- *. rewrite Hw.
  pose proof (became_moved polls _ _ _ _ _ _ _ Hb Hm2) as Hb2.
  set (k := le_bytes 8 (wb_word (dev s) (slot (a + 8 * i)))).
  assert (Hk : length k = 8%nat) by apply le_bytes_length.
  pose proof (mem_bytes_length (dev s) a i) as Hml.
  assert (Hfw : file_write filename (8 * i) k s2 =
    Ok 8 (with_fs (file_over (t_fs s) filename (mem_bytes (dev s) a (S i))) s2)).
  { replace (8 * Z.of_nat i) with (Z.of_nat (length (mem_bytes (dev s) a i))) by lia.
    rewrite (file_write_ok (t_fs s)), Hk, mem_bytes_S; [done|apply Hb2|lia]. }
  apply wp_bind. unfold wp at 1. rewrite Hfw. if_false.
  apply wp_bind, wp_add8; [lia|]. apply wp_bind.
  replace (8 * Z.of_nat i + 8) with (8 * (Z.of_nat i + 1)) by lia.
  eapply (wp_progress i d2 [] (file_over (t_fs s) filename (mem_bytes (dev s) a (S i))) s).
  { destruct Hb2 as (? & ? & ? & ? & ? & ?). by split_and!. }
  intros s3 Hb3. destruct (Z.geb_spec (8 * (i + 1)) size) as [Hs|Hs].
  - assert (n = S i) as -> by lia. apply wp_ret. split; [lia|]. exists d2. split; [done|].
    intros j. by rewrite Hw2, Hw.
  - apply wp_ret. split; [|cbn [snd]; rewrite !(Z.mul_comm 8), !Z.div_mul by lia; lia]. exists (S i), d2. split_and!; [lia|f_equal; lia|done| |].
    + by replace (Z.of_nat (S i)) with (i + 1) by lia.
    + intros j. by rewrite Hw2, Hw.
Qed.

Lemma file_over_nil f : file_over f filename [] =
  Fs (<[filename := default [] (files f !! filename)]> (files f)) (locked f) (room f).
Proof. unfold file_over. simpl. f_equal. lia. Qed.

Lemma save_ok :
  idle s -> filename ∉ locked (t_fs s) ->
  wp (save polls junk filename a size) (fun _ s' => exists d,
    became d (done_text n) (file_over (t_fs s) filename (mem_bytes (dev s) a n)) s s' /\
    forall k, wb_word d k = wb_word (dev s) k) s.
Proof.
  intros Hi Hl. unfold save. apply wp_bind. unfold wp at 1, file_open.
  rewrite bool_decide_false by done. cbn [negb]. rewrite <- file_over_nil.
  set (s0 := with_fs (file_over (t_fs s) filename []) s).
  apply (wp_setup s0); [done|unfold in_u64; lia|]. intros s1 d1 Hm1 Hat1 Hw1. apply wp_bind.
  eapply wp_mono.
  - eapply (wp_loop save_inv (fun x => Z.to_nat (n - 1 - x.2 / 8))); [| |apply save_step_ok].
    + exists 0%nat, d1. split_and!; [lia|done| |done|exact Hw1].
      destruct Hm1 as (? & ? & ? & ? & ? & ?). unfold became. cbn [progress_texts].
      rewrite app_nil_r. by split_and!.
    + cbn [snd]. change (0 / 8) with 0. lia.
  - intros count s2 (-> & d & Hb & Hw). apply wp_print. exists d. split; [|done]. by apply became_print.
Qed.
End save.
End memory.

(** The bytes of a file of whole words, put together again. *)
Lemma file_words_bytes l (n i : nat) : length l = (8 * n)%nat -> Forall in_u8 l -> (i <= n)%nat ->
  concat (map (fun j : nat => le_bytes 8 (file_word l j)) (seq 0 i)) = take (8 * i) l.
Proof.
  intros Hl Hu. induction i as [|i IH]; intros Hi; [done|].
  rewrite seq_S, map_app, concat_app, IH by lia. cbn [map concat]. rewrite app_nil_r.
  replace (8 * S i)%nat with (8 * i + 8)%nat by lia. rewrite <- take_take_drop. f_equal.
  assert (Hlen : length (take 8 (drop (8 * i) l)) = 8%nat) by (rewrite length_take, length_drop; lia).
  rewrite <- (le_bytes_value (take 8 (drop (8 * i) l))) by (by apply Forall_take, Forall_drop).
  rewrite Hlen. unfold file_word. do 4 f_equal. simpl Nat.add. lia.
Qed.

(** A last word that is not whole is filled up with zeros. *)
Lemma le_value_zeros l k : le_value (l ++ replicate k 0) = le_value l.
Proof. induction l as [|x l IH]; cbn [app le_value]; [|by rewrite IH]. induction k as [|k IH]; simpl; lia. Qed.

Lemma file_word_padded l k j : file_word (l ++ replicate k 0) j = file_word l j.
Proof. unfold file_word. by rewrite drop_app, take_app, drop_replicate, take_replicate, le_value_zeros. Qed.

Definition padded (l : list Z) (n : nat) : list Z := l ++ replicate (8 * n - length l) 0.

Lemma padded_bytes l (n : nat) : (length l <= 8 * n)%nat -> Forall in_u8 l ->
  concat (map (fun j : nat => le_bytes 8 (file_word l j)) (seq 0 n)) = padded l n.
Proof.
  intros Hl Hu. assert (Hp : length (padded l n) = (8 * n)%nat)
    by (unfold padded; rewrite length_app, length_replicate; lia).
  rewrite <- (take_ge (padded l n) (8 * n)) by lia. rewrite <- (file_words_bytes (padded l n) n n); [|done| |done].
  - f_equal. apply map_ext. intros j. unfold padded. by rewrite file_word_padded.
  - unfold padded. apply Forall_app. split; [done|]. apply Forall_replicate. unfold in_u8. lia.
Qed.

(** C22: every debug access through a back end that keeps the port's contract
    completes: a read returns the register's value and a write performs exactly
    one register write, whatever the number of polls it takes. *)
Theorem dmi_access {T D} `{Backend T} `{Device D} polls `{!Dmi T D polls} (t : T) a x v :
  dmi_idle t -> in_u8 a -> in_u64 v ->
  (exists t', dmi_read polls a x t = Ok (0, (rd a (dmi_dev t)).1) t' /\
     dmi_idle t' /\ dmi_dev t' = (rd a (dmi_dev t)).2) /\
  (exists t', dmi_write polls a v t = Ok 0 t' /\ dmi_idle t' /\ dmi_dev t' = wr a v (dmi_dev t)).
Proof. intros. split; [by apply dmi_read_ok|by apply dmi_write_ok]. Qed.

(** "mw": the word of memory at the address becomes the value, and the
    rest of memory, the files and the output are as before. *)
Theorem mem_write_correct {T D} `{Backend T} `{Device D} polls `{!Dmi T D polls} `{!Wishbone D}
    (s : tool T) a v :
  idle s -> in_u64 a -> in_u64 v -> exists s' d, mem_write polls a v s = Ok tt s' /\ moved d s s' /\
  wb_word d (slot a) = v /\ forall k, k <> slot a -> wb_word d k = wb_word (dev s) k.
Proof.
  intros Hi Ha Hv. destruct (proj1 (wp_spec _ _ _) (mem_write_ok polls s a v Hi Ha Hv))
    as ([] & s' & Hr & d & Hm & Hin & Hout).
  exists s', d. split; [done|]. split; [done|]. split.
  - rewrite <- (Hin 0) by lia. do 2 f_equal. lia.
  - intros k Hk. apply Hout. intros j Hj. replace (a + 8 * j) with a by lia. congruence.
Qed.

(** "load": the file's words, the last padded with zeros, are stored one
    after the other from the address, and memory is otherwise unchanged; the
    progress and the rounded size are reported. *)
Theorem load_correct {T D} `{Backend T} `{Device D} polls `{!Dmi T D polls} `{!Wishbone D}
    (s : tool T) filename l a (n : nat) :
  idle s -> files (t_fs s) !! filename = Some l -> Forall in_u8 l ->
  8 * n - 8 < length l <= 8 * n -> 8 * n < 2 ^ 31 -> n <= wb_slots ->
  0 <= a < 2 ^ 64 -> a + 8 * n <= 2 ^ 64 ->
  exists s' d, load polls filename a s = Ok tt s' /\ became d (done_text n) (t_fs s) s s' /\
  holds (dev s) d a n (file_word l).
Proof.
  intros Hi Hf Hu Hn H31 Hslots Ha Hend.
  destruct (proj1 (wp_spec _ _ _) (load_ok polls s l a n Hn H31 Hslots (conj Ha Hend) Hu filename Hi Hf))
    as ([] & s' & Hr & d & Hm & Hh).
  by exists s', d.
Qed.

(** C23: "load" then "save" to another file gives a file back.  A file of at
    least one byte, of [n] words with a last one that may be partial, is loaded
    and the same words are saved, the size asked for being any that takes [n]
    words: the target starts with the bytes of the file, filled up with zeros to
    whole words, of which a longer tail of the target stays; no other file
    changes.  The file is smaller than 2 GB and fits in the memory, the addresses
    do not wrap around, and the target can be opened and there is room for it. *)
Theorem load_save_roundtrip {T D} `{Backend T} `{Device D} polls `{!Dmi T D polls} `{!Wishbone D} junk
    (s : tool T) src dst l a size (n : nat) :
  idle s -> files (t_fs s) !! src = Some l -> Forall in_u8 l ->
  8 * n - 8 < length l <= 8 * n -> 8 * n - 8 < size <= 8 * n -> (0 < n)%nat ->
  8 * n < 2 ^ 31 -> n <= wb_slots -> 0 <= a < 2 ^ 64 -> a + 8 * n <= 2 ^ 64 ->
  dst ∉ locked (t_fs s) -> 8 * n <= room (t_fs s) ->
  exists s', (_ ← load polls src a; save polls junk dst a size) s = Ok tt s' /\
  files (t_fs s') = <[dst := padded l n ++ drop (8 * n) (default [] (files (t_fs s) !! dst))]> (files (t_fs s)).
Proof.
  intros Hi Hf Hu Hl Hsize Hn H31 Hslots Ha Hend Hlock Hroom.
  destruct (proj1 (wp_spec _ _ _) (load_ok polls s l a n ltac:(lia) H31 Hslots (conj Ha Hend) Hu src Hi Hf))
    as ([] & s1 & Hr1 & d1 & (Hi1 & Hd1 & _ & _ & _ & Hfs1) & Hin & _).
  destruct (proj1 (wp_spec _ _ _) (save_ok polls junk s1 a size n dst ltac:(lia) H31 (conj Ha Hend)
    ltac:(by rewrite Hfs1) Hi1 ltac:(by rewrite Hfs1))) as ([] & s2 & Hr2 & d2 & Hb2 & _).
  exists s2. split; [by run_with (exact Hr1)|]. destruct Hb2 as (_ & _ & _ & _ & _ & ->).
  assert (E : mem_bytes (dev s1) a n = padded l n).
  { rewrite Hd1. unfold mem_bytes. rewrite <- padded_bytes by (done || lia).
    f_equal. apply map_ext_in. intros j Hj%in_seq. by rewrite Hin by lia. }
  unfold file_over. cbn [files]. rewrite mem_bytes_length. by rewrite E, Hfs1.
Qed.
