(* ===== verification/MwDebugShow.v ===== *)
(** * What the debug tool shows: memory, registers and the log

    The commands that print, proved against the port's contract: "mr", "gpr",
    "status", "lstop", "ldump" and the triggers. *)

From S2P Require Import Prelude CMem Ctype Vsnprintf SimLink MwDebug MwDebugSpec.

(** ** "mr" *)

Section shown.
Context {T D : Type} `{Backend T} `{Device D} (polls : nat) `{!Dmi T D polls} (junk : Z).

Lemma wp_dmi_read s a x (Q : Z * Z -> tool T -> Prop) :
  idle s -> in_u8 a ->
  (forall s', moved (rd a (dev s)).2 s s' -> Q (0, (rd a (dev s)).1) s') ->
  wp (on_dev (dmi_read polls a x)) Q s.
Proof.
  intros Hi Ha HQ. destruct (dmi_read_ok polls (t_dev s) a x Hi Ha) as (t' & Hr & Hi' & Hd).
  unfold wp, on_dev. rewrite Hr. by apply HQ.
Qed.

Lemma wp_dmi_write s a v (Q : Z -> tool T -> Prop) :
  idle s -> in_u8 a -> in_u64 v ->
  (forall s', moved (wr a v (dev s)) s s' -> Q 0 s') ->
  wp (on_dev (dmi_write polls a v)) Q s.
Proof.
  intros Hi Ha Hv HQ. destruct (dmi_write_ok polls (t_dev s) a v Hi Ha Hv) as (t' & Hr & Hi' & Hd).
  unfold wp, on_dev. rewrite Hr. by apply HQ.
Qed.

(** A line of memory: the address, the word, and its bytes as characters. *)
Definition mem_line (a v : Z) : list Z :=
  hex16 a ++ codes ": " ++ hex16 v ++ codes "  " ++ map shown (le_bytes 8 v) ++ [10].

Context `{!Wishbone D}.

Definition mem_lines (d : D) (a : Z) (n : nat) : list Z :=
  concat (map (fun i : nat => mem_line (u64 (a + 8 * i)) (wb_word d (slot (a + 8 * i)))) (seq 0 n)).

Lemma mem_lines_S d a n : mem_lines d a (S n) =
  mem_lines d a n ++ mem_line (u64 (a + 8 * n)) (wb_word d (slot (a + 8 * n))).
Proof. unfold mem_lines. rewrite seq_S, map_app, concat_app. cbn [map concat]. by rewrite app_nil_r. Qed.

Section mem_read.
Context (s : tool T) (a : Z) (n : nat).
Hypothesis small : n < 2 ^ 31.
Hypothesis below : 0 <= a < 2 ^ 64 /\ a + 8 * n <= 2 ^ 64.

Definition mem_read_inv (x : Z * Z) (s' : tool T) : Prop :=
  exists (i : nat) d, (i <= n)%nat /\ x = (Z.of_nat i, u64 (a + 8 * i)) /\
  became d (mem_lines (dev s) a i) (t_fs s) s s' /\ at_word d a i /\
  forall k, wb_word d k = wb_word (dev s) k.

Lemma mem_read_step_ok x s1 : mem_read_inv x s1 -> wp (mem_read_step polls junk n x) (fun r s' =>
  match r with
  | inl x' => mem_read_inv x' s' /\ (Z.to_nat (n - x'.1) < Z.to_nat (n - x.1))%nat
  | inr _ => exists d, became d (mem_lines (dev s) a n) (t_fs s) s s' /\
      forall k, wb_word d k = wb_word (dev s) k
  end) s1.
Proof.
  intros (i & d & Hi & -> & Hb & [Hf Ha] & Hw). pose proof Hb as (Hi1 & Hd1 & _). unfold mem_read_step.
  destruct (Z.ltb_spec i n) as [Hlt|Hge].
  2:{ assert (i = n) as -> by lia. apply wp_ret. by exists d. }
  apply wp_bind, wp_dmi_read; [done|unfold in_u8, DBG_WB_DATA; lia|]. rewrite Hd1.
  pose proof (wb_data_read d Hf) as Hr. destruct (rd DBG_WB_DATA d) as [v d'].
  destruct Hr as (-> & Hf' & Ha' & Hw'). cbn [fst snd]. intros s2 Hm2.
  destruct (at_word_next a i wb_slots) as [En Es]. rewrite Ha, Es, Hw by lia.
  pose proof (became_moved polls _ _ _ _ _ _ _ Hb Hm2) as Hb2.
  apply (became_print polls _ _ _ (mem_line (u64 (a + 8 * i)) (wb_word (dev s) (slot (a + 8 * i))))) in Hb2.
  rewrite <- mem_lines_S in Hb2. unfold mem_line in Hb2.
  if_false. apply wp_bind, wp_print, wp_bind, wp_print, wp_bind, wp_print.
  cbn [with_out t_out t_dev t_core t_debug t_fs]. if_false. apply wp_ret.
  split; [|cbn [fst]; lia]. exists (S i), d'. rewrite <- !app_assoc.
  replace (Z.of_nat (S i)) with (i + 1) by lia. split_and!; [lia| |exact Hb2|split; [done|congruence]|].
  - by rewrite En.
  - intros k. by rewrite Hw', Hw.
Qed.

Lemma mem_read_ok : idle s ->
  wp (mem_read polls junk a n) (fun _ s' => exists d,
    became d (mem_lines (dev s) a n) (t_fs s) s s' /\ forall k, wb_word d k = wb_word (dev s) k) s.
Proof.
  intros Hi. unfold mem_read. apply wp_bind, wp_dmi_write; [done|unfold in_u8, DBG_WB_CTRL; lia|unfold in_u64; lia|].
  intros s1 Hm1. pose proof Hm1 as (Hi1 & Hd1 & _). if_false.
  apply wp_bind, wp_dmi_write; [done|unfold in_u8, DBG_WB_ADDR; lia|unfold in_u64; lia|].
  intros s2 Hm2. if_false. destruct (wb_ctrl_write (dev s)) as [Hf Hw].
  destruct (wb_addr_write (dev s1) a ltac:(unfold in_u64; lia)) as (Ha' & Hf' & Hw').
  eapply (wp_loop mem_read_inv (fun x => Z.to_nat (n - x.1))); [|cbn [fst]; lia|apply mem_read_step_ok].
  exists 0%nat, (wr DBG_WB_ADDR a (dev s1)). rewrite Z.add_0_r, u64_small by lia. split_and!; [lia|done| | |].
  - apply moved_became. by eapply moved_trans.
  - rewrite Hd1 in *. split; [by apply Hf'|]. by rewrite Ha', Z.add_0_r, u64_small by lia.
  - intros k. by rewrite Hw', Hd1, Hw.
Qed.
End mem_read.
End shown.

(** "mr" prints one line for each word from the address on, with its
    address, its value and its bytes, and leaves memory and files alone. *)
Theorem mem_read_correct {T D} `{Backend T} `{Device D} polls `{!Dmi T D polls} `{!Wishbone D} junk
    (s : tool T) a (n : nat) :
  idle s -> n < 2 ^ 31 -> 0 <= a < 2 ^ 64 -> a + 8 * n <= 2 ^ 64 -> exists s' d,
  mem_read polls junk a n s = Ok tt s' /\ became d (mem_lines (dev s) a n) (t_fs s) s s' /\
  forall k, wb_word d k = wb_word (dev s) k.
Proof.
  intros Hi Hn Ha Hend.
  destruct (proj1 (wp_spec _ _ _) (mem_read_ok polls junk s a n Hn (conj Ha Hend) Hi))
    as ([] & s' & Hr & d & Hb). by exists s', d.
Qed.

(** ** "gpr" *)

(** The register file behind the index and data registers of core [c]. *)
Class Gspr (D : Type) `{Device D} (c : Z) := {
  gspr : D -> Z -> Z;
  gspr_index : D -> Z;
  gspr_select d r : 0 <= r < 128 -> let d' := wr (DBG_CORE_GSPR_INDEX c) r d in
    gspr_index d' = r /\ forall k, gspr d' k = gspr d k;
  gspr_read d : let '(v, d') := rd (DBG_CORE_GSPR_DATA c) d in
    v = gspr d (gspr_index d) /\ forall k, gspr d' k = gspr d k
}.

Section registers.
Context {T D : Type} `{Backend T} `{Device D} (polls : nat) `{!Dmi T D polls} (c : Z) `{!Gspr D c}.

Definition reg_line (d : D) (r : Z) : list Z := reg_name r ++ codes ":" ++ 9 :: hex16 (gspr d r) ++ [10].
Definition reg_lines (d : D) (r : Z) (n : nat) : list Z :=
  concat (map (fun i : nat => reg_line d (r + i)) (seq 0 n)).

Lemma reg_lines_S d r n : reg_lines d r (S n) = reg_lines d r n ++ reg_line d (r + n).
Proof. unfold reg_lines. rewrite seq_S, map_app, concat_app. cbn [map concat]. by rewrite app_nil_r. Qed.

Section run.
Context (s : tool T) (r : Z) (n : nat).
Hypothesis core : t_core s = c.
Hypothesis inside : 0 <= r /\ r + n <= 96.

Definition gpr_inv (x : Z * Z) (s' : tool T) : Prop :=
  exists (i : nat) d, (i <= n)%nat /\ x = (r + i, n - i) /\
  became d (reg_lines (dev s) r i) (t_fs s) s s' /\ forall k, gspr d k = gspr (dev s) k.

Lemma gpr_step_ok x s1 : gpr_inv x s1 -> wp (gpr_step polls x) (fun res s' =>
  match res with
  | inl x' => gpr_inv x' s' /\ (Z.to_nat x'.2 < Z.to_nat x.2)%nat
  | inr _ => exists d, became d (reg_lines (dev s) r n) (t_fs s) s s' /\ forall k, gspr d k = gspr (dev s) k
  end) s1.
Proof.
  intros (i & d & Hi & -> & Hb & Hg). pose proof Hb as (Hi1 & Hd1 & Hc1 & _). unfold gpr_step.
  destruct (Z.eqb_spec (n - i) 0) as [Hz|Hz].
  { assert (i = n) as -> by lia. apply wp_ret. by exists d. }
  apply wp_bind, wp_gets. rewrite Hc1, core.
  apply wp_bind, (wp_write_reg (D := D) polls); [done|apply core_reg_u8|unfold in_u64; lia|].
  intros s2 Hm2. pose proof Hm2 as (Hi2 & Hd2 & _).
  apply wp_bind, (wp_read_reg (D := D) polls); [done|apply core_reg_u8|]. rewrite Hd2, Hd1.
  destruct (gspr_select d (r + i) ltac:(lia)) as [Hx Hg2].
  pose proof (gspr_read (wr (DBG_CORE_GSPR_INDEX c) (r + i) d)) as Hr.
  destruct (rd (DBG_CORE_GSPR_DATA c) (wr (DBG_CORE_GSPR_INDEX c) (r + i) d)) as [v d3].
  destruct Hr as [-> Hg3]. cbn [fst snd]. intros s3 Hm3. rewrite Hx, Hg2, Hg.
  pose proof (became_moved polls _ _ _ _ _ _ _ (became_moved polls _ _ _ _ _ _ _ Hb Hm2) Hm3) as Hb3.
  apply (became_print polls _ _ _ (reg_line (dev s) (r + i))) in Hb3.
  rewrite <- reg_lines_S in Hb3. unfold reg_line in Hb3.
  apply wp_bind, wp_print, wp_bind, wp_print. cbn [with_out t_out t_dev t_core t_debug t_fs].
  apply wp_ret. rewrite !u64_small by lia. split; [|cbn [snd]; lia].
  exists (S i), d3. rewrite <- !app_assoc. split_and!; [lia|f_equal; lia|exact Hb3|].
  intros k. by rewrite Hg3, Hg2, Hg.
Qed.
End run.

(** More registers than there are, and the count is cut; but from register 97
    on it wraps around to a number near 2{^64}. *)
Lemma gpr_count_clamped reg count :
  0 <= reg <= 96 -> 0 <= count -> reg + count < 2 ^ 64 -> gpr_count reg count = Z.min count (96 - reg).
Proof.
  intros Hr Hc Hs. unfold gpr_count. rewrite u64_small by lia.
  destruct (Z.gtb_spec (reg + count) 96); [rewrite u64_small by lia|]; lia.
Qed.

Lemma gpr_read_ok s reg count :
  let r := Z.land reg 127 in
  idle s -> t_core s = c -> r <= 96 -> 0 <= count -> r + count < 2 ^ 64 ->
  wp (gpr_read polls reg count) (fun _ s' => exists d,
    became d (reg_lines (dev s) r (Z.to_nat (Z.min count (96 - r)))) (t_fs s) s s' /\
    forall k, gspr d k = gspr (dev s) k) s.
Proof.
  intros r Hi Hc Hr Hn Hs. assert (0 <= r) by (apply Z.land_nonneg; lia).
  unfold gpr_read. fold r. rewrite gpr_count_clamped by lia.
  set (n := Z.to_nat (Z.min count (96 - r))). replace (Z.min count (96 - r)) with (Z.of_nat n) by lia.
  eapply (wp_loop (gpr_inv s r n) (fun x => Z.to_nat x.2));
    [|cbn [snd]; lia|intros; apply gpr_step_ok; done || lia].
  exists 0%nat, (dev s). split_and!; [lia|f_equal; lia|by apply moved_became|done].
Qed.
End registers.

(** The names of the 96 registers. *)
Definition reg_names : list (list Z) :=
  map (fun i : nat => codes "r" ++ dec i) (seq 0 32) ++
  map codes ["lr"; "ctr"; "srr0"; "srr1"; "hsrr0"; "hsrr1"; "sprg0"; "sprg1"; "sprg2"; "sprg3";
             "hsprg0"; "hsprg1"; "xer"; "tar"; "fscr"; "lpcr"; "heir"; "cfar"]%string ++
  map (fun i : nat => codes "gspr" ++ dec i) (seq 50 10) ++
  map codes ["pidr"; "ptcr"; "dsisr"; "dar"]%string ++
  map (fun i : nat => codes "FPR" ++ dec i) (seq 0 32).

Lemma reg_name_ok (i : nat) : (i < 96)%nat -> reg_name i = default [] (reg_names !! i).
Proof.
  intros Hi. assert (Hall : forallb (fun i : nat => bool_decide (reg_name i = default [] (reg_names !! i))) (seq 0 96) = true)
    by (vm_compute; reflexivity).
  rewrite forallb_forall in Hall. eapply bool_decide_eq_true, Hall, in_seq. lia.
Qed.

(** C16: "gpr" with a first register of at most 96 and any count (their sum
    below 2{^64}) shows one line for each register from the first on, in order,
    as many as asked for or as there are up to the 96th: the register's name, as
    in the list of the 96 names, and its value as sixteen hexadecimal digits.
    The registers and the files are as before. *)
Theorem gpr_read_correct {T D} `{Backend T} `{Device D} polls `{!Dmi T D polls} c `{!Gspr D c}
    (s : tool T) reg count :
  let r := reg mod 128 in
  idle s -> t_core s = c -> r <= 96 -> 0 <= count -> r + count < 2 ^ 64 -> exists s' d,
  gpr_read polls reg count s = Ok tt s' /\
  became d (concat (map (fun i : nat =>
      default [] (reg_names !! (Z.to_nat r + i)%nat) ++ codes ":" ++ 9 :: hex16 (gspr (dev s) (r + i)) ++ [10])
    (seq 0 (Z.to_nat (Z.min count (96 - r)))))) (t_fs s) s s' /\
  forall k, gspr d k = gspr (dev s) k.
Proof.
  intros r Hi Hc Hr Hn Hs. assert (E : Z.land reg 127 = r) by (change 127 with (Z.ones 7); by apply Z.land_ones).
  assert (0 <= r) by (apply Z.mod_pos_bound; lia).
  destruct (proj1 (wp_spec _ _ _) (gpr_read_ok polls c s reg count Hi Hc ltac:(lia) Hn ltac:(lia)))
    as ([] & s' & Hrun & d & Hb & Hg).
  exists s', d. split_and!; [done| |done]. rewrite E in Hb. unfold reg_lines, reg_line in Hb.
  erewrite map_ext_in; [exact Hb|]. intros i Hi'%in_seq. cbv beta. rewrite <- reg_name_ok by lia.
  by replace (Z.of_nat (Z.to_nat r + i)) with (r + i) by lia.
Qed.

Lemma gpr_count_wraps : gpr_count 97 1 = 2 ^ 64 - 1.
Proof. reflexivity. Qed.

(** ** The log *)

Section log.
Context {T D : Type} `{Backend T} `{Device D} (polls : nat) `{!Dmi T D polls} (junk : Z).

Definition log_bits (waddr : Z) : Z := if Z.shiftr waddr 1 =? 0 then 0 else Z.log2 (Z.shiftr waddr 1) + 1.

Lemma log_size_loop (k : nat) : forall (j : nat) waddr f (s : tool T),
  0 <= waddr < 2 ^ 63 -> j + k = log_bits waddr -> (k < f)%nat ->
  loop f (log_size_step waddr) (2 ^ j) s = Ok (2 ^ log_bits waddr) s.
Proof.
  induction k as [|k IH]; intros j waddr f s Hw Hj Hf; (destruct f as [|f]; [lia|]);
    (assert (Hh : 0 <= Z.shiftr waddr 1 < 2 ^ 62)
       by (rewrite Z.shiftr_div_pow2 by lia; split; [apply Z.div_pos; lia|apply Z.div_lt_upper_bound; lia]));
    (assert (Hp : 0 < 2 ^ j) by (apply Z.pow_pos_nonneg; lia)); unfold log_bits in *.
  - apply loop_break. enter log_size_step. if_false.
    destruct (Z.eqb_spec (Z.shiftr waddr 1) 0) as [E|E].
    + rewrite E. if_true. replace (Z.of_nat j) with 0 by lia. done.
    + pose proof (Z.log2_spec (Z.shiftr waddr 1) ltac:(lia)) as [_ Hl].
      replace (Z.succ (Z.log2 (Z.shiftr waddr 1))) with (Z.of_nat j) in Hl by lia. if_true.
      unfold mret, M_ret. do 3 f_equal. lia.
  - destruct (Z.eqb_spec (Z.shiftr waddr 1) 0) as [E|E]; [lia|].
    pose proof (Z.log2_spec (Z.shiftr waddr 1) ltac:(lia)) as [Hl _].
    assert (Hlog : Z.log2 (Z.shiftr waddr 1) < 62) by (apply Z.log2_lt_pow2; lia).
    assert (Hle : 2 ^ j <= 2 ^ Z.log2 (Z.shiftr waddr 1)) by (apply Z.pow_le_mono_r; lia).
    specialize (IH (S j) waddr f s Hw). rewrite (proj2 (Z.eqb_neq _ _) E) in IH.
    cbv iota in IH. rewrite <- IH by lia.
    apply loop_continue. enter log_size_step. if_false. if_false.
    rewrite Z.shiftl_mul_pow2, u64_small by lia. unfold mret, M_ret. do 2 f_equal.
    rewrite Nat2Z.inj_succ, Z.pow_succ_r by lia. lia.
Qed.

Lemma log_bits_range waddr : 0 <= waddr < 2 ^ 32 -> 0 <= log_bits waddr <= 31.
Proof.
  intros Hw. unfold log_bits. rewrite Z.shiftr_div_pow2 by lia. change (2 ^ 1) with 2.
  assert (0 <= waddr / 2 < 2 ^ 31) by (split; [apply Z.div_pos; lia|apply Z.div_lt_upper_bound; lia]).
  destruct (Z.eqb_spec (waddr / 2) 0); [lia|].
  pose proof (Z.log2_nonneg (waddr / 2)).
  assert (Z.log2 (waddr / 2) < 31) by (apply Z.log2_lt_pow2; lia). lia.
Qed.

Lemma log_size_ok waddr (s : tool T) : 0 <= waddr < 2 ^ 32 -> log_size waddr s = Ok (2 ^ log_bits waddr) s.
Proof.
  intros Hw. pose proof (log_bits_range waddr Hw).
  apply (log_size_loop (Z.to_nat (log_bits waddr)) 0); lia.
Qed.

(** [n] reads of a register: the values and the device left. *)
Fixpoint read_many (n : nat) (a : Z) (d : D) : list Z * D :=
  match n with
  | O => ([], d)
  | S n' => let '(l, d) := read_many n' a d in let '(v, d) := rd a d in (l ++ [v], d)
  end.

Lemma read_many_length n a d : length (read_many n a d).1 = n.
Proof.
  induction n as [|n IH]; [done|]. simpl. destruct (read_many n a d) as [l d1].
  destruct (rd a d1). simpl in *. rewrite length_app. simpl. lia.
Qed.

Definition word_bytes (l : list Z) : list Z := concat (map (le_bytes 8) l).

Lemma word_bytes_snoc l v : word_bytes (l ++ [v]) = word_bytes l ++ le_bytes 8 v.
Proof. unfold word_bytes. rewrite map_app, concat_app. cbn [map concat]. by rewrite app_nil_r. Qed.

Lemma word_bytes_length l : length (word_bytes l) = (8 * length l)%nat.
Proof.
  induction l as [|v l IH]; [done|]. change (word_bytes (v :: l)) with (le_bytes 8 v ++ word_bytes l).
  rewrite length_app, le_bytes_length, IH. simpl. lia.
Qed.

Definition dump_progress (n : nat) : list Z :=
  concat (map (fun i : nat => if i mod 128 =? 0 then dec (u64 (i * 8)) ++ codes "..." ++ [13] else []) (seq 0 n)).

Lemma dump_progress_S n : dump_progress (S n) = dump_progress n ++
  (if n mod 128 =? 0 then dec (u64 (n * 8)) ++ codes "..." ++ [13] else []).
Proof. unfold dump_progress. rewrite seq_S, map_app, concat_app. cbn [map concat]. by rewrite app_nil_r. Qed.

Lemma wp_at_exit {A} h (c : M (tool T) A) Q s : wp c Q s -> wp (at_exit h c) Q s.
Proof. unfold wp, at_exit. by destruct (c s). Qed.

Lemma with_own_fs (s : tool T) : with_fs (t_fs s) s = s.
Proof. by destruct s. Qed.

(** The stream while there is room: what was written so far is what is in the
    file and what is in the buffer. *)
Lemma flush_ok f filename l buf (s1 : tool T) :
  t_fs s1 = file_over f filename l -> Z.of_nat (length l + length buf) <= room f ->
  flush filename (length l) buf s1 = Ok true (with_fs (file_over f filename (l ++ buf)) s1).
Proof.
  intros E Hr. unfold flush. destruct (Nat.eqb_spec (length buf) 0) as [->%nil_length_inv|Hne].
  - by rewrite app_nil_r, <- E, with_own_fs.
  - run_with (apply (file_write_ok f); [done|lia]). by rewrite Z.eqb_refl.
Qed.

Lemma fwrite_ok f filename l buf item (s1 : tool T) :
  t_fs s1 = file_over f filename l -> Z.of_nat (length l + length buf + length item) <= room f ->
  exists l' buf', l' ++ buf' = l ++ buf ++ item /\
  fwrite filename (length l) buf item s1 = Ok (Some buf') (with_fs (file_over f filename l') s1).
Proof.
  intros E Hr. unfold fwrite. destruct (BUFSIZ <? _).
  - exists (l ++ buf), item. split; [by rewrite app_assoc|]. by run_with (apply (flush_ok f); [done|lia]).
  - exists l, (buf ++ item). split; [done|]. by rewrite <- E, with_own_fs.
Qed.

Section dump.
Context (s : tool T) (d0 : D) (f : fs) (filename : list Z) (c : Z) (n : nat) (o : list Z).
Hypothesis enough_room : 8 * n <= room f.

Definition dump_inv (x : Z * list Z) (s' : tool T) : Prop :=
  exists (i : nat) l, (i <= n)%nat /\ x.1 = i /\ l ++ x.2 = word_bytes (read_many i (DBG_LOG_DATA c) d0).1 /\
  became (read_many i (DBG_LOG_DATA c) d0).2 (o ++ dump_progress i) (file_over f filename l) s s'.

Lemma dump_step_ok x s1 : dump_inv x s1 -> wp (log_dump_step polls junk filename c n x) (fun r s' =>
  match r with
  | inl x' => dump_inv x' s' /\ (Z.to_nat (n - x'.1) < Z.to_nat (n - x.1))%nat
  | inr buf => dump_inv (Z.of_nat n, buf) s'
  end) s1.
Proof.
  destruct x as [x buf]. intros (i & l0 & Hi & Ex & Hl0 & Hb). cbn [fst snd] in *. subst x.
  pose proof Hb as (Hi1 & Hd1 & _). unfold log_dump_step.
  destruct (Z.ltb_spec i n) as [Hlt|Hge].
  2:{ assert (i = n) as -> by lia. apply wp_ret. by exists n, l0. }
  apply wp_bind, wp_at_exit, (wp_read_reg (D := D) polls); [done|apply core_reg_u8|]. intros s2 Hm2. rewrite Hd1 in *.
  pose proof (became_moved polls _ _ _ _ _ _ _ Hb Hm2) as Hb2.
  pose proof (read_many_length i (DBG_LOG_DATA c) d0) as Hl.
  destruct (read_many i (DBG_LOG_DATA c) d0) as [l d1] eqn:E1. cbn [fst snd] in *.
  destruct (rd (DBG_LOG_DATA c) d1) as [v d2] eqn:E2. cbn [fst snd] in *.
  assert (ES : read_many (S i) (DBG_LOG_DATA c) d0 = (l ++ [v], d2)) by (simpl; by rewrite E1, E2).
  pose proof (word_bytes_length l) as Hwl. pose proof (le_bytes_length 8 v) as H8.
  pose proof (f_equal length Hl0) as Hlen. rewrite length_app in Hlen.
  destruct (fwrite_ok f filename l0 buf (le_bytes 8 v) s2) as (l1 & buf1 & Hl1 & Hfw);
    [apply Hb2|lia|].
  rewrite app_assoc, Hl0, <- word_bytes_snoc in Hl1.
  apply wp_bind. unfold wp at 1. replace (8 * Z.of_nat i - Z.of_nat (length buf)) with (Z.of_nat (length l0)) by lia.
  rewrite Hfw. apply wp_bind. set (s3 := with_fs _ s2).
  assert (Hb3 : became d2 (o ++ dump_progress i) (file_over f filename l1) s s3).
  { destruct Hb2 as (? & ? & ? & ? & ? & ?). by split_and!. }
  assert (Hend : forall s4, became d2 (o ++ dump_progress (S i)) (file_over f filename l1) s s4 ->
    dump_inv (i + 1, buf1) s4 /\ (Z.to_nat (n - (i + 1)) < Z.to_nat (n - i))%nat).
  { intros s4 Hb4. split; [|lia]. exists (S i), l1. rewrite ES. cbn [fst snd]. split_and!; [lia|lia|done|exact Hb4]. }
  rewrite dump_progress_S, app_assoc in Hend. destruct (i mod 128 =? 0).
  - apply wp_print, wp_ret, Hend. by apply became_print.
  - apply wp_ret, wp_ret, Hend. by rewrite app_nil_r.
Qed.

(** The entries, the closing report and the address register. *)
Lemma dump_tail_ok s3 last orig :
  became d0 o (file_over f filename []) s s3 -> in_u64 orig ->
  wp (buf ← loop (S n) (log_dump_step polls junk filename c n) (0, []);
      _ ← fclose filename (8 * Z.of_nat n - Z.of_nat (length buf)) buf;
      _ ← print last; write_reg polls (DBG_LOG_ADDR c) orig) (fun _ s' =>
    became (wr (DBG_LOG_ADDR c) orig (read_many n (DBG_LOG_DATA c) d0).2) (o ++ dump_progress n ++ last)
      (file_over f filename (word_bytes (read_many n (DBG_LOG_DATA c) d0).1)) s s') s3.
Proof.
  intros Hb Ho. apply wp_bind. eapply wp_mono.
  - eapply (wp_loop dump_inv (fun x => Z.to_nat (n - x.1))); [|cbn [fst]; lia|apply dump_step_ok].
    exists 0%nat, []. cbn [read_many dump_progress fst snd]. split_and!; [lia|done|done|]. by rewrite app_nil_r.
  - intros buf s4 (i & l & Hi & E%Nat2Z.inj & Hl & Hb4). cbn [fst snd] in *. subst i.
    pose proof (f_equal length Hl) as Hlen.
    rewrite length_app, word_bytes_length, read_many_length in Hlen.
    apply wp_bind. unfold fclose. apply wp_bind. unfold wp at 1.
    replace (8 * Z.of_nat n - Z.of_nat (length buf)) with (Z.of_nat (length l)) by lia.
    rewrite (flush_ok f), Hl by (apply Hb4 || lia). apply wp_ret. apply wp_bind, wp_print.
    assert (Hb5 : became (read_many n (DBG_LOG_DATA c) d0).2 (o ++ dump_progress n)
      (file_over f filename (word_bytes (read_many n (DBG_LOG_DATA c) d0).1)) s
      (with_fs (file_over f filename (word_bytes (read_many n (DBG_LOG_DATA c) d0).1)) s4))
      by (destruct Hb4 as (? & ? & ? & ? & ? & ?); by split_and!).
    apply (became_print polls _ _ _ last) in Hb5. rewrite <- app_assoc in Hb5.
    pose proof Hb5 as (Hi5 & Hd5 & _).
    apply (wp_write_reg (D := D) polls); [done|apply core_reg_u8|done|].
    intros s6 Hm6. rewrite Hd5 in Hm6. by eapply became_moved.
Qed.
End dump.

(** What [log_dump] does to the device: stop the log, go through its entries
    from the oldest, and put the address register back. *)
Definition dump_orig (c : Z) (d : D) : Z := (rd (DBG_LOG_ADDR c) d).1.
Definition dump_stopped (c : Z) (d : D) : D :=
  let '(orig, d) := rd (DBG_LOG_ADDR c) d in
  if bit_of orig LOG_STOP then d else wr (DBG_LOG_ADDR c) LOG_STOP d.
Definition dump_size (c : Z) (d : D) : Z := 2 ^ log_bits (Z.shiftr (dump_orig c d) 32).
Definition dump_start (c : Z) (d : D) : Z :=
  Z.lor LOG_STOP (u64 (Z.shiftl (Z.land (Z.shiftr (dump_orig c d) 32) (Z.lnot (dump_size c d))) 2)).
Definition dump_reads (c : Z) (d : D) : list Z * D :=
  read_many (Z.to_nat (4 * dump_size c d)) (DBG_LOG_DATA c)
    (wr (DBG_LOG_ADDR c) (dump_start c d) (dump_stopped c d)).
Definition dump_text (c : Z) (d : D) : list Z :=
  codes "Log size = " ++ dec (dump_size c d) ++ codes " entries" ++ [10] ++
  dump_progress (Z.to_nat (4 * dump_size c d)) ++ dec (32 * dump_size c d) ++ codes " done" ++ [10].

Lemma log_dump_ok s filename :
  idle s -> in_u64 (dump_orig (t_core s) (dev s)) -> filename ∉ locked (t_fs s) ->
  32 * dump_size (t_core s) (dev s) <= room (t_fs s) ->
  wp (log_dump polls junk filename) (fun _ s' =>
    became (wr (DBG_LOG_ADDR (t_core s)) (dump_orig (t_core s) (dev s)) (dump_reads (t_core s) (dev s)).2)
      (dump_text (t_core s) (dev s))
      (Fs (<[filename := word_bytes (dump_reads (t_core s) (dev s)).1]> (files (t_fs s)))
          (locked (t_fs s)) (room (t_fs s) - 32 * dump_size (t_core s) (dev s))) s s') s.
Proof.
  intros Hi Hu Hl Hroom. unfold log_dump. apply wp_bind. unfold wp at 1, file_open.
  rewrite bool_decide_false by done. cbn [negb].
  set (f0 := Fs (<[filename := []]> (files (t_fs s))) (locked (t_fs s)) (room (t_fs s))).
  set (c := t_core s) in *. set (d := dev s) in *.
  assert (Hw32 : 0 <= Z.shiftr (dump_orig c d) 32 < 2 ^ 32).
  { unfold in_u64 in Hu. rewrite Z.shiftr_div_pow2 by lia.
    split; [apply Z.div_pos; lia|apply Z.div_lt_upper_bound; lia]. }
  pose proof (log_bits_range _ Hw32) as Hbits.
  assert (Hsize : 0 < dump_size c d <= 2 ^ 31)
    by (unfold dump_size; split; [apply Z.pow_pos_nonneg; lia|apply Z.pow_le_mono_r; lia]).
  apply wp_bind, wp_gets. change (t_core (with_fs f0 s)) with c.
  assert (Hb0 : became d [] f0 s (with_fs f0 s)) by (unfold became; rewrite app_nil_r; by split_and!).
  apply wp_bind, (wp_read_reg (D := D) polls); [done|apply core_reg_u8|]. change (dev (with_fs f0 s)) with d.
  intros s1 Hm1. fold (dump_orig c d). pose proof (became_moved polls _ _ _ _ _ _ _ Hb0 Hm1) as Hb1.
  apply wp_bind. apply (wp_mono _ (fun _ s2 => became (dump_stopped c d) [] f0 s s2)).
  { unfold dump_stopped, dump_orig in *. pose proof Hb1 as (Hi1 & Hd1 & _).
    destruct (rd (DBG_LOG_ADDR c) d) as [orig d1]. cbn [fst snd] in *.
    destruct (bit_of orig LOG_STOP); cbn [negb]; [done|].
    apply (wp_write_reg (D := D) polls); [done|apply core_reg_u8|unfold in_u64, LOG_STOP; lia|].
    intros s2 Hm2. rewrite Hd1 in Hm2. by eapply became_moved. }
  intros _ s2 Hb2. apply wp_bind. unfold wp at 1. rewrite log_size_ok by done. fold (dump_size c d).
  apply wp_bind, wp_print. apply (became_print polls _ _ _ (codes "Log size = " ++ dec (dump_size c d) ++
    codes " entries" ++ [10])) in Hb2. cbn [app] in Hb2.
  apply wp_bind. fold (dump_start c d). pose proof Hb2 as (Hi2 & Hd2 & _).
  apply (wp_write_reg (D := D) polls);
    [done|apply core_reg_u8|apply lor_u64; [unfold in_u64, LOG_STOP; lia|apply u64_range]|].
  intros s3 Hm3. rewrite Hd2 in Hm3. pose proof (became_moved polls _ _ _ _ _ _ _ Hb2 Hm3) as Hb3.
  replace (u64 (dump_size c d * 4)) with (Z.of_nat (Z.to_nat (4 * dump_size c d)))
    by (rewrite u64_small; lia).
  rewrite Nat2Z.id. eapply wp_mono.
  - eapply (dump_tail_ok s (wr (DBG_LOG_ADDR c) (dump_start c d) (dump_stopped c d)) f0); [simpl; lia| |done]. unfold file_over. subst f0. cbn [files locked room length].
    rewrite lookup_insert_eq, insert_insert_eq, Z.sub_0_r. exact Hb3.
  - intros [] s4 Hb4. rewrite (u64_small (dump_size c d * 32)) in Hb4 by lia.
    pose proof (read_many_length (Z.to_nat (4 * dump_size c d)) (DBG_LOG_DATA c)
      (wr (DBG_LOG_ADDR c) (dump_start c d) (dump_stopped c d))) as Hlen.
    fold (dump_reads c d) in Hb4, Hlen. unfold file_over in Hb4. subst f0.
    cbn [files locked room] in Hb4. rewrite lookup_insert_eq, insert_insert_eq, word_bytes_length, Hlen in Hb4.
    unfold dump_text. rewrite (Z.mul_comm 32), <- !app_assoc in *.
    replace (room (t_fs s) - (8 * Z.to_nat (4 * dump_size c d))%nat)
      with (room (t_fs s) - dump_size c d * 32) in Hb4 by lia.
    cbn [default] in Hb4. unfold id in Hb4. rewrite drop_nil, app_nil_r in Hb4. exact Hb4.
Qed.
End log.

(** "ldump": the file gets the 4 * size words of the log, read from the
    oldest entry, whatever it held before; the size is the power of two the
    write pointer tells; the log is stopped while it is read and its address
    register is put back at the end. *)
Theorem log_dump_correct {T D} `{Backend T} `{Device D} polls `{!Dmi T D polls} junk (s : tool T) filename :
  let c := t_core s in
  idle s -> in_u64 (dump_orig c (dev s)) -> filename ∉ locked (t_fs s) ->
  32 * dump_size c (dev s) <= room (t_fs s) -> exists s',
  log_dump polls junk filename s = Ok tt s' /\
  dev s' = wr (DBG_LOG_ADDR c) (dump_orig c (dev s)) (dump_reads c (dev s)).2 /\
  t_out s' = t_out s ++ dump_text c (dev s) /\
  files (t_fs s') = <[filename := word_bytes (dump_reads c (dev s)).1]> (files (t_fs s)).
Proof.
  intros c Hi Hu Hl Hr.
  destruct (proj1 (wp_spec _ _ _) (log_dump_ok polls junk s filename Hi Hu Hl Hr))
    as ([] & s' & Hrun & _ & Hd & _ & _ & Ho & Hf).
  exists s'. split_and!; [done|done|done|by rewrite Hf].
Qed.

(** ** "status" and "step" *)

Section core.
Context {T D : Type} `{Backend T} `{Device D} (polls : nat) `{!Dmi T D polls} (junk : Z).

Definition status_lines (debug : bool) (c stat nia msr : Z) : list Z :=
  (if debug then codes "Core status = 0x" ++ hex stat ++ [10] else []) ++
  codes "Core" ++ dec c ++ codes ": " ++ status_text stat ++ [10] ++
  codes " NIA: " ++ hex16 nia ++ [10] ++ codes " MSR: " ++ hex16 msr ++ [10].

Lemma core_status_ok (s : tool T) :
  idle s ->
  let c := t_core s in
  let '(stat, d1) := rd (DBG_CORE_STAT c) (dev s) in
  let '(nia, d2) := rd (DBG_CORE_NIA c) d1 in
  let '(msr, d3) := rd (DBG_CORE_MSR c) d2 in
  wp (core_status polls junk) (fun _ s' =>
    became d3 (status_lines (t_debug s) c stat nia msr) (t_fs s) s s') s.
Proof.
  intros Hi c. destruct (rd (DBG_CORE_STAT c) (dev s)) as [stat d1] eqn:E1.
  destruct (rd (DBG_CORE_NIA c) d1) as [nia d2] eqn:E2. destruct (rd (DBG_CORE_MSR c) d2) as [msr d3] eqn:E3.
  unfold core_status. apply wp_bind, wp_gets. fold c.
  apply wp_bind, (wp_read_reg (D := D) polls); [done|apply core_reg_u8|]. rewrite E1. intros s1 Hm1.
  pose proof Hm1 as (Hi1 & Hd1 & _). cbn [fst snd] in *.
  apply wp_bind, (wp_read_reg (D := D) polls); [done|apply core_reg_u8|]. rewrite Hd1, E2. intros s2 Hm2.
  pose proof Hm2 as (Hi2 & Hd2 & _). cbn [fst snd] in *.
  apply wp_bind, (wp_read_reg (D := D) polls); [done|apply core_reg_u8|]. rewrite Hd2, E3. intros s3 Hm3.
  cbn [fst snd] in *. pose proof (moved_trans polls _ _ _ _ _ Hm1 (moved_trans polls _ _ _ _ _ Hm2 Hm3)) as Hm.
  pose proof (moved_became polls _ _ _ Hm) as Hb. apply wp_bind, wp_gets.
  assert (Hdbg : t_debug s3 = t_debug s) by apply Hm. rewrite Hdbg. apply wp_bind.
  apply (wp_mono _ (fun _ s4 => became d3 (if t_debug s then codes "Core status = 0x" ++ hex stat ++ [10] else [])
    (t_fs s) s s4)).
  { destruct (t_debug s); [|done]. apply wp_print. exact (became_print polls _ [] _ _ _ _ Hb). }
  intros _ s4 Hb4. apply wp_bind, wp_print, wp_bind, wp_print, wp_print.
  unfold status_lines. set (o := if t_debug s then _ else _) in *.
  replace (o ++ _) with (((o ++ codes "Core" ++ dec c ++ codes ": " ++ status_text stat ++ [10]) ++
    codes " NIA: " ++ hex16 nia ++ [10]) ++ codes " MSR: " ++ hex16 msr ++ [10])
    by (by rewrite <- !app_assoc).
  by do 3 apply (became_print polls).
Qed.

(** "step" steps a core that is stopped and complains about one that is not. *)
Lemma core_step_ok (s : tool T) :
  idle s ->
  let '(stat, d) := rd (DBG_CORE_STAT (t_core s)) (dev s) in
  wp (core_step polls junk) (fun _ s' =>
    if bit_of stat DBG_CORE_STAT_STOPPED
    then moved (wr (DBG_CORE_CTRL (t_core s)) DBG_CORE_CTRL_STEP d) s s'
    else became d (codes "Core not stopped !" ++ [10]) (t_fs s) s s') s.
Proof.
  intros Hi. destruct (rd (DBG_CORE_STAT (t_core s)) (dev s)) as [stat d] eqn:E.
  unfold core_step. apply wp_bind, wp_gets.
  apply wp_bind, (wp_read_reg (D := D) polls); [done|apply core_reg_u8|]. rewrite E. intros s1 Hm1.
  pose proof Hm1 as (Hi1 & Hd1 & _). cbn [fst snd] in *. destruct (bit_of stat DBG_CORE_STAT_STOPPED); cbn [negb].
  - apply (wp_write_reg (D := D) polls); [done|apply core_reg_u8|unfold in_u64, DBG_CORE_CTRL_STEP; lia|].
    intros s2 Hm2. rewrite Hd1 in Hm2. by eapply moved_trans.
  - apply wp_print. exact (became_print polls _ [] _ _ _ _ (moved_became polls _ _ _ Hm1)).
Qed.

(** Setting a trigger and showing it: the address is shown without its two
    low bits, the flags. *)
Lemma trig_value_bits a : in_u64 a ->
  bit_of (trig_value a) 1 = true /\ bit_of (trig_value a) 2 = false /\
  Z.land (trig_value a) (u64 (-4)) = 4 * (a / 4).
Proof.
  intros Ha. unfold in_u64 in Ha. unfold bit_of, trig_value. split_and!.
  - change 1 with (2 ^ 0) at 2. rewrite land_pow2, Z.lor_spec by lia. by rewrite orb_true_r.
  - change 2 with (2 ^ 1) at 2. rewrite land_pow2, Z.lor_spec, Z.land_spec by lia.
    change (Z.testbit (u64 (Z.lnot 2)) 1) with false. by rewrite andb_false_r.
  - apply Z.bits_inj'. intros k Hk. rewrite Z.land_spec, Z.lor_spec, Z.land_spec.
    change (u64 (Z.lnot 2)) with (Z.ones 64 - 2). change (u64 (-4)) with (Z.shiftl (Z.ones 62) 2).
    replace (4 * (a / 4)) with (Z.shiftl (Z.shiftr a 2) 2)
      by (rewrite Z.shiftl_mul_pow2, Z.shiftr_div_pow2 by lia; change (2 ^ 2) with 4; lia).
    destruct (Z.ltb_spec k 2).
    + rewrite !(Z.shiftl_spec_low _ 2) by lia. by rewrite andb_false_r.
    + rewrite !Z.shiftl_spec, Z.shiftr_spec by lia. replace (k - 2 + 2) with k by lia.
      change (Z.ones 64 - 2) with (Z.lxor (Z.ones 64) 2).
      rewrite Z.lxor_spec, !Z.testbit_ones_nonneg by lia.
      assert (Hk2 : Z.testbit 2 k = false) by (change 2 with (2 ^ 1); apply Z.pow2_bits_false; lia).
      assert (Hk1 : Z.testbit 1 k = false) by (change 1 with (2 ^ 0); apply Z.pow2_bits_false; lia).
      rewrite Hk1, Hk2, xorb_false_r, orb_false_r. destruct (Z.ltb_spec k 64).
      * replace (k - 2 <? 62) with true by lia. by rewrite !andb_true_r.
      * rewrite (testbit_above a 64) by lia. done.
Qed.
End core.
