(* ===== verification/MwDebugFail.v ===== *)
(** * The debug tool when the connection is dead

    Every access to the debug port can fail.  Here all of them do: whatever it
    was asked to do, the tool ends with status 1, and no file of the host has
    got a byte from it. *)

From S2P Require Import Prelude CMem Ctype Vsnprintf SimLink MwDebug.

(** ** A dead back end *)

Class DeadBackend (T : Type) `{Backend T} := dead_command : forall op a q t, exists r d t',
  backend_command op a q t = Ok (r, d) t' /\ r < 0.

(** No file has new contents: each is as it was or empty. *)
Definition no_data {T} (s s' : tool T) : Prop :=
  forall f, files (t_fs s') !! f = files (t_fs s) !! f \/ files (t_fs s') !! f = Some [].

#[export] Instance no_data_refl {T} : Reflexive (@no_data T).
Proof. intros s f. by left. Qed.

#[export] Instance no_data_trans {T} : Transitive (@no_data T).
Proof. intros s1 s2 s3 H12 H23 f. destruct (H23 f) as [->|]; [apply H12|by right]. Qed.

(** [exits c]: [c] ends, normally or with status 1; [fails c]: with status 1. *)
Definition exits {T A} (c : M (tool T) A) : Prop := forall s,
  match c s with
  | Ok _ s' => no_data s s'
  | Err e s' => e = Exit 1 /\ no_data s s'
  end.

Definition fails {T A} (c : M (tool T) A) : Prop := forall s, exists s',
  c s = Err (Exit 1) s' /\ no_data s s'.

Create HintDb dead.

Section rules.
Context {T : Type}.

Lemma fails_exits {A} (c : M (tool T) A) : fails c -> exits c.
Proof. intros Hc s. by destruct (Hc s) as (s' & -> & Hr). Qed.

Lemma exits_ret {A} (a : A) : exits (T := T) (mret a).
Proof. intros s. cbn. reflexivity. Qed.

Lemma exits_gets {A} (f : tool T -> A) : exits (gets f).
Proof. intros s. cbn. reflexivity. Qed.

Lemma fails_exit {A} : fails (T := T) (A := A) (throw (Exit 1)).
Proof. intros s. exists s. split; reflexivity. Qed.

Lemma exits_print l : exits (T := T) (print l).
Proof. intros s f. by left. Qed.

Lemma exits_bind {A B} (c : M (tool T) A) (k : A -> M (tool T) B) :
  exits c -> (forall a, exits (k a)) -> exits (c ≫= k).
Proof.
  intros Hc Hk s. specialize (Hc s). unfold mbind, M_bind. destruct (c s) as [a s1|e s1]; [|done].
  specialize (Hk a s1). destruct (k a s1) as [b s2|e s2]; [by etrans|].
  destruct Hk. split; [done|]. by etrans.
Qed.

Lemma fails_bind {A B} (c : M (tool T) A) (k : A -> M (tool T) B) : fails c -> fails (c ≫= k).
Proof. intros Hc s. destruct (Hc s) as (s' & Hr & Hn). exists s'. split; [by apply bind_err|done]. Qed.

Lemma fails_after {A B} (c : M (tool T) A) (k : A -> M (tool T) B) :
  exits c -> (forall a, fails (k a)) -> fails (c ≫= k).
Proof.
  intros Hc Hk s. specialize (Hc s). unfold mbind, M_bind. destruct (c s) as [a s1|e s1].
  - destruct (Hk a s1) as (s2 & -> & Hn). exists s2. split; [done|by etrans].
  - destruct Hc as [-> Hn]. by exists s1.
Qed.

Lemma exits_if {A} (b : bool) (c1 c2 : M (tool T) A) : exits c1 -> exits c2 -> exits (if b then c1 else c2).
Proof. by destruct b. Qed.

(** Opening a file for writing may empty it, no more. *)
Lemma exits_open f trunc : exits (T := T) (file_open f trunc).
Proof.
  intros s. unfold file_open. case_bool_decide; [reflexivity|]. intros g. cbn.
  destruct (decide (f = g)) as [<-|]; [|left; by rewrite lookup_insert_ne].
  rewrite lookup_insert_eq. destruct trunc; [by right|].
  destruct (files (t_fs s) !! f) as [l|] eqn:E; [by left|by right].
Qed.
End rules.

#[export] Hint Resolve exits_ret exits_gets exits_print exits_bind exits_if exits_open fails_exit fails_bind : dead.
#[export] Hint Resolve fails_exits | 5 : dead.

(** ** Every command *)

Section commands.
Context {T : Type} `{DeadBackend T} (polls : nat) (junk : Z).

Lemma dead_read addr data (s : tool T) : exists rc v t,
  on_dev (dmi_read polls addr data) s = Ok (rc, v) (with_dev t s) /\ rc < 0.
Proof.
  destruct (dead_command 1 addr (Some data) (t_dev s)) as (r & d & t & Hc & Hr).
  exists r, (default data d), t. split; [|done]. unfold on_dev, dmi_read, mbind, M_bind. rewrite Hc.
  by rewrite (proj2 (Z.ltb_lt _ _) Hr).
Qed.

Lemma dead_write addr data (s : tool T) : exists rc t,
  on_dev (dmi_write polls addr data) s = Ok rc (with_dev t s) /\ rc < 0.
Proof.
  destruct (dead_command 2 addr (Some data) (t_dev s)) as (r & d & t & Hc & Hr).
  exists r, t. split; [|done]. unfold on_dev, dmi_write, mbind, M_bind. rewrite Hc.
  by rewrite (proj2 (Z.ltb_lt _ _) Hr).
Qed.

Lemma exits_read addr data : exits (T := T) (on_dev (dmi_read polls addr data)).
Proof. intros s. destruct (dead_read addr data s) as (rc & v & t & -> & _). intros f. by left. Qed.

Lemma exits_write addr data : exits (T := T) (on_dev (dmi_write polls addr data)).
Proof. intros s. destruct (dead_write addr data s) as (rc & t & -> & _). intros f. by left. Qed.

Lemma check_dead rc (s : tool T) : rc < 0 -> check rc s = Err (Exit 1) s.
Proof. intros Hr. unfold check. by replace (rc >=? 0) with false by lia. Qed.

Lemma fails_read addr data : fails (T := T) (read_reg polls addr data).
Proof.
  intros s. destruct (dead_read addr data s) as (rc & v & t & Hr & Hneg). exists (with_dev t s).
  split; [|intros f; by left]. unfold read_reg. run_with (exact Hr). by apply bind_err, check_dead.
Qed.

Lemma fails_write addr data : fails (T := T) (write_reg polls addr data).
Proof.
  intros s. destruct (dead_write addr data s) as (rc & t & Hr & Hneg). exists (with_dev t s).
  split; [|intros f; by left]. unfold write_reg. run_with (exact Hr). by apply check_dead.
Qed.

#[local] Hint Resolve exits_read exits_write fails_read fails_write : dead.

Lemma exits_mem_read addr count : exits (T := T) (mem_read polls junk addr count).
Proof.
  intros s. unfold mem_read. destruct (dead_write DBG_WB_CTRL 2047 s) as (rc & t & Hr & Hneg).
  run_with (exact Hr). rewrite (proj2 (Z.ltb_lt _ _) Hneg). intros f. by left.
Qed.

Lemma exits_gpr_read reg count : exits (T := T) (gpr_read polls reg count).
Proof.
  intros s. unfold gpr_read. cbv zeta. set (n := gpr_count _ count). set (r := Z.land reg 127).
  destruct (n =? 0) eqn:E.
  - erewrite loop_break; [reflexivity|]. enter gpr_step. by rewrite E.
  - destruct (fails_write (DBG_CORE_GSPR_INDEX (t_core s)) r s) as (s' & Hr & Hn).
    erewrite loop_err; [by split|]. enter gpr_step. rewrite E. erewrite bind_ok by reflexivity.
    by apply bind_err.
Qed.

Lemma exits_load f addr : exits (T := T) (load polls f addr).
Proof. unfold load. apply exits_bind; [apply exits_gets|]. intros fs. destruct (files fs !! f); eauto 4 with dead. Qed.

Lemma exits_save f addr size : exits (T := T) (save polls junk f addr size).
Proof. unfold save. apply exits_bind; [apply exits_open|]. intros [|]; cbn [negb]; eauto 4 with dead. Qed.

Lemma exits_log_dump f : exits (T := T) (log_dump polls junk f).
Proof.
  unfold log_dump. apply exits_bind; [apply exits_open|]. intros [|]; cbn [negb]; [|eauto with dead].
  apply exits_bind; [apply exits_gets|]. intros c. eauto 4 with dead.
Qed.

Lemma fails_status : fails (T := T) (core_status polls junk).
Proof. unfold core_status. apply fails_after; [apply exits_gets|]. intros c. apply fails_bind, fails_read. Qed.

Lemma exits_plain cmd c : plain_command polls junk cmd = Some c -> exits (T := T) c.
Proof.
  unfold plain_command. repeat (case_match; [intros [= <-]|]); try done;
    unfold core_reset, icache_reset, core_stop, core_start, core_step, log_start, log_stop;
    eauto 8 with dead.
Qed.

Lemma exits_trig_show name reg : exits (T := T) (trig_show polls junk name reg).
Proof. unfold trig_show. eauto with dead. Qed.

Lemma exits_mem_write addr data : exits (T := T) (mem_write polls addr data).
Proof. unfold mem_write. eauto with dead. Qed.

Lemma exits_triggers c :
  In c [ltrig_show polls junk; mtrig_show polls junk; ltrig_off polls; mtrig_off polls] -> exits (T := T) c.
Proof.
  intros Hc. repeat destruct Hc as [<-|Hc]; [..|done]; apply exits_bind; try apply exits_gets; intros core;
    eauto using exits_trig_show with dead.
Qed.

Lemma exits_trig_set addr : exits (T := T) (ltrig_set polls addr) /\ exits (T := T) (mtrig_set polls addr).
Proof. split; (apply exits_bind; [apply exits_gets|]); intros c; eauto with dead. Qed.

(** One command of the command line, or its alternatives. *)
Ltac one_command IH :=
  repeat match goal with
  | |- exits (if ?b then _ else _) => destruct b
  | |- exits (match ?l with [] => _ | _ :: _ => _ end) => destruct l
  | |- exits (match ?p with pair _ _ => _ end) => destruct p
  | |- exits (commands _ _ _) => apply IH; cbn [length] in *; lia
  | |- exits usage => apply fails_exits, fails_exit
  | |- exits (mbind _ _) => apply exits_bind; [|intros ?]
  | |- exits (ltrig_set _ _) => apply exits_trig_set
  | |- exits (mtrig_set _ _) => apply exits_trig_set
  | |- exits (ltrig_show _ _) => apply exits_triggers; simpl; tauto
  | |- exits (mtrig_show _ _) => apply exits_triggers; simpl; tauto
  | |- exits (ltrig_off _) => apply exits_triggers; simpl; tauto
  | |- exits (mtrig_off _) => apply exits_triggers; simpl; tauto
  | |- exits _ => first [apply exits_print|apply exits_read|apply exits_write|apply exits_ret|apply exits_mem_read
      |apply exits_mem_write|apply exits_load|apply exits_save|apply exits_gpr_read|apply exits_log_dump]
  end.

Lemma exits_commands_bound n : forall args, (length args <= n)%nat -> exits (T := T) (commands polls junk args).
Proof.
  induction n as [|n IH]; intros [|cmd args] Hl; cbn [length] in Hl; try lia; try apply exits_ret.
  cbn [commands].
  destruct (plain_command polls junk cmd) as [c|] eqn:Hp; [apply exits_plain in Hp|]; one_command IH; done.
Qed.

Lemma exits_commands args : exits (T := T) (commands polls junk args).
Proof. by apply (exits_commands_bound (length args)). Qed.
End commands.

(** C15: error behaviour: when every access to the debug port fails, the tool ends
    with status 1 whatever its options and commands are, once they are
    understood: it never claims success, never goes on for ever and never writes
    a byte to a file, though "ldump" has by then emptied the file it names. *)
Theorem dead_link_exits {T} `{DeadBackend T} polls junk init opts args o rc (s s1 s2 : tool T) :
  set_options (Settings None None 0) opts s = Ok o s1 ->
  init (default Bscane2 (o_backend o)) (o_target o) (o_freq o) s1 = Ok rc s2 -> exists s',
  main polls junk init opts args s = Err (Exit 1) s' /\ no_data s2 s'.
Proof.
  intros Ho Hi. unfold main. run_with (exact Ho). run_with (exact Hi). destruct (rc <? 0).
  - by exists s2.
  - apply fails_after; [apply exits_commands|]. intros _. apply fails_bind, fails_status.
Qed.

(** ** A dead back end that counts what it was asked *)

Module Dead.
#[local] Instance backend : Backend nat := fun _ _ q n => Ok (-1, q) (S n).

#[local] Instance backend_dead : DeadBackend nat.
Proof. intros op a q n. by do 3 eexists. Qed.

Definition start : tool nat := Tool 0%nat 0 false [] (Fs {[ codes "log" := [1; 2; 3] ]} ∅ 100).

Lemma dead_link_exits_witness : exists s',
  main 3 7 (fun _ _ _ => mret 0) [(98, Some (codes "sim"))] [codes "mw"; codes "8"; codes "2a"] start =
    Err (Exit 1) s' /\ no_data start s'.
Proof.
  apply (dead_link_exits 3 7 (fun _ _ _ => mret 0) [(98, Some (codes "sim"))] [codes "mw"; codes "8"; codes "2a"]
    (Settings (Some Sim) None 0) 0 start start start); vm_compute; reflexivity.
Defined.

(** The file of "ldump" is lost. *)
Example log_lost : match main 3 7 (fun _ _ _ => mret 0) [] [codes "ldump"; codes "log"] start with
  | Ok _ _ => False
  | Err e s' => e = Exit 1 /\ files (t_fs s') !! codes "log" = Some []
  end.
Proof. vm_compute. done. Qed.
End Dead.
