(* ===== verification/MwDebugPort.v ===== *)
(** * A concrete debug port

    A port that keeps the contracts of [MwDebugSpec] and [MwDebugShow]: it
    answers every operation after two polls, and its device has memory, a
    register file and a log.  The tool's theorems are applied to it. *)

From S2P Require Import Prelude CMem Ctype Vsnprintf SimLink MwDebug MwDebugSpec MwDebugShow.

(** ** Any device behind a port *)

Record port (D : Type) := Port { p_dev : D; p_pend : option (nat * option Z) }.
Arguments Port {D}. Arguments p_dev {D}. Arguments p_pend {D}.

#[export] Instance port_backend {D} `{Device D} : Backend (port D) := fun op a q p =>
  if op =? 1 then let '(v, d) := rd a (p_dev p) in Ok (0, q) (Port d (Some (2%nat, Some v)))
  else if op =? 2 then Ok (0, q) (Port (wr a (default 0 q) (p_dev p)) (Some (2%nat, None)))
  else match p_pend p with
       | Some (S n, v) => Ok (3, q) (Port (p_dev p) (Some (n, v)))
       | Some (O, v) => Ok (0, v) (Port (p_dev p) None)
       | None => Ok (0, q) p
       end.

#[export] Instance port_dmi {D} `{Device D} : Dmi (port D) D 3.
Proof.
  refine {| dmi_idle p := p_pend p = None; dmi_dev p := p_dev p;
            dmi_busy n v d p := p = Port d (Some (n, v)) |}.
  - intros p a x _ _. unfold backend_command, port_backend. cbn [Z.eqb Pos.eqb].
    destruct (rd a (p_dev p)) as [v d]. do 3 eexists. exists 2%nat.
    split; [reflexivity|]. split; [lia|]. split; [lia|done].
  - intros p a v _ _ _. do 3 eexists. exists 2%nat. split; [reflexivity|]. split; [lia|]. split; [lia|done].
  - intros [|n] v d p q -> _; do 3 eexists; (split; [reflexivity|]); by split_and?.
Defined.

(** ** A device *)

Record device := Dev {
  v_ctrl : Z; v_addr : Z; v_mem : gmap Z Z;
  v_index : Z; v_gspr : gmap Z Z;
  v_laddr : Z; v_log : gmap Z Z;
  v_regs : gmap Z Z
}.

Definition v_step (d : device) : Z := if Z.testbit (v_ctrl d) 8 then 2 ^ (v_ctrl d / 512) else 0.

Definition v_advance (d : device) : device :=
  Dev (v_ctrl d) (u64 (v_addr d + v_step d)) (v_mem d) (v_index d) (v_gspr d) (v_laddr d) (v_log d) (v_regs d).

Definition v_slots : Z := 2 ^ 29.
Definition v_word (d : device) (k : Z) : Z := u64 (default 0 (v_mem d !! k)).

#[export] Instance device_registers : Device device := {
  rd a d :=
    if a =? 0 then (u64 (v_addr d), d)
    else if a =? 1 then (v_word d ((v_addr d / 8) mod v_slots), v_advance d)
    else if a =? 2 then (u64 (v_ctrl d), d)
    else if a =? 21 then (u64 (default 0 (v_gspr d !! v_index d)), d)
    else if a =? 22 then (u64 (v_laddr d), d)
    else if a =? 23 then
      (u64 (default 0 (v_log d !! (v_laddr d mod 2 ^ 31))),
       Dev (v_ctrl d) (v_addr d) (v_mem d) (v_index d) (v_gspr d) (u64 (v_laddr d + 1)) (v_log d) (v_regs d))
    else (u64 (default 0 (v_regs d !! a)), d);
  wr a v d :=
    if a =? 0 then Dev (v_ctrl d) v (v_mem d) (v_index d) (v_gspr d) (v_laddr d) (v_log d) (v_regs d)
    else if a =? 1 then
      v_advance (Dev (v_ctrl d) (v_addr d) (<[(v_addr d / 8) mod v_slots := v]> (v_mem d))
        (v_index d) (v_gspr d) (v_laddr d) (v_log d) (v_regs d))
    else if a =? 2 then
      Dev (v mod 2 ^ 11) (v_addr d) (v_mem d) (v_index d) (v_gspr d) (v_laddr d) (v_log d) (v_regs d)
    else if a =? 20 then
      Dev (v_ctrl d) (v_addr d) (v_mem d) v (v_gspr d) (v_laddr d) (v_log d) (v_regs d)
    else if a =? 22 then
      Dev (v_ctrl d) (v_addr d) (v_mem d) (v_index d) (v_gspr d) v (v_log d) (v_regs d)
    else
      Dev (v_ctrl d) (v_addr d) (v_mem d) (v_index d) (v_gspr d) (v_laddr d) (v_log d) (<[a := v]> (v_regs d))
}.

#[export] Instance device_wishbone : Wishbone device.
Proof.
  refine {| wb_slots := v_slots; wb_addr := v_addr; wb_full d := v_ctrl d = 2047; wb_word := v_word |}.
  - done.
  - intros d k. apply u64_range.
  - intros d. by split.
  - intros d a Ha. by split_and!.
  - intros d v Hf Hv. cbv zeta. unfold wr, device_registers, DBG_WB_DATA, v_advance, v_step, v_word.
    cbn [Z.eqb Pos.eqb v_ctrl v_addr v_mem]. rewrite Hf. split_and!; [done|done|]. intros k.
    destruct (Z.eqb_spec k ((v_addr d / 8) mod v_slots)) as [->|Hne].
    + rewrite lookup_insert_eq. by apply u64_small.
    + by rewrite lookup_insert_ne by done.
  - intros d Hf. cbn -[v_slots u64 Z.modulo Z.div]. unfold v_step. rewrite Hf. by split_and!.
Defined.

#[export] Instance device_gspr : Gspr device 0.
Proof.
  refine {| gspr d r := u64 (default 0 (v_gspr d !! r)); gspr_index := v_index |}.
  - intros d r Hr. by split.
  - intros d. by split.
Defined.

(** ** The tool on it *)

(** A tool with a file of 24 bytes, another of 30, and a log of two entries
    whose write pointer is at its start. *)
Definition demo_dev : device :=
  Dev 0 0 {[ 1 := 77 ]} 0 {[ 3 := 33; 33 := 99 ]} (2 * 2 ^ 32) {[ 0 := 5; 1 := 6 ]} {[ 17 := 3; 18 := 256 ]}.
Definition demo_in : list Z := codes "in".
Definition demo_out : list Z := codes "out".
Definition demo_bytes : list Z := map Z.of_nat (seq 1 24).
Definition demo : tool (port device) :=
  Tool (Port demo_dev None) 0 false []
    (Fs {[ demo_in := demo_bytes; demo_out := replicate 30 170 ]} ∅ 1000).

Lemma demo_u8 : Forall in_u8 demo_bytes.
Proof.
  apply Forall_map, List.Forall_forall. intros i Hi%in_seq. unfold in_u8. simpl. lia.
Qed.

Lemma dmi_access_witness :
  (exists t', dmi_read 3 17 0 (t_dev demo) = Ok (0, (rd 17 demo_dev).1) t' /\
     dmi_idle t' /\ dmi_dev t' = (rd 17 demo_dev).2) /\
  (exists t', dmi_write 3 17 1 (t_dev demo) = Ok 0 t' /\ dmi_idle t' /\ dmi_dev t' = wr 17 1 demo_dev).
Proof.
  change demo_dev with (dmi_dev (t_dev demo)).
  apply (dmi_access 3 (t_dev demo) 17 0 1); [done|unfold in_u8; lia|unfold in_u64; lia].
Defined.

Lemma mem_write_correct_witness : exists s' d, mem_write 3 8 1234 demo = Ok tt s' /\ moved d demo s' /\
  wb_word d (slot 8) = 1234 /\ forall k, k <> slot 8 -> wb_word d k = wb_word (dev demo) k.
Proof. apply (mem_write_correct (D := device) 3 demo 8 1234); [done|unfold in_u64; lia|unfold in_u64; lia]. Defined.

Lemma load_correct_witness : exists s' d, load 3 demo_in 4096 demo = Ok tt s' /\
  became d (done_text 3) (t_fs demo) demo s' /\ holds (dev demo) d 4096 3%nat (file_word demo_bytes).
Proof.
  apply (load_correct (D := device) 3 demo demo_in demo_bytes 4096 3);
    [done|by vm_compute|apply demo_u8|done|done|done|done|done].
Defined.

(** A file of five bytes comes back as eight, and the rest of the longer target
    is still there. *)
Definition demo_short : tool (port device) :=
  with_fs (Fs {[ demo_in := take 5 demo_bytes; demo_out := replicate 30 170 ]} ∅ 1000) demo.

Lemma load_save_roundtrip_witness : exists s',
  (_ ← load 3 demo_in 4096; save 3 7 demo_out 4096 5) demo_short = Ok tt s' /\
  files (t_fs s') = <[demo_out := [1; 2; 3; 4; 5; 0; 0; 0] ++ replicate 22 170]> (files (t_fs demo_short)).
Proof.
  apply (load_save_roundtrip (D := device) 3 7 demo_short demo_in demo_out (take 5 demo_bytes) 4096 5 1);
    [done|by vm_compute|apply Forall_take, demo_u8|done|done|lia|done|done|done|done|set_solver|done].
Defined.

Lemma mem_read_correct_witness : exists s' d, mem_read 3 7 0 2%nat demo = Ok tt s' /\
  became d (mem_lines (dev demo) 0 2) (t_fs demo) demo s' /\ forall k, wb_word d k = wb_word (dev demo) k.
Proof. apply (mem_read_correct (D := device) 3 7 demo 0 2); [done|lia|lia|lia]. Defined.

(** From register 95 on there is only one. *)
Lemma gpr_read_correct_witness : exists s' d, gpr_read 3 95 1000 demo = Ok tt s' /\
  became d (codes "FPR31:" ++ 9 :: hex16 0 ++ [10]) (t_fs demo) demo s' /\ forall k, gspr d k = gspr (dev demo) k.
Proof.
  destruct (gpr_read_correct (D := device) 3 0 demo 95 1000) as (s' & d & Hr & Hb & Hg);
    [done|done|by vm_compute|lia|by vm_compute|].
  exists s', d. split; [exact Hr|]. split; [|exact Hg].
  match type of Hb with became _ ?x _ _ _ =>
    replace x with (codes "FPR31:" ++ 9 :: hex16 0 ++ [10]) in Hb by (vm_compute; reflexivity) end.
  exact Hb.
Defined.

Lemma log_dump_correct_witness : exists s', log_dump 3 7 demo_out demo = Ok tt s' /\
  dev s' = wr (DBG_LOG_ADDR 0) (dump_orig 0 (dev demo)) (dump_reads 0 (dev demo)).2 /\
  t_out s' = dump_text 0 (dev demo) /\
  files (t_fs s') = <[demo_out := word_bytes (dump_reads 0 (dev demo)).1]> (files (t_fs demo)).
Proof.
  apply (log_dump_correct (D := device) 3 7 demo demo_out); [done|unfold in_u64; by vm_compute|set_solver|by vm_compute].
Defined.

(** The dump starts at the entry the write pointer, 2 less its size bit, is at;
    the file's old contents are gone. *)
Example dumped : (x ← (_ ← log_dump 3 7 demo_out; gets (fun s => files (t_fs s) !! demo_out)); mret x) demo =
  Ok (Some (concat (map (le_bytes 8) [5; 6; 0; 0; 0; 0; 0; 0])))
     (out_state (log_dump 3 7 demo_out demo)).
Proof. vm_compute. reflexivity. Qed.

(** ** Sessions *)

(** A whole session: a word is written, read back, and the status follows. *)
Example session : exists s',
  main 3 7 (fun _ _ _ => mret 0) [] [codes "mw"; codes "8"; codes "2a"; codes "mr"; codes "0x8"] demo = Ok 0 s' /\
  t_out s' = codes "0000000000000008: 000000000000002a  *......." ++ [10] ++
    status_lines false 0 3 256 0.
Proof. eexists. vm_compute. by split. Qed.

(** A command without its argument ends the tool before anything is sent. *)
Example missing_argument : main 3 7 (fun _ _ _ => mret 0) [] [codes "mw"; codes "8"] demo = Err (Exit 1) demo.
Proof. vm_compute. reflexivity. Qed.

(** The long option "--frequency" is declared without an argument, which its
    handler then reads. *)
Example frequency_without_argument :
  main 3 7 (fun _ _ _ => mret 0) [(115, None)] [] demo = Err (Segv 0) demo.
Proof. vm_compute. reflexivity. Qed.
