(* ===== verification/MwBackend.v ===== *)
(** * Opening a back end of the debug tool: mw_debug.c

    The tool reaches the debug port through a table of functions, one of three:
    the socket of a simulation, and two kinds of JTAG part behind liburjtag.
    The functions of liburjtag and of the network are the operations of the
    classes [Urj] and [Sock]; a pointer they return is a [Z], and 0 is the null
    pointer.  The state of the program is the table chosen, the static
    variables [sim_fd] and [jc], the network and the library. *)

From S2P Require Import Prelude CMem Ctype Vsnprintf SimLink MwDebug.

Class Sock (N : Type) := {
  sock_socket : N -> Z * N;
  sock_gethostbyname : list Z -> N -> option (list Z) * N;
  sock_connect : Z -> list Z -> Z -> N -> Z * N;
  sock_write : Z -> list Z -> N -> Z * N;
  sock_read : Z -> Z -> N -> list Z * N;
  sock_close : Z -> N -> N
}.

(** [urj_tap_cable_usb_probe] answers a status and what it left in the second
    of its parameters; [urj_parts_len] is [None] when [jc->parts] is null. *)
Class Urj (U : Type) := {
  URJ_STATUS_OK : Z;
  urj_tap_chain_alloc : U -> Z * U;
  urj_set_main_part : Z -> Z -> U -> U;
  urj_tap_cable_usb_probe : U -> Z * option (list Z) * U;
  urj_tap_chain_connect : Z -> list Z -> list (list Z) -> U -> Z * U;
  urj_tap_cable_set_frequency : Z -> Z -> U -> U;
  urj_tap_manual_add : Z -> Z -> U -> Z * U;
  urj_parts_len : Z -> U -> option Z;
  urj_part_parts_set_instruction : Z -> list Z -> U -> U;
  urj_set_active_part : Z -> Z -> U -> U;
  urj_tap_chain_active_part : Z -> U -> Z * U;
  urj_part_data_register_define : Z -> list Z -> Z -> U -> Z * U;
  urj_part_instruction_define : Z -> list Z -> list Z -> list Z -> U -> Z * U;
  urj_part_set_instruction : Z -> list Z -> U -> U;
  urj_tap_chain_shift_instructions : Z -> U -> U;
  urj_tap_chain_shift_data_registers : Z -> Z -> U -> Z * U;
  urj_active_instruction : Z -> U -> Z;
  urj_data_register : Z -> U -> Z;
  urj_in : Z -> U -> Z;
  urj_out : Z -> U -> Z;
  urj_tap_register_get_value : Z -> U -> Z;
  urj_tap_register_set_value_bit_range : Z -> Z -> Z -> Z -> U -> Z * U;
  urj_tap_register_get_value_bit_range : Z -> Z -> Z -> U -> Z
}.

Record host (N U : Type) := Host { h_b : backend_kind; h_sim_fd : Z; h_net : N; h_jc : Z; h_urj : U }.
Arguments Host {N U}. Arguments h_b {N U}. Arguments h_sim_fd {N U}. Arguments h_net {N U}.
Arguments h_jc {N U}. Arguments h_urj {N U}.

(** A string cut where [strchr] finds a character: what is before, and the rest
    from the character on.  [strndup(s, strchr(s, c) - s)] is the first part,
    and the whole string when the character is not there, since the length then
    is that of an address. *)
Fixpoint cut (c : Z) (s : list Z) : list Z * option (list Z) :=
  match s with
  | [] => ([], None)
  | x :: s' => if x =? c then ([], Some s) else let '(l, r) := cut c s' in (x :: l, r)
  end.

(** The C string at an offset of a buffer. *)
Definition text_at (buf : list Z) (p : nat) : list Z := (cut 0 (drop p buf)).1.

Definition max_params : Z := 20.

Section backend.
Context {N U : Type} `{Sock N} `{Urj U}.

(** ** Calls *)

Definition with_net (n : N) (h : host N U) : host N U := Host (h_b h) (h_sim_fd h) n (h_jc h) (h_urj h).
Definition with_urj (u : U) (h : host N U) : host N U := Host (h_b h) (h_sim_fd h) (h_net h) (h_jc h) u.

Definition net_call {A} (f : N -> A * N) : M (host N U) A := fun h =>
  let '(a, n) := f (h_net h) in Ok a (with_net n h).
Definition urj_call {A} (f : U -> A * U) : M (host N U) A := fun h =>
  let '(a, u) := f (h_urj h) in Ok a (with_urj u h).
Definition urj_do (f : U -> U) : M (host N U) unit := modify (fun h => with_urj (f (h_urj h)) h).
Definition urj_get {A} (f : U -> A) : M (host N U) A := gets (fun h => f (h_urj h)).

Definition set_b (b : backend_kind) : M (host N U) unit :=
  modify (fun h => Host b (h_sim_fd h) (h_net h) (h_jc h) (h_urj h)).
Definition set_sim_fd (fd : Z) : M (host N U) unit :=
  modify (fun h => Host (h_b h) fd (h_net h) (h_jc h) (h_urj h)).
Definition set_jc (jc : Z) : M (host N U) unit :=
  modify (fun h => Host (h_b h) (h_sim_fd h) (h_net h) jc (h_urj h)).

(** Reading a field through a pointer. *)
Definition deref (p : Z) (f : Z -> U -> Z) : M (host N U) Z :=
  if p =? 0 then throw (Segv 0) else urj_get (f p).

(** ** The simulation *)

#[export] Instance host_link : Link (host N U) := {
  link_write l h := let '(r, n) := sock_write (h_sim_fd h) l (h_net h) in (r, with_net n h);
  link_read k h := let '(l, n) := sock_read (h_sim_fd h) k (h_net h) in (l, with_net n h)
}.

Definition sim_target (target : option (list Z)) : list Z * Z :=
  let '(host, p) := cut 58 (default (codes "localhost:13245") target) in
  let p := match p with Some (_ :: p) => p | _ => codes "13245" end in
  (host, s32 (host_strtoul 10 p)).

Definition sim_init (target : option (list Z)) (freq : Z) : M (tool (host N U)) Z :=
  let '(host, port) := sim_target target in
  debug ← gets t_debug;
  _ ← (if debug : bool
       then print (codes "Opening sim backend host '" ++ host ++ codes "' port " ++ dec port ++ [10])
       else mret tt);
  on_dev (
    fd ← net_call sock_socket;
    _ ← set_sim_fd fd;
    if fd <? 0 then mret (-1) else
    hp ← net_call (sock_gethostbyname host);
    match hp with
    | None => mret (-1)
    | Some addr =>
        rc ← net_call (sock_connect fd addr (u16 port));
        if rc <? 0 then
          _ ← modify (fun h => with_net (sock_close fd (h_net h)) h); mret (-1)
        else mret 0
    end).

Definition sim_reset : M (host N U) Z := mret 0.

(** ** JTAG *)

(** Character [s] of the copy of the parameters: a space becomes the end of a
    string and the next parameter starts after it. *)
Definition param_step : nat * Z * list Z * list nat -> option (list Z) * list nat + nat * Z * list Z * list nat :=
  fun '(s, i, buf, params) =>
    let c := default 0 (buf !! s) in
    if c =? 0 then inl (Some buf, params)
    else if c =? 32 then
      if i >=? max_params then inl (None, params)
      else inr (S s, i + 1, <[s := 0]> buf, params ++ [S s])
    else inr (S s, i, buf, params).

Fixpoint param_loop (fuel : nat) (st : nat * Z * list Z * list nat) : option (list Z) * list nat :=
  match fuel with
  | O => (None, [])
  | S f => match param_step st with inl r => r | inr st => param_loop f st end
  end.

(** The parameters of the cable, or nothing when there are too many; [sep] is
    the text from the first space on. *)
Definition cable_params (sep : list Z) : option (list (list Z)) :=
  match param_loop (S (length sep)) (O, 0, sep ++ [0], []) with
  | (Some buf, params) => Some (map (text_at buf) params)
  | (None, _) => None
  end.

Definition cable_probe (cable : list Z) : M (host N U) (option (list Z)) :=
  if bool_decide (cable = codes "probe") then
    '(rc, found) ← urj_call urj_tap_cable_usb_probe;
    if negb (rc =? URJ_STATUS_OK) then mret None
    else match found with
         | None => throw (Segv 0)
         | Some c => mret (Some c)
         end
  else mret (Some cable).

Definition chain_open (cable : list Z) (params : list (list Z)) (freq : Z) : M (host N U) Z :=
  jc ← urj_call urj_tap_chain_alloc;
  _ ← set_jc jc;
  if jc =? 0 then mret (-1) else
  _ ← urj_do (urj_set_main_part jc 0);
  cable ← cable_probe cable;
  match cable with
  | None => mret (-1)
  | Some cable =>
      rc ← urj_call (urj_tap_chain_connect jc cable params);
      if negb (rc =? URJ_STATUS_OK) then mret (-1) else
      _ ← (if negb (freq =? 0) then urj_do (urj_tap_cable_set_frequency jc freq) else mret tt);
      mret 0
  end.

Definition common_jtag_init (target : option (list Z)) (freq : Z) : M (tool (host N U)) Z :=
  let '(cable, sep) := cut 32 (default (codes "probe") target) in
  match (match sep with Some sep => cable_params sep | None => Some [] end) with
  | None => mret (-1)
  | Some params =>
      debug ← gets t_debug;
      _ ← (if debug : bool then print (codes "Opening jtag backend cable '" ++ cable ++ codes "'" ++ [10]) else mret tt);
      on_dev (chain_open cable params freq)
  end.

(** The registers and instructions of the part [p]. *)
Definition define_part (p : Z) (idcode user2 : list Z) : M (host N U) Z :=
  rc ← urj_call (urj_part_data_register_define p (codes "IDCODE_REG") 32);
  if negb (rc =? URJ_STATUS_OK) then mret (-1) else
  i ← urj_call (urj_part_instruction_define p (codes "IDCODE") idcode (codes "IDCODE_REG"));
  if i =? 0 then mret (-1) else
  rc ← urj_call (urj_part_data_register_define p (codes "USER2_REG") 74);
  if negb (rc =? URJ_STATUS_OK) then mret (-1) else
  i ← urj_call (urj_part_instruction_define p (codes "USER2") user2 (codes "USER2_REG"));
  if i =? 0 then mret (-1) else mret 0.

(** Adding the part: 0 for an error, and otherwise the part. *)
Definition add_part (ir_length : Z) (idcode user2 : list Z) : M (host N U) Z :=
  jc ← gets h_jc;
  rc ← urj_call (urj_tap_manual_add jc ir_length);
  if rc <? 0 then mret 0 else
  len ← urj_get (urj_parts_len jc);
  if default 0 len =? 0 then mret 0 else
  _ ← urj_do (urj_part_parts_set_instruction jc (codes "BYPASS"));
  _ ← urj_do (urj_set_active_part jc 0);
  p ← urj_call (urj_tap_chain_active_part jc);
  if p =? 0 then mret 0 else
  rc ← define_part p idcode user2;
  if rc <? 0 then mret 0 else mret p.

(** Reading the identification and leaving [USER2] selected. *)
Definition select_user2 (p : Z) : M (host N U) Z :=
  jc ← gets h_jc;
  _ ← urj_do (urj_part_set_instruction p (codes "IDCODE"));
  _ ← urj_do (urj_tap_chain_shift_instructions jc);
  _ ← urj_call (urj_tap_chain_shift_data_registers jc 1);
  i ← deref p urj_active_instruction;
  dr ← deref i urj_data_register;
  out ← deref dr urj_out;
  id ← urj_get (urj_tap_register_get_value out);
  _ ← urj_do (urj_part_set_instruction p (codes "USER2"));
  _ ← urj_do (urj_tap_chain_shift_instructions jc);
  mret (u32 id).

(** [bscane2_init] and [ecp5_init] are this function at two parts, with the
    length of the instruction register and the two instructions. *)
Definition part_init (ir_length : Z) (idcode user2 : list Z) (target : option (list Z)) (freq : Z) : M (tool (host N U)) Z :=
  rc ← common_jtag_init target freq;
  if rc <? 0 then mret rc else
  p ← on_dev (add_part ir_length idcode user2);
  if p =? 0 then mret (-1) else
  id ← on_dev (select_user2 p);
  _ ← print (codes "Found device ID: 0x" ++ zeros 8 (hex id) ++ [10]);
  mret 0.

Definition bscane2_init := part_init 6 (codes "001001") (codes "000011").
Definition ecp5_init := part_init 8 (codes "11100000") (codes "00110010").

Definition jtag_reset : M (host N U) Z := mret 0.

Definition jtag_command (op addr : Z) (data : option Z) : M (host N U) (Z * option Z) :=
  let d := default 0 data in
  let fail := mret (-1, data) in
  jc ← gets h_jc;
  p ← urj_call (urj_tap_chain_active_part jc);
  if p =? 0 then fail else
  insn ← urj_get (urj_active_instruction p);
  if insn =? 0 then fail else
  dr ← urj_get (urj_data_register insn);
  if dr =? 0 then fail else
  inp ← urj_get (urj_in dr);
  rc ← urj_call (urj_tap_register_set_value_bit_range inp op 1 0);
  if negb (rc =? URJ_STATUS_OK) then fail else
  inp ← urj_get (urj_in dr);
  rc ← urj_call (urj_tap_register_set_value_bit_range inp d 65 2);
  if negb (rc =? URJ_STATUS_OK) then fail else
  inp ← urj_get (urj_in dr);
  rc ← urj_call (urj_tap_register_set_value_bit_range inp addr 73 66);
  if negb (rc =? URJ_STATUS_OK) then fail else
  rc ← urj_call (urj_tap_chain_shift_data_registers jc 1);
  if negb (rc =? URJ_STATUS_OK) then fail else
  out ← urj_get (urj_out dr);
  rc ← urj_get (urj_tap_register_get_value_bit_range out 1 0);
  match data with
  | None => mret (s32 rc, None)
  | Some _ =>
      out ← urj_get (urj_out dr);
      v ← urj_get (urj_tap_register_get_value_bit_range out 65 2);
      mret (s32 rc, Some v)
  end.

(** ** The table of functions *)

Definition backend_init (b : backend_kind) (target : option (list Z)) (freq : Z) : M (tool (host N U)) Z :=
  _ ← on_dev (set_b b);
  match b with
  | Sim => sim_init target freq
  | Bscane2 => bscane2_init target freq
  | Ecp5 => ecp5_init target freq
  end.

#[export] Instance host_backend : Backend (host N U) | 0 := fun op addr data h =>
  match h_b h with
  | Sim => sim_command op addr data h
  | Bscane2 | Ecp5 => jtag_command op addr data h
  end.

Definition backend_reset : M (host N U) Z := fun h =>
  match h_b h with
  | Sim => sim_reset h
  | Bscane2 | Ecp5 => jtag_reset h
  end.

(** The whole program. *)
Definition mw_debug (polls : nat) (junk : Z) := @MwDebug.main _ host_backend polls junk backend_init.
End backend.
