(* ===== verification/MwBackendSpec.v ===== *)
(** * What the back ends of the debug tool do

    Against the documented behaviour of liburjtag ([Tap]): opening a JTAG part
    never goes through a null pointer and ends either with the debug port's
    instruction selected or with an error; a command shifts exactly the request
    the simulation's packets carry, so that all back ends are the same to the
    rest of the tool.  Against the network: the simulation back end connects to
    the host and port of its target. *)

From S2P Require Import Prelude CMem Ctype Strto Vsnprintf SimLink Jtag MwDebug MwBackend.

(** ** Contract of the library *)

(** What has been set up: the cable with its parameters and speed; the length
    of the instruction register of the part that was added, and the part once
    it is known; its registers with their lengths, and its instructions with
    their code and register; the instruction selected and the one in the
    instruction register. *)
Record setup := Setup {
  v_cable : list Z; v_params : list (list Z); v_freq : Z;
  v_ir : Z; v_part : Z;
  v_regs : gmap (list Z) Z; v_insns : gmap (list Z) (list Z * list Z);
  v_active : option (list Z); v_loaded : option (list Z)
}.

Definition connected_to (cable : list Z) (params : list (list Z)) : setup :=
  Setup cable params 0 0 0 ∅ ∅ None None.
Definition with_freq (f : Z) (v : setup) : setup :=
  Setup (v_cable v) (v_params v) f (v_ir v) (v_part v) (v_regs v) (v_insns v) (v_active v) (v_loaded v).
Definition with_ir (n : Z) (v : setup) : setup :=
  Setup (v_cable v) (v_params v) (v_freq v) n (v_part v) (v_regs v) (v_insns v) (v_active v) (v_loaded v).
Definition with_part (p : Z) (v : setup) : setup :=
  Setup (v_cable v) (v_params v) (v_freq v) (v_ir v) p (v_regs v) (v_insns v) (v_active v) (v_loaded v).
Definition with_reg (r : list Z) (n : Z) (v : setup) : setup :=
  Setup (v_cable v) (v_params v) (v_freq v) (v_ir v) (v_part v) (<[r := n]> (v_regs v)) (v_insns v)
    (v_active v) (v_loaded v).
Definition with_insn (i c r : list Z) (v : setup) : setup :=
  Setup (v_cable v) (v_params v) (v_freq v) (v_ir v) (v_part v) (v_regs v) (<[i := (c, r)]> (v_insns v))
    (v_active v) (v_loaded v).
Definition with_active (i : list Z) (v : setup) : setup :=
  Setup (v_cable v) (v_params v) (v_freq v) (v_ir v) (v_part v) (v_regs v) (v_insns v) (Some i) (v_loaded v).
Definition with_loaded (c : list Z) (v : setup) : setup :=
  Setup (v_cable v) (v_params v) (v_freq v) (v_ir v) (v_part v) (v_regs v) (v_insns v) (v_active v) (Some c).

(** The code and the register length of the instruction selected. *)
Definition selected (v : setup) : option (list Z * Z) :=
  i ← v_active v; '(c, r) ← v_insns v !! i; n ← v_regs v !! r; Some (c, n).

(** A register with some of its bits replaced. *)
Definition set_bit_range (w v msb lsb : Z) : Z :=
  w + (v mod 2 ^ (msb - lsb + 1) - bit_range w msb lsb) * 2 ^ lsb.

(** [tap_works] says that nothing fails, [tap_user] is the code of the
    instruction that connects the debug port, whose answer to 74 bits is
    [scan], and [h] the state of the system the port belongs to. *)
Class Tap (U H : Type) `{Urj U} (scan : Z -> H -> Z * H) := {
  tap_works : Prop;
  tap_user : list Z;
  tap_found : list Z;
  tap_off : H -> U -> Prop;
  tap_alloc : Z -> H -> U -> Prop;
  tap_chain : Z -> setup -> H -> U -> Prop;
  tap_hw : U -> H;
  tap_chain_hw jc v h u : tap_chain jc v h u -> tap_hw u = h;
  tap_in : Z -> U -> Z;
  tap_out : Z -> U -> Z;
  tap_in_range dr u : 0 <= tap_in dr u < 2 ^ 74;
  tap_new h u : tap_off h u -> exists jc u', urj_tap_chain_alloc u = (jc, u') /\
    (jc <> 0 /\ tap_alloc jc h u' \/ jc = 0 /\ ~ tap_works);
  tap_main_part jc h u : tap_alloc jc h u -> tap_alloc jc h (urj_set_main_part jc 0 u);
  tap_probe jc h u : tap_alloc jc h u -> exists r c u', urj_tap_cable_usb_probe u = (r, c, u') /\
    (r = URJ_STATUS_OK /\ c = Some tap_found /\ tap_alloc jc h u' \/ r <> URJ_STATUS_OK /\ ~ tap_works);
  tap_connect jc c l h u : tap_alloc jc h u -> exists r u', urj_tap_chain_connect jc c l u = (r, u') /\
    (r = URJ_STATUS_OK /\ tap_chain jc (connected_to c l) h u' \/ r <> URJ_STATUS_OK /\ ~ tap_works);
  tap_frequency jc v f h u :
    tap_chain jc v h u -> tap_chain jc (with_freq f v) h (urj_tap_cable_set_frequency jc f u);
  tap_add jc v n h u : tap_chain jc v h u -> exists r u', urj_tap_manual_add jc n u = (r, u') /\
    (0 <= r /\ tap_chain jc (with_ir n v) h u' /\ (exists k, urj_parts_len jc u' = Some k /\ k <> 0)
     \/ r < 0 /\ ~ tap_works);
  tap_bypass jc v h u :
    tap_chain jc v h u -> tap_chain jc v h (urj_part_parts_set_instruction jc (codes "BYPASS") u);
  tap_active jc v h u : tap_chain jc v h u -> tap_chain jc v h (urj_set_active_part jc 0 u);
  tap_get_part jc v h u : tap_chain jc v h u -> exists p u', urj_tap_chain_active_part jc u = (p, u') /\
    (p <> 0 /\ tap_chain jc (with_part p v) h u' \/ p = 0 /\ ~ tap_works);
  tap_same_part jc v h u : tap_chain jc v h u -> v_part v <> 0 -> urj_tap_chain_active_part jc u = (v_part v, u);
  tap_register jc v r n h u : tap_chain jc v h u -> v_part v <> 0 -> exists s u',
    urj_part_data_register_define (v_part v) r n u = (s, u') /\
    (s = URJ_STATUS_OK /\ tap_chain jc (with_reg r n v) h u' \/ s <> URJ_STATUS_OK /\ ~ tap_works);
  tap_instruction jc v i c r h u : tap_chain jc v h u -> v_part v <> 0 ->
    Z.of_nat (length c) = v_ir v -> is_Some (v_regs v !! r) -> exists s u',
    urj_part_instruction_define (v_part v) i c r u = (s, u') /\
    (s <> 0 /\ tap_chain jc (with_insn i c r v) h u' \/ s = 0 /\ ~ tap_works);
  tap_select jc v i h u : tap_chain jc v h u -> v_part v <> 0 -> is_Some (v_insns v !! i) ->
    tap_chain jc (with_active i v) h (urj_part_set_instruction (v_part v) i u);
  tap_load jc v c n h u : tap_chain jc v h u -> selected v = Some (c, n) ->
    tap_chain jc (with_loaded c v) h (urj_tap_chain_shift_instructions jc u);
  tap_shift jc v h u : tap_chain jc v h u -> v_loaded v <> Some tap_user -> exists r u',
    urj_tap_chain_shift_data_registers jc 1 u = (r, u') /\ tap_chain jc v h u';
  tap_pointers jc v x h u : tap_chain jc v h u -> v_part v <> 0 -> selected v = Some x ->
    urj_active_instruction (v_part v) u <> 0 /\
    urj_data_register (urj_active_instruction (v_part v) u) u <> 0;
  tap_set jc v c x msb lsb h u : tap_chain jc v h u -> v_part v <> 0 -> selected v = Some (c, 74) ->
    0 <= lsb <= msb -> msb < 74 -> msb - lsb < 64 ->
    let dr := urj_data_register (urj_active_instruction (v_part v) u) u in
    exists u', urj_tap_register_set_value_bit_range (urj_in dr u) x msb lsb u = (URJ_STATUS_OK, u') /\
    tap_chain jc v h u' /\ tap_in dr u' = set_bit_range (tap_in dr u) x msb lsb /\
    urj_data_register (urj_active_instruction (v_part v) u') u' = dr;
  tap_scan jc v h u : tap_chain jc v h u -> v_part v <> 0 -> selected v = Some (tap_user, 74) ->
    v_loaded v = Some tap_user ->
    let dr := urj_data_register (urj_active_instruction (v_part v) u) u in
    exists u', urj_tap_chain_shift_data_registers jc 1 u = (URJ_STATUS_OK, u') /\
    tap_chain jc v (scan (tap_in dr u) h).2 u' /\ tap_out dr u' = (scan (tap_in dr u) h).1 /\
    urj_data_register (urj_active_instruction (v_part v) u') u' = dr;
  tap_get jc v c msb lsb h u : tap_chain jc v h u -> v_part v <> 0 -> selected v = Some (c, 74) ->
    0 <= lsb <= msb -> msb < 74 -> msb - lsb < 64 ->
    let dr := urj_data_register (urj_active_instruction (v_part v) u) u in
    urj_tap_register_get_value_bit_range (urj_out dr u) msb lsb u = bit_range (tap_out dr u) msb lsb
}.

(** ** Commands *)

(** Three fields make a request, whatever the register held. *)
Lemma set_bit_range_spec w v msb lsb k : 0 <= lsb <= msb -> 0 <= k ->
  Z.testbit (set_bit_range w v msb lsb) k =
    if (lsb <=? k) && (k <=? msb) then Z.testbit v (k - lsb) else Z.testbit w k.
Proof.
  intros Hl Hk. unfold set_bit_range, bit_range. set (n := msb - lsb + 1).
  assert (Hn : 0 <= n /\ n = msb - lsb + 1) by (unfold n; lia). clearbody n.
  assert (Hpl : 0 < 2 ^ lsb) by (apply Z.pow_pos_nonneg; lia).
  assert (Hpn : 0 < 2 ^ n) by (apply Z.pow_pos_nonneg; lia).
  assert (E : w + (v mod 2 ^ n - Z.shiftr w lsb mod 2 ^ n) * 2 ^ lsb =
    Z.lor (Z.lor (Z.shiftr w (lsb + n) * 2 ^ n) (v mod 2 ^ n) * 2 ^ lsb) (w mod 2 ^ lsb)).
  { rewrite (lor_shifted _ (w mod 2 ^ lsb)), lor_shifted by (try apply Z.mod_pos_bound; lia).
    rewrite !Z.shiftr_div_pow2, Z.pow_add_r, <- Z.div_div by lia.
    rewrite !Z.mod_eq by lia. ring. }
  rewrite E, !Z.lor_spec. destruct (Z.leb_spec lsb k); cbn [andb].
  - rewrite Z.mul_pow2_bits by lia. rewrite Z.lor_spec, (Z.mod_pow2_bits_high w), orb_false_r by lia.
    destruct (Z.leb_spec k msb).
    + rewrite Z.mul_pow2_bits_low by lia. cbn [orb]. by rewrite Z.mod_pow2_bits_low by lia.
    + rewrite Z.mul_pow2_bits by lia. rewrite Z.mod_pow2_bits_high, orb_false_r, Z.shiftr_spec by lia.
      f_equal. lia.
  - rewrite Z.mul_pow2_bits_low by lia. cbn [orb]. by rewrite Z.mod_pow2_bits_low by lia.
Qed.

Lemma request_bits op d addr k : 0 <= k ->
  Z.testbit (request op d addr) k =
    if k <=? 1 then Z.testbit op k else if k <=? 65 then Z.testbit d (k - 2)
    else if k <=? 73 then Z.testbit addr (k - 66) else false.
Proof.
  intros Hk. unfold request.
  assert (E : op mod 4 + d mod 2 ^ 64 * 4 + addr mod 256 * 2 ^ 66 =
    Z.lor (Z.lor (addr mod 2 ^ 8 * 2 ^ 64) (d mod 2 ^ 64) * 2 ^ 2) (op mod 2 ^ 2)).
  { rewrite !lor_shifted by (try apply Z.mod_pos_bound; lia).
    change (2 ^ 2) with 4. change (2 ^ 8) with 256. ring. }
  rewrite E, !Z.lor_spec. zcases.
  - rewrite Z.mul_pow2_bits_low by lia. cbn [orb]. by rewrite Z.mod_pow2_bits_low by lia.
  - rewrite Z.mul_pow2_bits, Z.lor_spec, Z.mul_pow2_bits_low by lia. cbn [orb].
    rewrite (Z.mod_pow2_bits_high op), orb_false_r by lia. by rewrite Z.mod_pow2_bits_low by lia.
  - rewrite Z.mul_pow2_bits, Z.lor_spec, Z.mul_pow2_bits by lia.
    rewrite (Z.mod_pow2_bits_high op), (Z.mod_pow2_bits_high d), !orb_false_r by lia.
    rewrite Z.mod_pow2_bits_low by lia. f_equal. lia.
  - rewrite Z.mul_pow2_bits, Z.lor_spec, Z.mul_pow2_bits by lia.
    by rewrite !Z.mod_pow2_bits_high by lia.
Qed.

Lemma fields_request w op d addr : 0 <= w < 2 ^ 74 ->
  set_bit_range (set_bit_range (set_bit_range w op 1 0) d 65 2) addr 73 66 = request op d addr.
Proof.
  intros Hw. apply Z.bits_inj'. intros k Hk. rewrite !set_bit_range_spec, request_bits by lia.
  zcases; cbn [andb]; zcases; try done; rewrite ?Z.sub_0_r; try done.
  apply (testbit_above w 74); lia.
Qed.

(** ** The target of a JTAG back end *)

(** The fields of a text between occurrences of [c]. *)
Fixpoint split_on (c : Z) (s : list Z) : list (list Z) :=
  match s with
  | [] => [[]]
  | x :: s' =>
      if x =? c then [] :: split_on c s'
      else match split_on c s' with
           | f :: l => (x :: f) :: l
           | [] => [[x]]
           end
  end.

Definition ended (c : Z) : Z := if c =? 32 then 0 else c.

(** Where the fields start, the text being at [k]. *)
Fixpoint starts (k : nat) (s : list Z) : list nat :=
  match s with
  | [] => []
  | x :: s' => if x =? 32 then S k :: starts (S k) s' else starts (S k) s'
  end.

Lemma split_on_cons c s : exists f l, split_on c s = f :: l.
Proof.
  destruct s as [|x s]; simpl; [by do 2 eexists|]. destruct (x =? c); [by do 2 eexists|].
  destruct (split_on c s); by do 2 eexists.
Qed.

Lemma cut_split c s : split_on c s =
  match cut c s with (l, Some (_ :: r)) => l :: split_on c r | (l, _) => [l] end.
Proof.
  induction s as [|x s IH]; [done|]. cbn [split_on cut]. destruct (x =? c); [done|].
  rewrite IH. destruct (cut c s) as [l [[|y r]|]]; done.
Qed.

Lemma cut_rest c s l r : cut c s = (l, Some r) -> s = l ++ r /\ head r = Some c.
Proof.
  revert l. induction s as [|x s IH]; intros l; simpl; [done|]. destruct (Z.eqb_spec x c) as [->|].
  - by intros [= <- <-].
  - destruct (cut c s) as [l' r'] eqn:E. intros [= <- ->]. destruct (IH l' eq_refl) as [-> ?]. done.
Qed.

Lemma text_at_start pre s : text_at (pre ++ s) (length pre) = (cut 0 s).1.
Proof. unfold text_at. by rewrite drop_app_length. Qed.

Lemma fields_text s : forall pre, Forall (fun c => c <> 0) s ->
  map (text_at (pre ++ map ended s ++ [0])) (length pre :: starts (length pre) s) = split_on 32 s.
Proof.
  induction s as [|x s IH]; intros pre Hs.
  - cbn [starts map app split_on]. by rewrite text_at_start.
  - apply Forall_cons_iff in Hs as [Hx Hs]. cbn [starts split_on map app].
    specialize (IH (pre ++ [ended x]) Hs). rewrite length_app, Nat.add_1_r, <- app_assoc in IH. cbn [app map] in IH.
    destruct (Z.eqb_spec x 32) as [->|Hne].
    + cbn [map]. change (ended 32) with 0 in *. rewrite text_at_start. f_equal. exact IH.
    + replace (ended x) with x in * by (unfold ended; by rewrite (proj2 (Z.eqb_neq x 32) Hne)). cbn [map].
      rewrite <- IH. rewrite text_at_start. simpl cut. rewrite (proj2 (Z.eqb_neq x 0) Hx).
      assert (E : text_at (pre ++ x :: map ended s ++ [0]) (S (length pre)) = (cut 0 (map ended s ++ [0])).1).
      { pose proof (text_at_start (pre ++ [x]) (map ended s ++ [0])) as E.
        by rewrite length_app, Nat.add_1_r, <- app_assoc in E. }
      rewrite E. by destruct (cut 0 _).
Qed.

Lemma param_loop_ok s : forall pre i params f,
  Forall (fun c => c <> 0) s -> (length s < f)%nat -> 0 <= i <= max_params ->
  let n := i + length (starts (length pre) s) in
  if n <=? max_params
  then param_loop f (length pre, i, pre ++ s ++ [0], params) =
         (Some (pre ++ map ended s ++ [0]), params ++ starts (length pre) s)
  else (param_loop f (length pre, i, pre ++ s ++ [0], params)).1 = None.
Proof.
  induction s as [|x s IH]; intros pre i params f Hs Hf Hi; (destruct f as [|f]; [simpl in Hf; lia|]);
    cbv zeta.
  - cbn [starts length map app]. if_true. unfold param_loop, param_step. cbv beta iota zeta.
    rewrite lookup_app_r, Nat.sub_diag by lia. cbn. by rewrite app_nil_r.
  - apply Forall_cons_iff in Hs as [Hx Hs]. simpl in Hf. cbn [param_loop]. unfold param_step. cbv zeta.
    rewrite lookup_app_r, Nat.sub_diag by lia.
    change (default 0 (((x :: s) ++ [0]) !! 0%nat)) with x.
    rewrite (proj2 (Z.eqb_neq x 0) Hx). cbn [starts map].
    assert (Hpre : forall y, length (pre ++ [y]) = S (length pre)) by (intros; rewrite length_app; simpl; lia).
    unfold ended at 1. destruct (Z.eqb_spec x 32) as [->|Hne].
    + cbn [length]. destruct (Z.geb_spec i max_params) as [Hge|Hlt].
      * if_false. done.
      * specialize (IH (pre ++ [0]) (i + 1) (params ++ [S (length pre)]) f Hs ltac:(lia) ltac:(lia)).
        rewrite Hpre, <- !app_assoc in IH. cbn [app] in IH.
        assert (E : <[length pre := 0]> (pre ++ (32 :: s) ++ [0]) = pre ++ 0 :: s ++ [0])
          by (rewrite insert_app_r_alt, Nat.sub_diag by lia; done).
        rewrite E.
        replace (i + S (length (starts (S (length pre)) s))) with (i + 1 + length (starts (S (length pre)) s)) by lia.
        exact IH.
    + specialize (IH (pre ++ [x]) i params f Hs ltac:(lia) Hi). rewrite Hpre, <- !app_assoc in IH. exact IH.
Qed.

(** The cable and its parameters are the fields of the target between spaces,
    up to twenty parameters. *)
Lemma jtag_target s cable params :
  Forall (fun c => c <> 0) s -> split_on 32 s = cable :: params ->
  (cut 32 s).1 = cable /\
  (match (cut 32 s).2 with Some sep => cable_params sep | None => Some [] end) =
    if Z.of_nat (length params) <=? max_params then Some params else None.
Proof.
  intros Hs Hf. rewrite cut_split in Hf. destruct (cut 32 s) as [l [[|y r]|]] eqn:E.
  - by apply cut_rest in E as [_ ?].
  - apply cut_rest in E as [-> [= ->]]. injection Hf as -> <-. split; [done|]. cbn [snd].
    apply Forall_app in Hs as [_ Hs]. unfold cable_params.
    pose proof (param_loop_ok (32 :: r) [] 0 [] (S (length (32 :: r))) Hs ltac:(lia) ltac:(done)) as Hl.
    pose proof (fields_text (32 :: r) [] Hs) as Ht. cbn [length map starts app split_on] in Ht, Hl |- *.
    change (32 =? 32) with true in Ht, Hl. cbv iota in Ht, Hl. injection Ht as Ht.
    rewrite <- Ht. cbn [map]. cbn [length map] in Hl |- *. rewrite !length_map. cbv zeta in Hl.
    rewrite Z.add_0_l in Hl. destruct (_ <=? max_params).
    + by rewrite Hl.
    + destruct (param_loop _ _) as [b p]. simpl in Hl. by subst b.
  - injection Hf as -> <-. done.
Qed.

Section jtag.
Context {N U H : Type} `{Sock N} `{Urj U} (scan : Z -> H -> Z * H) `{!Tap U H scan}.

Lemma urj_call_ok {A} (f : U -> A * U) (h : host N U) a u :
  f (h_urj h) = (a, u) -> urj_call f h = Ok a (with_urj u h).
Proof. intros E. unfold urj_call. by rewrite E. Qed.

Lemma wp_urj_call {A} (f : U -> A * U) a u (h : host N U) (Q : A -> host N U -> Prop) :
  f (h_urj h) = (a, u) -> Q a (with_urj u h) -> wp (urj_call f) Q h.
Proof. intros E HQ. unfold wp. by rewrite (urj_call_ok f h a u E). Qed.

(** The debug port's register is selected in the part and in the hardware. *)
Definition user_selected (v : setup) : Prop :=
  v_part v <> 0 /\ selected v = Some (tap_user, 74) /\ v_loaded v = Some tap_user.

(** A JTAG command shifts the request through the debug port. *)
Lemma jtag_command_ok op addr data (h : host N U) v w :
  tap_chain (h_jc h) v w (h_urj h) -> user_selected v ->
  let '(r, w') := scan (request op (default 0 data) addr) w in
  exists u', jtag_command op addr data h =
    Ok (r mod 4, (fun _ => Z.shiftr r 2 mod 2 ^ 64) <$> data) (with_urj u' h) /\
  tap_chain (h_jc h) v w' u'.
Proof.
  intros Hc (Hp & Hsel & Hld). destruct (tap_pointers _ _ _ _ _ Hc Hp Hsel) as [Hi Hd].
  set (dr := urj_data_register (urj_active_instruction (v_part v) (h_urj h)) (h_urj h)) in *.
  destruct (tap_set _ _ _ op 1 0 _ _ Hc Hp Hsel) as (u1 & S1 & C1 & I1 & D1); [lia..|]. fold dr in S1, I1, D1.
  destruct (tap_set _ _ _ (default 0 data) 65 2 _ _ C1 Hp Hsel) as (u2 & S2 & C2 & I2 & D2); [lia..|].
  rewrite D1 in S2, I2, D2.
  destruct (tap_set _ _ _ addr 73 66 _ _ C2 Hp Hsel) as (u3 & S3 & C3 & I3 & D3); [lia..|].
  rewrite D2 in S3, I3, D3. rewrite I2, I1, fields_request in I3 by apply tap_in_range.
  destruct (tap_scan _ _ _ _ C3 Hp Hsel Hld) as (u4 & S4 & C4 & O4 & D4). rewrite D3, I3 in C4, O4. rewrite D3 in D4.
  pose proof (tap_get _ _ _ 1 0 _ _ C4 Hp Hsel ltac:(lia) ltac:(lia) ltac:(lia)) as G1.
  pose proof (tap_get _ _ _ 65 2 _ _ C4 Hp Hsel ltac:(lia) ltac:(lia) ltac:(lia)) as G2.
  cbv zeta in G1, G2. rewrite D4, O4 in G1, G2. destruct (scan _ w) as [r w'] eqn:Es. cbn [fst snd] in *. exists u4. split; [|done].
  assert (E1 : bit_range r 1 0 = r mod 4) by (unfold bit_range; by rewrite Z.shiftr_0_r).
  assert (Hs32 : s32 (r mod 4) = r mod 4)
    by (apply s32_small; pose proof (Z.mod_pos_bound r 4 ltac:(lia)); lia).
  unfold jtag_command. cbv zeta. run_with reflexivity.
  run_with (apply urj_call_ok; by apply (tap_same_part _ _ _ _ Hc)). rewrite (proj2 (Z.eqb_neq _ 0) Hp).
  run_with reflexivity. cbn [h_urj with_urj]. rewrite (proj2 (Z.eqb_neq _ 0) Hi).
  run_with reflexivity. cbn [h_urj with_urj]. fold dr. rewrite (proj2 (Z.eqb_neq _ 0) Hd).
  run_with reflexivity. run_with (apply urj_call_ok, S1). rewrite Z.eqb_refl. cbn [negb].
  run_with reflexivity. run_with (apply urj_call_ok, S2). rewrite Z.eqb_refl. cbn [negb].
  run_with reflexivity. run_with (apply urj_call_ok, S3). rewrite Z.eqb_refl. cbn [negb].
  run_with (apply urj_call_ok, S4). rewrite Z.eqb_refl. cbn [negb].
  run_with reflexivity. run_with reflexivity. cbn [h_urj with_urj]. rewrite G1, E1, Hs32.
  destruct data as [d|]; [|done]. run_with reflexivity. run_with reflexivity. cbn [h_urj with_urj]. by rewrite G2.
Qed.

(** ** Opening a part *)

(** A call that answers a status, or a pointer, which the code then tests. *)
Lemma wp_status {A} (f : U -> Z * U) (P : U -> Prop) (F : Prop) (k0 k1 : M (host N U) A) Q (h : host N U) :
  (exists r u', f (h_urj h) = (r, u') /\ (r = URJ_STATUS_OK /\ P u' \/ r <> URJ_STATUS_OK /\ F)) ->
  (forall u', F -> wp k0 Q (with_urj u' h)) -> (forall u', P u' -> wp k1 Q (with_urj u' h)) ->
  wp (rc ← urj_call f; if negb (rc =? URJ_STATUS_OK) then k0 else k1) Q h.
Proof.
  intros (r & u1 & E & Hr) K0 K1. apply wp_bind. eapply wp_urj_call; [exact E|].
  destruct Hr as [[-> HP]|[Hr HF]]; [rewrite Z.eqb_refl; eauto|]. rewrite (proj2 (Z.eqb_neq _ _) Hr). eauto.
Qed.

Lemma wp_pointer {A} (f : U -> Z * U) (P : Z -> U -> Prop) (F : Prop) (k0 : M (host N U) A) k1 Q (h : host N U) :
  (exists p u', f (h_urj h) = (p, u') /\ (p <> 0 /\ P p u' \/ p = 0 /\ F)) ->
  (forall u', F -> wp k0 Q (with_urj u' h)) ->
  (forall p u', p <> 0 -> P p u' -> wp (k1 p) Q (with_urj u' h)) ->
  wp (p ← urj_call f; if p =? 0 then k0 else k1 p) Q h.
Proof.
  intros (r & u1 & E & Hr) K0 K1. apply wp_bind. eapply wp_urj_call; [exact E|].
  destruct Hr as [[Hr HP]|[-> HF]]; [rewrite (proj2 (Z.eqb_neq _ _) Hr); eauto|eauto].
Qed.

(** What is left alone by every call of the library. *)
Definition same_host (h h' : host N U) : Prop :=
  h_b h' = h_b h /\ h_sim_fd h' = h_sim_fd h /\ h_net h' = h_net h.

Definition cable_named (cable : list Z) : list Z :=
  if bool_decide (cable = codes "probe") then tap_found else cable.

Lemma cable_probe_ok cable jc (h : host N U) w :
  tap_alloc jc w (h_urj h) ->
  wp (cable_probe cable) (fun c h' => exists u', h' = with_urj u' h /\
    (c = Some (cable_named cable) /\ tap_alloc jc w u' \/ c = None /\ ~ tap_works)) h.
Proof.
  intros Ha. unfold cable_probe, cable_named. case_bool_decide.
  - apply wp_bind. destruct (tap_probe _ _ _ Ha) as (r & c & u & E & [(-> & -> & Ha')|(Hr & Hw)]);
      (eapply wp_urj_call; [exact E|]).
    + cbv beta iota. rewrite Z.eqb_refl. apply wp_ret. eauto 8.
    + cbv beta iota. rewrite (proj2 (Z.eqb_neq _ _) Hr). apply wp_ret. eauto 8.
  - apply wp_ret. exists (h_urj h). destruct h. eauto.
Qed.

Lemma chain_open_ok cable params freq (h : host N U) w :
  tap_off w (h_urj h) ->
  wp (chain_open cable params freq) (fun rc h' => same_host h h' /\
    (rc = 0 /\ tap_chain (h_jc h') (with_freq freq (connected_to (cable_named cable) params)) w (h_urj h')
     \/ rc = -1 /\ ~ tap_works)) h.
Proof.
  intros Hoff. unfold chain_open. apply wp_bind.
  destruct (tap_new _ _ Hoff) as (jc & u & E & [(Hjc & Ha)|(-> & Hw)]); (eapply wp_urj_call; [exact E|]).
  2:{ apply wp_bind, wp_modify, wp_ret. split; [done|]. eauto. }
  apply wp_bind, wp_modify. rewrite (proj2 (Z.eqb_neq _ _) Hjc). apply wp_bind, wp_modify, wp_bind.
  eapply wp_mono; [apply (cable_probe_ok _ jc _ w), tap_main_part, Ha|]. cbn beta.
  intros c h1 (u1 & -> & [(-> & Ha1)|(-> & Hw)]); [|apply wp_ret; split; [done|]; eauto].
  eapply wp_status; [by apply tap_connect|intros u2 Hw; apply wp_ret; split; [done|]; eauto|].
  intros u2 Hc. apply wp_bind. destruct (Z.eqb_spec freq 0) as [->|]; cbn [negb].
  - apply wp_ret, wp_ret. split; [done|]. by left.
  - apply wp_modify, wp_ret. split; [done|]. left. split; [done|]. by apply (tap_frequency jc).
Qed.

Definition defined (idcode user2 : list Z) (v : setup) : setup :=
  with_insn (codes "USER2") user2 (codes "USER2_REG") (with_reg (codes "USER2_REG") 74
    (with_insn (codes "IDCODE") idcode (codes "IDCODE_REG") (with_reg (codes "IDCODE_REG") 32 v))).

Lemma define_part_ok idcode user2 jc v (h : host N U) w :
  tap_chain jc v w (h_urj h) -> v_part v <> 0 ->
  Z.of_nat (length idcode) = v_ir v -> Z.of_nat (length user2) = v_ir v ->
  wp (define_part (v_part v) idcode user2) (fun rc h' => exists u', h' = with_urj u' h /\
    (rc = 0 /\ tap_chain jc (defined idcode user2 v) w u' \/ rc = -1 /\ ~ tap_works)) h.
Proof.
  intros Hc Hp Hl1 Hl2. unfold define_part.
  eapply wp_status; [by apply (tap_register jc)|intros; apply wp_ret; eauto 8|intros u1 C1].
  eapply (wp_pointer _ (fun _ => _)); [by apply (tap_instruction jc _ _ _ _ _ _ C1); [..|eexists; apply lookup_insert_eq]|
    intros; apply wp_ret; eauto 8|intros _ u2 _ C2].
  eapply wp_status; [exact (tap_register jc _ _ _ _ _ C2 Hp)|intros; apply wp_ret; eauto 8|intros u3 C3].
  eapply (wp_pointer _ (fun _ => _)); [by apply (tap_instruction jc _ _ _ _ _ _ C3); [..|eexists; apply lookup_insert_eq]|
    intros; apply wp_ret; eauto 8|intros _ u4 _ C4].
  apply wp_ret. exists u4. split; [done|]. by left.
Qed.

Lemma add_part_ok ir idcode user2 v (h : host N U) w :
  tap_chain (h_jc h) v w (h_urj h) -> Z.of_nat (length idcode) = ir -> Z.of_nat (length user2) = ir ->
  wp (add_part ir idcode user2) (fun p h' => exists u', h' = with_urj u' h /\
    (p <> 0 /\ tap_chain (h_jc h) (defined idcode user2 (with_part p (with_ir ir v))) w u'
     \/ p = 0 /\ ~ tap_works)) h.
Proof.
  intros Hc Hl1 Hl2. unfold add_part. apply wp_bind, wp_gets, wp_bind.
  destruct (tap_add _ _ ir _ _ Hc) as (r & u1 & E & Hr). eapply wp_urj_call; [exact E|].
  destruct Hr as [(Hr & C1 & k & Hk & Hk0)|(Hr & Hw)]; [if_false|if_true; apply wp_ret; eauto 8].
  apply wp_bind, wp_gets. cbn [h_urj with_urj]. rewrite Hk. simpl default.
  rewrite (proj2 (Z.eqb_neq _ _) Hk0). apply wp_bind, wp_modify, wp_bind, wp_modify.
  eapply (wp_pointer _ (fun p => tap_chain (h_jc h) (with_part p (with_ir ir v)) w));
    [apply tap_get_part, tap_active, tap_bypass, C1|intros; apply wp_ret; eauto 8|intros p u2 Hp C2].
  apply wp_bind. eapply wp_mono.
  - by apply (define_part_ok idcode user2 (h_jc h) (with_part p (with_ir ir v)) (with_urj u2 h) w).
  - cbn beta. intros rc h' (u' & -> & [[-> Hd]|[-> Hw]]); apply wp_ret; exists u'; eauto.
Qed.

Lemma selected_loaded c v : selected (with_loaded c v) = selected v.
Proof. done. Qed.

(** What is selected when [USER2] is. *)
Lemma defined_selected idcode user2 v c : v_part v <> 0 -> user2 = tap_user ->
  user_selected (with_loaded tap_user (with_active (codes "USER2") (with_loaded c (with_active (codes "IDCODE")
    (defined idcode user2 v))))).
Proof.
  intros Hp ->. split; [done|]. split; [|done]. unfold selected.
  cbn [with_loaded with_active v_active v_insns v_regs defined with_insn with_reg mbind option_bind].
  rewrite lookup_insert_eq. cbn. by rewrite lookup_insert_eq.
Qed.

Lemma select_user2_ok p idcode v (h : host N U) w :
  tap_chain (h_jc h) (defined idcode tap_user v) w (h_urj h) -> v_part v = p -> p <> 0 -> idcode <> tap_user ->
  wp (select_user2 p) (fun id h' => exists u' v', h' = with_urj u' h /\ user_selected v' /\
    tap_chain (h_jc h) v' w u' /\ v_cable v' = v_cable v /\ v_params v' = v_params v /\ v_freq v' = v_freq v) h.
Proof.
  intros Hc Hp Hp0 Hne. subst p. unfold select_user2. apply wp_bind, wp_gets.
  assert (Hsel : selected (with_active (codes "IDCODE") (defined idcode tap_user v)) = Some (idcode, 32)).
  { unfold selected.
    cbn [with_active v_active v_insns v_regs defined with_insn with_reg mbind option_bind].
    rewrite lookup_insert_ne, lookup_insert_eq by done. cbn.
    by rewrite lookup_insert_ne, lookup_insert_eq by done. }
  pose proof (tap_select _ _ (codes "IDCODE") _ _ Hc Hp0) as C1.
  specialize (C1 ltac:(eexists; cbn; rewrite lookup_insert_ne by done; apply lookup_insert_eq)).
  pose proof (tap_load _ _ _ _ _ _ C1 Hsel) as C2.
  destruct (tap_shift _ _ _ _ C2) as (r & u3 & E3 & C3); [cbn; congruence|].
  destruct (tap_pointers _ _ _ _ _ C3 Hp0 Hsel) as [Hi Hd]. change (v_part (with_loaded _ _)) with (v_part v) in Hi, Hd.
  apply wp_bind, wp_modify, wp_bind, wp_modify, wp_bind. eapply wp_urj_call; [exact E3|].
  unfold deref.
  apply wp_bind. rewrite (proj2 (Z.eqb_neq _ _) Hp0). apply wp_gets.
  apply wp_bind. cbn [h_urj with_urj]. rewrite (proj2 (Z.eqb_neq _ _) Hi). apply wp_gets.
  apply wp_bind. cbn [h_urj with_urj]. rewrite (proj2 (Z.eqb_neq _ _) Hd). apply wp_gets.
  apply wp_bind, wp_gets, wp_bind, wp_modify, wp_bind, wp_modify, wp_ret.
  pose proof (tap_select _ _ (codes "USER2") _ _ C3 Hp0) as C4.
  specialize (C4 ltac:(eexists; cbn; apply lookup_insert_eq)).
  destruct (defined_selected idcode tap_user v idcode Hp0 eq_refl) as (? & Hs & ?). rewrite selected_loaded in Hs.
  pose proof (tap_load _ _ _ _ _ _ C4 Hs) as C5. eexists _, _. split; [reflexivity|].
  split; [|split; [exact C5|done]]. by apply defined_selected.
Qed.

Lemma wp_on_dev {A} (c : M (host N U) A) (Q : A -> tool (host N U) -> Prop) s :
  wp c (fun a t => Q a (with_dev t s)) (t_dev s) -> wp (on_dev c) Q s.
Proof. unfold wp, on_dev. by destruct (c (t_dev s)). Qed.

(** What opening a back end leaves alone of the tool, beside its output. *)
Definition same_tool (s s' : tool (host N U)) : Prop :=
  t_core s' = t_core s /\ t_debug s' = t_debug s /\ t_fs s' = t_fs s /\ same_host (t_dev s) (t_dev s').

(** The part is open: the cable, its parameters and its speed are what was
    asked for, and the debug port is selected. *)
Definition opened (cable : list Z) (params : list (list Z)) (freq : Z) (w : H) (h : host N U) : Prop :=
  exists v, tap_chain (h_jc h) v w (h_urj h) /\ user_selected v /\
  v_cable v = cable /\ v_params v = params /\ v_freq v = freq.

Lemma common_jtag_init_ok target freq (s : tool (host N U)) w cable params :
  let text := default (codes "probe") target in
  Forall (fun c => c <> 0) text -> split_on 32 text = cable :: params -> tap_off w (h_urj (t_dev s)) ->
  wp (common_jtag_init target freq) (fun rc s' => same_tool s s' /\
    (rc = 0 /\ length params <= max_params /\
       tap_chain (h_jc (t_dev s')) (with_freq freq (connected_to (cable_named cable) params)) w (h_urj (t_dev s'))
     \/ rc = -1 /\ (max_params < length params \/ ~ tap_works))) s.
Proof.
  intros text Ht Hs Hoff. unfold common_jtag_init. fold text.
  destruct (jtag_target _ _ _ Ht Hs) as [Hcable Hparams].
  destruct (cut 32 text) as [c sep]. simpl in Hcable, Hparams. subst c. rewrite Hparams.
  destruct (Z.leb_spec (length params) max_params) as [Hle|Hgt].
  2:{ apply wp_ret. split; [done|]. right. eauto. }
  apply wp_bind, wp_gets, wp_bind.
  assert (Hopen : forall s1, same_tool s s1 -> t_dev s1 = t_dev s ->
    wp (on_dev (chain_open cable params freq)) (fun rc s' => same_tool s s' /\
    (rc = 0 /\ length params <= max_params /\
       tap_chain (h_jc (t_dev s')) (with_freq freq (connected_to (cable_named cable) params)) w (h_urj (t_dev s'))
     \/ rc = -1 /\ (max_params < length params \/ ~ tap_works))) s1).
  { intros s1 (? & ? & ? & _) Hs1. apply wp_on_dev. eapply wp_mono; [apply chain_open_ok; by rewrite Hs1|].
    cbn beta. intros rc h' (Hh & Hr). rewrite Hs1 in Hh. split; [done|].
    destruct Hr as [[-> Hr]|[-> Hr]]; [left|right]; eauto. }
  destruct (t_debug s).
  - unfold print. apply wp_modify. by apply Hopen.
  - apply wp_ret. by apply Hopen.
Qed.

Lemma part_init_ok ir idcode target freq (s : tool (host N U)) w cable params :
  let text := default (codes "probe") target in
  Forall (fun c => c <> 0) text -> split_on 32 text = cable :: params -> tap_off w (h_urj (t_dev s)) ->
  Z.of_nat (length idcode) = ir -> Z.of_nat (length tap_user) = ir -> idcode <> tap_user ->
  wp (part_init ir idcode tap_user target freq) (fun rc s' => same_tool s s' /\
    (rc = 0 /\ length params <= max_params /\ opened (cable_named cable) params freq w (t_dev s')
     \/ rc = -1 /\ (max_params < length params \/ ~ tap_works))) s.
Proof.
  intros text Ht Hs Hoff Hl1 Hl2 Hne. unfold part_init. apply wp_bind.
  eapply wp_mono; [by apply common_jtag_init_ok|]. cbn beta.
  intros rc s1 (Hsame & [(-> & Hle & Hc)|(-> & Hbad)]); [if_false|if_true; apply wp_ret; split; eauto].
  apply wp_bind, wp_on_dev. eapply wp_mono; [by apply add_part_ok|]. cbn beta.
  intros p h2 (u2 & -> & [(Hp & Hd)|(-> & Hw)]); [|apply wp_ret; split; eauto].
  rewrite (proj2 (Z.eqb_neq _ _) Hp). apply wp_bind, wp_on_dev.
  eapply wp_mono; [by eapply (select_user2_ok p idcode)|]. cbn beta.
  intros id h3 (u3 & v3 & -> & Hu & Hc3 & Hcab & Hpar & Hfr). apply wp_bind. unfold print. apply wp_modify, wp_ret.
  split; [done|]. left. split; [done|]. split; [done|]. by exists v3.
Qed.
End jtag.

(** ** The target of the simulation back end *)

Lemma host_digit_base base c : base <= 36 -> host_digit base c = base_digit base c.
Proof.
  intros Hb. unfold host_digit, base_digit, digit_of.
  destruct ((48 <=? c) && (c <=? 57)); [done|].
  destruct ((97 <=? c) && (c <=? 122)); [by replace (c - 97 + 10) with (c - 87) by lia|].
  destruct ((65 <=? c) && (c <=? 90)); [by replace (c - 65 + 10) with (c - 55) by lia|].
  by destruct (Z.ltb_spec 36 base); [lia|].
Qed.

Lemma host_digits_value base ds : 2 <= base <= 16 -> all_digits base ds ->
  forall acc, host_digits base acc ds = digits_value base acc ds.
Proof.
  intros Hb. induction 1 as [|c ds [d Hd] Hds IH]; intros acc; [done|]. cbn [host_digits digits_value].
  rewrite host_digit_base, Hd by lia. apply IH.
Qed.

(** A digit is neither a blank nor a sign nor the letter of a prefix. *)
Lemma digit_first base c s : base <= 16 -> is_Some (base_digit base c) ->
  host_skip (c :: s) = c :: s /\ host_sign (c :: s) = (false, c :: s) /\ c <> 120 /\ c <> 88.
Proof.
  intros Hb [d Hd]. unfold base_digit, digit_of in Hd.
  assert (Hc : 48 <= c <= 57 \/ 97 <= c <= 102 \/ 65 <= c <= 70).
  { destruct (Z.leb_spec 48 c), (Z.leb_spec c 57), (Z.leb_spec 97 c), (Z.leb_spec c 122),
      (Z.leb_spec 65 c), (Z.leb_spec c 90); simpl in Hd; try discriminate; try lia;
      destruct (Z.ltb_spec (c - 97 + 10) base) as [|]; destruct (Z.ltb_spec (c - 65 + 10) base);
      try discriminate; lia. }
  split_and!; [| |lia|lia].
  - simpl. replace (host_space c) with false; [done|]. unfold host_space. lia.
  - unfold host_sign.
    repeat match goal with |- context [match ?x with _ => _ end] => is_var x; destruct x; try done; try lia end.
Qed.

Lemma host_strtoul_text base v up : base = 10 \/ base = 16 -> in_u64 v ->
  host_strtoul base (num_text up base v) = v.
Proof.
  intros Hb Hv. unfold in_u64 in Hv. assert (Hbr : 2 <= base <= 16) by lia.
  pose proof (to_digits_all 64 up base v Hbr ltac:(lia)) as Hall. fold (num_text up base v) in Hall.
  pose proof (to_digits_value 64 up base v Hbr) as Hval. fold (num_text up base v) in Hval.
  specialize (Hval (conj (proj1 Hv) (num_fits base v ltac:(lia) Hv))).
  pose proof (host_digits_value base _ Hbr Hall 0) as Hd. rewrite Hval in Hd.
  destruct (num_text up base v) as [|c ds]; [simpl in Hd; subst v; by destruct Hb as [-> | ->]|].
  apply Forall_cons_iff in Hall as [Hc Hds].
  destruct (digit_first base c ds ltac:(lia) Hc) as (E1 & E2 & _). unfold host_strtoul. rewrite E1, E2.
  assert (E3 : host_prefix base (c :: ds) = c :: ds).
  { destruct ds as [|c2 ds]; [by destruct c as [|[]|]; repeat (done || destruct p)|].
    apply Forall_cons_iff in Hds as [Hc2 _]. destruct (digit_first base c2 ds ltac:(lia) Hc2) as (_ & _ & N1 & N2).
    unfold host_prefix. rewrite (proj2 (Z.eqb_neq _ _) N1), (proj2 (Z.eqb_neq _ _) N2). cbn [orb].
    rewrite andb_false_r. cbn [andb].
    repeat match goal with |- context [match ?x with _ => _ end] => is_var x; destruct x; try done end. }
  rewrite E3, Hd. destruct (Z.leb_spec (2 ^ 64) v); [lia|done].
Qed.

Lemma cut_at c l r : ~ In c l -> cut c (l ++ c :: r) = (l, Some (c :: r)).
Proof.
  induction l as [|x l IH]; intros Hl; simpl; [by rewrite Z.eqb_refl|].
  destruct (Z.eqb_spec x c) as [->|]; [exfalso; apply Hl; by left|]. rewrite IH; [done|].
  intros Hin. apply Hl. by right.
Qed.

(** The target names a host and a port, and without one the simulator's own
    port on this machine. *)
Definition names (target : option (list Z)) (host : list Z) (port : Z) : Prop :=
  match target with
  | None => host = codes "localhost" /\ port = TCP_PORT
  | Some t => t = host ++ 58 :: num_text false 10 port /\ ~ In 58 host
  end.

Lemma sim_target_ok target host port : names target host port -> 0 <= port < 2 ^ 16 ->
  sim_target target = (host, port).
Proof.
  intros Hn Hp. unfold sim_target. destruct target as [t|].
  - destruct Hn as [-> Hh]. cbn [from_option id]. rewrite cut_at by done.
    rewrite host_strtoul_text by (unfold in_u64; lia). by rewrite s32_small by lia.
  - by destruct Hn as [-> ->].
Qed.

(** ** Contract of the network: a simulator at the other end *)

(** [sim_peer fd w n]: descriptor [fd] is connected to a simulation whose
    system is in state [w], and nothing is in flight. *)
Class Simulator (N H : Type) `{Sock N} (scan : Z -> H -> Z * H) := {
  sim_listens : list Z -> Z -> H -> N -> Prop;
  sim_peer : Z -> H -> N -> Prop;
  sim_hw : N -> H;
  sim_peer_hw fd w n : sim_peer fd w n -> sim_hw n = w;
  sim_dial host port w n : sim_listens host port w n -> exists fd addr r n1 n2 n3,
    sock_socket n = (fd, n1) /\ 0 <= fd /\ sock_gethostbyname host n1 = (Some addr, n2) /\
    sock_connect fd addr port n2 = (r, n3) /\ 0 <= r /\ sim_peer fd w n3;
  sim_exchange fd w n v : sim_peer fd w n -> 0 <= v < 2 ^ 74 -> exists r n1 n2,
    sock_write fd (74 :: le_bytes 10 v) n = (r, n1) /\ 0 <= r /\
    sock_read fd 16 n1 = (74 :: le_bytes 9 (scan v w).1, n2) /\ sim_peer fd (scan v w).2 n2
}.

Section sim.
Context {N U H : Type} `{Sock N} `{Urj U} (scan : Z -> H -> Z * H) `{!Simulator N H scan}.

(** A command of the simulation back end is the same exchange. *)
Lemma host_sim_command_ok op addr data (h : host N U) w :
  sim_peer (h_sim_fd h) w (h_net h) ->
  let '(r, w') := scan (request op (default 0 data) addr) w in
  exists n', sim_command op addr data h =
    Ok (r mod 4, (fun _ => Z.shiftr r 2 mod 2 ^ 64) <$> data) (with_net n' h) /\ sim_peer (h_sim_fd h) w' n'.
Proof.
  intros Hp. set (v := request op (default 0 data) addr).
  destruct (sim_exchange _ _ _ v Hp (request_range _ _ _)) as (rc & n1 & n2 & Hw & Hrc & Hr & Hp').
  destruct (scan v w) as [r w'] eqn:Es. cbn [fst snd] in *. exists n2. split; [|done].
  assert (Hlen : length (le_bytes 9 r) = 9%nat) by apply le_bytes_length.
  rewrite (sim_command_ok op addr data h (with_net n1 h) (with_net n2 h) rc 74 (le_bytes 9 r)).
  - pose proof (le_bytes_field 9 r 0 2 ltac:(lia) ltac:(lia) ltac:(lia)) as E1.
    pose proof (le_bytes_field 9 r 2 64 ltac:(lia) ltac:(lia) ltac:(lia)) as E2.
    rewrite !Z.shiftr_0_r in E1. change (2 ^ 2) with 4 in E1. by rewrite E1, E2.
  - unfold host_link. cbn [link_write]. fold v. by rewrite Hw.
  - done.
  - unfold host_link. cbn [link_read h_sim_fd h_net with_net]. by rewrite Hr.
  - constructor; [unfold in_u8; lia|apply le_bytes_in_u8].
  - lia.
Qed.

Lemma sim_init_ok target freq (s : tool (host N U)) host port w :
  names target host port -> 0 <= port < 2 ^ 16 -> sim_listens host port w (h_net (t_dev s)) ->
  exists s', sim_init target freq s = Ok 0 s' /\ h_b (t_dev s') = h_b (t_dev s) /\
  sim_peer (h_sim_fd (t_dev s')) w (h_net (t_dev s')) /\
  t_core s' = t_core s /\ t_debug s' = t_debug s /\ t_fs s' = t_fs s /\
  t_out s' = t_out s ++ (if t_debug s
    then codes "Opening sim backend host '" ++ host ++ codes "' port " ++ dec port ++ [10] else []).
Proof.
  intros Hn Hp Hl. unfold sim_init. rewrite (sim_target_ok _ _ _ Hn Hp).
  destruct (sim_dial _ _ _ _ Hl) as (fd & addr & r & n1 & n2 & n3 & E1 & Hfd & E2 & E3 & Hr & Hpeer).
  run_with reflexivity. set (o := if t_debug s then codes _ ++ _ else []).
  assert (Ho : ((if t_debug s then print (codes "Opening sim backend host '" ++ host ++ codes "' port " ++ dec port ++ [10])
      else mret tt) : M (tool (MwBackend.host N U)) unit) s = Ok tt (with_out (t_out s ++ o) s)).
  { subst o. destruct (t_debug s); [done|]. rewrite app_nil_r. by destruct s. }
  run_with (exact Ho). unfold on_dev. cbn [t_dev with_out].
  run_with (unfold net_call; rewrite E1; reflexivity). run_with reflexivity. if_false.
  run_with (unfold net_call; cbn [h_net with_net]; rewrite E2; reflexivity).
  assert (Hu : u16 port = port) by (by apply Z.mod_small). rewrite Hu.
  run_with (unfold net_call; cbn [h_net with_net]; rewrite E3; reflexivity). if_false.
  eexists. split; [reflexivity|]. by split_and!.
Qed.
End sim.
