(* ===== verification/DebugStack.v ===== *)
(** * The debug tool on top of its back ends

    From the command line to the device: the three back ends perform the same
    exchange with the debug port, whatever carries it, so the contract the
    tool's commands are proved against holds of the real program; and the
    simulation, with its socket code, is a network with a simulator at the
    other end.  The last theorem is about the whole program. *)

From S2P Require Import Prelude CMem Ctype Vhpi Vsnprintf SimLink Jtag MwDebug MwDebugSpec MwDebugShow MwBackend MwBackendSpec.

(** ** The debug port as the back ends see it *)

(** A port that takes 74 bits and gives 74 bits: an operation that is started
    is reported done within a number of scans. *)
Class ScanPort (H D : Type) `{Device D} (scan : Z -> H -> Z * H) (polls : nat) := {
  port_idle : H -> Prop;
  port_dev : H -> D;
  port_busy : nat -> option Z -> D -> H -> Prop;
  port_read h a x : port_idle h -> in_u8 a -> exists n, (n < polls)%nat /\
    port_busy n (Some (rd a (port_dev h)).1) (rd a (port_dev h)).2 (scan (request 1 x a) h).2;
  port_write h a v : port_idle h -> in_u8 a -> in_u64 v -> exists n, (n < polls)%nat /\
    port_busy n None (wr a v (port_dev h)) (scan (request 2 v a) h).2;
  port_poll n v d h x : port_busy n v d h ->
    let '(r, h') := scan (request 0 x 0) h in
    match n with
    | O => r mod 4 = 0 /\ (is_Some v -> v = Some (Z.shiftr r 2 mod 2 ^ 64)) /\ port_idle h' /\ port_dev h' = d
    | S n' => r mod 4 <> 0 /\ port_busy n' v d h'
    end
}.

Section stack.
Context {N U H D : Type} `{Sock N} `{Urj U} `{Device D} (scan : Z -> H -> Z * H) (polls : nat).
Context `{!Simulator N H scan} `{!Tap U H scan} `{!ScanPort H D scan polls}.

(** The back end in use is open, and the system behind it is [w]. *)
Definition open (w : H) (h : host N U) : Prop :=
  match h_b h with
  | Sim => sim_peer (h_sim_fd h) w (h_net h)
  | Bscane2 | Ecp5 => exists v, tap_chain (h_jc h) v w (h_urj h) /\ user_selected scan v
  end.

Definition system_of (h : host N U) : H :=
  match h_b h with Sim => sim_hw (h_net h) | Bscane2 | Ecp5 => tap_hw (h_urj h) end.

Lemma open_system w h : open w h -> system_of h = w.
Proof.
  unfold open, system_of. destruct (h_b h); [apply sim_peer_hw|..]; intros (v & Hc & _); by eapply tap_chain_hw.
Qed.

(** Every back end exchanges the same 74 bits with the port. *)
Lemma host_command_ok op addr data h w :
  open w h ->
  let '(r, w') := scan (request op (default 0 data) addr) w in
  exists h', backend_command op addr data h =
    Ok (r mod 4, (fun _ => Z.shiftr r 2 mod 2 ^ 64) <$> data) h' /\ open w' h' /\ h_b h' = h_b h.
Proof.
  intros Ho. unfold open in Ho. unfold backend_command, host_backend.
  destruct (h_b h) eqn:Eb.
  { pose proof (host_sim_command_ok scan op addr data h w Ho) as Hc. destruct (scan _ w) as [r w'].
    destruct Hc as (n' & Hc & Hp). exists (with_net n' h). rewrite Hc. split; [done|].
    split; [|done]. unfold open. cbn [h_b with_net h_sim_fd h_net]. by rewrite Eb. }
  all: destruct Ho as (v & Hv & Hs); pose proof (jtag_command_ok scan op addr data h v w Hv Hs) as Hc;
    destruct (scan _ w) as [r w']; destruct Hc as (u' & Hc & Hp); exists (with_urj u' h); rewrite Hc;
    (split; [done|]); (split; [|done]); unfold open; cbn [h_b with_urj]; rewrite Eb; by exists v.
Qed.

(** The contract of the tool's commands holds of every back end. *)
#[export] Instance host_dmi : @Dmi (host N U) D host_backend _ polls.
Proof.
  unshelve refine {| dmi_idle h := exists w, open w h /\ port_idle w; dmi_dev h := port_dev (system_of h);
            dmi_busy n v d h := exists w, open w h /\ port_busy n v d w |}.
  - intros h a x (w & Ho & Hi) Ha. rewrite (open_system _ _ Ho).
    pose proof (host_command_ok 1 a (Some x) h w Ho) as Hc. cbn [from_option id] in Hc.
    destruct (port_read w a x Hi Ha) as (n & Hn & Hb). destruct (scan _ w) as [r w']. destruct Hc as (h' & Hc & Ho' & _).
    do 2 eexists. exists h', n. split; [exact Hc|]. split; [apply Z.mod_pos_bound; lia|]. eauto.
  - intros h a x (w & Ho & Hi) Ha Hx. rewrite (open_system _ _ Ho).
    pose proof (host_command_ok 2 a (Some x) h w Ho) as Hc. cbn [from_option id] in Hc.
    destruct (port_write w a x Hi Ha Hx) as (n & Hn & Hb). destruct (scan _ w) as [r w']. destruct Hc as (h' & Hc & Ho' & _).
    do 2 eexists. exists h', n. split; [exact Hc|]. split; [apply Z.mod_pos_bound; lia|]. eauto.
  - intros n v d h q (w & Ho & Hb) Hq.
    pose proof (host_command_ok 0 0 q h w Ho) as Hc. pose proof (port_poll n v d w (default 0 q) Hb) as Hp.
    destruct (scan _ w) as [r w']. destruct Hc as (h' & Hc & Ho' & _). do 2 eexists. exists h'. split; [exact Hc|].
    pose proof (Z.mod_pos_bound r 4 ltac:(lia)). destruct n as [|n].
    + destruct Hp as (Hr & Hv & Hi & Hd). rewrite (open_system _ _ Ho'). split; [done|].
      split; [|eauto]. destruct q as [q|], v as [v|]; try done; [symmetry; auto|..];
        destruct Hq as [Hq1 Hq2]; [destruct Hq1|destruct Hq2]; done.
    + destruct Hp as [Hr Hb']. split; [lia|]. eauto.
Defined.

(** ** Opening *)

(** The instruction that connects the debug port of each kind of part. *)
Definition user_code (b : backend_kind) : list Z :=
  match b with Sim => [] | Bscane2 => codes "000011" | Ecp5 => codes "00110010" end.

(** There is a system [w] for the back end to reach. *)
Definition reachable (b : backend_kind) (target : option (list Z)) (w : H) (h : host N U) : Prop :=
  match b with
  | Sim => exists host port, names target host port /\ 0 <= port < 2 ^ 16 /\ sim_listens host port w (h_net h)
  | Bscane2 | Ecp5 =>
      let text := default (codes "probe") target in
      user_code b = tap_user /\ tap_works /\ tap_off w (h_urj h) /\ Forall (fun c => c <> 0) text /\
      Z.of_nat (length (split_on 32 text)) <= max_params + 1
  end.

Lemma backend_open_ok b target freq (s : tool (host N U)) w :
  reachable b target w (t_dev s) ->
  exists s', backend_init b target freq s = Ok 0 s' /\ open w (t_dev s') /\
  t_core s' = t_core s /\ t_debug s' = t_debug s /\ t_fs s' = t_fs s.
Proof.
  intros Hr. unfold backend_init. run_with reflexivity. set (s1 := with_dev _ s).
  assert (Hpart : forall ir idcode cable params, b <> Sim ->
    wp (part_init ir idcode tap_user target freq) (fun rc s' => same_tool s1 s' /\
      (rc = 0 /\ length params <= max_params /\ opened scan (cable_named scan cable) params freq w (t_dev s')
       \/ rc = -1 /\ (max_params < length params \/ ~ tap_works))) s1 ->
    length params <= max_params -> tap_works -> exists s',
    part_init ir idcode tap_user target freq s1 = Ok 0 s' /\ open w (t_dev s') /\
    t_core s' = t_core s /\ t_debug s' = t_debug s /\ t_fs s' = t_fs s).
  { intros ir idcode cable params Hb Hwp Hle Hw. apply wp_spec in Hwp as (rc & s' & E & (? & ? & ? & Hh & _) & Hrc).
    destruct Hrc as [(-> & _ & v & Hc & Hu & _)|(_ & [?|?])]; [|lia|done]. exists s'. split; [done|].
    split; [|done]. unfold open. rewrite Hh. cbn. destruct b; [done|..]; by exists v. }
  destruct b.
  - destruct Hr as (host & port & Hn & Hp & Hl).
    destruct (sim_init_ok scan target freq s1 host port w Hn Hp Hl) as (s' & E & Hb & Hpeer & ? & ? & ? & _).
    exists s'. split; [done|]. split; [|done]. unfold open. by rewrite Hb.
  - destruct Hr as (Hu & Hw & Hoff & Ht & Hlen). destruct (split_on_cons 32 (default (codes "probe") target)) as (c & l & Hs).
    rewrite Hs in Hlen. cbn [length] in Hlen. unfold bscane2_init. cbn [user_code] in Hu. rewrite Hu.
    eapply (Hpart 6 (codes "001001") c l); [done| |lia|done].
    apply part_init_ok; rewrite <- ?Hu; try done.
  - destruct Hr as (Hu & Hw & Hoff & Ht & Hlen). destruct (split_on_cons 32 (default (codes "probe") target)) as (c & l & Hs).
    rewrite Hs in Hlen. cbn [length] in Hlen. unfold ecp5_init. cbn [user_code] in Hu. rewrite Hu.
    eapply (Hpart 8 (codes "11100000") c l); [done| |lia|done].
    apply part_init_ok; rewrite <- ?Hu; try done.
Qed.
End stack.

(** ** The simulation is a simulator

    The socket code of the simulation, between a stream and a system whose
    debug port is [scan], is a network as the contract of the simulation back
    end wants it. *)

(** Connecting: the client has dialled, and may have written, before the server
    accepts. *)
Class Dial (T : Type) `{Sock T} `{Wire T} := {
  dial_listens : list Z -> Z -> T -> Prop;
  dial_pending : T -> Prop;
  dial_written : list Z -> T -> Prop;
  dial_connect host port t : dial_listens host port t -> exists fd addr r t1 t2 t3,
    sock_socket t = (fd, t1) /\ 0 <= fd /\ sock_gethostbyname host t1 = (Some addr, t2) /\
    sock_connect fd addr port t2 = (r, t3) /\ 0 <= r /\ dial_pending t3;
  dial_write t l : dial_pending t -> exists r t', link_write l t = (r, t') /\ 0 <= r /\ dial_written l t';
  dial_accept fd t l : dial_written l t -> 0 <= fd -> exists c t',
    net_accept fd t = (c, t') /\ 0 <= c /\ wire_down l t'
}.

Section served_simulator.
Context {T H : Type} `{Sock T} `{Wire T} `{!Dial T} (vhpi0 vhpi1 : Z).
Hypothesis vhpi_distinct : vhpi0 <> vhpi1.
Hypothesis vhpi_bytes : in_u8 vhpi0 /\ in_u8 vhpi1.
Context (out_msg out_size in_msg in_size : Z) (hw : mem -> H -> mem * H) (scan : Z -> H -> Z * H).
Hypothesis areas : out_msg + 74 <= out_size \/ out_size + 8 <= out_msg.
Hypothesis port : vhdl_port vhpi0 vhpi1 out_msg out_size in_msg in_size hw scan.
Context (junk : list Z).
Hypothesis junk_bytes : Forall in_u8 junk /\ length junk = 32%nat.

Local Abbreviation link := (served_link (T := T) vhpi0 vhpi1 out_msg out_size in_msg in_size hw junk).

(** The tool's side of the stream, the simulator being at the other end. *)
Definition on_stream {A} (f : T -> A * T) (s : jtag T * H) : A * (jtag T * H) :=
  let '(a, t) := f (j_net s.1) in (a, (Jtag.with_net t s.1, s.2)).

#[export] Instance served_sock : Sock (jtag T * H) := {
  sock_socket := on_stream sock_socket;
  sock_gethostbyname host := on_stream (sock_gethostbyname host);
  sock_connect fd addr p := on_stream (sock_connect fd addr p);
  sock_write _ := @link_write _ link;
  sock_read _ := @link_read _ link;
  sock_close fd s := (on_stream (fun t => (tt, sock_close fd t)) s).2
}.

(** Listening, with a client that has dialled or none; or connected. *)
Definition listening (j : jtag T) : Prop := 0 <= j_fd j /\ j_cfd j < 0 /\ vhdl_memory out_msg out_size (j_mem j).

Definition peer (w : H) (s : jtag T * H) : Prop :=
  s.2 = w /\ (ready out_msg out_size s.1 \/ listening s.1 /\ dial_pending (j_net s.1)).

Lemma on_stream_ok {A} (f : T -> A * T) j (h : H) a t :
  f (j_net j) = (a, t) -> on_stream f (j, h) = (a, (Jtag.with_net t j, h)).
Proof. intros E. unfold on_stream. cbn [fst snd]. by rewrite E. Qed.

(** What the client wrote is served, whether it has been accepted or not. *)
Lemma exchange_ok (v : Z) s w :
  peer w s -> 0 <= v < 2 ^ 74 -> exists r s1 s2,
  @link_write _ link (74 :: le_bytes 10 v) s = (r, s1) /\ 0 <= r /\
  @link_read _ link 16 s1 = (74 :: le_bytes 9 (scan v w).1, s2) /\ peer (scan v w).2 s2.
Proof.
  destruct s as [j h]. intros [Hw Hp] Hv. cbn [fst snd] in *. subst h. destruct junk_bytes as [Hu Hj].
  assert (Hserved : exists r t1 j', link_write (74 :: le_bytes 10 v) (j_net j) = (r, t1) /\ 0 <= r /\
    serve vhpi0 vhpi1 out_msg out_size in_msg in_size hw junk (Jtag.with_net t1 j, w) = Ok tt (j', (scan v w).2) /\
    connected j' /\ vhdl_memory out_msg out_size (j_mem j') /\
    wire_up (74 :: le_bytes 9 (scan v w).1) (j_net j')).
  { destruct Hp as [(Hc & Hi & Hm)|((Hfd & Hcfd & Hm) & Hpend)].
    - destruct (wire_write _ (74 :: le_bytes 10 v) Hi) as (r & t1 & Hwr & Hr & Hd). exists r, t1.
      destruct (serve_ok vhpi0 vhpi1 vhpi_distinct vhpi_bytes _ _ _ _ hw scan areas port junk
        (Jtag.with_net t1 j) w v Hc Hm Hv Hd Hu Hj) as (j' & Hs & Hc' & Hm' & Hup). by exists j'.
    - destruct (dial_write _ (74 :: le_bytes 10 v) Hpend) as (r & t1 & Hwr & Hr & Hd). exists r, t1.
      destruct (dial_accept (j_fd j) _ _ Hd Hfd) as (c & t2 & Ha & Hc & Hd2).
      destruct (serve_ok vhpi0 vhpi1 vhpi_distinct vhpi_bytes _ _ _ _ hw scan areas port junk
        (Jtag (j_fd j) c t2 (j_mem j)) w v (conj Hfd Hc) Hm Hv Hd2 Hu Hj) as (j' & Hs & Hc' & Hm' & Hup).
      exists j'. split_and!; try done. rewrite <- Hs. unfold serve, on_jtag, mbind, M_bind.
      by rewrite (read_msg_accepts vhpi0 vhpi1 out_msg out_size (Jtag.with_net t1 j) c t2) by done. }
  destruct Hserved as (r & t1 & j' & Hwr & Hr & Hs & Hc & Hm & Hup).
  destruct (wire_reply _ _ Hup) as (t3 & Hrd & Hi3); [cbn [length]; rewrite le_bytes_length; lia|].
  exists r, (Jtag.with_net t1 j, w), (Jtag.with_net t3 j', (scan v w).2). split_and!.
  - unfold served_link. cbn [link_write]. by rewrite Hwr.
  - done.
  - unfold served_link. cbn [link_read]. rewrite Hs. cbn [out_state]. by rewrite Hrd.
  - split; [done|]. by left.
Qed.

#[export] Instance served_simulator : @Simulator (jtag T * H) H served_sock scan.
Proof.
  refine {| sim_listens host p w s := s.2 = w /\ listening s.1 /\ dial_listens host p (j_net s.1);
            sim_peer _ := peer; sim_hw := snd |}.
  - by intros fd w s [? _].
  - intros host p w [j h] (Hw & Hl & Hd). cbn [fst snd] in *. subst h.
    destruct (dial_connect _ _ _ Hd) as (fd & addr & r & t1 & t2 & t3 & E1 & Hfd & E2 & E3 & Hr & Hp).
    exists fd, addr, r, (Jtag.with_net t1 j, w), (Jtag.with_net t2 j, w), (Jtag.with_net t3 j, w).
    split; [by apply on_stream_ok|]. split; [done|]. split; [by apply (on_stream_ok _ (Jtag.with_net t1 j))|].
    split; [by apply (on_stream_ok _ (Jtag.with_net t2 j))|]. split; [done|]. split; [done|]. by right.
  - intros fd w s v. apply exchange_ok.
Defined.
End served_simulator.

(** ** Theorems *)

(** C20: the simulation and the two kinds of JTAG part are the same back end to
    the rest of the tool.  Two programs whose back ends are open on systems in
    the same state, over any two of the three, get the same status and the same
    data from any command, and leave their systems in the same state. *)
Theorem backends_agree {N U H} `{Sock N} `{Urj U} (scan : Z -> H -> Z * H)
    `{!Simulator N H scan} `{!Tap U H scan} op addr data (h1 h2 : host N U) w :
  open scan w h1 -> open scan w h2 -> exists r h1' h2' w',
  host_backend op addr data h1 = Ok r h1' /\ host_backend op addr data h2 = Ok r h2' /\
  open scan w' h1' /\ open scan w' h2' /\ h_b h1' = h_b h1 /\ h_b h2' = h_b h2.
Proof.
  intros O1 O2. pose proof (host_command_ok scan op addr data h1 w O1) as C1.
  pose proof (host_command_ok scan op addr data h2 w O2) as C2. destruct (scan _ w) as [r w'].
  destruct C1 as (h1' & E1 & O1' & B1), C2 as (h2' & E2 & O2' & B2). by eexists _, h1', h2', w'.
Qed.

(** ** Opening a part of any library *)




Section any_library.
Context {N U : Type} `{Sock N} `{Urj U}.











End any_library.



(** Reading a register of the port leaves memory alone. *)
Class Quiet (D : Type) `{Wishbone D} := quiet_read : forall d a k, wb_word (rd a d).2 k = wb_word d k.

Definition backend_name (b : backend_kind) : list Z :=
  match b with Sim => codes "sim" | Bscane2 => codes "bscane2" | Ecp5 => codes "ecp5" end.

(** The options that choose a back end and a target. *)
Definition options (b : backend_kind) (target : option (list Z)) : list (Z * option (list Z)) :=
  (98, Some (backend_name b)) :: match target with Some t => [(116, Some t)] | None => [] end.

Lemma set_options_ok {T} b target (s : tool T) :
  set_options (Settings None None 0) (options b target) s = Ok (Settings (Some b) target 0) s.
Proof. by destruct b, target. Qed.

(** C9: the whole program, from its command line to the memory of the target:
    with options that name a back end and a target that is there, "mw" with an
    address and a value in hexadecimal opens the back end, writes the word and
    exits with 0.  Over the simulation's socket or over either kind of JTAG
    part, exactly that word of the target's memory has changed, and no file
    has. *)
Theorem mw_debug_writes {N U H D} `{Sock N} `{Urj U} `{Device D} (scan : Z -> H -> Z * H) polls
    `{!Simulator N H scan} `{!Tap U H scan} `{!ScanPort H D scan polls} `{!Wishbone D} `{!Quiet D}
    junk b target (s : tool (host N U)) w addr v :
  reachable scan b target w (t_dev s) -> port_idle w -> in_u64 addr -> in_u64 v ->
  exists s', mw_debug polls junk (options b target) [codes "mw"; hex addr; hex v] s = Ok 0 s' /\
  t_fs s' = t_fs s /\ let d := port_dev (system_of scan (t_dev s')) in
  wb_word d (slot addr) = v /\ forall k, k <> slot addr -> wb_word d k = wb_word (port_dev w) k.
Proof.
  intros Hr Hi Ha Hv. destruct (backend_open_ok scan b target 0 s w Hr) as (s1 & E1 & Ho & _ & _ & Hfs1).
  assert (Hi1 : idle (D := D) s1) by (exists w; done).
  assert (Hd1 : dev (D := D) s1 = port_dev w) by (cbn; by rewrite (open_system scan _ _ Ho)).
  destruct (proj1 (wp_spec _ _ _) (mem_write_ok (D := D) polls s1 addr v Hi1 Ha Hv)) as ([] & s2 & E2 & d2 & Hm & Hin & Hout).
  pose proof Hm as (Hi2 & Hd2 & _). pose proof (core_status_ok (D := D) polls junk s2 Hi2) as Hst.
  cbv zeta in Hst. destruct (rd (DBG_CORE_STAT (t_core s2)) (dev s2)) as [stat d3] eqn:R1.
  destruct (rd (DBG_CORE_NIA (t_core s2)) d3) as [nia d4] eqn:R2.
  destruct (rd (DBG_CORE_MSR (t_core s2)) d4) as [msr d5] eqn:R3. apply wp_spec in Hst as ([] & s3 & E3 & Hb3).
  exists s3. split; [|split].
  - unfold mw_debug, MwDebug.main. run_with (apply set_options_ok). run_with (exact E1). if_false.
    assert (Ec : commands polls junk [codes "mw"; hex addr; hex v] s1 = Ok tt s2).
    { change (commands polls junk [codes "mw"; hex addr; hex v])
        with (_ ← mem_write polls (strtoul16 (hex addr)) (strtoul16 (hex v)); commands polls junk []).
      unfold strtoul16, hex. rewrite !host_strtoul_text by (done || lia). by run_with (exact E2). }
    run_with (exact Ec). by run_with (exact E3).
  - destruct Hb3 as (_ & _ & _ & _ & _ & ->). destruct Hm as (_ & _ & _ & _ & _ & ->). done.
  - assert (Hq : forall k, wb_word (port_dev (system_of scan (t_dev s3))) k = wb_word d2 k).
    { intros k. change (port_dev (system_of scan (t_dev s3))) with (dev (D := D) s3).
      destruct Hb3 as (_ & -> & _). rewrite <- Hd2.
      pose proof (quiet_read (dev (D := D) s2) (DBG_CORE_STAT (t_core s2)) k) as Q1. rewrite R1 in Q1.
      pose proof (quiet_read d3 (DBG_CORE_NIA (t_core s2)) k) as Q2. rewrite R2 in Q2.
      pose proof (quiet_read d4 (DBG_CORE_MSR (t_core s2)) k) as Q3. rewrite R3 in Q3.
      cbn [snd] in Q1, Q2, Q3. congruence. }
    split.
    + rewrite Hq, <- (Hin 0) by lia. do 2 f_equal. lia.
    + intros k Hk. rewrite Hq, <- Hd1. apply Hout. intros j Hj. replace (addr + 8 * j) with addr by lia. congruence.
Qed.
