(* ===== verification/DebugBench.v ===== *)
(** * A bench for the debug tool

    Concrete systems at which the contracts of [MwBackendSpec] and [DebugStack]
    hold: a debug port that is scanned 74 bits at a time, a library with one
    JTAG part on one cable, and a network with the socket code of the simulation
    at the other end.  The theorems about the whole tool are applied to it. *)

From S2P Require Import Prelude CMem Ctype Vhpi Vsnprintf SimLink Jtag MwDebug MwDebugSpec MwDebugShow MwDebugPort MwBackend MwBackendSpec DebugStack.
Import Jtag.Pipe.

(** ** A port *)

(** A device whose registers have 64 bits. *)
Class Regs64 (D : Type) `{Device D} := regs64 : forall a d, in_u64 (rd a d).1.

Definition dtm_scan {D} `{Device D} (v : Z) (p : port D) : Z * port D :=
  let op := v mod 4 in
  let x := Z.shiftr v 2 mod 2 ^ 64 in
  let a := Z.shiftr v 66 mod 256 in
  if op =? 1 then let '(r, d) := rd a (p_dev p) in (0, Port d (Some (2%nat, Some r)))
  else if op =? 2 then (0, Port (wr a x (p_dev p)) (Some (2%nat, None)))
  else match p_pend p with
       | Some (S n, r) => (3, Port (p_dev p) (Some (n, r)))
       | Some (O, r) => (4 * default 0 r, Port (p_dev p) None)
       | None => (0, p)
       end.

Lemma request_fields op x a : 0 <= op < 4 -> in_u64 x -> in_u8 a ->
  request op x a mod 4 = op /\ Z.shiftr (request op x a) 2 mod 2 ^ 64 = x /\
  Z.shiftr (request op x a) 66 mod 256 = a.
Proof.
  unfold in_u64, in_u8. intros Ho Hx Ha.
  assert (E : request op x a = op + x * 4 + a * 2 ^ 66)
    by (unfold request; by rewrite (Z.mod_small op), (Z.mod_small x), (Z.mod_small a) by lia).
  rewrite E, !Z.shiftr_div_pow2 by lia. change (2 ^ 2) with 4. split_and!; Z.div_mod_to_equations; lia.
Qed.

#[export] Instance dtm_port {D} `{Device D} `{!Regs64 D} : ScanPort (port D) D dtm_scan 3.
Proof.
  refine {| port_idle p := p_pend p = None; port_dev := p_dev;
            port_busy n v d p := p = Port d (Some (n, v)) /\ default 0 v = u64 (default 0 v) |}.
  - intros p a x Hi Ha. exists 2%nat. split; [lia|].
    destruct (request_fields 1 (x mod 2 ^ 64) a ltac:(lia) (u64_range x) Ha) as (E1 & _ & E3).
    assert (Er : request 1 x a = request 1 (x mod 2 ^ 64) a) by (unfold request; by rewrite Z.mod_mod by lia).
    unfold dtm_scan. rewrite Er, E1, E3. cbn [Z.eqb Pos.eqb]. pose proof (regs64 a (p_dev p)) as Hr.
    destruct (rd a (p_dev p)) as [r d]. split; [done|]. cbn. by rewrite u64_small.
  - intros p a v Hi Ha Hv. exists 2%nat. split; [lia|]. destruct (request_fields 2 v a ltac:(lia) Hv Ha) as (E1 & E2 & E3).
    unfold dtm_scan. rewrite E1, E2, E3. done.
  - intros n v d p x [-> Hv]. unfold dtm_scan.
    assert (E1 : request 0 x 0 mod 4 = 0).
    { unfold request. Z.div_mod_to_equations. lia. }
    rewrite E1. cbn [Z.eqb p_pend p_dev]. destruct n as [|n]; [|by split].
    split; [rewrite Z.mul_comm; by apply Z.mod_mul|]. split; [|done].
    intros [w ->]. cbn in Hv |- *. f_equal. rewrite Z.shiftr_div_pow2, Z.mul_comm, Z.div_mul by lia. exact Hv.
Defined.

(** ** A library *)

Record lib (H : Type) := Lib { l_setup : setup; l_in : Z; l_out : Z; l_hw : H }.
Arguments Lib {H}. Arguments l_setup {H}. Arguments l_in {H}. Arguments l_out {H}. Arguments l_hw {H}.

Definition lib_with {H} (f : setup -> setup) (u : lib H) : lib H := Lib (f (l_setup u)) (l_in u) (l_out u) (l_hw u).

Section library.
Context {H : Type} (scan : Z -> H -> Z * H) (user : list Z).

(** One chain, 1, with one part, 2, whose instruction, 3, has the register 4
    with its two halves 5 and 6. *)
#[export] Instance lib_urj : Urj (lib H) := {
  URJ_STATUS_OK := 0;
  urj_tap_chain_alloc u := (1, u);
  urj_set_main_part _ _ u := u;
  urj_tap_cable_usb_probe u := (0, Some (codes "ft2232"), u);
  urj_tap_chain_connect _ c l u := (0, lib_with (fun _ => connected_to c l) u);
  urj_tap_cable_set_frequency _ f := lib_with (with_freq f);
  urj_tap_manual_add _ n u := (0, lib_with (with_ir n) u);
  urj_parts_len _ _ := Some 1;
  urj_part_parts_set_instruction _ _ u := u;
  urj_set_active_part _ _ u := u;
  urj_tap_chain_active_part _ u := (2, lib_with (with_part 2) u);
  urj_part_data_register_define _ r n u := (0, lib_with (with_reg r n) u);
  urj_part_instruction_define _ i c r u :=
    if (Z.of_nat (length c) =? v_ir (l_setup u)) && bool_decide (is_Some (v_regs (l_setup u) !! r))
    then (3, lib_with (with_insn i c r) u) else (0, u);
  urj_part_set_instruction _ i := lib_with (with_active i);
  urj_tap_chain_shift_instructions _ u :=
    match selected (l_setup u) with Some (c, _) => lib_with (with_loaded c) u | None => u end;
  urj_tap_chain_shift_data_registers _ _ u :=
    if bool_decide (v_loaded (l_setup u) = Some user) then
      let '(r, h) := scan (l_in u mod 2 ^ 74) (l_hw u) in (0, Lib (l_setup u) (l_in u) r h)
    else (0, u);
  urj_active_instruction _ u := match selected (l_setup u) with Some _ => 3 | None => 0 end;
  urj_data_register i _ := if i =? 3 then 4 else 0;
  urj_in _ _ := 5;
  urj_out _ _ := 6;
  urj_tap_register_get_value _ u := l_out u;
  urj_tap_register_set_value_bit_range _ x msb lsb u :=
    (0, Lib (l_setup u) (set_bit_range (l_in u mod 2 ^ 74) x msb lsb) (l_out u) (l_hw u));
  urj_tap_register_get_value_bit_range _ msb lsb u := bit_range (l_out u) msb lsb
}.

Lemma set_bit_range_range w x msb lsb : 0 <= w < 2 ^ 74 -> 0 <= lsb <= msb -> msb < 74 ->
  set_bit_range w x msb lsb mod 2 ^ 74 = set_bit_range w x msb lsb.
Proof.
  intros Hw Hl Hm. apply Z.bits_inj'. intros k Hk. rewrite testbit_mod_pow2, set_bit_range_spec by lia.
  destruct (Z.ltb_spec k 74); [done|]. cbn [andb]. symmetry. zcases. cbn [andb]. apply (testbit_above w 74); lia.
Qed.

#[export] Instance lib_tap : Tap (lib H) H scan.
Proof.
  refine {| tap_works := True; tap_user := user; tap_found := codes "ft2232";
    tap_off w u := l_hw u = w; tap_alloc jc w u := l_hw u = w;
    tap_chain jc v w u := l_setup u = v /\ (v_part v = 0 \/ v_part v = 2) /\ l_hw u = w;
    tap_hw := l_hw; tap_in _ u := l_in u mod 2 ^ 74; tap_out _ := l_out |}.
  - by intros jc v h u (_ & _ & ?).
  - intros. apply Z.mod_pos_bound. lia.
  - intros h u E. eexists _, _. split; [reflexivity|]. by left.
  - done.
  - intros jc h u E. eexists _, _, _. split; [reflexivity|]. by left.
  - intros jc c l h u E. eexists _, _. split; [reflexivity|]. left. split; [done|]. split_and!; [done|by left|done].
  - intros jc v f h u (<- & Hp & <-). done.
  - intros jc v n h u (<- & Hp & <-). eexists _, _. split; [reflexivity|]. left. split_and!; [done..|]. by exists 1.
  - done.
  - done.
  - intros jc v h u (<- & Hp & <-). eexists _, _. split; [reflexivity|]. left. split; [done|]. split_and!; [done|by right|done].
  - intros jc v h [v0 i o h0] (<- & Hp & <-) Hne. destruct Hp as [?|Hp]; [done|]. destruct v0. cbn in *. by subst.
  - intros jc v r n h u (<- & Hp & <-) Hne. eexists _, _. split; [reflexivity|]. by left.
  - intros jc v i c r h u (<- & Hp & <-) Hne Hl Hr. cbn -[bool_decide]. rewrite (proj2 (Z.eqb_eq _ _) Hl), bool_decide_true by done.
    eexists _, _. split; [reflexivity|]. by left.
  - intros jc v i h u (<- & Hp & <-) Hne Hi. done.
  - intros jc v c n h u (<- & Hp & <-) Hs. cbn. by rewrite Hs.
  - intros jc v h u (<- & Hp & <-) Hne. cbn -[bool_decide]. rewrite bool_decide_false by done.
    eexists _, _. by split.
  - intros jc v x h u (<- & Hp & <-) Hne Hs. cbn. by rewrite Hs.
  - intros jc v c x msb lsb h u (<- & Hp & <-) Hne Hs Hl Hm Hw. eexists. split; [reflexivity|].
    split; [done|]. split; [|done]. cbn. apply set_bit_range_range; [apply Z.mod_pos_bound; lia|lia|lia].
  - intros jc v h u (<- & Hp & <-) Hne Hs Hld. cbn -[bool_decide]. rewrite bool_decide_true by done.
    destruct (scan (l_in u mod 2 ^ 74) (l_hw u)) as [r h']. eexists. split; [reflexivity|]. done.
  - done.
Defined.
End library.

(** ** A network *)

#[export] Instance pipe_sock : Sock pipe := {
  sock_socket t := (5, t);
  sock_gethostbyname host t := (if bool_decide (host = codes "localhost") then Some [127; 0; 0; 1] else None, t);
  sock_connect _ _ p t := (if p =? TCP_PORT then 0 else -1, t);
  sock_write _ := link_write;
  sock_read _ := link_read;
  sock_close _ t := t
}.

#[export] Instance pipe_dial : Dial pipe.
Proof.
  refine {| dial_listens host p t := host = codes "localhost" /\ p = TCP_PORT /\ t = {| down := []; up := [] |};
            dial_pending t := t = {| down := []; up := [] |};
            dial_written l t := t = {| down := [l]; up := [] |} |}.
  - intros host p t (-> & -> & ->). eexists _, _, _, _, _, _. by split_and!.
  - intros t l ->. eexists _, _. split; [reflexivity|]. by split; [lia|].
  - intros fd t l -> _. eexists _, _. by split_and!.
Defined.

(** ** The bench *)

#[export] Instance device_regs64 : Regs64 device.
Proof.
  intros a d. unfold in_u64. cbn -[Z.eqb u64 v_slots v_word Z.modulo Z.div].
  repeat destruct (_ =? _); apply u64_range.
Qed.

#[export] Instance device_quiet : Quiet device.
Proof. intros d a k. cbn -[Z.eqb u64 v_slots Z.modulo Z.div]. by repeat destruct (_ =? _). Qed.

Definition system_type : Type := port device.
Definition net_type : Type := jtag pipe * system_type.

#[export] Instance bench_sock : Sock net_type := served_sock 2 3 0 80 100 190 (system dtm_scan) (replicate 32 85).

#[export] Instance bench_simulator : Simulator net_type system_type dtm_scan.
Proof.
  apply served_simulator; [lia|unfold in_u8; lia|lia|apply system_port|].
  split; [apply Forall_replicate; unfold in_u8; lia|done].
Defined.

Definition bench_user : list Z := codes "000011".
#[export] Instance bench_urj : Urj (lib system_type) := lib_urj dtm_scan bench_user.
#[export] Instance bench_tap : Tap (lib system_type) system_type dtm_scan := lib_tap dtm_scan bench_user.

Definition bench_system : system_type := Port demo_dev None.

(** The simulation listens and the part has not been opened. *)
Definition bench : tool (host net_type (lib system_type)) :=
  Tool (Host Sim (-1) (Jtag 3 (-1) {| down := []; up := [] |} (block 0 (replicate 200 2)), bench_system)
          0 (Lib (connected_to [] []) 0 0 bench_system))
    0 false [] (Fs ∅ ∅ 1000).

Lemma bench_listens : sim_listens (codes "localhost") TCP_PORT bench_system (h_net (t_dev bench)).
Proof. split; [done|]. split; [|done]. split; [done|]. split; [done|]. split; decide_now. Qed.

(** The program started with "-b sim" and nothing else. *)
Lemma mw_debug_writes_witness : exists s',
  mw_debug 3 7 (options Sim None) [codes "mw"; hex 8; hex 1234] bench = Ok 0 s' /\
  t_fs s' = t_fs bench /\ let d := port_dev (system_of dtm_scan (t_dev s')) in
  wb_word d (slot 8) = 1234 /\ forall k, k <> slot 8 -> wb_word d k = wb_word (port_dev bench_system) k.
Proof.
  apply (mw_debug_writes (D := device) dtm_scan 3 7 Sim None bench bench_system 8 1234).
  - exists (codes "localhost"), TCP_PORT. split; [done|]. split; [done|]. apply bench_listens.
  - done.
  - unfold in_u64. lia.
  - unfold in_u64. lia.
Defined.


(** The same system behind a connected socket and behind an open part. *)
Definition bench_sim : host net_type (lib system_type) :=
  Host Sim 5 (Jtag 3 4 {| down := []; up := [] |} (block 0 (replicate 200 2)), bench_system)
    0 (Lib (connected_to [] []) 0 0 bench_system).
Definition bench_part : host net_type (lib system_type) :=
  Host Bscane2 (-1) (h_net bench_sim) 1
    (Lib (with_loaded bench_user (with_active (codes "USER2") (with_insn (codes "USER2") bench_user (codes "USER2_REG")
            (with_reg (codes "USER2_REG") 74 (with_part 2 (with_ir 6 (connected_to (codes "ft2232") [])))))))
       99 0 bench_system).

Lemma backends_agree_witness : exists r h1 h2 w,
  host_backend 1 17 (Some 0) bench_sim = Ok r h1 /\ host_backend 1 17 (Some 0) bench_part = Ok r h2 /\
  open dtm_scan w h1 /\ open dtm_scan w h2 /\ h_b h1 = Sim /\ h_b h2 = Bscane2.
Proof.
  apply (backends_agree dtm_scan 1 17 (Some 0) bench_sim bench_part bench_system).
  - split; [done|]. left. apply start_ready.
  - eexists. split; [split; [reflexivity|]; split; [by right|done]|]. by split.
Defined.


(** A library in which a probe succeeds and finds nothing, and a part has no
    active instruction: both ways to fail badly happen. *)
#[local] Instance empty_library : Urj unit := {
  URJ_STATUS_OK := 0;
  urj_tap_chain_alloc u := (1, u);
  urj_set_main_part _ _ u := u;
  urj_tap_cable_usb_probe u := (0, None, u);
  urj_tap_chain_connect _ _ _ u := (0, u);
  urj_tap_cable_set_frequency _ _ u := u;
  urj_tap_manual_add _ _ u := (0, u);
  urj_parts_len _ _ := Some 1;
  urj_part_parts_set_instruction _ _ u := u;
  urj_set_active_part _ _ u := u;
  urj_tap_chain_active_part _ u := (1, u);
  urj_part_data_register_define _ _ _ u := (0, u);
  urj_part_instruction_define _ _ _ _ u := (1, u);
  urj_part_set_instruction _ _ u := u;
  urj_tap_chain_shift_instructions _ u := u;
  urj_tap_chain_shift_data_registers _ _ u := (0, u);
  urj_active_instruction _ _ := 0;
  urj_data_register _ _ := 0;
  urj_in _ _ := 0;
  urj_out _ _ := 0;
  urj_tap_register_get_value _ _ := 0;
  urj_tap_register_set_value_bit_range _ _ _ _ u := (0, u);
  urj_tap_register_get_value_bit_range _ _ _ _ := 0
}.

Definition empty_bench : tool (host net_type unit) :=
  Tool (Host Sim (-1) (h_net bench_sim) 0 tt) 0 false [] (t_fs bench).

Example empty_library_faults :
  (exists s', backend_init Bscane2 None 0 empty_bench = Err (Segv 0) s') /\
  (exists s', backend_init Bscane2 (Some (codes "jlink")) 0 empty_bench = Err (Segv 0) s').
Proof. split; eexists; vm_compute; reflexivity. Qed.

(** A whole session over the socket of the simulation: three processes' worth
    of code evaluates. *)
Example session_over_socket : exists s',
  mw_debug 3 7 (options Sim None) [codes "mw"; codes "8"; codes "2a"; codes "mr"; codes "8"] bench = Ok 0 s' /\
  t_out s' = codes "0000000000000008: 000000000000002a  *......." ++ [10] ++ status_lines false 0 3 256 0.
Proof. eexists. vm_compute. by split. Qed.

(** The same session over a JTAG part, which is opened first. *)
Example session_over_jtag : exists s',
  mw_debug 3 7 (options Bscane2 None) [codes "mw"; codes "8"; codes "2a"; codes "mr"; codes "8"] bench = Ok 0 s' /\
  t_out s' = codes "Found device ID: 0x00000000" ++ [10] ++
    codes "0000000000000008: 000000000000002a  *......." ++ [10] ++ status_lines false 0 3 256 0.
Proof. eexists. vm_compute. by split. Qed.

(** Twenty-one parameters are too many. *)
Example too_many_params :
  backend_init Ecp5 (Some (concat (replicate 22 (codes "x ")))) 0 bench =
    Ok (-1) (with_dev (out_state (set_b Ecp5 (t_dev bench))) bench).
Proof. vm_compute. reflexivity. Qed.
