(* ===== verification/SimConsole.v ===== *)
(** * The simulator's console: sim_console_c.c

    The terminal is a parameter with the calls the code makes on it; the first
    read or poll puts it in raw mode. *)

From S2P Require Import Prelude CMem Vhpi.

(** [term_raw] saves the settings, makes the terminal raw but for its signals
    and registers the function that restores them; [term_poll] answers what
    [poll] returned and whether there is input; [term_read] gives one byte or
    what [read] returned instead. *)
Class Term (T : Type) := {
  term_raw : T -> T;
  term_poll : T -> Z * bool * T;
  term_read : T -> (Z + Z) * T
}.

(** The terminal, whether it has been made raw, what was printed, and the
    memory of the vectors. *)
Record console (T : Type) := Cons { c_term : T; c_raw : bool; c_err : list Z; c_mem : mem }.
Arguments Cons {T}. Arguments c_term {T}. Arguments c_raw {T}. Arguments c_err {T}. Arguments c_mem {T}.

Section console.
Context {T : Type} `{Term T} (vhpi0 vhpi1 : Z).

Definition enable_raw_mode : M (console T) unit := modify (fun s =>
  if c_raw s then s else Cons (term_raw (c_term s)) true (c_err s) (c_mem s)).

Definition term_call {A} (f : T -> A * T) : M (console T) A := fun s =>
  let '(a, t) := f (c_term s) in Ok a (Cons t (c_raw s) (c_err s) (c_mem s)).

Definition on_vectors {A} (c : M mem A) : M (console T) A := fun s =>
  match c (c_mem s) with
  | Ok a m => Ok a (Cons (c_term s) (c_raw s) (c_err s) m)
  | Err e m => Err e (Cons (c_term s) (c_raw s) (c_err s) m)
  end.

Definition sim_console_read (rt : Z) : M (console T) unit :=
  _ ← enable_raw_mode;
  r ← term_call term_read;
  match r with
  | inl val => on_vectors (to_std_logic_vector vhpi0 vhpi1 val rt 64)
  | inr _ => throw (Exit 1)
  end.

Definition sim_console_poll (rt : Z) : M (console T) unit :=
  _ ← enable_raw_mode;
  '(ret, pollin) ← term_call term_poll;
  let val := if (ret =? 1) && pollin then 1 else 0 in
  on_vectors (to_std_logic_vector vhpi0 vhpi1 val rt 64).

Definition sim_console_write (rs : Z) : M (console T) unit :=
  val ← on_vectors (from_std_logic_vector vhpi0 vhpi1 rs 64);
  modify (fun s => Cons (c_term s) (c_raw s) (c_err s ++ [u8 val]) (c_mem s)).
End console.

(** The terminal when it has been made raw. *)
Definition raw_term {T} `{Term T} (s : console T) : T := if c_raw s then c_term s else term_raw (c_term s).

Lemma enable_raw_ok {T} `{Term T} (s : console T) :
  enable_raw_mode s = Ok tt (Cons (raw_term s) true (c_err s) (c_mem s)).
Proof. unfold enable_raw_mode, modify, raw_term. by destruct s as [t [] e m]. Qed.

(** The console passes characters through: what is typed reaches the
    simulated system as a 64-bit vector, and that vector written back prints
    the character typed; the terminal is made raw once, before the first
    read. *)
Theorem console_echo {T} `{Term T} vhpi0 vhpi1 rt c t' (s : console T) :
  vhpi0 <> vhpi1 -> in_u8 vhpi0 /\ in_u8 vhpi1 -> in_u8 c -> mapped (c_mem s) rt 64%nat ->
  term_read (raw_term s) = (inl c, t') -> exists m,
  sim_console_read vhpi0 vhpi1 rt s = Ok tt (Cons t' true (c_err s) m) /\
  bytes_at m rt (vector vhpi0 vhpi1 (low_bits 64 c)) /\
  sim_console_write vhpi0 vhpi1 rt (Cons t' true (c_err s) m) =
    Ok tt (Cons t' true (c_err s ++ [c]) m).
Proof.
  intros Hd Hb Hc Hm Hr. set (m := write_bytes rt (vector vhpi0 vhpi1 (low_bits 64 c)) (c_mem s)).
  assert (Hat : bytes_at m rt (vector vhpi0 vhpi1 (low_bits 64 c))) by apply write_bytes_at.
  exists m. split_and!; [|done|].
  - unfold sim_console_read. run_with (apply enable_raw_ok).
    run_with (unfold term_call; cbn [c_term]; by rewrite Hr). unfold on_vectors. cbn [c_mem].
    pose proof (to_vector_ok vhpi0 vhpi1 Hb _ rt c 64 Hm ltac:(lia)) as Hv.
    change (Z.of_nat 64) with 64 in Hv. by rewrite Hv.
  - unfold sim_console_write. unfold in_u8 in Hc.
    pose proof (to_from_vector vhpi0 vhpi1 Hd m rt c 64 ltac:(lia) Hat) as Hv.
    change (Z.of_nat 64) with 64 in Hv. rewrite Z.mod_small in Hv by lia.
    run_with (unfold on_vectors; cbn [c_mem]; by rewrite Hv).
    unfold modify. rewrite u8_small by lia. done.
Qed.

(** A terminal that is a list of characters still to come, and whether it is
    raw. *)
Definition keyboard : Type := list Z * bool.
#[export] Instance keyboard_term : Term keyboard := {
  term_raw t := (t.1, true);
  term_poll t := (if decide (t.1 = []) then 0 else 1, true, t);
  term_read t := match t.1 with [] => (inr 0, t) | c :: l => (inl c, (l, t.2)) end
}.

Lemma console_echo_witness : exists m,
  sim_console_read 2 3 64 (Cons ([104; 105], false) false [] (block 64 (replicate 64 0))) =
    Ok tt (Cons ([105], true) true [] m) /\
  bytes_at m 64 (vector 2 3 (low_bits 64 104)) /\
  sim_console_write 2 3 64 (Cons ([105], true) true [] m) = Ok tt (Cons ([105], true) true [104] m).
Proof.
  apply (console_echo 2 3 64 104 ([105], true) (Cons ([104; 105], false) false [] (block 64 (replicate 64 0)))).
  - lia.
  - unfold in_u8. lia.
  - unfold in_u8. lia.
  - decide_now.
  - reflexivity.
Defined.

(** The end of the input ends the simulation. *)
Lemma console_eof {T} `{Term T} vhpi0 vhpi1 rt r t' (s : console T) :
  term_read (raw_term s) = (inr r, t') ->
  sim_console_read vhpi0 vhpi1 rt s = Err (Exit 1) (Cons t' true (c_err s) (c_mem s)).
Proof.
  intros Hr. unfold sim_console_read. run_with (apply enable_raw_ok).
  run_with (unfold term_call; cbn [c_term]; by rewrite Hr). done.
Qed.
