(* ===== verification/UartSim.v ===== *)
(** * The serial port of the Verilator harness: verilator/uart-verilator.c

    [uart_tx] is called once a clock cycle with the level of the line the
    simulated system drives and prints the bytes it recognises; [uart_rx]
    gives the level of the line it reads, and sends what is typed.  Both are
    state machines with static variables, the fields of the two records.  The
    clock frequency is set when the harness is built, so the cycles of a bit,
    [BITWIDTH], are a parameter.  The timing test is made in double precision
    and is modelled with the standard library's specification of it. *)

From Stdlib Require Import SpecFloat.
From S2P Require Import Prelude Vsnprintf MwDebug SimConsole.

Definition BAUD : Z := 115200.
Definition bitwidth (clk_frequency : Z) : Z := (clk_frequency + BAUD / 2) / BAUD.
Definition RX_INTERVAL : Z := 10000.

(** ** Doubles *)

Definition double_of (z : Z) : spec_float := binary_normalize 53 1024 z 0 false.
Definition double_mul := SFmul 53 1024.
Definition double_div := SFdiv 53 1024.
Definition double_sub := SFsub 53 1024.

(** The double nearest to 0.05. *)
Definition error : spec_float := S754_finite false 7205759403792794 (-57).

Inductive state := IDLE | START_BIT | BITS | STOP_BIT | ERROR.

#[global] Instance state_eq_dec : EqDecision state.
Proof. solve_decision. Defined.

(** ** Printing what the line carries *)

Record uart_out := Tx {
  tx_state : state; tx_countbits : Z; tx_bits : Z; tx_byte : Z; tx_prev : Z; tx_out : list Z
}.

Section uart.
Context (BITWIDTH : Z).

Definition is_error (countbits : Z) : bool :=
  let e := double_div (double_mul (double_of 1) (double_of countbits)) (double_of BITWIDTH) in
  SFleb e (double_sub (double_of 1) error) && SFleb error e.

(** A transition at the wrong time: a report, and two bits of silence. *)
Definition tx_error (name : string) (s : uart_out) : uart_out :=
  Tx ERROR (u64 (BITWIDTH * 2)) (tx_bits s) (tx_byte s) (tx_prev s)
    (tx_out s ++ codes name ++ codes " error " ++ dec BITWIDTH ++ codes " " ++ dec (tx_countbits s) ++ [10]).

Definition tx_start (tx : Z) (s : uart_out) : uart_out :=
  let c := u64 (tx_countbits s - 1) in
  let s := Tx (tx_state s) c (tx_bits s) (tx_byte s) (tx_prev s) (tx_out s) in
  if (tx =? 1) && is_error c then tx_error "START_BIT" s
  else if c =? 0 then Tx BITS BITWIDTH (tx_bits s) (tx_byte s) (tx_prev s) (tx_out s)
  else s.

Definition tx_data (tx : Z) (s : uart_out) : uart_out :=
  let c := u64 (tx_countbits s - 1) in
  let s := if c =? BITWIDTH / 2
    then Tx (tx_state s) c (u8 (tx_bits s + 1)) (u8 (Z.lor (tx_byte s) (Z.shiftl tx (tx_bits s)))) (tx_prev s) (tx_out s)
    else Tx (tx_state s) c (tx_bits s) (tx_byte s) (tx_prev s) (tx_out s) in
  if negb (tx =? tx_prev s) && is_error c then tx_error "BITS" s
  else if c =? 0 then
    Tx (if tx_bits s =? 8 then STOP_BIT else tx_state s) BITWIDTH (tx_bits s) (tx_byte s) (tx_prev s) (tx_out s)
  else s.

Definition tx_print (s : uart_out) : uart_out :=
  Tx IDLE (tx_countbits s) (tx_bits s) (tx_byte s) (tx_prev s) (tx_out s ++ [tx_byte s]).

Definition tx_stop (tx : Z) (s : uart_out) : uart_out :=
  let c := u64 (tx_countbits s - 1) in
  let s := Tx (tx_state s) c (tx_bits s) (tx_byte s) (tx_prev s) (tx_out s) in
  if (tx =? 0) && is_error c then tx_error "STOP_BIT" s
  else
    let s := if tx =? 0 then tx_print s else s in
    if c =? 0 then tx_print s else s.

Definition uart_tx (tx : Z) (s : uart_out) : uart_out :=
  let s :=
    match tx_state s with
    | IDLE => if tx =? 0 then Tx START_BIT BITWIDTH 0 0 (tx_prev s) (tx_out s) else s
    | START_BIT => tx_start tx s
    | BITS => tx_data tx s
    | STOP_BIT => tx_stop tx s
    | ERROR =>
        let c := u64 (tx_countbits s - 1) in
        Tx (if c =? 0 then IDLE else ERROR) c (tx_bits s) (tx_byte s) (tx_prev s) (tx_out s)
    end in
  Tx (tx_state s) (tx_countbits s) (tx_bits s) (tx_byte s) tx (tx_out s).

(** ** Sending what is typed *)

Record uart_in (T : Type) := Rx {
  rx_state : state; rx_char : Z; rx_countbits : Z; rx_bit : Z; rx : Z; rx_sometimes : Z;
  rx_raw : bool; rx_term : T
}.
Arguments Rx {T}. Arguments rx_state {T}. Arguments rx_char {T}. Arguments rx_countbits {T}.
Arguments rx_bit {T}. Arguments rx {T}. Arguments rx_sometimes {T}. Arguments rx_raw {T}. Arguments rx_term {T}.

Context {T : Type} `{Term T}.

Definition rx_enable_raw_mode : M (uart_in T) unit := modify (fun s =>
  if rx_raw s then s else
  Rx (rx_state s) (rx_char s) (rx_countbits s) (rx_bit s) (rx s) (rx_sometimes s) true (term_raw (rx_term s))).

Definition rx_call {A} (f : T -> A * T) : M (uart_in T) A := fun s =>
  let '(a, t) := f (rx_term s) in
  Ok a (Rx (rx_state s) (rx_char s) (rx_countbits s) (rx_bit s) (rx s) (rx_sometimes s) (rx_raw s) t).

Definition nonblocking_read : M (uart_in T) (option Z) :=
  _ ← rx_enable_raw_mode;
  '(ret, _) ← rx_call term_poll;
  if ret =? 0 then mret None else
  r ← rx_call term_read;
  match r with
  | inl c => mret (Some c)
  | inr _ => throw (Exit 1)
  end.

Definition set_rx (st : state) (c n b l : Z) : M (uart_in T) unit :=
  modify (fun s => Rx st c n b l (rx_sometimes s) (rx_raw s) (rx_term s)).

Definition set_sometimes (n : Z) : M (uart_in T) unit := modify (fun s =>
  Rx (rx_state s) (rx_char s) (rx_countbits s) (rx_bit s) (rx s) n (rx_raw s) (rx_term s)).

Definition rx_idle : M (uart_in T) unit :=
  n ← gets rx_sometimes;
  _ ← set_sometimes (u64 (n + 1));
  if n >=? RX_INTERVAL then
    _ ← set_sometimes 0;
    r ← nonblocking_read;
    match r with
    | Some c => set_rx START_BIT c BITWIDTH 0 0
    | None => mret tt
    end
  else mret tt.

(** The step of a state other than [IDLE] and [ERROR]. *)
Definition rx_step (s : uart_in T) : uart_in T :=
  let n := u64 (rx_countbits s - 1) in
  let '(st, n, b, l) :=
    match rx_state s with
    | START_BIT => if n =? 0 then (BITS, BITWIDTH, rx_bit s, Z.land (rx_char s) 1) else (START_BIT, n, rx_bit s, rx s)
    | BITS =>
        if n =? 0 then
          let b := u8 (rx_bit s + 1) in
          if b =? 8 then (STOP_BIT, BITWIDTH, b, 1)
          else (BITS, BITWIDTH, b, Z.land (Z.shiftr (rx_char s) b) 1)
        else (BITS, n, rx_bit s, rx s)
    | STOP_BIT => if n =? 0 then (IDLE, n, rx_bit s, rx s) else (STOP_BIT, n, rx_bit s, rx s)
    | st => (st, rx_countbits s, rx_bit s, rx s)
    end in
  Rx st (rx_char s) n b l (rx_sometimes s) (rx_raw s) (rx_term s).

Definition uart_rx : M (uart_in T) Z :=
  st ← gets rx_state;
  _ ← (match st with IDLE => rx_idle | ERROR => mret tt | _ => modify rx_step end);
  gets rx.
End uart.
Arguments Rx {T}. Arguments rx_state {T}. Arguments rx_char {T}. Arguments rx_countbits {T}.
Arguments rx_bit {T}. Arguments rx {T}. Arguments rx_sometimes {T}. Arguments rx_raw {T}. Arguments rx_term {T}.

(** ** The two ends joined

    The line [uart_rx] drives is fed to [uart_tx]: what is typed is printed. *)

Section loopback.
Context (W : Z) {T : Type} `{Term T}.
Hypothesis width : 2 <= W < 2 ^ 64.

Definition cycle : M (uart_in T * uart_out) unit := fun '(g, o) =>
  match uart_rx W g with
  | Ok l g' => Ok tt (g', uart_tx W l o)
  | Err e g' => Err e (g', o)
  end.

Fixpoint cycles (n : nat) : M (uart_in T * uart_out) unit :=
  match n with
  | O => mret tt
  | S n' => _ ← cycle; cycles n'
  end.

Lemma cycles_add n1 n2 s s1 : cycles n1 s = Ok tt s1 -> cycles (n1 + n2) s = cycles n2 s1.
Proof.
  revert s. induction n1 as [|n1 IH]; intros s Hs; [by injection Hs as ->|].
  simpl in *. apply bind_inv in Hs as ([] & s' & Hc & Hs). run_with (exact Hc). by apply IH.
Qed.

(** The line changes exactly where a bit ends. *)
Lemma is_error_0 : is_error W 0 = false.
Proof.
  unfold is_error. change (double_mul (double_of 1) (double_of 0)) with (S754_zero false).
  apply andb_false_intro2. unfold double_div, SFdiv. by destruct (double_of W).
Qed.

Section byte.
Context (c n : Z) (raw : bool) (t : T) (out : list Z).
Hypothesis byte : in_u8 c.

(** Bit cell [i] of the ten: the start bit, the eight bits, the stop bit. *)
Definition cell_state (i : Z) : state := if i =? 0 then START_BIT else if i =? 9 then STOP_BIT else BITS.
Definition cell_line (i : Z) : Z := if i =? 0 then 0 else if i =? 9 then 1 else Z.b2z (Z.testbit c (i - 1)).
Definition cell_sent (i : Z) : Z := if i =? 0 then 0 else i - 1.

(** Bits taken when [r] cycles of the cell are left. *)
Definition cell_taken (i r : Z) : Z :=
  if i =? 0 then 0 else if i =? 9 then 8 else if r <=? W / 2 then i else i - 1.

(** Both ends in cell [i] with [r] cycles left. *)
Definition lock (i r : Z) : uart_in T * uart_out :=
  (Rx (cell_state i) c r (cell_sent i) (cell_line i) n raw t,
   Tx (cell_state i) r (cell_taken i r) (c mod 2 ^ cell_taken i r) (cell_line i) out).

Lemma land_1 v : Z.land v 1 = Z.b2z (Z.testbit v 0).
Proof.
  change 1 with (Z.ones 1). rewrite Z.land_ones, Z.testbit_spec' by lia.
  change (2 ^ 0) with 1. by rewrite Z.div_1_r.
Qed.

Lemma take_bit i : 0 <= i < 8 ->
  u8 (Z.lor (c mod 2 ^ i) (Z.shiftl (Z.b2z (Z.testbit c i)) i)) = c mod 2 ^ (i + 1).
Proof.
  intros Hi. apply Z.bits_inj'. intros k Hk. unfold u8, in_u8 in *.
  rewrite !testbit_mod_pow2, Z.lor_spec, testbit_mod_pow2 by lia.
  destruct (Z.ltb_spec k i).
  - rewrite Z.shiftl_spec_low by lia. rewrite orb_false_r. zcases; done.
  - rewrite Z.shiftl_spec by lia. destruct (decide (k = i)) as [->|Hne].
    + rewrite Z.sub_diag, Z.b2z_bit0. zcases; done.
    + replace (k <? i + 1) with false by lia.
      rewrite (testbit_above (Z.b2z _) 1) by (destruct (Z.testbit c i); simpl; lia). by rewrite andb_false_r.
Qed.

Ltac open_uart := cbn [rx_state rx_countbits rx_bit rx rx_char rx_sometimes rx_raw rx_term
  tx_state tx_countbits tx_bits tx_byte tx_prev tx_out].

(** Inside a cell both ends count down, and the middle is where the bit is
    taken. *)
Lemma cycle_inside i r : 0 <= i <= 9 -> 1 < r <= W -> cycle (lock i r) = Ok tt (lock i (r - 1)).
Proof.
  intros Hi Hr. unfold cycle, lock, uart_rx.
  destruct (decide (i = 0)) as [->|H0]; [|destruct (decide (i = 9)) as [->|H9]].
  - unfold mbind, M_bind, gets, modify. simpl. unfold rx_step, uart_tx, tx_start. simpl.
    rewrite !u64_small by lia. replace (r - 1 =? 0) with false by lia. done.
  - unfold mbind, M_bind, gets, modify. simpl. unfold rx_step, uart_tx, tx_stop. simpl.
    rewrite !u64_small by lia. replace (r - 1 =? 0) with false by lia. done.
  - assert (Hst : cell_state i = BITS) by (unfold cell_state; zcases; done).
    assert (Ht : forall x, cell_taken i x = if x <=? W / 2 then i else i - 1)
      by (intros x; unfold cell_taken; zcases; done).
    assert (Hl : cell_line i = Z.b2z (Z.testbit c (i - 1))) by (unfold cell_line; zcases; done).
    rewrite Hst, !Ht. unfold mbind, M_bind, gets, modify. cbn [rx_state]. unfold rx_step, uart_tx, tx_data.
    open_uart.
    rewrite !u64_small by lia. replace (r - 1 =? 0) with false by lia.
    destruct (Z.eqb_spec (r - 1) (W / 2)) as [Em|Em];
      open_uart; rewrite Z.eqb_refl; cbn [negb andb].
    + replace (r <=? W / 2) with false by lia. replace (r - 1 <=? W / 2) with true by lia.
      rewrite !Hl, take_bit, u8_small by lia. by replace (i - 1 + 1) with i by lia.
    + by replace (r - 1 <=? W / 2) with (r <=? W / 2) by lia.
Qed.

(** Where a cell ends both go on to the next. *)
Lemma cycle_next i : 0 <= i < 9 -> cycle (lock i 1) = Ok tt (lock (i + 1) W).
Proof.
  intros Hi. pose proof is_error_0 as He. assert (HW : 1 <= W / 2 < W)
    by (split; [apply Z.div_le_lower_bound; lia|apply Z.div_lt_upper_bound; lia]).
  unfold cycle, lock, uart_rx. destruct (decide (i = 0)) as [->|H0].
  - change (cell_state 0) with START_BIT. unfold mbind, M_bind, gets, modify. cbn [rx_state].
    unfold rx_step, uart_tx, tx_start. open_uart. change (u64 (1 - 1)) with 0.
    cbn [Z.eqb]. open_uart. rewrite He, andb_false_r, land_1. open_uart.
    unfold cell_taken, cell_line, cell_state, cell_sent. cbn [Z.eqb Z.add Pos.eqb Z.sub Z.opp Z.pos_sub].
    by replace (W <=? W / 2) with false by lia.
  - assert (Hst : cell_state i = BITS) by (unfold cell_state; zcases; done).
    assert (Hs : cell_sent i = i - 1) by (unfold cell_sent; zcases; done).
    assert (Ht : cell_taken i 1 = i) by (unfold cell_taken; zcases; done).
    rewrite Hst, Hs, Ht. unfold mbind, M_bind, gets, modify. cbn [rx_state]. unfold rx_step, uart_tx, tx_data.
    open_uart.
    change (u64 (1 - 1)) with 0. rewrite u8_small by lia. replace (i - 1 + 1) with i by lia.
    replace (0 =? W / 2) with false by lia. rewrite Z.eqb_refl.
    destruct (Z.eqb_spec i 8) as [->|H8]; open_uart;
      rewrite He, andb_false_r.
    + by rewrite Z.eqb_refl.
    + replace (i =? 8) with false by lia.
      unfold cell_state, cell_sent, cell_line, cell_taken.
      replace (i + 1 =? 0) with false by lia. replace (i + 1 =? 9) with false by lia.
      replace (W <=? W / 2) with false by lia. replace (i + 1 - 1) with i by lia.
      rewrite land_1, Z.shiftr_spec, Z.add_0_l by lia. done.
Qed.

(** At the end of the stop bit the byte is printed and both ends are idle. *)
Definition sent : uart_in T * uart_out :=
  (Rx IDLE c 0 8 1 n raw t, Tx IDLE 0 8 c 1 (out ++ [c])).

Lemma cycle_last : cycle (lock 9 1) = Ok tt sent.
Proof.
  assert (Hc : c mod 2 ^ 8 = c) by (by apply Z.mod_small).
  unfold lock. change (cell_taken 9 1) with 8. rewrite Hc. reflexivity.
Qed.

Lemma cycles_cell (k : nat) : forall i r, 0 <= i <= 9 -> r = k + 1 -> r <= W ->
  cycles k (lock i r) = Ok tt (lock i 1).
Proof.
  induction k as [|k IH]; intros i r Hi Hr HW; [by subst|].
  cbn [cycles]. run_with (apply cycle_inside; lia). apply IH; lia.
Qed.

(** A cell takes [W] cycles. *)
Lemma cycles_cells (k : nat) : forall i, 0 <= i -> i + k = 9 ->
  cycles (k * Z.to_nat W) (lock i W) = Ok tt (lock 9 W).
Proof.
  induction k as [|k IH]; intros i Hi Hk; [by replace i with 9 by lia|].
  replace (S k * Z.to_nat W)%nat with ((Z.to_nat W - 1) + (1 + k * Z.to_nat W))%nat by nia.
  erewrite cycles_add by (apply cycles_cell; lia).
  rewrite (cycles_add 1 _ _ (lock (i + 1) W)) by (cbn [cycles]; run_with (apply cycle_next; lia); done).
  apply IH; lia.
Qed.

Lemma cycles_byte : cycles (10 * Z.to_nat W) (lock 0 W) = Ok tt sent.
Proof.
  replace (10 * Z.to_nat W)%nat with (9 * Z.to_nat W + ((Z.to_nat W - 1) + 1))%nat by lia.
  erewrite cycles_add by (apply (cycles_cells 9); lia).
  erewrite cycles_add by (apply cycles_cell; lia).
  cbn [cycles]. run_with (apply cycle_last). done.
Qed.
End byte.
End loopback.

(** ** Everything that is typed *)

(** A terminal with characters waiting to be read. *)
Class Typed (T : Type) `{Term T} := {
  typed : T -> list Z;
  typed_raw t : typed (term_raw t) = typed t;
  typed_poll t : typed t <> [] -> exists r p t', term_poll t = (r, p, t') /\ r <> 0 /\ typed t' = typed t;
  typed_read t c l : typed t = c :: l -> exists t', term_read t = (inl c, t') /\ typed t' = l
}.

Section stream.
Context (W : Z) {T : Type} `{Term T} `{!Typed T}.
Hypothesis width : 2 <= W < 2 ^ 64.

(** Both ends idle, [n] cycles after the last poll, [l] still to be sent and
    [out] printed. *)
Definition rest (n : Z) (l out : list Z) (s : uart_in T * uart_out) : Prop :=
  rx_state s.1 = IDLE /\ rx s.1 = 1 /\ rx_sometimes s.1 = n /\ typed (rx_term s.1) = l /\
  tx_state s.2 = IDLE /\ tx_out s.2 = out.

Lemma cycle_rest n l out s : rest n l out s -> 0 <= n < RX_INTERVAL ->
  exists s', cycle W s = Ok tt s' /\ rest (n + 1) l out s'.
Proof.
  destruct s as [[st c k b v m raw t] [st' k' b' y p o]]. unfold rest. simpl.
  intros (-> & -> & -> & Hl & -> & ->) Hn. unfold RX_INTERVAL in *.
  eexists. unfold uart_rx, rx_idle, RX_INTERVAL, mbind, M_bind, gets, set_sometimes, modify. simpl.
  replace (n >=? 10000) with false by lia. simpl. rewrite u64_small by lia. by split_and!.
Qed.

Lemma cycles_rest (k : nat) : forall n l out s, rest n l out s -> 0 <= n -> n + k <= RX_INTERVAL ->
  exists s', cycles W k s = Ok tt s' /\ rest (n + k) l out s'.
Proof.
  induction k as [|k IH]; intros n l out s Hs Hn Hk; [exists s; by rewrite Z.add_0_r|].
  destruct (cycle_rest n l out s Hs ltac:(lia)) as (s1 & Hc & Hs1).
  destruct (IH (n + 1) l out s1 Hs1 ltac:(lia) ltac:(lia)) as (s2 & Hcs & Hs2).
  exists s2. split; [cbn [cycles]; by run_with (exact Hc)|].
  by replace (n + S k) with (n + 1 + k) by lia.
Qed.

(** The cycle that reads a character starts its start bit. *)
Lemma cycle_fetch c l out s : rest RX_INTERVAL (c :: l) out s ->
  exists t, cycle W s = Ok tt (lock W c 0 true t out 0 W) /\ typed t = l.
Proof.
  destruct s as [[st c0 k b v m raw t] [st' k' b' y p o]]. unfold rest. simpl.
  intros (-> & -> & -> & Hl & -> & ->). set (t1 := if raw then t else term_raw t).
  assert (Hl1 : typed t1 = c :: l) by (subst t1; destruct raw; [done|by rewrite typed_raw]).
  destruct (typed_poll t1) as (r & pi & t2 & Hp & Hr & Hl2); [by rewrite Hl1|].
  rewrite Hl1 in Hl2. destruct (typed_read t2 c l Hl2) as (t3 & Hrd & Hl3). exists t3. split; [|done].
  assert (Hnb : nonblocking_read (Rx IDLE c0 k b 1 0 raw t) = Ok (Some c) (Rx IDLE c0 k b 1 0 true t3)).
  { unfold nonblocking_read. run_with reflexivity. unfold rx_enable_raw_mode, modify.
    replace (if rx_raw _ then _ else _) with (Rx IDLE c0 k b 1 0 true t1) by (subst t1; by destruct raw).
    run_with (unfold rx_call; cbn [rx_term]; by rewrite Hp). rewrite (proj2 (Z.eqb_neq r 0) Hr).
    run_with (unfold rx_call; cbn [rx_term]; by rewrite Hrd). done. }
  assert (Hidle : rx_idle W (Rx IDLE c0 k b 1 RX_INTERVAL raw t) = Ok tt (Rx START_BIT c W 0 0 0 true t3)).
  { unfold rx_idle. run_with reflexivity. run_with reflexivity.
    change (rx_sometimes _ >=? RX_INTERVAL) with true. cbv iota.
    run_with reflexivity. run_with (exact Hnb). reflexivity. }
  unfold cycle, uart_rx. erewrite bind_ok by reflexivity. cbv beta iota. cbn [rx_state].
  erewrite bind_ok by exact Hidle. cbv beta iota. unfold gets. cbn [rx].
  unfold lock. change (cell_taken W 0 W) with 0. change (2 ^ 0) with 1. rewrite Z.mod_1_r. reflexivity.
Qed.

Definition period : nat := Z.to_nat RX_INTERVAL + S (10 * Z.to_nat W).

Lemma cycles_one c l out s : rest 0 (c :: l) out s -> in_u8 c ->
  exists s', cycles W period s = Ok tt s' /\ rest 0 l (out ++ [c]) s'.
Proof.
  intros Hs Hc. destruct (cycles_rest (Z.to_nat RX_INTERVAL) 0 _ _ s Hs) as (s1 & Hr & Hs1);
    [lia|unfold RX_INTERVAL; lia|].
  rewrite Z2Nat.id in Hs1 by (unfold RX_INTERVAL; lia).
  destruct (cycle_fetch c l out s1 Hs1) as (t & Hf & Ht).
  exists (sent c 0 true t out). split; [|by split_and!].
  unfold period. erewrite cycles_add by exact Hr. cbn [cycles]. run_with (exact Hf).
  by apply cycles_byte.
Qed.

Lemma cycles_stream cs : forall l out s, rest 0 (cs ++ l) out s -> Forall in_u8 cs ->
  exists s', cycles W (length cs * period) s = Ok tt s' /\ rest 0 l (out ++ cs) s'.
Proof.
  induction cs as [|c cs IH]; intros l out s Hs Hu; [exists s; by rewrite app_nil_r|].
  apply Forall_cons_iff in Hu as [Hc Hu].
  destruct (cycles_one c (cs ++ l) out s Hs Hc) as (s1 & H1 & Hs1).
  destruct (IH l (out ++ [c]) s1 Hs1 Hu) as (s2 & H2 & Hs2). exists s2. split.
  - cbn [length]. replace (S (length cs) * period)%nat with (period + length cs * period)%nat by lia.
    by erewrite cycles_add by exact H1.
  - by rewrite <- app_assoc in Hs2.
Qed.
End stream.

(** C11: the two serial machines agree on the format of a character.  When the
    line [uart_rx] drives is the line [uart_tx] listens to, everything typed is
    printed, in order and without an error report, one character every
    10001 + 10 bit times, for every bit time of at least two cycles. *)
Theorem uart_loopback {T} `{Term T} `{!Typed T} W cs l out (s : uart_in T * uart_out) :
  2 <= W < 2 ^ 64 -> Forall in_u8 cs -> rest 0 (cs ++ l) out s ->
  exists s', cycles W (length cs * period W) s = Ok tt s' /\ rest 0 l (out ++ cs) s'.
Proof. intros. by apply cycles_stream. Qed.

#[export] Instance keyboard_typed : Typed keyboard.
Proof.
  refine {| typed t := t.1 |}.
  - done.
  - intros [l b] Hl. do 3 eexists. split; [reflexivity|]. split; [|done]. simpl in *. by rewrite decide_False.
  - intros [l b] c l' E. simpl in E. subst l. by eexists.
Defined.

(** The harness of a 50 MHz system starting up with two characters typed. *)
Definition harness : uart_in keyboard * uart_out :=
  (Rx IDLE 0 0 0 1 0 false ([72; 105], false), Tx IDLE 0 0 0 0 []).

Lemma uart_loopback_witness :
  exists s', cycles (bitwidth 50000000) (2 * period (bitwidth 50000000)) harness = Ok tt s' /\
  rest 0 [] [72; 105] s'.
Proof.
  apply (uart_loopback (bitwidth 50000000) [72; 105] [] [] harness).
  - by vm_compute.
  - repeat constructor; unfold in_u8; lia.
  - by split_and!.
Defined.

(** A character whose start bit comes exactly when the stop bit before it is
    over: the character before it is printed twice. *)
Definition frame (c : Z) : list Z :=
  concat (map (replicate 40) ([0] ++ map (fun i : nat => Z.b2z (Z.testbit c i)) (seq 0 8) ++ [1])).

Example back_to_back :
  tx_out (fold_left (fun s l => uart_tx 40 l s) (frame 72 ++ frame 105 ++ [1; 1]) (Tx IDLE 0 0 0 1 [])) =
    [72; 72; 105].
Proof. vm_compute. reflexivity. Qed.

(** A bit that ends in the middle of its time is reported. *)
Example short_start :
  tx_out (fold_left (fun s l => uart_tx 4 l s) [0; 0; 1] (Tx IDLE 0 0 0 1 [])) =
    codes "START_BIT error 4 2" ++ [10].
Proof. vm_compute. reflexivity. Qed.
