(* ===== verification/Harness.v ===== *)
(** * The Verilator harness: verilator/microwatt-verilator.cpp

    The program resets the simulated system, then clocks it until it finishes,
    and joins its serial lines to the two machines of [UartSim] once a cycle.
    The system is generated: what an evaluation does, and whether it has asked
    to finish, are parameters. *)

From S2P Require Import Prelude Vsnprintf MwDebug SimConsole UartSim.

(** The ports of the system that the program uses, and the rest of it. *)
Record top (X : Type) := Top {
  ext_clk : Z; ext_rst : Z; uart0_rxd : Z; uart0_txd : Z; top_state : X
}.
Arguments Top {X}. Arguments ext_clk {X}. Arguments ext_rst {X}. Arguments uart0_rxd {X}.
Arguments uart0_txd {X}. Arguments top_state {X}.

(** The system, the time, the times dumped to the trace, and the static
    variables of the serial port. *)
Record sim (X T : Type) := SimState {
  v_top : top X; v_time : Z; v_tfp : list Z; v_in : uart_in T; v_out : uart_out
}.
Arguments SimState {X T}. Arguments v_top {X T}. Arguments v_time {X T}. Arguments v_tfp {X T}.
Arguments v_in {X T}. Arguments v_out {X T}.

Section harness.
Context (VM_TRACE : bool) (BITWIDTH : Z) {X T : Type} `{Term T}.
Context (top_eval : Z -> Z -> Z -> X -> Z * X) (gotFinish : X -> bool).

Definition top_eval_ports (t : top X) : top X :=
  let '(txd, x) := top_eval (ext_clk t) (ext_rst t) (uart0_rxd t) (top_state t) in
  Top (ext_clk t) (ext_rst t) (uart0_rxd t) txd x.

Definition on_top (f : top X -> top X) : M (sim X T) unit :=
  modify (fun s => SimState (f (v_top s)) (v_time s) (v_tfp s) (v_in s) (v_out s)).

Definition set_ext_clk (c : Z) : M (sim X T) unit :=
  on_top (fun t => Top c (ext_rst t) (uart0_rxd t) (uart0_txd t) (top_state t)).
Definition set_ext_rst (r : Z) : M (sim X T) unit :=
  on_top (fun t => Top (ext_clk t) r (uart0_rxd t) (uart0_txd t) (top_state t)).
Definition set_uart0_rxd (l : Z) : M (sim X T) unit :=
  on_top (fun t => Top (ext_clk t) (ext_rst t) l (uart0_txd t) (top_state t)).

(** The trace, when there is one, and the time. *)
Definition dump : M (sim X T) unit := modify (fun s =>
  SimState (v_top s) (v_time s) (if VM_TRACE then v_tfp s ++ [v_time s] else v_tfp s) (v_in s) (v_out s)).
Definition next_time : M (sim X T) unit := modify (fun s =>
  SimState (v_top s) (u64 (v_time s + 1)) (v_tfp s) (v_in s) (v_out s)).

Definition tick : M (sim X T) unit :=
  _ ← set_ext_clk 1;
  _ ← on_top top_eval_ports;
  _ ← dump;
  _ ← next_time;
  _ ← set_ext_clk 0;
  _ ← on_top top_eval_ports;
  _ ← dump;
  next_time.

Definition reset_step : Z -> M (sim X T) (Z + unit) := fun i =>
  if i <? 5 then _ ← tick; mret (inl (i + 1)) else mret (inr tt).

Definition call_uart_tx : M (sim X T) unit := modify (fun s =>
  SimState (v_top s) (v_time s) (v_tfp s) (v_in s) (uart_tx BITWIDTH (uart0_txd (v_top s)) (v_out s))).

Definition call_uart_rx : M (sim X T) Z := fun s =>
  match uart_rx BITWIDTH (v_in s) with
  | Ok l g => Ok l (SimState (v_top s) (v_time s) (v_tfp s) g (v_out s))
  | Err e g => Err e (SimState (v_top s) (v_time s) (v_tfp s) g (v_out s))
  end.

Definition main_step : unit -> M (sim X T) (unit + unit) := fun _ =>
  x ← gets (fun s => top_state (v_top s));
  if gotFinish x then mret (inr tt) else
  _ ← tick;
  _ ← call_uart_tx;
  l ← call_uart_rx;
  _ ← set_uart0_rxd l;
  mret (inl tt).

(** [fuel] is a bound on the cycles after the reset. *)
Definition main (fuel : nat) : M (sim X T) Z :=
  _ ← set_ext_rst 0;
  _ ← loop 6 reset_step 0;
  _ ← set_ext_rst 1;
  _ ← loop fuel main_step tt;
  mret 0.
End harness.

(** ** Reference: one clock period at a time *)

Section reference.
Context (VM_TRACE : bool) (W : Z) {X T : Type} `{Term T}.
Context (top_eval : Z -> Z -> Z -> X -> Z * X) (gotFinish : X -> bool).

(** A rising and a falling edge: the line the system then drives, and its
    state. *)
Definition pulse (rst rxd : Z) (x : X) : Z * X := top_eval 0 rst rxd (top_eval 1 rst rxd x).2.

(** [n] pulses with the reset line low. *)
Fixpoint resets (n : nat) (rxd : Z) (x : X) : X :=
  match n with
  | O => x
  | S n' => resets n' rxd (pulse 0 rxd x).2
  end.

(** [run n rxd x g o]: the system in state [x], which sees the line [rxd], and
    the two serial machines [g] and [o], go through [n] cycles without the
    system finishing before; what they are then. *)
Fixpoint run (n : nat) (rxd : Z) (x : X) (g : uart_in T) (o : uart_out) : option (Z * X * uart_in T * uart_out) :=
  match n with
  | O => Some (rxd, x, g, o)
  | S n' =>
      if gotFinish x then None else
      let '(txd, x') := pulse 1 rxd x in
      match uart_rx W g with
      | Ok l g' => run n' l x' g' (uart_tx W txd o)
      | Err _ _ => None
      end
  end.

(** The times of [k] pulses from [t] on. *)
Definition times (t : Z) (k : nat) : list Z := map (fun i : nat => u64 (t + i)) (seq 0 (2 * k)).

Lemma times_S t k : times t (S k) = u64 t :: u64 (t + 1) :: times (t + 2) k.
Proof.
  unfold times. replace (2 * S k)%nat with (S (S (2 * k))) by lia. cbn [seq map].
  f_equal; [f_equal; lia|]. f_equal. rewrite <- !seq_shift, !map_map. apply map_ext. intros i. f_equal. lia.
Qed.

Lemma times_add a b : forall t, times t (a + b) = times t a ++ times (t + 2 * a) b.
Proof.
  induction a as [|a IH]; intros t; [cbn [Nat.add]; by replace (t + 2 * 0%nat) with t by lia|].
  cbn [Nat.add]. rewrite !times_S, IH. cbn [app]. by replace (t + 2 + 2 * a) with (t + 2 * S a) by lia.
Qed.

(** What an evaluation does, and what a tick does. *)
Lemma eval_ok c r l d x t tr (g : uart_in T) o d' x' :
  top_eval c r l x = (d', x') ->
  on_top (top_eval_ports top_eval) (SimState (Top c r l d x) t tr g o) =
    Ok tt (SimState (Top c r l d' x') t tr g o).
Proof. intros E. unfold on_top, top_eval_ports, modify. cbn. by rewrite E. Qed.

Lemma tick_ok c r l d x t tr (g : uart_in T) o d' x' :
  pulse r l x = (d', x') ->
  tick VM_TRACE top_eval (SimState (Top c r l d x) t tr g o) =
    Ok tt (SimState (Top 0 r l d' x') (u64 (t + 2)) (tr ++ (if VM_TRACE then [t; u64 (t + 1)] else [])) g o).
Proof.
  unfold pulse. destruct (top_eval 1 r l x) as [d1 x1] eqn:E1. cbn [snd]. intros E2. unfold tick.
  run_with reflexivity. run_with (by apply eval_ok). run_with reflexivity. run_with reflexivity.
  run_with reflexivity. run_with (by apply eval_ok). run_with reflexivity.
  unfold next_time, modify. cbn [v_top v_time v_tfp v_in v_out].
  assert (E : u64 (u64 (t + 1) + 1) = u64 (t + 2)) by (unfold u64; rewrite Zplus_mod_idemp_l; f_equal; lia).
  rewrite E. f_equal. f_equal. destruct VM_TRACE; [by rewrite <- app_assoc|by rewrite app_nil_r].
Qed.

Definition dumped (t : Z) (k : nat) : list Z := if VM_TRACE then times t k else [].

Lemma dumped_S t k tr :
  (tr ++ (if VM_TRACE then [u64 t; u64 (u64 t + 1)] else [])) ++ dumped (t + 2) k = tr ++ dumped t (S k).
Proof.
  unfold dumped. destruct VM_TRACE; [|by rewrite app_nil_r]. rewrite times_S, <- app_assoc. cbn [app].
  assert (E : u64 (u64 t + 1) = u64 (t + 1)) by (unfold u64; by rewrite Zplus_mod_idemp_l). by rewrite E.
Qed.

Lemma time_2 t : u64 (u64 t + 2) = u64 (t + 2).
Proof. unfold u64. by rewrite Zplus_mod_idemp_l. Qed.

Lemma reset_loop (k : nat) : forall i f t c l d x tr (g : uart_in T) o,
  i + k = 5 -> (k < f)%nat -> exists c' d',
  loop f (reset_step VM_TRACE top_eval) i (SimState (Top c 0 l d x) (u64 t) tr g o) =
    Ok tt (SimState (Top c' 0 l d' (resets k l x)) (u64 (t + 2 * k)) (tr ++ dumped t k) g o).
Proof.
  induction k as [|k IH]; intros i f t c l d x tr g o Hi Hf; (destruct f as [|f]; [lia|]).
  - exists c, d. unfold dumped, times. simpl seq. cbn [map]. replace (t + 2 * 0%nat) with t by lia.
    replace (if VM_TRACE then [] else []) with (@nil Z) by (by destruct VM_TRACE). rewrite app_nil_r.
    apply loop_break. enter reset_step. by if_false.
  - cbn [resets]. destruct (pulse 0 l x) as [d1 x1] eqn:E1. cbn [snd].
    pose proof (tick_ok c 0 l d x (u64 t) tr g o d1 x1 E1) as Ht. rewrite time_2 in Ht.
    destruct (IH (i + 1) f (t + 2) 0 l d1 x1 (tr ++ (if VM_TRACE then [u64 t; u64 (u64 t + 1)] else [])) g o ltac:(lia) ltac:(lia))
      as (c' & d' & E). exists c', d'.
    rewrite dumped_S in E. replace (t + 2 + 2 * k) with (t + 2 * S k) in E by lia. rewrite <- E.
    apply loop_continue. enter reset_step. if_true. by run_with (exact Ht).
Qed.

(** One round of the main loop. *)
Lemma main_step_ok t c l d x tr (g g' : uart_in T) o l' :
  gotFinish x = false -> uart_rx W g = Ok l' g' ->
  main_step VM_TRACE W top_eval gotFinish tt (SimState (Top c 1 l d x) (u64 t) tr g o) =
    Ok (inl tt) (SimState (Top 0 1 l' (pulse 1 l x).1 (pulse 1 l x).2) (u64 (t + 2))
      (tr ++ (if VM_TRACE then [u64 t; u64 (u64 t + 1)] else [])) g' (uart_tx W (pulse 1 l x).1 o)).
Proof.
  intros Hx Hrx. destruct (pulse 1 l x) as [d1 x1] eqn:E1. cbn [fst snd].
  pose proof (tick_ok c 1 l d x (u64 t) tr g o d1 x1 E1) as Ht. rewrite time_2 in Ht.
  unfold main_step. run_with reflexivity. cbn [v_top top_state]. rewrite Hx.
  run_with (exact Ht). run_with reflexivity.
  run_with (unfold call_uart_rx; cbn [v_in]; rewrite Hrx; reflexivity). by run_with reflexivity.
Qed.

Lemma main_loop (n : nat) : forall f t c l d x tr (g : uart_in T) o l' x' g' o',
  run n l x g o = Some (l', x', g', o') -> gotFinish x' = true -> (n < f)%nat -> exists c' d',
  loop f (main_step VM_TRACE W top_eval gotFinish) tt (SimState (Top c 1 l d x) (u64 t) tr g o) =
    Ok tt (SimState (Top c' 1 l' d' x') (u64 (t + 2 * n)) (tr ++ dumped t n) g' o').
Proof.
  induction n as [|n IH]; intros f t c l d x tr g o l' x' g' o' Hr Hx Hf; (destruct f as [|f]; [lia|]).
  - injection Hr as <- <- <- <-. exists c, d. unfold dumped, times. simpl seq. cbn [map].
    replace (t + 2 * 0%nat) with t by lia.
    replace (if VM_TRACE then [] else []) with (@nil Z) by (by destruct VM_TRACE). rewrite app_nil_r.
    apply loop_break. unfold main_step. run_with reflexivity. cbn [v_top top_state]. by rewrite Hx.
  - cbn [run] in Hr. destruct (gotFinish x) eqn:Hfin; [done|]. destruct (uart_rx W g) as [l1 g1|] eqn:Hrx;
      [|by destruct (pulse 1 l x)].
    pose proof (main_step_ok t c l d x tr g g1 o l1 Hfin Hrx) as Hs.
    destruct (pulse 1 l x) as [d1 x1]. cbn [fst snd] in Hs.
    destruct (IH f (t + 2) 0 l1 d1 x1 (tr ++ (if VM_TRACE then [u64 t; u64 (u64 t + 1)] else [])) g1 _ _ _ _ _ Hr Hx ltac:(lia)) as (c' & d' & E). exists c', d'.
    rewrite dumped_S in E. replace (t + 2 + 2 * n) with (t + 2 * S n) in E by lia. rewrite <- E.
    by apply loop_continue.
Qed.
End reference.

(** C18: the harness resets the system and then runs it until it finishes.  If
    the system, reset for five clock pulses with its reset line low and then
    clocked with the line high, finishes after [n] more pulses, the program
    makes exactly those pulses and returns 0; in each of the [n] cycles the
    serial port sees the line the system drives and the system sees, in the
    next, the line the port drives; the time is the number of edges, and every
    one of them is in the trace. *)
Theorem harness_runs {X T} `{Term T} VM_TRACE W (top_eval : Z -> Z -> Z -> X -> Z * X) gotFinish
    n c r l d x (g : uart_in T) o l' x' g' o' :
  run W top_eval gotFinish n l (resets top_eval 5 l x) g o = Some (l', x', g', o') ->
  gotFinish x' = true ->
  exists c' d', main VM_TRACE W top_eval gotFinish (S n) (SimState (Top c r l d x) 0 [] g o) =
    Ok 0 (SimState (Top c' 1 l' d' x') (u64 (2 * (5 + n))) (dumped VM_TRACE 0 (5 + n)) g' o').
Proof.
  intros Hr Hx. unfold main. run_with reflexivity.
  destruct (reset_loop VM_TRACE top_eval 5 0 6 0 c l d x [] g o) as (c1 & d1 & E1); [lia|lia|].
  run_with (exact E1). run_with reflexivity.
  destruct (main_loop VM_TRACE W top_eval gotFinish n (S n) 10 c1 l d1 _ (dumped VM_TRACE 0 5) g o _ _ _ _ Hr Hx)
    as (c' & d' & E2); [lia|]. run_with (exact E2). exists c', d'. unfold mret, M_ret. f_equal. f_equal; [f_equal; lia|].
  unfold dumped. destruct VM_TRACE; [|done]. by rewrite times_add.
Qed.

(** ** A system that echoes *)

(** While [echo_inv] holds the system drives the line it sees, and does not
    finish. *)
Class Echo {X : Type} (top_eval : Z -> Z -> Z -> X -> Z * X) (gotFinish : X -> bool) := {
  echo_inv : X -> Prop;
  echo_pulse l x : echo_inv x -> (pulse top_eval 1 l x).1 = l /\ echo_inv (pulse top_eval 1 l x).2;
  echo_goes_on x : echo_inv x -> gotFinish x = false
}.

Section echo.
Context (VM_TRACE : bool) (W : Z) {X T : Type} `{Term T}.
Context (top_eval : Z -> Z -> Z -> X -> Z * X) (gotFinish : X -> bool) `{!Echo top_eval gotFinish}.

(** [n] rounds of the main loop. *)
Fixpoint rounds (n : nat) : M (sim X T) unit :=
  match n with
  | O => mret tt
  | S n' => _ ← main_step VM_TRACE W top_eval gotFinish tt; rounds n'
  end.

(** The rounds are the cycles of the serial machines joined directly, the
    output half a cycle behind. *)
Lemma rounds_cycles (k : nat) : forall t c l d x tr (g : uart_in T) o gk ok l' g',
  echo_inv x -> cycles W k (g, uart_tx W l o) = Ok tt (gk, ok) -> uart_rx W gk = Ok l' g' ->
  exists t' c' d' x' tr',
  rounds (S k) (SimState (Top c 1 l d x) (u64 t) tr g o) = Ok tt (SimState (Top c' 1 l' d' x') t' tr' g' ok) /\
  echo_inv x'.
Proof.
  induction k as [|k IH]; intros t c l d x tr g o gk ok l' g' Hi Hc Hrx;
    destruct (echo_pulse l x Hi) as [Hd Hi']; pose proof (echo_goes_on x Hi) as Hfin.
  - injection Hc as <- <-. pose proof (main_step_ok VM_TRACE W top_eval gotFinish t c l d x tr g g' o l' Hfin Hrx) as Hs.
    cbn [rounds]. rewrite Hd in Hs. do 5 eexists. split; [|exact Hi']. by run_with (exact Hs).
  - cbn [cycles] in Hc. apply bind_inv in Hc as ([] & [g1 o1] & Hc1 & Hc).
    cbn [cycle] in Hc1. destruct (uart_rx W g) as [l1 g1'|] eqn:Hrx1; [|done]. injection Hc1 as -> <-.
    pose proof (main_step_ok VM_TRACE W top_eval gotFinish t c l d x tr g g1 o l1 Hfin Hrx1) as Hs. rewrite Hd in Hs.
    destruct (IH (t + 2) 0 l1 l (pulse top_eval 1 l x).2
      (tr ++ (if VM_TRACE then [u64 t; u64 (u64 t + 1)] else [])) g1 (uart_tx W l o) gk ok l' g' Hi' Hc Hrx)
      as (t' & c' & d' & x' & tr' & E & Hx'). exists t', c', d', x', tr'. split; [|done].
    change (rounds (S (S k))) with (_ ← main_step VM_TRACE W top_eval gotFinish tt; rounds (S k)).
    by run_with (exact Hs).
Qed.
End echo.

(** C24: what is typed into the harness comes out again when the system echoes
    its line.  From a moment when the lines are idle, after one round of the
    main loop and one serial period for each character, every character typed
    has gone bit by bit through the system and is printed, in order and without
    an error report. *)
Theorem harness_echo {X T} `{Term T} `{!Typed T} VM_TRACE W (top_eval : Z -> Z -> Z -> X -> Z * X) gotFinish
    `{!Echo top_eval gotFinish} cs l out c d x tr t (g : uart_in T) o :
  2 <= W < 2 ^ 64 -> Forall in_u8 cs -> in_u64 t -> echo_inv x -> rest 0 (cs ++ l) out (g, o) ->
  exists s', rounds VM_TRACE W top_eval gotFinish (S (length cs * period W)) (SimState (Top c 1 1 d x) t tr g o) = Ok tt s' /\
  typed (rx_term (v_in s')) = l /\ tx_out (v_out s') = out ++ cs /\ echo_inv (top_state (v_top s')).
Proof.
  intros HW Hcs Ht Hi Hrest.
  assert (Hrest1 : rest 0 (cs ++ l) out (g, uart_tx W 1 o)).
  { destruct Hrest as (? & ? & ? & ? & Hst & ?). unfold rest in *. cbn [fst snd] in *. split_and!; try done;
      unfold uart_tx; rewrite Hst; cbn; done. }
  destruct (cycles_stream W HW cs l out _ Hrest1 Hcs) as ([gk ok] & Hc & Hk).
  destruct Hk as (K1 & K2 & K3 & K4 & K5 & K6). cbn [fst snd] in *.
  assert (Hrx : exists l' g', uart_rx W gk = Ok l' g' /\ rx_term g' = rx_term gk).
  { unfold uart_rx. erewrite bind_ok by reflexivity. cbv beta iota. rewrite K1. unfold rx_idle.
    destruct gk as [st c0 k0 b v m raw tm]. cbn in K3. subst m. by do 2 eexists. }
  destruct Hrx as (l' & g' & Hrx & Hterm).
  rewrite <- (u64_small t) by exact Ht.
  destruct (rounds_cycles VM_TRACE W top_eval gotFinish _ t c 1 d x tr g o gk ok l' g' Hi Hc Hrx)
    as (t' & c' & d' & x' & tr' & E & Hx').
  eexists. split; [exact E|]. cbn [v_in v_out v_top top_state]. by rewrite Hterm.
Qed.

(** ** A system *)

Module Wired.
(** The system copies its input line to a flip-flop at the rising edge, and
    finishes after a number of edges. *)
Definition wired_eval (c r l : Z) (x : Z * Z) : Z * (Z * Z) :=
  let q := if c =? 1 then l else x.1 in (q, (q, x.2 + 1)).
Definition wired_finish (limit : Z) (x : Z * Z) : bool := limit <=? x.2.

#[export] Instance wired_echo : Echo wired_eval (fun _ => false).
Proof. by refine {| echo_inv _ := True |}. Defined.

Definition keys : uart_in keyboard := Rx IDLE 0 0 0 1 0 false ([72; 105], false).
Definition screen : uart_out := Tx IDLE 0 0 0 1 [].

(** Two cycles after the reset: twelve and two edges. *)
Lemma harness_runs_witness : exists c' d',
  main true 434 wired_eval (wired_finish 14) 3 (SimState (Top 0 0 1 0 (1, 0)) 0 [] keys screen) =
    Ok 0 (SimState (Top c' 1 1 d' (1, 14)) 14 (map Z.of_nat (seq 0 14))
      (Rx IDLE 0 0 0 1 2 false ([72; 105], false)) screen).
Proof.
  apply (harness_runs true 434 wired_eval (wired_finish 14) 2 0 0 1 0 (1, 0) keys screen
    1 (1, 14) (Rx IDLE 0 0 0 1 2 false ([72; 105], false)) screen).
  - vm_compute. reflexivity.
  - vm_compute. reflexivity.
Defined.

Lemma harness_echo_witness : exists s',
  rounds false 434 wired_eval (fun _ => false) (S (2 * period 434)) (SimState (Top 0 1 1 1 (1, 0)) 10 [] keys screen) = Ok tt s' /\
  typed (rx_term (v_in s')) = [] /\ tx_out (v_out s') = [72; 105] /\ echo_inv (top_state (v_top s')).
Proof.
  apply (harness_echo false 434 wired_eval (fun _ => false) [72; 105] [] [] 0 1 (1, 0) [] 10 keys screen).
  - lia.
  - repeat constructor; unfold in_u8; lia.
  - unfold in_u64. lia.
  - done.
  - by split_and!.
Defined.
End Wired.
