(* ===== verification/FmtLog.v ===== *)
(** * The log formatter: scripts/fmt_log/fmt_log.c

    The processor's log is a file of 32-byte entries; the tool prints a line
    for each, with a heading every twenty lines, and a summary.  An entry is
    the little-endian number of its bytes, and the structure's bit fields are
    taken from it from the lowest bit up, as the host's compiler lays them out:
    no field crosses one of the four 64-bit units. *)

From Stdlib Require Import SpecFloat.
From S2P Require Import Prelude CMem Ctype Vsnprintf SimLink MwDebug UartSim.

(** ** Entries *)

Definition log_entry : list (string * Z) :=
  [("nia_lo", 42); ("nia_hi", 1); ("ic_ra_valid", 1); ("ic_access_ok", 1); ("ic_is_miss", 1);
   ("ic_is_hit", 1); ("ic_way", 3); ("ic_state", 1); ("ic_part_nia", 4); ("ic_fetch_failed", 1);
   ("ic_stall_out", 1); ("ic_wb_stall", 1); ("ic_wb_cyc", 1); ("ic_wb_stb", 1); ("ic_wb_adr", 3);
   ("ic_wb_ack", 1); ("ic_insn", 36); ("ic_valid", 1); ("d1_valid", 1); ("d1_unit", 2);
   ("d1_part_nia", 4); ("d1_insn_type", 6); ("d2_bypass_a", 1); ("d2_bypass_b", 1);
   ("d2_bypass_c", 1); ("d2_stall_out", 1); ("d2_stopped_out", 1); ("d2_valid", 1);
   ("d2_part_nia", 4); ("e1_flush_out", 1); ("e1_stall_out", 1); ("e1_redirect", 1);
   ("e1_valid", 1); ("e1_write_enable", 1); ("e1_irq_state", 1); ("e1_irq", 1);
   ("e1_exception", 1); ("e1_msr_dr", 1); ("e1_msr_ir", 1); ("e1_msr_pr", 1); ("e1_msr_ee", 1);
   ("pad1", 4); ("ls_state", 3); ("ls_dw_done", 1); ("ls_min_done", 1); ("ls_do_valid", 1);
   ("ls_mo_valid", 1); ("ls_lo_valid", 1); ("ls_eo_except", 1); ("ls_stall_out", 1); ("pad2", 1);
   ("dc_state", 3); ("dc_ra_valid", 1); ("dc_tlb_way", 3); ("dc_stall_out", 1); ("dc_op", 3);
   ("dc_do_valid", 1); ("dc_do_error", 1); ("dc_wb_cyc", 1); ("dc_wb_stb", 1); ("dc_wb_ack", 1);
   ("dc_wb_stall", 1); ("dc_wb_adr", 3); ("cr_wr_mask", 8); ("cr_wr_data", 4);
   ("cr_wr_enable", 1); ("reg_wr_reg", 7); ("reg_wr_enable", 1); ("reg_wr_data", 64)].

Fixpoint find_field (name : string) (pos : Z) (l : list (string * Z)) : option (Z * Z) :=
  match l with
  | [] => None
  | (n, w) :: l => if String.eqb n name then Some (pos, w) else find_field name (pos + w) l
  end.

Definition field (e : Z) (name : string) : Z :=
  match find_field name 0 log_entry with
  | Some (pos, w) => Z.shiftr e pos mod 2 ^ w
  | None => 0
  end.

Definition units : list (list Z) := [codes "al"; codes "ls"; codes "fp"; codes "3?"].
Definition ops : list (list Z) :=
  [codes "illegal"; codes "nop    "; codes "add    "; codes "attn   "; codes "b      ";
   codes "bc     "; codes "bcreg  "; codes "bperm  "; codes "bsort  "; codes "cmp    ";
   codes "compute"; codes "countb "; codes "darn   "; codes "dcbf   "; codes "dcbst  ";
   codes "dcbz   "; codes "icbi   "; codes "icbt   "; codes "fpcmp  "; codes "fparith";
   codes "fpmove "; codes "fpmisc "; codes "div    "; codes "dive   "; codes "mod    ";
   codes "isync  "; codes "ld     "; codes "st     "; codes "mcrxrx "; codes "mfmsr  ";
   codes "mfspr  "; codes "msg    "; codes "mtcrf  "; codes "mtmsr  "; codes "mtspr  ";
   codes "mull64 "; codes "mulh64 "; codes "mulh32 "; codes "rfid   "; codes "sc     ";
   codes "sync   "; codes "tlbie  "; codes "trap   "; codes "wait   "; codes "ffail  ";
   codes "?45    "; codes "?46    "; codes "?47    "; codes "?48    "; codes "?49    ";
   codes "?50    "; codes "?51    "; codes "?52    "; codes "?53    "; codes "?54    ";
   codes "?55    "; codes "?56    "; codes "?57    "; codes "?58    "; codes "?59    ";
   codes "?60    "; codes "?61    "; codes "?62    "; codes "?63    "].
Definition spr_names : list (list Z) :=
  [codes "lr "; codes "ctr"; codes "sr0"; codes "sr1"; codes "hr0"; codes "hr1"; codes "sg0";
   codes "sg1"; codes "sg2"; codes "sg3"; codes "hg0"; codes "hg1"; codes "xer"].

Definition heading : list Z :=
  codes "        fetch1 NIA      icache                             decode1       decode2   execute1         loadstore  dcache       CR   GSPR" ++ [10] ++
  codes "     ----------------   TAHW S -WB-- pN  ic --insn--    pN un op         pN byp    FR IIE MSR  WC   SD MM CE   SRTO DE -WB-- c ms reg val" ++ [10] ++
  codes "                        LdMy t csnSa IA                 IA it            IA abc    le srx EPID em   tw rd mx   tAwp vr csnSa 0 k" ++ [10].

(** ** A line *)

Definition spaces (w : nat) (l : list Z) : list Z := replicate (w - length l) 32 ++ l.

Section line.
Context (e : Z) (full_nia : list Z).

Definition FLGA (i : string) (y z : list Z) : list Z := if field e i =? 0 then z else y.
Definition FLAG (i : string) (y : list Z) : list Z := FLGA i y (codes " ").
Definition PNIA (f : string) : Z := Z.land (default 0 (full_nia !! Z.to_nat (field e f))) 255.
Definition num (i : string) : list Z := dec (field e i).

Definition fetch_text (lineno : Z) : list Z :=
  spaces 4 (dec lineno) ++ codes " " ++ FLGA "nia_hi" (codes "c") (codes "0") ++ codes "0000" ++
  zeros 11 (hex (u64 (Z.shiftl (field e "nia_lo") 2))) ++ codes " " ++ FLAG "ic_stall_out" (codes "|") ++ codes " ".

Definition icache_text : list Z :=
  FLGA "ic_ra_valid" (codes " ") (codes "T") ++ FLGA "ic_access_ok" (codes " ") (codes "X") ++
  FLGA "ic_is_hit" (codes "H") (FLGA "ic_is_miss" (codes "M") (codes " ")) ++ num "ic_way" ++ codes " " ++
  FLAG "ic_state" (codes "W") ++ codes " " ++ FLAG "ic_wb_cyc" (codes "c") ++ FLAG "ic_wb_stb" (codes "s") ++
  num "ic_wb_adr" ++ FLAG "ic_wb_stall" (codes "S") ++ FLAG "ic_wb_ack" (codes "a") ++ codes " " ++
  zeros 2 (hex (PNIA "ic_part_nia")) ++ codes " ".

Definition insn_text : list Z :=
  let insn := field e "ic_insn" in
  if negb (field e "ic_valid" =? 0) then
    if negb (Z.land insn (Z.shiftl 1 35) =? 0) then codes "ill " ++ zeros 8 (hex (Z.land insn 4294967295))
    else spaces 3 (dec (Z.shiftr insn 26)) ++ codes " x" ++ zeros 7 (hex (Z.land insn 67108863))
  else if negb (field e "ic_fetch_failed" =? 0) then codes "    !!!!!!!!"
  else codes "--- --------".

Definition decode_text : list Z :=
  codes " " ++ FLAG "ic_valid" (codes ">") ++ FLAG "d2_stall_out" (codes "|") ++ codes " " ++
  zeros 2 (hex (PNIA "d1_part_nia")) ++ codes " " ++
  (if negb (field e "d1_valid" =? 0)
   then default [] (units !! Z.to_nat (field e "d1_unit")) ++ codes " " ++
        default [] (ops !! Z.to_nat (field e "d1_insn_type"))
   else codes "-- -------") ++
  codes " " ++ FLAG "d1_valid" (codes ">") ++ FLAG "d2_stall_out" (codes "|") ++ codes " " ++
  zeros 2 (hex (PNIA "d2_part_nia")) ++ codes " " ++ FLAG "d2_bypass_a" (codes "a") ++
  FLAG "d2_bypass_b" (codes "b") ++ FLAG "d2_bypass_c" (codes "c") ++ codes " " ++
  FLAG "d2_valid" (codes ">") ++ FLAG "e1_stall_out" (codes "|") ++ codes " ".

Definition execute_text : list Z :=
  FLAG "e1_flush_out" (codes "F") ++ FLAG "e1_redirect" (codes "R") ++ codes " " ++
  FLAG "e1_irq_state" (codes "w") ++ FLAG "e1_irq" (codes "I") ++ FLAG "e1_exception" (codes "X") ++ codes " " ++
  FLAG "e1_msr_ee" (codes "E") ++ FLGA "e1_msr_pr" (codes "u") (codes "s") ++ FLAG "e1_msr_ir" (codes "I") ++
  FLAG "e1_msr_dr" (codes "D") ++ codes " " ++ FLAG "e1_write_enable" (codes "W") ++
  FLAG "e1_valid" (codes "C") ++ codes " ".

Definition loadstore_text : list Z :=
  FLAG "ls_stall_out" (codes "|") ++ codes " " ++ num "ls_state" ++ num "ls_dw_done" ++ codes " " ++
  FLAG "ls_mo_valid" (codes "M") ++ FLAG "ls_min_done" (codes "m") ++ codes " " ++
  FLAG "ls_lo_valid" (codes "C") ++ FLAG "ls_eo_except" (codes "X") ++ codes " " ++
  FLAG "ls_do_valid" (codes ">") ++ codes " ".

Definition dcache_text : list Z :=
  num "dc_state" ++ FLAG "dc_ra_valid" (codes "R") ++ num "dc_tlb_way" ++ num "dc_op" ++ codes " " ++
  FLAG "dc_do_valid" (codes "V") ++ FLAG "dc_do_error" (codes "E") ++ codes " " ++
  FLAG "dc_wb_cyc" (codes "c") ++ FLAG "dc_wb_stb" (codes "s") ++ num "dc_wb_adr" ++
  FLAG "dc_wb_stall" (codes "S") ++ FLAG "dc_wb_ack" (codes "a") ++ codes " ".

Definition cr_text : list Z :=
  if negb (field e "cr_wr_enable" =? 0)
  then hex (field e "cr_wr_data") ++ codes ">" ++ zeros 2 (hex (field e "cr_wr_mask")) ++ codes " "
  else codes "     ".

Definition reg_field (r : Z) : list Z :=
  if (r <? 32) || (44 <? r) then codes "r" ++ zeros 2 (dec r)
  else default [] (spr_names !! Z.to_nat (r - 32)).

Definition reg_text : list Z :=
  if negb (field e "reg_wr_enable" =? 0) then
    let r := field e "reg_wr_reg" in
    reg_field r ++ codes "=" ++ zeros 16 (hex (field e "reg_wr_data"))
  else [].

Definition log_line (lineno : Z) : list Z :=
  fetch_text lineno ++ icache_text ++ insn_text ++ decode_text ++ execute_text ++ loadstore_text ++
  dcache_text ++ cr_text ++ reg_text ++ [10].
End line.

(** ** The program *)

(** The address of an entry, as the table of recent addresses keeps it: the
    shift has no cast here, and the compiler does it in the 42 bits of the
    field, so that the two highest bits of the address are lost. *)
Definition entry_nia (e : Z) : Z :=
  Z.lor (if field e "nia_hi" =? 0 then 0 else 13835058055282163712) (Z.shiftl (field e "nia_lo") 2 mod 2 ^ 42).

Record fmt := Fmt { f_out : list Z; f_lineno : Z; f_ncompl : Z; f_nia : list Z }.

(** One round, with the entry that was read. *)
Definition fmt_entry (e : Z) (s : fmt) : fmt :=
  let nia := <[Z.to_nat (Z.land (field e "nia_lo") 15) := entry_nia e]> (f_nia s) in
  let head := if f_lineno s mod 20 =? 1 then heading else [] in
  let ncompl := if negb (field e "ls_lo_valid" =? 0) || negb (field e "e1_valid" =? 0)
                then f_ncompl s + 1 else f_ncompl s in
  Fmt (f_out s ++ head ++ log_line e nia (f_lineno s)) (f_lineno s + 1) ncompl nia.

Definition fmt_step : list Z -> M fmt (list Z + unit) := fun input =>
  if (length input <? 32)%nat then mret (inr tt) else
  _ ← modify (fmt_entry (le_value (take 32 input)));
  mret (inl (drop 32 input)).

(** A double to two decimals, the nearest and the even one of two. *)
Definition div_even (n d : Z) : Z :=
  let q := n / d in
  let r := n mod d in
  if 2 * r <? d then q else if d <? 2 * r then q + 1 else if Z.even q then q else q + 1.

Definition fixed2 (x : spec_float) : list Z :=
  match x with
  | S754_zero s => (if s then codes "-" else []) ++ codes "0.00"
  | S754_infinity s => (if s then codes "-" else []) ++ codes "inf"
  | S754_nan => codes "-nan"
  | S754_finite s m e =>
      let h := if e <? 0 then div_even (Zpos m * 100) (2 ^ (- e)) else Zpos m * 100 * 2 ^ e in
      (if s then codes "-" else []) ++ dec (h / 100) ++ codes "." ++ zeros 2 (dec (h mod 100))
  end.

(** [junk] is what the last slot of the table of addresses holds, which is not
    initialised; [file] is the file that was named, if it could be opened. *)
Definition main (ac : Z) (stdin : list Z) (file : option (list Z)) (junk : Z) : M fmt unit :=
  if negb (ac =? 1) && negb (ac =? 2) then throw (Exit 1) else
  match (if ac =? 2 then file else Some stdin) with
  | None => throw (Exit 1)
  | Some input =>
      _ ← modify (fun s => Fmt (f_out s) 1 0 (map (fun i : nat => Z.shiftl i 2) (seq 0 15) ++ [junk]));
      _ ← loop (S (length input)) fmt_step input;
      _ ← modify (fun s => Fmt (f_out s ++ dec (f_ncompl s) ++ codes " instructions completed, " ++
        fixed2 (double_div (double_of (f_lineno s - 1)) (double_of (f_ncompl s))) ++ codes " CPI" ++ [10])
        (f_lineno s) (f_ncompl s) (f_nia s));
      throw (Exit 0)
  end.

(** ** The table of addresses *)

Definition nia_slot (e : Z) : nat := Z.to_nat (Z.land (field e "nia_lo") 15).

(** The entries of a log one after the other. *)
Definition after (es : list Z) (s : fmt) : fmt := fold_left (fun s e => fmt_entry e s) es s.

Lemma after_snoc es e s : after (es ++ [e]) s = fmt_entry e (after es s).
Proof. unfold after. by rewrite fold_left_app. Qed.

Lemma after_nia_length es s : length (f_nia (after es s)) = length (f_nia s).
Proof.
  induction es as [|e es IH] using rev_ind; [done|]. rewrite after_snoc. simpl. by rewrite length_insert.
Qed.

Lemma nia_slot_range e : (nia_slot e < 16)%nat.
Proof.
  unfold nia_slot. change 15 with (Z.ones 4). rewrite Z.land_ones by lia.
  pose proof (Z.mod_pos_bound (field e "nia_lo") (2 ^ 4)). lia.
Qed.

(** the addresses shown next to the pipeline stages are those of the
    instructions in them: slot [k] of the table always holds the full address
    of the last entry whose instruction address has [k] as its low bits, or
    what it held at the start. *)
Theorem nia_table es s (k : nat) :
  length (f_nia s) = 16%nat -> (k < 16)%nat ->
  f_nia (after es s) !! k =
    match list.last (filter (fun e => nia_slot e = k) es) with
    | Some e => Some (entry_nia e)
    | None => f_nia s !! k
    end.
Proof.
  intros Hs Hk. induction es as [|e es IH] using rev_ind; [done|].
  pose proof (nia_slot_range e). pose proof (after_nia_length es s) as Hl.
  rewrite after_snoc, list.filter_app. unfold fmt_entry. cbn [f_nia]. fold (nia_slot e).
  destruct (decide (nia_slot e = k)) as [E|Hne].
  - rewrite filter_cons_True, filter_nil, last_snoc by done.
    rewrite E, list_lookup_insert_eq by lia. done.
  - rewrite filter_cons_False, filter_nil, app_nil_r by done. by rewrite list_lookup_insert_ne.
Qed.

Lemma nia_table_witness :
  f_nia (after [5; 21; 37] (Fmt [] 1 0 (replicate 16 0))) !! 5%nat = Some 148.
Proof.
  rewrite (nia_table [5; 21; 37] (Fmt [] 1 0 (replicate 16 0)) 5).
  - vm_compute. reflexivity.
  - reflexivity.
  - lia.
Defined.

(** ** The whole run *)

Definition entries (input : list Z) : list Z :=
  map (fun i : nat => le_value (take 32 (drop (32 * i) input))) (seq 0 (length input / 32)).

Lemma entries_length input : length (entries input) = (length input / 32)%nat.
Proof. unfold entries. by rewrite length_map, length_seq. Qed.

Lemma entries_cons input : (32 <= length input)%nat ->
  entries input = le_value (take 32 input) :: entries (drop 32 input).
Proof.
  intros Hl. unfold entries. rewrite length_drop.
  replace (length input / 32)%nat with (S ((length input - 32) / 32))%nat.
  2:{ rewrite <- (Nat.div_add_l 1 32) by lia. f_equal. lia. }
  cbn [seq map]. f_equal. rewrite <- (fmap_S_seq 0). rewrite map_map. apply map_ext. intros i.
  rewrite drop_drop. do 3 f_equal. lia.
Qed.

Lemma entries_concat es : Forall (fun e => 0 <= e < 2 ^ 256) es ->
  entries (concat (map (le_bytes 32) es)) = es.
Proof.
  induction 1 as [|e es He Hes IH]; [done|]. cbn [map concat].
  rewrite entries_cons by (rewrite length_app, le_bytes_length; lia).
  rewrite take_app_le, drop_app_ge by (rewrite le_bytes_length; lia).
  rewrite le_bytes_length, drop_0, IH, take_ge by (rewrite ?le_bytes_length; lia).
  f_equal. by apply le_value_bytes.
Qed.

Lemma fmt_loop f : forall input s, (length input < f)%nat ->
  loop f fmt_step input s = Ok tt (after (entries input) s).
Proof.
  induction f as [|f IH]; intros input s Hf; [lia|].
  destruct (decide (length input < 32)%nat) as [Hs|Hl].
  - erewrite loop_break.
    2:{ unfold fmt_step. rewrite (proj2 (Nat.ltb_lt _ _) Hs). reflexivity. }
    unfold entries. by rewrite (Nat.div_small (length input)).
  - erewrite loop_continue.
    2:{ unfold fmt_step. rewrite (proj2 (Nat.ltb_ge _ _)) by lia. reflexivity. }
    rewrite IH by (rewrite length_drop; lia). rewrite (entries_cons input) by lia. done.
Qed.

Definition completed (e : Z) : bool := negb (field e "ls_lo_valid" =? 0) || negb (field e "e1_valid" =? 0).

Lemma after_counts es s :
  f_lineno (after es s) = f_lineno s + length es /\
  f_ncompl (after es s) = f_ncompl s + length (List.filter completed es).
Proof.
  induction es as [|e es [IH1 IH2]] using rev_ind; [simpl; lia|].
  rewrite after_snoc, List.filter_app, !length_app. unfold fmt_entry. cbn [f_lineno f_ncompl length List.filter].
  fold (completed e). rewrite IH1, IH2. split; [lia|]. destruct (completed e); cbn [length]; lia.
Qed.

(** The closing line. *)
Definition summary (lines ncompl : Z) : list Z :=
  dec ncompl ++ codes " instructions completed, " ++
  fixed2 (double_div (double_of lines) (double_of ncompl)) ++ codes " CPI" ++ [10].

Definition fmt_start (out : list Z) (junk : Z) : fmt :=
  Fmt out 1 0 (map (fun i : nat => Z.shiftl i 2) (seq 0 15) ++ [junk]).

Lemma main_input ac stdin file junk input s :
  negb (ac =? 1) && negb (ac =? 2) = false -> (if ac =? 2 then file else Some stdin) = Some input ->
  exists s', main ac stdin file junk s = Err (Exit 0) s' /\
  f_out s' = f_out (after (entries input) (fmt_start (f_out s) junk)) ++
    summary (length input / 32)%nat (length (List.filter completed (entries input))).
Proof.
  intros Hac Hsel. unfold main. rewrite Hac, Hsel.
  run_with reflexivity. fold (fmt_start (f_out s) junk).
  run_with (apply fmt_loop; lia). run_with reflexivity.
  eexists. split; [reflexivity|]. cbn [f_out].
  destruct (after_counts (entries input) (fmt_start (f_out s) junk)) as [E1 E2].
  rewrite E1, E2, entries_length. change (f_lineno (fmt_start _ _)) with 1.
  change (f_ncompl (fmt_start _ _)) with 0. unfold summary. rewrite Z.add_0_l.
  by replace (1 + (length input / 32)%nat - 1) with (Z.of_nat (length input / 32)) by lia.
Qed.

(** Three entries, two of which complete an instruction. *)
Example three_halves : summary 3 2 = codes "2 instructions completed, 1.50 CPI" ++ [10].
Proof. vm_compute. reflexivity. Qed.

Example nothing_completed : summary 3 0 = codes "0 instructions completed, inf CPI" ++ [10].
Proof. vm_compute. reflexivity. Qed.

(** The initialisation stops one short: the last slot shows what was on the
    stack until an entry sets it. *)
Lemma last_slot_uninitialised out junk : f_nia (fmt_start out junk) !! 15%nat = Some junk.
Proof. reflexivity. Qed.
