(* ===== verification/FmtLogSpec.v ===== *)
(** * What the log formatter prints

    The log is made by the hardware: each unit of the core contributes a group
    of signals to a 256-bit vector (log_data of core.vhdl and of the units).
    The listing is described here by those signals and not by the structure of
    fmt_log.c: [hw_units] is the vector, [cells] the line, column after column,
    and [listing] what a whole log gives.  The program's output is that
    listing, and the fields of its structure are those signals. *)

From S2P Require Import Prelude CMem Ctype Vsnprintf SimLink MwDebug UartSim FmtLog.

(** ** The log vector of the core *)

(** Each unit's part of the vector, by its lowest bit; its signals are
    concatenated from the most significant down, as in the unit's source. *)
Definition hw_units : list (Z * list (string * Z)) :=
  [(0, [("fetch1.nia(63)", 1); ("fetch1.nia", 42)]);
   (43, [("icache.valid", 1); ("icache.insn", 36); ("icache.wb.ack", 1); ("icache.wb.adr", 3);
         ("icache.wb.stb", 1); ("icache.wb.cyc", 1); ("icache.wb.stall", 1); ("icache.stall_out", 1);
         ("icache.fetch_failed", 1); ("icache.hit_nia", 4); ("icache.wstate", 1); ("icache.way", 3);
         ("icache.hit", 1); ("icache.miss", 1); ("icache.access_ok", 1); ("icache.ra_valid", 1)]);
   (101, [("decode1.insn_type", 6); ("decode1.nia", 4); ("decode1.unit", 2); ("decode1.valid", 1)]);
   (114, [("decode2.nia", 4); ("decode2.valid", 1); ("decode2.stopped_out", 1); ("decode2.stall_out", 1);
          ("decode2.a_bypass", 1); ("decode2.b_bypass", 1); ("decode2.c_bypass", 1)]);
   (124, [("execute1.msr_ee", 1); ("execute1.msr_pr", 1); ("execute1.msr_ir", 1); ("execute1.msr_dr", 1);
          ("execute1.exception", 1); ("execute1.irq_valid", 1); ("execute1.interrupt", 1);
          ("execute1.write_enable", 1); ("execute1.valid", 1); ("execute1.redirect", 1);
          ("execute1.busy", 1); ("execute1.flush", 1)]);
   (136, [("core.zero", 4)]);
   (140, [("loadstore1.busy", 1); ("loadstore1.interrupt", 1); ("loadstore1.l_out.valid", 1);
          ("loadstore1.m_out.valid", 1); ("loadstore1.d_out.valid", 1); ("loadstore1.m_in.done", 1);
          ("loadstore1.dword_index", 1); ("loadstore1.req.valid", 1); ("loadstore1.wait_dc", 1);
          ("loadstore1.state", 1)]);
   (150, [("core.zero", 1)]);
   (151, [("dcache.wb.adr", 3); ("dcache.wb.stall", 1); ("dcache.wb.ack", 1); ("dcache.wb.stb", 1);
          ("dcache.wb.cyc", 1); ("dcache.error", 1); ("dcache.valid", 1); ("dcache.load_miss", 1);
          ("dcache.store", 1); ("dcache.bad", 1); ("dcache.stall_out", 1); ("dcache.tlb_hit_way", 3);
          ("dcache.valid_ra", 1); ("dcache.state", 3)]);
   (171, [("cr_file.enable", 1); ("cr_file.data", 4); ("cr_file.mask", 8)]);
   (184, [("register_file.data", 64); ("register_file.enable", 1); ("register_file.zero", 1);
          ("register_file.reg", 6)])].

Section vector.
Context (v : string -> Z).

(** Signals side by side, the first the most significant. *)
Definition vec (l : list (string * Z)) : Z := fold_left (fun x s => x * 2 ^ s.2 + v s.1) l 0.

(** The vector the core stores. *)
Definition log_vector : Z := foldr Z.add 0 (map (fun u => 2 ^ u.1 * vec u.2) hw_units).
End vector.

(** The signals from the lowest bit up. *)
Definition hw_signals : list (string * Z) := concat (map (fun u => rev u.2) hw_units).

(** The value of a signal in an entry. *)
Definition sig (e : Z) (name : string) : Z :=
  match find_field name 0 hw_signals with
  | Some (pos, w) => Z.shiftr e pos mod 2 ^ w
  | None => 0
  end.

(** Signals of one bit, as a number, the first the most significant. *)
Definition bits_of (g : string -> Z) (names : list string) : Z :=
  fold_left (fun x n => 2 * x + g n) names 0.

(** ** The listing *)

Inductive cell :=
  | Txt (t : string)
  | Lineno
  | Flag (s : string) (on off : string)
  | Digit (s : string)
  | Bits (ss : list string)
  | Address
  | Near (s : string)
  | HitMiss
  | Insn
  | Op
  | Cr.

Section show.
Context (g : string -> Z) (near : Z -> Z) (lineno : Z).

(** The word the instruction cache delivers: its top bit marks an illegal
    instruction, else the primary opcode and what follows. *)
Definition show_insn : list Z :=
  let w := g "icache.insn" in
  if g "icache.valid" =? 1 then
    if 2 ^ 35 <=? w then codes "ill " ++ zeros 8 (hex (w mod 2 ^ 32))
    else spaces 3 (dec (w / 2 ^ 26)) ++ codes " x" ++ zeros 7 (hex (w mod 2 ^ 26))
  else codes (if g "icache.fetch_failed" =? 1 then "    !!!!!!!!" else "--- --------").

Definition show_op : list Z :=
  if g "decode1.valid" =? 1
  then default [] (units !! Z.to_nat (g "decode1.unit")) ++ codes " " ++
       default [] (ops !! Z.to_nat (g "decode1.insn_type"))
  else codes "-- -------".

Definition show_cr : list Z :=
  if g "cr_file.enable" =? 1 then hex (g "cr_file.data") ++ codes ">" ++ zeros 2 (hex (g "cr_file.mask")) ++ codes " "
  else codes "     ".

Definition show (c : cell) : list Z :=
  match c with
  | Txt t => codes t
  | Lineno => spaces 4 (dec lineno)
  | Flag s on off => codes (if g s =? 1 then on else off)
  | Digit s => dec (g s)
  | Bits ss => dec (bits_of g ss)
  | Address => zeros 11 (hex (4 * g "fetch1.nia"))
  | Near s => zeros 2 (hex (near (g s)))
  | HitMiss => codes (if g "icache.hit" =? 1 then "H" else if g "icache.miss" =? 1 then "M" else " ")
  | Insn => show_insn
  | Op => show_op
  | Cr => show_cr
  end.

(** The register written, at the end of the line: registers from 32 on have
    the names of special registers as far as there are names. *)
Definition show_reg : list Z :=
  if g "register_file.enable" =? 1 then
    let r := 64 * g "register_file.zero" + g "register_file.reg" in
    (if (32 <=? r) && (r <=? 44) then default [] (spr_names !! Z.to_nat (r - 32))
     else codes "r" ++ zeros 2 (dec r)) ++
    codes "=" ++ zeros 16 (hex (g "register_file.data"))
  else [].
End show.

(** The line, with the column at which each cell starts. *)
Definition cells : list (nat * cell) :=
  [(0, Lineno); (4, Txt " "); (5, Flag "fetch1.nia(63)" "c" "0"); (6, Txt "0000"); (10, Address);
   (21, Txt " "); (22, Flag "icache.stall_out" "|" " "); (23, Txt " ");
   (24, Flag "icache.ra_valid" " " "T"); (25, Flag "icache.access_ok" " " "X"); (26, HitMiss);
   (27, Digit "icache.way"); (28, Txt " "); (29, Flag "icache.wstate" "W" " "); (30, Txt " ");
   (31, Flag "icache.wb.cyc" "c" " "); (32, Flag "icache.wb.stb" "s" " "); (33, Digit "icache.wb.adr");
   (34, Flag "icache.wb.stall" "S" " "); (35, Flag "icache.wb.ack" "a" " "); (36, Txt " ");
   (37, Near "icache.hit_nia"); (39, Txt " "); (40, Insn); (52, Txt " ");
   (53, Flag "icache.valid" ">" " "); (54, Flag "decode2.stall_out" "|" " "); (55, Txt " ");
   (56, Near "decode1.nia"); (58, Txt " "); (59, Op); (69, Txt " ");
   (70, Flag "decode1.valid" ">" " "); (71, Flag "decode2.stall_out" "|" " "); (72, Txt " ");
   (73, Near "decode2.nia"); (75, Txt " "); (76, Flag "decode2.c_bypass" "a" " ");
   (77, Flag "decode2.b_bypass" "b" " "); (78, Flag "decode2.a_bypass" "c" " "); (79, Txt " ");
   (80, Flag "decode2.valid" ">" " "); (81, Flag "execute1.busy" "|" " "); (82, Txt " ");
   (83, Flag "execute1.flush" "F" " "); (84, Flag "execute1.redirect" "R" " "); (85, Txt " ");
   (86, Flag "execute1.interrupt" "w" " "); (87, Flag "execute1.irq_valid" "I" " ");
   (88, Flag "execute1.exception" "X" " "); (89, Txt " "); (90, Flag "execute1.msr_ee" "E" " ");
   (91, Flag "execute1.msr_pr" "u" "s"); (92, Flag "execute1.msr_ir" "I" " ");
   (93, Flag "execute1.msr_dr" "D" " "); (94, Txt " "); (95, Flag "execute1.write_enable" "W" " ");
   (96, Flag "execute1.valid" "C" " "); (97, Txt " "); (98, Flag "loadstore1.busy" "|" " "); (99, Txt " ");
   (100, Bits ["loadstore1.req.valid"; "loadstore1.wait_dc"; "loadstore1.state"]);
   (101, Digit "loadstore1.dword_index"); (102, Txt " "); (103, Flag "loadstore1.m_out.valid" "M" " ");
   (104, Flag "loadstore1.m_in.done" "m" " "); (105, Txt " "); (106, Flag "loadstore1.l_out.valid" "C" " ");
   (107, Flag "loadstore1.interrupt" "X" " "); (108, Txt " "); (109, Flag "loadstore1.d_out.valid" ">" " ");
   (110, Txt " "); (111, Digit "dcache.state"); (112, Flag "dcache.valid_ra" "R" " ");
   (113, Digit "dcache.tlb_hit_way"); (114, Bits ["dcache.load_miss"; "dcache.store"; "dcache.bad"]);
   (115, Txt " "); (116, Flag "dcache.valid" "V" " "); (117, Flag "dcache.error" "E" " "); (118, Txt " ");
   (119, Flag "dcache.wb.cyc" "c" " "); (120, Flag "dcache.wb.stb" "s" " "); (121, Digit "dcache.wb.adr");
   (122, Flag "dcache.wb.stall" "S" " "); (123, Flag "dcache.wb.ack" "a" " "); (124, Txt " "); (125, Cr)]%nat.

Definition show_line (g : string -> Z) (near : Z -> Z) (lineno : Z) : list Z :=
  concat (map (fun c => show g near lineno c.2) cells) ++ show_reg g ++ [10].

(** The low byte of the address of an instruction of which a stage gives the
    four lowest bits: that of the last entry, the current one included, that
    fetched such an address. *)
Definition near (junk : Z) (es : list Z) (k : Z) : Z :=
  match list.last (filter (fun e => sig e "fetch1.nia" mod 16 = k) es) with
  | Some e => 4 * sig e "fetch1.nia" mod 256
  | None => (if k <? 15 then 4 * k else junk) mod 256
  end.

(** A line for each entry, and the heading before every twentieth. *)
Definition listing (junk : Z) (es : list Z) : list Z :=
  concat (imap (fun i e => (if (i mod 20 =? 0)%nat then heading else []) ++
    show_line (sig e) (near junk (take (S i) es)) (S i)) es).

Definition completes (e : Z) : bool :=
  (sig e "loadstore1.l_out.valid" =? 1) || (sig e "execute1.valid" =? 1).

(** ** A line shows the signals *)

Lemma sig_bit e s : (exists pos, find_field s 0 hw_signals = Some (pos, 1)) -> sig e s = 0 \/ sig e s = 1.
Proof.
  intros [pos E]. unfold sig. rewrite E. pose proof (Z.mod_pos_bound (Z.shiftr e pos) (2 ^ 1)). lia.
Qed.

Lemma shown_if {A} e f s (y z : A) :
  (exists pos, find_field s 0 hw_signals = Some (pos, 1)) -> field e f = sig e s ->
  (if field e f =? 0 then z else y) = (if sig e s =? 1 then y else z).
Proof. intros Hs ->. by destruct (sig_bit e s Hs) as [-> | ->]. Qed.

Lemma shown_if_not {A} e f s (y z : A) :
  (exists pos, find_field s 0 hw_signals = Some (pos, 1)) -> field e f = sig e s ->
  (if negb (field e f =? 0) then y else z) = (if sig e s =? 1 then y else z).
Proof. intros Hs E. rewrite <- (shown_if e f s y z Hs E). by destruct (field e f =? 0). Qed.

Lemma flag_shown e f s on off :
  (exists pos, find_field s 0 hw_signals = Some (pos, 1)) -> field e f = sig e s ->
  FLGA e f (codes on) (codes off) = codes (if sig e s =? 1 then on else off).
Proof. intros Hs E. unfold FLGA. rewrite (shown_if e f s _ _ Hs E). by destruct (sig e s =? 1). Qed.

(** A three-bit field is the three signals that make it. *)
Lemma three_bits x pos : 0 <= pos ->
  Z.shiftr x pos mod 2 ^ 3 =
  2 * (2 * (2 * 0 + Z.shiftr x (pos + 2) mod 2 ^ 1) + Z.shiftr x (pos + 1) mod 2 ^ 1) + Z.shiftr x pos mod 2 ^ 1.
Proof.
  intros Hp. rewrite <- !Z.shiftr_shiftr by lia. set (y := Z.shiftr x pos). clearbody y.
  rewrite !Z.shiftr_div_pow2 by lia. change (2 ^ 3) with 8. change (2 ^ 2) with 4. change (2 ^ 1) with 2.
  Z.div_mod_to_equations. lia.
Qed.

Lemma app_cong {A} (a b c d : list A) : a = b -> c = d -> a ++ c = b ++ d.
Proof. by intros -> ->. Qed.

Section shown.
Context (e : Z).

Lemma address_shown : u64 (Z.shiftl (field e "nia_lo") 2) = 4 * sig e "fetch1.nia".
Proof.
  change (field e "nia_lo") with (sig e "fetch1.nia").
  assert (0 <= sig e "fetch1.nia" < 2 ^ 42) by (apply Z.mod_pos_bound; lia).
  rewrite Z.shiftl_mul_pow2, u64_small by lia. lia.
Qed.

Lemma insn_shown : insn_text e = show_insn (sig e).
Proof.
  unfold insn_text, show_insn. cbv zeta.
  rewrite (shown_if_not e "ic_valid" "icache.valid") by (reflexivity || (eexists; reflexivity)).
  rewrite (shown_if_not e "ic_fetch_failed" "icache.fetch_failed") by (reflexivity || (eexists; reflexivity)).
  change (field e "ic_insn") with (sig e "icache.insn").
  assert (Hr : 0 <= sig e "icache.insn" < 2 ^ 36) by (apply Z.mod_pos_bound; lia).
  set (w := sig e "icache.insn") in *. clearbody w.
  destruct (sig e "icache.valid" =? 1); [|by destruct (sig e "icache.fetch_failed" =? 1)].
  change (Z.shiftl 1 35) with (2 ^ 35). rewrite land_pow2, negb_involutive by lia.
  replace (Z.testbit w 35) with (2 ^ 35 <=? w).
  2:{ destruct (Z.leb_spec (2 ^ 35) w); [|symmetry; apply (testbit_above _ 35); lia].
      symmetry. apply Z.testbit_true; [lia|]. replace (w / 2 ^ 35) with 1; [done|].
      apply Z.div_unique with (w - 2 ^ 35); lia. }
  change 4294967295 with (Z.ones 32). change 67108863 with (Z.ones 26).
  by rewrite !Z.land_ones, Z.shiftr_div_pow2 by lia.
Qed.

Lemma op_shown :
  (if negb (field e "d1_valid" =? 0)
   then default [] (units !! Z.to_nat (field e "d1_unit")) ++ codes " " ++
        default [] (ops !! Z.to_nat (field e "d1_insn_type"))
   else codes "-- -------") = show_op (sig e).
Proof. rewrite (shown_if_not e "d1_valid" "decode1.valid"); [reflexivity|by eexists|reflexivity]. Qed.

Lemma cr_shown : cr_text e = show_cr (sig e).
Proof.
  unfold cr_text, show_cr. rewrite (shown_if_not e "cr_wr_enable" "cr_file.enable"); [reflexivity|by eexists|reflexivity].
Qed.

Lemma reg_shown : reg_text e = show_reg (sig e).
Proof.
  unfold reg_text, show_reg.
  rewrite (shown_if_not e "reg_wr_enable" "register_file.enable") by (reflexivity || (eexists; reflexivity)).
  destruct (sig e "register_file.enable" =? 1); [|done]. cbv zeta.
  assert (E : field e "reg_wr_reg" = 64 * sig e "register_file.zero" + sig e "register_file.reg").
  { change (field e "reg_wr_reg") with (Z.shiftr e 184 mod 2 ^ 7).
    change (sig e "register_file.zero") with (Z.shiftr e (184 + 6) mod 2 ^ 1).
    change (sig e "register_file.reg") with (Z.shiftr e 184 mod 2 ^ 6).
    rewrite <- Z.shiftr_shiftr by lia. set (y := Z.shiftr e 184). clearbody y.
    rewrite Z.shiftr_div_pow2 by lia. change (2 ^ 7) with 128. change (2 ^ 6) with 64. change (2 ^ 1) with 2.
    Z.div_mod_to_equations. lia. }
  rewrite E. set (r := 64 * _ + _). clearbody r. unfold reg_field. apply app_cong; [|reflexivity].
  by replace ((r <? 32) || (44 <? r)) with (negb ((32 <=? r) && (r <=? 44))) by lia;
    destruct ((32 <=? r) && (r <=? 44)).
Qed.

Lemma hit_shown : FLGA e "ic_is_hit" (codes "H") (FLGA e "ic_is_miss" (codes "M") (codes " ")) =
  codes (if sig e "icache.hit" =? 1 then "H" else if sig e "icache.miss" =? 1 then "M" else " ").
Proof.
  rewrite (flag_shown e "ic_is_miss" "icache.miss") by (reflexivity || (eexists; reflexivity)).
  by rewrite (flag_shown e "ic_is_hit" "icache.hit") by (reflexivity || (eexists; reflexivity)).
Qed.

Lemma ls_state_shown :
  field e "ls_state" = bits_of (sig e) ["loadstore1.req.valid"; "loadstore1.wait_dc"; "loadstore1.state"].
Proof. change (field e "ls_state") with (Z.shiftr e 140 mod 2 ^ 3). by rewrite (three_bits e 140) by lia. Qed.

Lemma dc_op_shown :
  field e "dc_op" = bits_of (sig e) ["dcache.load_miss"; "dcache.store"; "dcache.bad"].
Proof. change (field e "dc_op") with (Z.shiftr e 159 mod 2 ^ 3). by rewrite (three_bits e 159) by lia. Qed.
End shown.

(** Cells of the line, one after the other. *)
Ltac shown_cell := match goal with
  | |- codes _ = codes _ => reflexivity
  | |- spaces _ _ = _ => reflexivity
  | |- FLGA _ _ _ (FLGA _ _ _ _) = _ => apply hit_shown
  | |- FLGA _ _ _ _ = _ => apply flag_shown; [eexists; reflexivity|reflexivity]
  | |- num _ "ls_state" = _ => unfold num; by rewrite ls_state_shown
  | |- num _ "dc_op" = _ => unfold num; by rewrite dc_op_shown
  | |- num ?e ?f = dec (sig ?e ?s) => unfold num; change (field e f) with (sig e s); reflexivity
  | |- insn_text _ = _ => apply insn_shown
  | |- cr_text _ = _ => apply cr_shown
  | |- (if _ then _ else _) = _ => apply op_shown
  | |- zeros 2 (hex (PNIA ?e ?nia ?f)) = zeros 2 (hex ((fun k => _) (sig ?e ?s))) =>
      unfold PNIA; change (field e f) with (sig e s); reflexivity
  | |- zeros _ _ = _ => reflexivity
  end.

Lemma line_shown e nia lineno :
  log_line e nia lineno =
  show_line (sig e) (fun k => Z.land (default 0 (nia !! Z.to_nat k)) 255) lineno.
Proof.
  unfold log_line, fetch_text, icache_text, decode_text, execute_text, loadstore_text, dcache_text, FLAG, show_line.
  rewrite <- !app_assoc. cbn [cells map snd concat show]. rewrite <- !app_assoc, address_shown, reg_shown, app_nil_l.
  repeat (apply app_cong; [shown_cell|]). reflexivity.
Qed.

(** ** The table of addresses *)

Lemma entry_nia_byte e : Z.land (entry_nia e) 255 = 4 * sig e "fetch1.nia" mod 256.
Proof.
  unfold entry_nia. change (field e "nia_lo") with (sig e "fetch1.nia"). rewrite Z.land_lor_distr_l.
  replace (Z.land (if field e "nia_hi" =? 0 then 0 else 13835058055282163712) 255) with 0
    by (by destruct (field e "nia_hi" =? 0)).
  rewrite Z.lor_0_l. change 255 with (Z.ones 8). rewrite Z.land_ones, Z.shiftl_mul_pow2 by lia.
  change (2 ^ 42) with (2 ^ 34 * 2 ^ 8). change 256 with (2 ^ 8).
  rewrite (Z.mul_comm (2 ^ 34)), Z.rem_mul_r by lia.
  rewrite (Z.mul_comm (2 ^ 8)), Z.mod_add, Z.mod_mod by lia. f_equal. lia.
Qed.

Lemma start_byte out junk (k : Z) : 0 <= k < 16 ->
  Z.land (default 0 (f_nia (fmt_start out junk) !! Z.to_nat k)) 255 = (if k <? 15 then 4 * k else junk) mod 256.
Proof.
  intros Hk. change 255 with (Z.ones 8). rewrite Z.land_ones by lia. change (2 ^ 8) with 256. f_equal.
  unfold fmt_start. cbn [f_nia]. destruct (Z.ltb_spec k 15).
  - rewrite lookup_app_l, list_lookup_fmap, lookup_seq_lt by (rewrite ?length_map, ?length_seq; lia).
    cbn [fmap option_fmap option_map default]. rewrite Z.shiftl_mul_pow2 by lia. unfold id. lia.
  - by replace (Z.to_nat k) with 15%nat by lia.
Qed.

Lemma nia_near es out junk (k : Z) : 0 <= k < 16 ->
  Z.land (default 0 (f_nia (after es (fmt_start out junk)) !! Z.to_nat k)) 255 = near junk es k.
Proof.
  intros Hk. rewrite nia_table by (done || lia). unfold near.
  assert (E : filter (fun e => nia_slot e = Z.to_nat k) es = filter (fun e => sig e "fetch1.nia" mod 16 = k) es).
  { apply list_filter_iff. intros e. unfold nia_slot. change (field e "nia_lo") with (sig e "fetch1.nia").
    change 15 with (Z.ones 4). rewrite Z.land_ones by lia. change (2 ^ 4) with 16.
    pose proof (Z.mod_pos_bound (sig e "fetch1.nia") 16). lia. }
  rewrite E. destruct (list.last _) as [e|]; [apply entry_nia_byte|by apply start_byte].
Qed.

(** A line looks at three addresses only. *)
Lemma show_line_ext e f1 f2 n :
  (forall k, 0 <= k < 16 -> f1 k = f2 k) -> show_line (sig e) f1 n = show_line (sig e) f2 n.
Proof.
  intros Hf. unfold show_line. cbn [cells map snd concat show].
  by rewrite (Hf (sig e "icache.hit_nia")), (Hf (sig e "decode1.nia")), (Hf (sig e "decode2.nia"))
    by (apply Z.mod_pos_bound; lia).
Qed.

(** ** The whole output *)

Lemma listing_snoc junk es e : listing junk (es ++ [e]) =
  listing junk es ++ (if (length es mod 20 =? 0)%nat then heading else []) ++
  show_line (sig e) (near junk (es ++ [e])) (S (length es)).
Proof.
  unfold listing. rewrite imap_app, concat_app. cbn [imap concat]. rewrite app_nil_r.
  f_equal.
  - f_equal. apply imap_ext. intros i x Hx. apply lookup_lt_Some in Hx. by rewrite take_app_le by lia.
  - unfold compose. rewrite Nat.add_0_r, take_ge by (rewrite length_app; simpl; lia). done.
Qed.

Lemma after_listing junk es out : f_out (after es (fmt_start out junk)) = out ++ listing junk es.
Proof.
  induction es as [|e es IH] using rev_ind; [by rewrite app_nil_r|].
  rewrite after_snoc, listing_snoc, app_assoc, <- IH. unfold fmt_entry. cbn [f_out]. f_equal.
  destruct (after_counts es (fmt_start out junk)) as [-> _]. change (f_lineno (fmt_start out junk)) with 1.
  f_equal.
  - replace ((1 + length es) mod 20 =? 1) with (length es mod 20 =? 0)%nat; [done|].
    apply eq_true_iff_eq. rewrite Nat.eqb_eq, Z.eqb_eq. pose proof (Nat2Z.inj_mod (length es) 20).
    Z.div_mod_to_equations. lia.
  - rewrite line_shown. replace (1 + length es) with (Z.of_nat (S (length es))) by lia.
    apply show_line_ext. intros k Hk. rewrite <- (nia_near _ out) by done. by rewrite after_snoc.
Qed.

Lemma completed_shown e : completed e = completes e.
Proof.
  unfold completed, completes. change (field e "ls_lo_valid") with (sig e "loadstore1.l_out.valid").
  change (field e "e1_valid") with (sig e "execute1.valid").
  destruct (sig_bit e "loadstore1.l_out.valid") as [-> | ->]; [by eexists| |];
    by destruct (sig_bit e "execute1.valid") as [-> | ->]; [by eexists| |].
Qed.

(** What a run on some input prints. *)
Definition report (junk : Z) (es : list Z) : list Z :=
  listing junk es ++ summary (length es) (length (List.filter completes es)).

Lemma main_reports ac stdin file junk input s :
  negb (ac =? 1) && negb (ac =? 2) = false -> (if ac =? 2 then file else Some stdin) = Some input ->
  exists s', main ac stdin file junk s = Err (Exit 0) s' /\ f_out s' = f_out s ++ report junk (entries input).
Proof.
  intros Hac Hin. destruct (main_input ac stdin file junk input s Hac Hin) as (s' & Hm & Ho).
  exists s'. split; [exact Hm|]. unfold report.
  rewrite Ho, after_listing, entries_length, app_assoc. by rewrite (List.filter_ext _ _ completed_shown).
Qed.

(** C39: the formatter on every command line.  With no argument it reads the
    standard input, with one argument the file of that name; it prints the
    listing of the whole entries of that input, in order, then the summary
    with the number of instructions completed, and exits with 0, leaving a
    partial entry at the end out.  With more arguments, or a file that cannot
    be opened, it prints nothing on the standard output and exits with 1.  The
    listing shows each signal of the core's log vector in its column, and for
    each stage the address of the last entry with the stage's low bits. *)
Theorem fmt_log_correct ac stdin file junk s :
  match (if ac =? 1 then Some stdin else if ac =? 2 then file else None) with
  | None => main ac stdin file junk s = Err (Exit 1) s
  | Some input => exists s', main ac stdin file junk s = Err (Exit 0) s' /\
      f_out s' = f_out s ++ report junk (entries input)
  end.
Proof.
  destruct (Z.eqb_spec ac 1) as [->|H1]; [by apply main_reports|].
  destruct (Z.eqb_spec ac 2) as [->|H2].
  - destruct file as [input|]; [by apply main_reports|done].
  - unfold main. by replace (negb (ac =? 1) && negb (ac =? 2)) with true by lia.
Qed.

(** ** From the signals to the columns *)

(** Signals from the lowest up, and the number they make. *)
Definition pack (v : string -> Z) (l : list (string * Z)) : Z := foldr (fun s x => v s.1 + 2 ^ s.2 * x) 0 l.

Definition signals_ok (v : string -> Z) (l : list (string * Z)) : Prop :=
  Forall (fun s => 0 <= s.2 /\ 0 <= v s.1 < 2 ^ s.2) l.

Lemma pack_range v l : signals_ok v l -> 0 <= pack v l < 2 ^ foldr Z.add 0 (map snd l).
Proof.
  induction 1 as [|[n w] l [Hw Hv] Hl IH]; cbn [pack foldr map fst snd]; [simpl; lia|].
  fold (pack v l). cbn [fst snd] in *.
  assert (0 <= foldr Z.add 0 (map snd l)) by (clear -Hl; induction Hl as [|? ? []]; simpl; lia).
  rewrite Z.pow_add_r by lia. nia.
Qed.

Lemma find_field_pos name l : forall p pos w, Forall (fun s : string * Z => 0 <= s.2) l ->
  find_field name p l = Some (pos, w) -> p <= pos /\ 0 <= w.
Proof.
  induction l as [|[n w'] l IH]; intros p pos w Hl Hf; cbn [find_field] in Hf; [done|].
  apply Forall_cons_1 in Hl as [Hw Hl]. cbn [snd] in Hw. destruct (String.eqb n name); [simplify_eq; lia|].
  apply IH in Hf; [lia|done].
Qed.

Lemma pack_field v name l : signals_ok v l -> forall p pos w,
  find_field name p l = Some (pos, w) -> Z.shiftr (pack v l) (pos - p) mod 2 ^ w = v name.
Proof.
  induction 1 as [|[n w'] l [Hw Hv] Hl IH]; intros p pos w Hf; cbn [find_field] in Hf; [done|].
  cbn [pack foldr fst snd] in *. fold (pack v l).
  destruct (String.eqb_spec n name) as [<-|Hn].
  - simplify_eq. rewrite Z.sub_diag, Z.shiftr_0_r, Z.mul_comm, Z.mod_add, Z.mod_small by lia. done.
  - assert (Hp : p + w' <= pos /\ 0 <= w) by (eapply find_field_pos; [|exact Hf]; eapply Forall_impl; [|exact Hl]; by intros ? []).
    rewrite <- (IH _ _ _ Hf). f_equal. replace (pos - p) with (w' + (pos - (p + w'))) by lia.
    rewrite <- Z.shiftr_shiftr by lia. f_equal. rewrite Z.shiftr_div_pow2 by lia.
    rewrite Z.mul_comm, Z.div_add, Z.div_small by lia. lia.
Qed.

Lemma log_vector_pack v : log_vector v = pack v hw_signals.
Proof. unfold log_vector, pack, hw_signals, vec. cbn -[Z.mul Z.add Z.pow]. lia. Qed.

Lemma sig_log_vector v name pos w : signals_ok v hw_signals ->
  find_field name 0 hw_signals = Some (pos, w) -> sig (log_vector v) name = v name.
Proof.
  intros Hv Hf. unfold sig. rewrite Hf, log_vector_pack. rewrite <- (pack_field v name _ Hv _ _ _ Hf).
  by rewrite Z.sub_0_r.
Qed.

(** The signals a cell shows. *)
Definition cell_signals (c : cell) : list string :=
  match c with
  | Txt _ | Lineno => []
  | Flag s _ _ | Digit s | Near s => [s]
  | Bits ss => ss
  | Address => ["fetch1.nia"]
  | HitMiss => ["icache.hit"; "icache.miss"]
  | Insn => ["icache.insn"; "icache.valid"; "icache.fetch_failed"]
  | Op => ["decode1.valid"; "decode1.unit"; "decode1.insn_type"]
  | Cr => ["cr_file.enable"; "cr_file.data"; "cr_file.mask"]
  end.

Lemma show_ext g1 g2 near n c : Forall (fun s => g1 s = g2 s) (cell_signals c) -> show g1 near n c = show g2 near n c.
Proof.
  intros Hg. destruct c; cbn [show cell_signals] in *; unfold show_insn, show_op, show_cr;
    try (by decompose_Forall_hyps; repeat match goal with H : g1 _ = g2 _ |- _ => rewrite H; clear H end).
  f_equal. unfold bits_of. generalize 0. induction Hg as [|s ss Hs _ IH]; intros x; cbn [fold_left]; [done|].
  by rewrite Hs.
Qed.

Definition in_table (s : string) : bool := match find_field s 0 hw_signals with Some _ => true | None => false end.

Lemma cells_in_table : forallb (fun c => forallb in_table (cell_signals c.2)) cells = true.
Proof. vm_compute. reflexivity. Qed.

(** *** Widths *)

Lemma num_text_short base v (k : nat) : 2 <= base -> (0 < k)%nat -> 0 <= v < base ^ k ->
  (length (num_text false base v) <= k)%nat.
Proof.
  intros Hb Hk Hv. unfold num_text. revert v Hv. generalize 64%nat as f. intros f.
  revert f. induction k as [|k IH]; [lia|]. intros f v Hv. destruct f as [|f]; [simpl; lia|].
  cbn [to_digits]. destruct (Z.ltb_spec v base); [simpl; lia|].
  rewrite length_app. cbn [length]. destruct k as [|k].
  { change (Z.of_nat 1) with 1 in Hv. rewrite Z.pow_1_r in Hv. lia. }
  assert (Hd : 0 <= v / base < base ^ S k) by (by apply div_pow_bound).
  pose proof (IH ltac:(lia) f (v / base) Hd). lia.
Qed.

Lemma zeros_length (w : nat) l : (length l <= w)%nat -> length (zeros w l) = w.
Proof. intros Hl. unfold zeros. rewrite length_app, length_replicate. lia. Qed.

Lemma spaces_length (w : nat) l : (length l <= w)%nat -> length (spaces w l) = w.
Proof. intros Hl. unfold spaces. rewrite length_app, length_replicate. lia. Qed.

Lemma hex_zeros (k : nat) v : (0 < k)%nat -> 0 <= v < 16 ^ k -> length (zeros k (hex v)) = k.
Proof. intros Hk Hv. apply zeros_length. unfold hex. by apply num_text_short. Qed.

Lemma dec_short (k : nat) v : (0 < k)%nat -> 0 <= v < 10 ^ k -> (length (dec v) <= k)%nat.
Proof. intros Hk Hv. unfold dec. destruct (Z.ltb_spec v 0); [lia|]. by apply num_text_short. Qed.

Lemma dec_nonempty v : 0 <= v -> (0 < length (dec v))%nat.
Proof.
  intros Hv. unfold dec. destruct (Z.ltb_spec v 0); [lia|]. apply to_digits_length_pos; lia.
Qed.

(** Every name of the two tables has the same length. *)
Lemma name_length (names : list (list Z)) (k : nat) (i : nat) :
  forallb (fun l => (length l =? k)%nat) names = true -> (i < length names)%nat ->
  length (default [] (names !! i)) = k.
Proof.
  intros Hn Hi. destruct (lookup_lt_is_Some_2 names i Hi) as [x Hx]. rewrite Hx. simpl.
  apply Is_true_eq_left, forallb_True in Hn. apply Nat.eqb_eq. eapply Forall_lookup_1 in Hn; [|exact Hx].
  by apply Is_true_eq_true.
Qed.

Definition width (c : cell) : nat :=
  match c with
  | Txt t => length (codes t)
  | Lineno => 4
  | Flag _ _ _ | Digit _ | Bits _ | HitMiss => 1
  | Address => 11
  | Near _ => 2
  | Insn => 12
  | Op => 10
  | Cr => 5
  end.

Definition signal_width (s : string) : Z :=
  match find_field s 0 hw_signals with Some (_, w) => w | None => 0 end.

(** The texts of a flag are one character, a digit has at most three bits. *)
Definition cell_fits (c : cell) : bool :=
  match c with
  | Flag _ on off => (length (codes on) =? 1)%nat && (length (codes off) =? 1)%nat
  | Digit s => in_table s && (signal_width s <=? 3)
  | Bits ss => (length ss =? 3)%nat && forallb (fun s => in_table s && (signal_width s =? 1)) ss
  | _ => true
  end.

Lemma cells_fit : forallb (fun c => cell_fits c.2) cells = true.
Proof. vm_compute. reflexivity. Qed.

Section widths.
Context (v : string -> Z) (near : Z -> Z) (lineno : Z).
Context (Hv : signals_ok v hw_signals) (Hnear : forall k, 0 <= near k < 256) (Hline : 0 <= lineno < 10000).

Lemma signal_range s : in_table s = true -> 0 <= v s < 2 ^ signal_width s.
Proof.
  unfold in_table, signal_width. destruct (find_field s 0 hw_signals) as [[pos w]|] eqn:E; [|done]. intros _.
  rewrite <- (pack_field v s _ Hv _ _ _ E). apply Z.mod_pos_bound.
  apply find_field_pos in E as [_ Hw]; [lia|]. eapply Forall_impl; [|exact Hv]. by intros ? [].
Qed.

Lemma digit_width x : 0 <= x < 8 -> length (dec x) = 1%nat.
Proof.
  intros Hx. pose proof (dec_short 1 x ltac:(lia) ltac:(simpl; lia)). pose proof (dec_nonempty x ltac:(lia)). lia.
Qed.

Lemma insn_width : length (show_insn v) = 12%nat.
Proof.
  unfold show_insn. cbv zeta. pose proof (signal_range "icache.insn" eq_refl) as Hr.
  change (signal_width "icache.insn") with 36 in Hr.
  destruct (v "icache.valid" =? 1); [|by destruct (v "icache.fetch_failed" =? 1)].
  destruct (Z.leb_spec (2 ^ 35) (v "icache.insn")); rewrite !length_app.
  - rewrite hex_zeros; [reflexivity|lia|]. apply Z.mod_pos_bound. lia.
  - rewrite spaces_length.
    2:{ apply dec_short; [lia|]. split; [apply Z.div_pos; lia|apply Z.div_lt_upper_bound; lia]. }
    rewrite hex_zeros; [reflexivity|lia|]. pose proof (Z.mod_pos_bound (v "icache.insn") (2 ^ 26)). lia.
Qed.

Lemma op_width : length (show_op v) = 10%nat.
Proof.
  unfold show_op. pose proof (signal_range "decode1.unit" eq_refl) as Hu.
  pose proof (signal_range "decode1.insn_type" eq_refl) as Ho.
  change (signal_width "decode1.unit") with 2 in Hu. change (signal_width "decode1.insn_type") with 6 in Ho.
  destruct (v "decode1.valid" =? 1); [|reflexivity].
  rewrite !length_app, (name_length units 2), (name_length ops 7) by (reflexivity || (simpl; lia)). reflexivity.
Qed.

Lemma cr_width : length (show_cr v) = 5%nat.
Proof.
  unfold show_cr. destruct (v "cr_file.enable" =? 1); [|reflexivity]. rewrite !length_app.
  pose proof (signal_range "cr_file.data" eq_refl) as Hd. pose proof (signal_range "cr_file.mask" eq_refl) as Hm.
  change (signal_width "cr_file.data") with 4 in Hd. change (signal_width "cr_file.mask") with 8 in Hm.
  rewrite (hex_zeros 2) by (simpl; lia).
  pose proof (num_text_short 16 (v "cr_file.data") 1 ltac:(lia) ltac:(lia) ltac:(simpl; lia)).
  pose proof (to_digits_length_pos 64 false 16 (v "cr_file.data") ltac:(lia) ltac:(lia) ltac:(lia)).
  unfold hex, num_text in *. replace (length (to_digits 64 false 16 (v "cr_file.data"))) with 1%nat by lia. reflexivity.
Qed.

Lemma show_width c : cell_fits c = true -> length (show v near lineno c) = width c.
Proof.
  intros Hc. destruct c as [t| |s on off|s|ss| |s| | | |]; cbn [show width cell_fits] in *.
  - done.
  - apply spaces_length, dec_short; simpl; lia.
  - apply andb_prop in Hc as [H1%Nat.eqb_eq H2%Nat.eqb_eq]. by destruct (v s =? 1).
  - apply andb_prop in Hc as [H1 H2%Z.leb_le]. pose proof (signal_range s H1).
    assert (2 ^ signal_width s <= 2 ^ 3) by (apply Z.pow_le_mono_r; lia). apply digit_width. lia.
  - apply andb_prop in Hc as [H1%Nat.eqb_eq H2]. destruct ss as [|s1 [|s2 [|s3 [|]]]]; try done.
    assert (Hbit : forall s, In s [s1; s2; s3] -> 0 <= v s < 2).
    { intros s Hs. rewrite forallb_forall in H2. apply H2, andb_prop in Hs as [Hr%signal_range Hw%Z.eqb_eq].
      by rewrite Hw in Hr. }
    pose proof (Hbit s1 ltac:(simpl; tauto)). pose proof (Hbit s2 ltac:(simpl; tauto)).
    pose proof (Hbit s3 ltac:(simpl; tauto)). apply digit_width. unfold bits_of. cbn [fold_left]. lia.
  - pose proof (signal_range "fetch1.nia" eq_refl) as H. change (signal_width "fetch1.nia") with 42 in H.
    apply hex_zeros; simpl; lia.
  - apply hex_zeros; [lia|]. specialize (Hnear (v s)). simpl. lia.
  - destruct (v "icache.hit" =? 1), (v "icache.miss" =? 1); reflexivity.
  - apply insn_width.
  - apply op_width.
  - apply cr_width.
Qed.
End widths.

(** Cells that start where the one before ends. *)
Fixpoint aligned (p : nat) (cs : list (nat * cell)) : bool :=
  match cs with
  | [] => true
  | (col, c) :: cs => (col =? p)%nat && aligned (p + width c) cs
  end.

Lemma cells_aligned : aligned 0 cells = true.
Proof. vm_compute. reflexivity. Qed.

Lemma aligned_columns (f : cell -> list Z) tail cs : forall p,
  Forall (fun c => length (f c.2) = width c.2) cs -> aligned p cs = true ->
  Forall (fun c => p <= c.1 /\ exists rest, drop (c.1 - p) (concat (map (fun c => f c.2) cs) ++ tail) = f c.2 ++ rest)%nat cs.
Proof.
  induction cs as [|[col c] cs IH]; intros p Hw Ha; [constructor|].
  apply Forall_cons_1 in Hw as [Hc Hw]. cbn [aligned snd] in *. apply andb_prop in Ha as [->%Nat.eqb_eq Ha].
  cbn [map concat snd fst]. rewrite <- app_assoc. constructor; cbn [fst snd].
  - split; [lia|]. rewrite Nat.sub_diag. by eexists.
  - eapply Forall_impl; [|exact (IH _ Hw Ha)]. intros [col' c'] [Hp [rest Hr]]. cbn [fst snd] in *.
    split; [lia|]. exists rest. rewrite <- Hr, drop_app_ge by lia. f_equal. lia.
Qed.

(** C40: what the hardware logs is what the listing shows.  For any values of
    the signals of the core's units, the line printed for the 32 bytes of the
    log vector they make shows each of them in its own column, given in [cells]
    by number, and the register written after column 130; [nia] is the table of
    recent addresses, and the columns hold for line numbers of at most four
    digits.  The columns "a" and "c" show each other's signal. *)
Theorem signals_in_columns v nia lineno :
  signals_ok v hw_signals -> 0 <= lineno < 10000 ->
  let line := log_line (le_value (le_bytes 32 (log_vector v))) nia lineno in
  let byte k := Z.land (default 0 (nia !! Z.to_nat k)) 255 in
  Forall (fun '(col, c) => exists rest, drop col line = show v byte lineno c ++ rest) cells /\
  drop 130 line = show_reg v ++ [10].
Proof.
  intros Hv Hl line byte.
  assert (Hb : forall k, 0 <= byte k < 256).
  { intros k. subst byte. cbv beta. set (x := default 0 _). clearbody x.
    change 255 with (Z.ones 8). rewrite Z.land_ones by lia. apply Z.mod_pos_bound. lia. }
  assert (El : line = concat (map (fun c => show v byte lineno c.2) cells) ++ show_reg v ++ [10]).
  { subst line. rewrite le_value_bytes by (rewrite log_vector_pack; apply (pack_range v hw_signals Hv)).
    rewrite line_shown. fold byte. unfold show_line. clear -Hv.
    assert (Hs : forall s, in_table s = true -> sig (log_vector v) s = v s).
    { intros s. unfold in_table. destruct (find_field s 0 hw_signals) as [[pos w]|] eqn:E; [|done].
      intros _. by apply (sig_log_vector v s pos w). }
    apply app_cong; [f_equal; apply map_ext_in; intros c Hc; apply show_ext|].
    - pose proof cells_in_table as Ht. rewrite forallb_forall in Ht. specialize (Ht c Hc).
      rewrite forallb_forall in Ht. apply List.Forall_forall. intros s Hin. by apply Hs, Ht.
    - unfold show_reg. by rewrite !Hs. }
  pose proof cells_fit as Hfit. rewrite forallb_forall in Hfit.
  assert (Hw : Forall (fun c => length (show v byte lineno c.2) = width c.2) cells).
  { apply List.Forall_forall. intros c Hc. by apply show_width, Hfit. }
  rewrite El. split.
  - eapply Forall_impl; [|exact (aligned_columns _ (show_reg v ++ [10]) cells 0 Hw cells_aligned)].
    intros [col c] [_ Hr]. cbn [fst snd] in Hr. by rewrite Nat.sub_0_r in Hr.
  - apply drop_app_length'. clear -Hw.
    assert (E : length (concat (map (fun c => show v byte lineno c.2) cells)) = list_sum (map (fun c => width c.2) cells)).
    { rewrite length_concat, map_map. f_equal. apply map_ext_in. intros c Hc. rewrite List.Forall_forall in Hw. by apply Hw. }
    rewrite E. reflexivity.
Qed.

(** An instruction completes and nothing else happens: "C" in column 96. *)
Definition only_valid (s : string) : Z := if String.eqb s "execute1.valid" then 1 else 0.

Lemma signals_in_columns_witness :
  let line := log_line (le_value (le_bytes 32 (log_vector only_valid))) (replicate 16 0) 42 in
  (exists rest, drop 96 line = codes "C" ++ rest) /\ drop 130 line = [10].
Proof.
  destruct (signals_in_columns only_valid (replicate 16 0) 42) as [Hc Hr].
  - repeat (constructor; [by vm_compute|]). constructor.
  - lia.
  - split; [|exact Hr]. exact (Forall_lookup_1 _ _ 57 _ Hc eq_refl).
Defined.

(** The letters of the bypass columns: with the bypass of operand A only, the
    line shows "c" in column 78. *)
Definition only_a (s : string) : Z := if String.eqb s "decode2.a_bypass" then 1 else 0.

Lemma bypass_letters_swapped :
  take 3 (drop 76 (log_line (log_vector only_a) (replicate 16 0) 1)) = codes "  c".
Proof. vm_compute. reflexivity. Qed.

(** Floating-point registers are numbered from 32: a write to the first is
    shown as one to the link register. *)
Definition write_f0 (s : string) : Z :=
  if String.eqb s "register_file.enable" then 1 else if String.eqb s "register_file.reg" then 32 else 0.

Lemma fpr_shown_as_spr :
  drop 130 (log_line (log_vector write_f0) (replicate 16 0) 1) = codes "lr =0000000000000000" ++ [10].
Proof. vm_compute. reflexivity. Qed.
