(* ===== verification/LogChain.v ===== *)
(** * From the core's log to the formatted listing

    The debug tool writes the log of the core to a file and the formatter
    prints that file: the two agree on the format of an entry and on the order
    of the entries.  The log is the ring of core_debug.vhdl, given here by what
    its two registers do. *)

From S2P Require Import Prelude CMem Ctype Vsnprintf SimLink MwDebug MwDebugSpec MwDebugShow MwDebugPort FmtLog FmtLogSpec.

(** ** The ring *)

Definition ring_word (l : list Z) (w : Z) : Z :=
  Z.shiftr (nth (Z.to_nat (w / 4)) l 0) (64 * (w mod 4)) mod 2 ^ 64.

(** The address after a word was read: only the bits that count words move. *)
Definition next_word (bits : nat) (a : Z) : Z :=
  let m := 4 * 2 ^ bits in a / m * m + (a mod m + 1) mod m.

(** An entry is stored at the write pointer, which goes round. *)
Definition push (r : list Z * nat) (e : Z) : list Z * nat :=
  (<[r.2 := e]> r.1, if (S r.2 <? length r.1)%nat then S r.2 else 0%nat).

(** The entries in the order they were stored, if the ring was filled. *)
Definition oldest_first (r : list Z * nat) : list Z := drop r.2 r.1 ++ take r.2 r.1.

Lemma push_length r e : length (push r e).1 = length r.1.
Proof. unfold push. cbn [fst]. by rewrite length_insert. Qed.

Lemma push_oldest_first r e : (r.2 < length r.1)%nat ->
  oldest_first (push r e) = drop 1 (oldest_first r) ++ [e] /\ ((push r e).2 < length (push r e).1)%nat.
Proof.
  destruct r as [l p]. unfold push, oldest_first. cbn [fst snd]. intros Hp.
  destruct (lookup_lt_is_Some_2 l p Hp) as [x Hx].
  pose proof (drop_S l x p Hx) as Hd. rewrite Hd. cbn [app drop]. rewrite length_insert.
  rewrite insert_take_drop by done. rewrite drop_0.
  assert (Ht : length (take p l) = p) by (rewrite length_take; lia).
  destruct (Nat.ltb_spec (S p) (length l)).
  - split; [|done]. rewrite drop_app, take_app, Ht. rewrite (drop_ge (take p l)) by lia.
    rewrite (take_ge (take p l)) by lia. replace (S p - p)%nat with 1%nat by lia.
    cbn [drop take app]. by rewrite take_0, app_assoc.
  - split; [|lia]. rewrite (drop_ge l (S p)) by lia. rewrite drop_0, take_0, app_nil_r. done.
Qed.

(** However the ring started, it holds the last entries stored. *)
Lemma pushes_oldest_first h r : (r.2 < length r.1)%nat ->
  oldest_first (fold_left push h r) = drop (length h) (oldest_first r ++ h).
Proof.
  revert r. induction h as [|e h IH]; intros r Hr; cbn [fold_left length].
  - by rewrite app_nil_r, drop_0.
  - destruct (push_oldest_first r e Hr) as [E Hr']. rewrite IH, E by done.
    assert (Hl : (0 < length (oldest_first r))%nat)
      by (unfold oldest_first; rewrite length_app, length_drop, length_take; lia).
    destruct (oldest_first r) as [|x l]; [simpl in Hl; lia|]. cbn [drop app].
    by rewrite <- app_assoc.
Qed.

Lemma history_oldest_first h r : (r.2 < length r.1)%nat -> (length r.1 <= length h)%nat ->
  oldest_first (fold_left push h r) = drop (length h - length r.1) h.
Proof.
  intros Hr Hh. rewrite pushes_oldest_first by done.
  assert (Hl : length (oldest_first r) = length r.1)
    by (unfold oldest_first; rewrite length_app, length_drop, length_take; lia).
  rewrite drop_app, (drop_ge (oldest_first r)) by lia. by rewrite Hl.
Qed.

(** The log registers of core [c] of a device: the address register reads as
    the write pointer, marked with the size, above the read address; its bit
    31 stops the log, which else may go on at any time; a read of the data
    register gives the word at the read address and moves on. *)
Class LogRing (D : Type) `{Device D} (c : Z) := {
  ring_bits : nat;
  ring_bits_small : (ring_bits <= 29)%nat;
  ring : D -> list Z;
  ring_ptr : D -> nat;
  ring_addr : D -> Z;
  ring_length d : Z.of_nat (length (ring d)) = 2 ^ ring_bits;
  ring_entry d : Forall (fun e => 0 <= e < 2 ^ 256) (ring d);
  ring_ptr_range d : (ring_ptr d < length (ring d))%nat;
  ring_addr_range d : in_u32 (ring_addr d);
  ring_rd_addr d : let '(v, d') := rd (DBG_LOG_ADDR c) d in
    v = (2 ^ ring_bits + ring_ptr d) * 2 ^ 32 + ring_addr d /\ ring_addr d' = ring_addr d /\
    (2 ^ 31 <= ring_addr d -> ring d' = ring d /\ ring_ptr d' = ring_ptr d);
  ring_wr_addr d v : in_u64 v -> let d' := wr (DBG_LOG_ADDR c) v d in
    ring_addr d' = v mod 2 ^ 32 /\
    (2 ^ 31 <= ring_addr d -> ring d' = ring d /\ ring_ptr d' = ring_ptr d);
  ring_rd_data d : 2 ^ 31 <= ring_addr d -> let '(v, d') := rd (DBG_LOG_DATA c) d in
    v = ring_word (ring d) (ring_addr d mod (4 * 2 ^ ring_bits)) /\
    ring_addr d' = next_word ring_bits (ring_addr d) /\ ring d' = ring d /\ ring_ptr d' = ring_ptr d
}.

(** ** Bytes of an entry *)

Lemma le_bytes_app n m v : le_bytes (n + m) v = le_bytes n v ++ le_bytes m (Z.shiftr v (8 * n)).
Proof.
  revert v. induction n as [|n IH]; intros v.
  - cbn [Nat.add le_bytes app]. by rewrite Z.shiftr_0_r.
  - cbn [Nat.add le_bytes app]. rewrite IH. do 3 f_equal.
    rewrite !Z.shiftr_div_pow2, Z.div_div by lia. f_equal.
    replace (8 * S n) with (8 + 8 * n) by lia. rewrite Z.pow_add_r by lia. done.
Qed.

Lemma le_bytes_8_mod v : le_bytes 8 (v mod 2 ^ 64) = le_bytes 8 v.
Proof.
  pose proof (le_bytes_value (le_bytes 8 v) (le_bytes_in_u8 8 v)) as E.
  rewrite le_bytes_length, le_value_bytes_mod in E. exact E.
Qed.

Lemma entry_words e :
  concat (map (fun r : nat => le_bytes 8 (Z.shiftr e (64 * r) mod 2 ^ 64)) (seq 0 4)) = le_bytes 32 e.
Proof.
  cbn [seq map concat]. rewrite !le_bytes_8_mod, app_nil_r.
  change (64 * 0%nat) with 0. rewrite Z.shiftr_0_r.
  change 32%nat with (8 + (8 + (8 + 8)))%nat. rewrite !le_bytes_app, !Z.shiftr_shiftr by lia. done.
Qed.

(** Words of a file, four at a time. *)
Lemma word_bytes_by_four (f : nat -> Z) n :
  word_bytes (map f (seq 0 (4 * n))) =
  concat (map (fun j => concat (map (fun r => le_bytes 8 (f (4 * j + r)%nat)) (seq 0 4))) (seq 0 n)).
Proof.
  induction n as [|n IH]; [done|].
  replace (4 * S n)%nat with (4 * n + 4)%nat by lia. rewrite (seq_S n), (seq_app (4 * n) 4), !map_app, concat_app, <- IH.
  unfold word_bytes. rewrite map_app, concat_app. f_equal.
  cbn [seq map concat Nat.add]. rewrite !app_nil_r. repeat (f_equal; try lia).
Qed.

(** ** The dump *)

Section dump.
Context {D : Type} `{Device D} {c : Z} `{!LogRing D c}.

Lemma ring_orig d : dump_orig c d = (2 ^ ring_bits + ring_ptr d) * 2 ^ 32 + ring_addr d.
Proof. unfold dump_orig. pose proof (ring_rd_addr d) as Hr. destruct (rd _ d). apply Hr. Qed.

Lemma ring_sizes d : 0 <= ring_ptr d < 2 ^ ring_bits /\ 0 <= ring_addr d < 2 ^ 32 /\ 1 <= 2 ^ ring_bits <= 2 ^ 29.
Proof.
  pose proof (ring_length d). pose proof (ring_ptr_range d). pose proof (ring_addr_range d) as Ha.
  unfold in_u32 in Ha. pose proof ring_bits_small.
  assert (2 ^ ring_bits <= 2 ^ 29) by (apply Z.pow_le_mono_r; lia). lia.
Qed.

Lemma ring_orig_u64 d : in_u64 (dump_orig c d).
Proof. rewrite ring_orig. pose proof (ring_sizes d). unfold in_u64. lia. Qed.

Lemma ring_shift d : Z.shiftr (dump_orig c d) 32 = 2 ^ ring_bits + ring_ptr d.
Proof.
  rewrite ring_orig, Z.shiftr_div_pow2, Z.div_add_l by lia. pose proof (ring_sizes d).
  rewrite Z.div_small by lia. lia.
Qed.

(** The size found is the size of the ring, and what is left of the write
    pointer is the pointer. *)
Lemma ring_dump_size d : dump_size c d = 2 ^ ring_bits.
Proof.
  unfold dump_size. rewrite ring_shift. f_equal. unfold log_bits.
  rewrite Z.shiftr_div_pow2 by lia. change (2 ^ 1) with 2. pose proof (ring_sizes d) as (Hp & _ & _).
  destruct (decide (ring_bits = 0%nat)) as [E|E].
  - rewrite E in *. change (2 ^ Z.of_nat 0) with 1 in *. replace (ring_ptr d) with 0%nat by lia. done.
  - assert (Es : 2 ^ ring_bits = 2 * 2 ^ (ring_bits - 1))
      by (rewrite <- Z.pow_succ_r by lia; f_equal; lia).
    assert (0 < 2 ^ (ring_bits - 1)) by (apply Z.pow_pos_nonneg; lia).
    destruct (Z.eqb_spec ((2 ^ ring_bits + ring_ptr d) / 2) 0); [Z.div_mod_to_equations; lia|].
    rewrite (Z.log2_unique _ (ring_bits - 1)); [lia|lia|].
    replace (Z.succ (ring_bits - 1)) with (Z.of_nat ring_bits) by lia. Z.div_mod_to_equations. lia.
Qed.

Lemma ring_dump_start d : dump_start c d = 2 ^ 31 + 4 * ring_ptr d.
Proof.
  unfold dump_start. rewrite ring_dump_size, ring_shift. pose proof (ring_sizes d) as (Hp & _ & Hb).
  assert (E : Z.land (2 ^ ring_bits + ring_ptr d) (Z.lnot (2 ^ ring_bits)) = ring_ptr d).
  { rewrite <- Z.ldiff_land. apply Z.bits_inj'. intros k Hk. rewrite Z.ldiff_spec.
    replace (2 ^ ring_bits + ring_ptr d) with (Z.lor (1 * 2 ^ ring_bits) (ring_ptr d))
      by (rewrite lor_shifted by lia; lia).
    rewrite Z.mul_1_l, Z.lor_spec, Z.pow2_bits_eqb by lia. destruct (Z.eqb_spec (Z.of_nat ring_bits) k) as [<-|].
    - by rewrite (testbit_above (ring_ptr d) ring_bits), andb_false_r by lia.
    - by rewrite orb_false_l, andb_true_r. }
  rewrite E, Z.shiftl_mul_pow2, u64_small by lia. change LOG_STOP with (1 * 2 ^ 31).
  rewrite lor_shifted by lia. lia.
Qed.

(** The device once the log is stopped. *)
Lemma ring_stopped d : 2 ^ 31 <= ring_addr (dump_stopped c d) /\
  (2 ^ 31 <= ring_addr d -> ring (dump_stopped c d) = ring d /\ ring_ptr (dump_stopped c d) = ring_ptr d).
Proof.
  unfold dump_stopped. pose proof (ring_rd_addr d) as Hr. pose proof (ring_sizes d) as (Hp & Ha & Hb).
  destruct (rd _ d) as [v d1]. destruct Hr as (-> & Ea & Hs).
  set (v := _ + ring_addr d). assert (Ht : bit_of v LOG_STOP = (2 ^ 31 <=? ring_addr d)).
  { unfold bit_of. change LOG_STOP with (2 ^ 31). rewrite land_pow2, negb_involutive by lia.
    subst v. rewrite <- (lor_shifted _ (ring_addr d) 32), Z.lor_spec, Z.mul_pow2_bits_low by lia. cbn [orb].
    destruct (Z.leb_spec (2 ^ 31) (ring_addr d)); [|by apply (testbit_above _ 31); lia].
    apply Z.testbit_true; [lia|]. replace (ring_addr d / 2 ^ 31) with 1; [done|].
    apply Z.div_unique with (ring_addr d - 2 ^ 31); lia. }
  rewrite Ht. destruct (Z.leb_spec (2 ^ 31) (ring_addr d)).
  - rewrite Ea. by split.
  - destruct (ring_wr_addr d1 LOG_STOP) as [Ew _]; [unfold in_u64, LOG_STOP; lia|].
    rewrite Ew. split; [done|lia].
Qed.

(** The words read after the address was set to that of word [w] of the ring. *)
Lemma ring_reads (n : nat) w d0 :
  ring_addr d0 = 2 ^ 31 + w -> 0 <= w < 4 * 2 ^ ring_bits ->
  let r := read_many n (DBG_LOG_DATA c) d0 in
  r.1 = map (fun i : nat => ring_word (ring d0) ((w + i) mod (4 * 2 ^ ring_bits))) (seq 0 n) /\
  ring_addr r.2 = 2 ^ 31 + (w + n) mod (4 * 2 ^ ring_bits) /\
  ring r.2 = ring d0 /\ ring_ptr r.2 = ring_ptr d0.
Proof.
  intros Ha Hw. pose proof (ring_sizes d0) as (_ & _ & Hb). set (m := 4 * 2 ^ ring_bits) in *.
  assert (Hm : 2 ^ 31 = 2 ^ 29 / 2 ^ ring_bits * m).
  { subst m. pose proof ring_bits_small.
    replace (2 ^ 29) with (2 ^ (29 - ring_bits) * 2 ^ ring_bits) by (rewrite <- Z.pow_add_r by lia; f_equal; lia).
    rewrite Z.div_mul by lia. replace (2 ^ 31) with (4 * (2 ^ (29 - ring_bits) * 2 ^ ring_bits)); [lia|].
    rewrite <- Z.pow_add_r by lia. replace (29 - ring_bits + ring_bits) with 29 by lia. done. }
  induction n as [|n IH]; intros r.
  { subst r. cbn [read_many fst snd seq map]. rewrite Z.add_0_r, Z.mod_small by lia. by split_and!. }
  destruct IH as (E1 & E2 & E3 & E4). subst r. rewrite seq_S, map_app. cbn [read_many].
  destruct (read_many n (DBG_LOG_DATA c) d0) as [l d1]. cbn [fst snd] in *. subst l.
  pose proof (Z.mod_pos_bound (w + n) m ltac:(lia)) as Hmod.
  assert (Em : ring_addr d1 mod m = (w + n) mod m)
    by (rewrite E2, Hm, Z.add_comm, Z.mod_add, Z.mod_mod by lia; done).
  assert (Ed : ring_addr d1 / m * m = 2 ^ 31)
    by (rewrite E2, Hm, Z.div_add_l, (Z.div_small (_ mod _)), Z.add_0_r by lia; done).
  assert (Hst : 2 ^ 31 <= ring_addr d1) by lia.
  pose proof (ring_rd_data d1 Hst) as Hr. destruct (rd (DBG_LOG_DATA c) d1) as [v d2].
  destruct Hr as (-> & Ea & E5 & E6). cbn [fst snd map]. split_and!; [|
    |by rewrite E5|by rewrite E6].
  - fold m. by rewrite Em, E3.
  - rewrite Ea. unfold next_word. cbv zeta. fold m. rewrite Ed, Em, Z.add_mod_idemp_l by lia.
    do 2 f_equal. lia.
Qed.

(** Word by word the dump is the entries from the pointer on, and round. *)
Lemma ring_dump_words l (p : nat) n : length l = n -> (p < n)%nat ->
  word_bytes (map (fun i : nat => ring_word l ((4 * p + i) mod (4 * n))) (seq 0 (4 * n))) =
  concat (map (le_bytes 32) (oldest_first (l, p))).
Proof.
  intros Hl Hp. rewrite word_bytes_by_four. f_equal.
  apply list_eq. intros j. rewrite !list_lookup_fmap.
  assert (Hlen : length (oldest_first (l, p)) = n)
    by (unfold oldest_first; rewrite length_app, length_drop, length_take; cbn [fst snd]; lia).
  destruct (decide (j < n)%nat) as [Hj|Hj].
  2:{ by rewrite (lookup_ge_None_2 (seq 0 n)), (lookup_ge_None_2 (oldest_first _)) by (rewrite ?length_seq; lia). }
  rewrite lookup_seq_lt by done. destruct (lookup_lt_is_Some_2 (oldest_first (l, p)) j ltac:(lia)) as [e He].
  rewrite He. cbn [fmap option_fmap option_map]. f_equal. rewrite <- entry_words. f_equal.
  apply map_ext_in. intros r Hr%in_seq. f_equal. unfold ring_word.
  set (q := if (p + j <? n)%nat then (p + j)%nat else (p + j - n)%nat).
  assert (Eq : (4 * p + (4 * (0 + j) + r)%nat) mod (4 * n) = 4 * q + r).
  { subst q. destruct (Nat.ltb_spec (p + j) n); [rewrite Z.mod_small by lia; lia|].
    symmetry. apply Z.mod_unique with 1; lia. }
  rewrite Eq. replace ((4 * q + r) / 4) with (Z.of_nat q) by (Z.div_mod_to_equations; lia).
  replace ((4 * q + r) mod 4) with (Z.of_nat r) by (Z.div_mod_to_equations; lia).
  rewrite Nat2Z.id. do 3 f_equal. apply nth_lookup_Some. revert He. unfold oldest_first. cbn [fst snd].
  subst q. destruct (Nat.ltb_spec (p + j) n).
  - by rewrite lookup_app_l, lookup_drop by (rewrite length_drop; lia).
  - rewrite lookup_app_r, length_drop, lookup_take_lt by (rewrite ?length_drop; lia).
    by replace (j - (length l - p))%nat with (p + j - n)%nat by lia.
Qed.

Lemma ring_dump_reads d : let r := dump_reads c d in
  word_bytes r.1 = concat (map (le_bytes 32) (oldest_first (ring (dump_stopped c d), ring_ptr d))) /\
  2 ^ 31 <= ring_addr r.2 /\ ring r.2 = ring (dump_stopped c d) /\ ring_ptr r.2 = ring_ptr (dump_stopped c d).
Proof.
  intros r. pose proof (ring_sizes d) as (Hp & _ & Hb). destruct (ring_stopped d) as [Hs _].
  pose proof (ring_length d) as Hl. pose proof (ring_length (dump_stopped c d)) as Hl1.
  destruct (ring_wr_addr (dump_stopped c d) (dump_start c d)) as [Ea Hsame].
  { rewrite ring_dump_start. unfold in_u64. lia. }
  destruct (Hsame Hs) as [Er Ep].
  assert (Es : dump_start c d mod 2 ^ 32 = 2 ^ 31 + 4 * ring_ptr d)
    by (rewrite ring_dump_start, Z.mod_small by lia; done).
  rewrite Es in Ea.
  destruct (ring_reads (Z.to_nat (4 * dump_size c d)) _ _ Ea ltac:(lia)) as (E1 & E2 & E3 & E4).
  subst r. unfold dump_reads. rewrite E1, E2, E3, E4, Er, Ep.
  split_and!; [|match goal with |- context [?x mod ?y] => pose proof (Z.mod_pos_bound x y); lia end|done|done].
  rewrite ring_dump_size, <- Hl1.
  replace (Z.to_nat (4 * length (ring (dump_stopped c d)))) with (4 * length (ring (dump_stopped c d)))%nat by lia.
  apply ring_dump_words; [done|lia].
Qed.
End dump.

(** ** From the log to the listing *)

(** C6: what the formatter shows of a dump is the log.  "ldump" of a core
    whose log is a ring stops the log and writes a file from which "fmt_log"
    prints the listing and the summary of all entries of the stopped ring, once
    each, from the write pointer read before stopping, on and round, with
    status 0; the ring is then as it was when stopped, and the address register
    has the value it had at the start.  Only when the log was already stopped
    is the ring as it was before the command and are the entries, after at least
    as many stores as the ring holds, the last ones stored, the oldest first. *)
Theorem dump_then_format {T D} `{Backend T} `{Device D} polls `{!Dmi T D polls} (c : Z) `{!LogRing D c}
    junk (s : tool T) filename stdin slot (f : fmt) :
  idle s -> t_core s = c -> filename ∉ locked (t_fs s) -> 32 * 2 ^ ring_bits <= room (t_fs s) ->
  let d := dump_stopped c (dev s) in
  let es := oldest_first (ring d, ring_ptr (dev s)) in
  exists s' f',
  log_dump polls junk filename s = Ok tt s' /\
  FmtLog.main 2 stdin (files (t_fs s') !! filename) slot f = Err (Exit 0) f' /\
  f_out f' = f_out f ++ report slot es /\ Z.of_nat (length es) = 2 ^ ring_bits /\
  ring (dev s') = ring d /\ ring_ptr (dev s') = ring_ptr d /\ ring_addr (dev s') = ring_addr (dev s) /\
  (2 ^ 31 <= ring_addr (dev s) ->
   ring d = ring (dev s) /\ ring_ptr d = ring_ptr (dev s) /\
   forall h start, (ring (dev s), ring_ptr (dev s)) = fold_left push h start -> (start.2 < length start.1)%nat ->
   (length start.1 <= length h)%nat -> es = drop (length h - length start.1) h).
Proof.
  intros Hi <- Hl Hroom d es.
  destruct (proj1 (wp_spec _ _ _) (log_dump_ok polls junk s filename Hi (ring_orig_u64 _) Hl
    ltac:(rewrite ring_dump_size; exact Hroom))) as ([] & s' & Hrun & _ & Hd & _ & _ & Ho & Hf).
  destruct (ring_dump_reads (c := t_core s) (dev s)) as (Ebytes & Hst & Er & Ep). fold d in Ebytes, Er, Ep. fold es in Ebytes.
  destruct (ring_wr_addr (c := t_core s) (dump_reads (t_core s) (dev s)).2 (dump_orig (t_core s) (dev s)) (ring_orig_u64 _)) as [Ea Hsame].
  destruct (Hsame Hst) as [Er' Ep']. rewrite <- Hd in Ea, Er', Ep'.
  assert (Hes : length es = length (ring d)).
  { pose proof (ring_sizes (c := t_core s) (dev s)) as (Hp & _ & _). pose proof (ring_length (c := t_core s) d).
    subst es. unfold oldest_first. cbn [fst snd]. rewrite length_app, length_drop, length_take. lia. }
  assert (Hfile : files (t_fs s') !! filename = Some (concat (map (le_bytes 32) es)))
    by (rewrite Hf; cbn [files]; by rewrite lookup_insert_eq, Ebytes).
  assert (Hent : entries (concat (map (le_bytes 32) es)) = es).
  { apply entries_concat. subst es. unfold oldest_first. cbn [fst snd]. pose proof (ring_entry (c := t_core s) d) as He.
    apply Forall_app. split; [by apply Forall_drop|by apply Forall_take]. }
  destruct (main_reports 2 stdin (files (t_fs s') !! filename) slot _ f eq_refl Hfile) as (f' & Hmain & Hout).
  exists s', f'. split; [exact Hrun|]. split; [exact Hmain|].
  rewrite Hout, Hent, Hes, (ring_length (c := t_core s) d).
  split_and!; [done|done|congruence|congruence| |].
  - rewrite Ea, ring_orig. pose proof (ring_sizes (c := t_core s) (dev s)).
    by rewrite Z.add_comm, Z.mod_add, Z.mod_small by lia.
  - intros Hstop. subst es d. destruct (ring_stopped (c := t_core s) (dev s)) as [_ Hk].
    destruct (Hk Hstop) as [-> ->]. split_and!; [done|done|]. intros h start Eh Hs Hh.
    rewrite Eh. by apply history_oldest_first.
Qed.

(** ** A log of two entries *)

(** While it is not stopped it stores an entry each time the pointer is read. *)
Record log_dev := LogDev { l_first : Z; l_second : Z; l_at : bool; l_addr : Z; l_next : Z }.

Definition log_ring (d : log_dev) : list Z := [l_first d mod 2 ^ 256; l_second d mod 2 ^ 256].
Definition log_at (d : log_dev) : nat := if l_at d then 1%nat else 0%nat.

Definition log_tick (d : log_dev) : log_dev :=
  if 2 ^ 31 <=? l_addr d mod 2 ^ 32 then d
  else LogDev (if l_at d then l_first d else l_next d) (if l_at d then l_next d else l_second d)
         (negb (l_at d)) (l_addr d) (l_next d + 1).
Definition log_set_addr (v : Z) (d : log_dev) : log_dev :=
  LogDev (l_first d) (l_second d) (l_at d) v (l_next d).

#[export] Instance log_dev_registers : Device log_dev := {
  rd a d :=
    if a =? 22 then ((2 + log_at d) * 2 ^ 32 + l_addr d mod 2 ^ 32, log_tick d)
    else if a =? 23 then
      (ring_word (log_ring d) (l_addr d mod 2 ^ 32 mod 8), log_set_addr (next_word 1 (l_addr d mod 2 ^ 32)) d)
    else (0, d);
  wr a v d := if a =? 22 then log_set_addr v d else d
}.

Lemma log_tick_stopped d : 2 ^ 31 <= l_addr d mod 2 ^ 32 -> log_tick d = d.
Proof. intros Hs. unfold log_tick. by rewrite (proj2 (Z.leb_le _ _) Hs). Qed.

Lemma log_tick_addr d : l_addr (log_tick d) = l_addr d.
Proof. unfold log_tick. by destruct (2 ^ 31 <=? _). Qed.

#[export] Instance log_dev_ring : LogRing log_dev 0.
Proof.
  refine {| ring_bits := 1; ring := log_ring; ring_ptr := log_at; ring_addr d := l_addr d mod 2 ^ 32 |}.
  - lia.
  - done.
  - intros d. unfold log_ring. repeat constructor; apply Z.mod_pos_bound; lia.
  - intros d. unfold log_at. destruct (l_at d); simpl; lia.
  - intros d. unfold in_u32. apply Z.mod_pos_bound. lia.
  - intros d. change (rd (DBG_LOG_ADDR 0) d) with ((2 + log_at d) * 2 ^ 32 + l_addr d mod 2 ^ 32, log_tick d).
    cbv iota beta. rewrite log_tick_addr. split_and!; [done|done|].
    intros Hs. by rewrite log_tick_stopped.
  - intros d v Hv. by split.
  - intros d Hs. change (rd (DBG_LOG_DATA 0) d) with (ring_word (log_ring d) (l_addr d mod 2 ^ 32 mod 8),
      log_set_addr (next_word 1 (l_addr d mod 2 ^ 32)) d). cbv iota beta. split_and!; [done| |done|done].
    apply Z.mod_small. unfold next_word. cbv zeta. change (4 * 2 ^ Z.of_nat 1) with 8.
    pose proof (Z.mod_pos_bound (l_addr d) (2 ^ 32)). set (a := l_addr d mod 2 ^ 32) in *.
    clearbody a. Z.div_mod_to_equations. lia.
Defined.

(** Three entries were stored since the start and the log was stopped. *)
Definition log_demo : tool (port log_dev) :=
  Tool (Port (LogDev 103 102 true (2 ^ 31) 104) None) 0 false [] (Fs ∅ ∅ 1000).

Lemma dump_then_format_witness : exists s' f',
  log_dump 3 7 (codes "log") log_demo = Ok tt s' /\
  FmtLog.main 2 [] (files (t_fs s') !! codes "log") 9 (Fmt [] 0 0 []) = Err (Exit 0) f' /\
  f_out f' = report 9 [102; 103].
Proof.
  destruct (dump_then_format (D := log_dev) 3 0 7 log_demo (codes "log") [] 9 (Fmt [] 0 0 []))
    as (s' & f' & Hd & Hf & Ho & _ & _ & _ & _ & Hh); [done|done|set_solver|by vm_compute|].
  exists s', f'. split; [exact Hd|]. split; [exact Hf|].
  destruct Hh as (_ & _ & Hh); [by vm_compute|].
  rewrite (Hh [101; 102; 103] ([0; 0], 0%nat)) in Ho; [exact Ho|by vm_compute|simpl; lia|simpl; lia].
Defined.

(** The pointer is read before the log is stopped: the dump of a log that is
    running starts at an entry that is by then the newest. *)
Example running_dump :
  (_ ← log_dump 3 7 (codes "log"); s ← gets t_fs; mret (entries <$> files s !! codes "log"))
    (with_dev (Port (LogDev 103 102 true 0 104) None) log_demo) =
  Ok (Some [104; 103]) (out_state (log_dump 3 7 (codes "log") (with_dev (Port (LogDev 103 102 true 0 104) None) log_demo))).
Proof. vm_compute. reflexivity. Qed.
