(* ===== verification/Lms.v ===== *)
(** * The LMS filter of the simulation: LMS_Periph/obj_dir

    A four-tap adaptive filter in Q4.12 behind a bus, as Verilator turned
    wb_lms.v and LMS.v into C++.  The state of VLMS___024root is a record: the
    inputs, the registers, the wires that are kept up to date with them, and
    what the scheduler remembers.  The functions of the Verilator library are
    a class: its multiplication and sign extension, and the trigger vectors. *)

From S2P Require Import Prelude.

(** ** The library *)

Class Verilated (V : Type) := {
  VL_MULS_III : Z -> Z -> Z -> Z;
  VL_EXTENDS_II : Z -> Z -> Z -> Z;
  setBit : Z -> bool -> V -> V;
  any : V -> bool;
  word : Z -> V -> Z;
  thisOr : V -> V -> V;
  clear : V -> V
}.

(** Products of signed numbers, sign extension, and vectors whose first word
    has the bits that were set. *)
Class VerilatedOk (V : Type) `{Verilated V} := {
  muls_ok a b : in_u32 a -> in_u32 b -> VL_MULS_III 32 a b = u32 (s32 a * s32 b);
  extends_ok x : 0 <= x < 2 ^ 16 -> VL_EXTENDS_II 32 16 x = u32 (s16 x);
  word_range v : 0 <= word 0 v < 2 ^ 64;
  word_set i b v j : 0 <= i < 2 -> 0 <= j ->
    Z.testbit (word 0 (setBit i b v)) j = if j =? i then b else Z.testbit (word 0 v) j;
  any_ok v : any v = negb (word 0 v =? 0);
  word_or v v' : word 0 (thisOr v v') = Z.lor (word 0 v) (word 0 v');
  word_clear v : word 0 (clear v) = 0
}.

(** ** The state *)

Definition quad : Type := Z * Z * Z * Z.
Definition quad0 : quad := (0, 0, 0, 0).

Record inputs := Inputs {
  Clk : Z; Rst : Z; wb_cyc_i : Z; wb_stb_i : Z; wb_we_i : Z; wb_adr_i : Z; wb_dat_i : Z
}.

Record regs := Regs {
  wb_ack_o : Z; irq_o : Z; wb_dat_o : Z;
  x_in_reg : Z; d_in_reg : Z; mode_train_reg : Z;
  err_reg : Z; wn : quad; x : quad
}.

Record wires := Wires { y_out : Z; wn_u0 : Z; wn_u1 : Z; wn_u2 : Z; wn_u3 : Z }.

Record sched (V : Type) := Sched {
  VstlFirstIteration : bool; trigprev_Clk : Z; trigprev_Rst : Z;
  VactContinue : bool; VactIterCount : Z;
  VstlTriggered : V; VactTriggered : V; VnbaTriggered : V
}.
Arguments Sched {V}. Arguments VstlFirstIteration {V}. Arguments trigprev_Clk {V}.
Arguments trigprev_Rst {V}. Arguments VactContinue {V}. Arguments VactIterCount {V}.
Arguments VstlTriggered {V}. Arguments VactTriggered {V}. Arguments VnbaTriggered {V}.

(** [didInit] is the flag of the symbol table. *)
Record root (V : Type) := Root {
  ins : inputs; rg : regs; wr : wires; sc : sched V; didInit : bool
}.
Arguments Root {V}. Arguments ins {V}. Arguments rg {V}. Arguments wr {V}.
Arguments sc {V}. Arguments didInit {V}.

Section lms.
Context {V : Type} `{Verilated V}.

Definition with_sc (f : sched V -> sched V) : M (root V) unit :=
  modify (fun s => Root (ins s) (rg s) (wr s) (f (sc s)) (didInit s)).

(** ** The filter *)

Definition mul16 (a b : Z) : Z := VL_MULS_III 32 (VL_EXTENDS_II 32 16 a) (VL_EXTENDS_II 32 16 b).

Definition y_of (wn x : quad) : Z :=
  let '(w0, w1, w2, w3) := wn in
  let '(x0, x1, x2, x3) := x in
  Z.land 0xffff (Z.shiftr
    (u32 (mul16 w0 x0 + u32 (mul16 w1 x1 + u32 (mul16 w2 x2 + mul16 w3 x3)))) 12).

Definition wn_u_of (w err x : Z) : Z :=
  Z.land 0xffff (u32 (w + Z.shiftr (VL_MULS_III 32 0x800
    (VL_EXTENDS_II 32 16 (Z.land 0xffff (Z.shiftr (mul16 err x) 12)))) 12)).

(** The wires, from the registers. *)
Definition wires_of (r : regs) : wires :=
  let '(w0, w1, w2, w3) := wn r in
  let '(x0, x1, x2, x3) := x r in
  Wires (y_of (wn r) (x r))
    (wn_u_of w0 (err_reg r) x0) (wn_u_of w1 (err_reg r) x1)
    (wn_u_of w2 (err_reg r) x2) (wn_u_of w3 (err_reg r) x3).

(** The delayed assignments of a clock edge: the two registers with a delay of
    their own, and for the arrays whether they are cleared or given new
    values. *)
Record delayed := Delayed {
  dly_ack : Z; dly_err : Z;
  set_x_v0 : bool; set_x_v4 : bool; val_x : quad;
  set_wn_v0 : bool; set_wn_v4 : bool; val_wn : quad
}.

Definition dat_of (adr : Z) (r : regs) (w : wires) : Z :=
  let '(w0, w1, w2, w3) := wn r in
  let bit k := negb (Z.land k adr =? 0) in
  if bit 0x20 then
    if bit 0x10 then 0 else if bit 8 then 0 else if bit 4 then 0 else w3
  else if bit 0x10 then
    if bit 8 then (if bit 4 then w2 else w1)
    else (if bit 4 then w0 else err_reg r)
  else if bit 8 then (if bit 4 then y_out w else 0)
  else 0.

Definition bus_write (i : inputs) (r : regs) : regs :=
  let sel := Z.land 0xf (Z.shiftr (wb_adr_i i) 2) in
  let '(xin, din, mode) :=
    if sel =? 0 then (wb_dat_i i, d_in_reg r, mode_train_reg r)
    else if sel =? 1 then (x_in_reg r, wb_dat_i i, mode_train_reg r)
    else if sel =? 2 then (x_in_reg r, d_in_reg r, Z.land 1 (wb_dat_i i))
    else (x_in_reg r, d_in_reg r, mode_train_reg r) in
  Regs (wb_ack_o r) 1 (wb_dat_o r) xin din mode (err_reg r) (wn r) (x r).

Definition bus_read (i : inputs) (r : regs) (w : wires) : regs :=
  Regs (wb_ack_o r) (irq_o r) (dat_of (wb_adr_i i) r w) (x_in_reg r) (d_in_reg r)
    (mode_train_reg r) (err_reg r) (wn r) (x r).

(** The branch of [Rst]. *)
Definition nba_reset (r : regs) : regs * delayed :=
  (Regs (wb_ack_o r) 0 0 0 0 0 (err_reg r) (wn r) (x r),
   Delayed 0 0 true false quad0 true false quad0).

(** The other branch. *)
Definition nba_clock (i : inputs) (r : regs) (w : wires) : regs * delayed :=
  let '(err, set_wn, new_wn) :=
    if negb (mode_train_reg r =? 0) then
      (Z.land 0xffff (u32 (d_in_reg r - y_out w)), true, (wn_u0 w, wn_u1 w, wn_u2 w, wn_u3 w))
    else (0, false, quad0) in
  let '(x0, x1, x2, x3) := x r in
  let new_x := (x_in_reg r, x0, x1, x2) in
  let r := Regs (wb_ack_o r) 0 (wb_dat_o r) (x_in_reg r) (d_in_reg r) (mode_train_reg r)
             (err_reg r) (wn r) (x r) in
  let '(ack, r) :=
    if negb (Z.land (Z.land (wb_cyc_i i) (wb_stb_i i)) (u32 (Z.lnot (wb_ack_o r))) =? 0) then
      (1, if negb (wb_we_i i =? 0) then bus_write i r else bus_read i r w)
    else (0, r) in
  (r, Delayed ack err false true new_x false set_wn new_wn).

Definition nba_sequent__TOP__0 (i : inputs) (r : regs) (w : wires) : regs * wires :=
  let '(r, d) := if negb (Rst i =? 0) then nba_reset r else nba_clock i r w in
  let x := if set_x_v0 d then quad0 else x r in
  let x := if set_x_v4 d then val_x d else x in
  let wn := if set_wn_v0 d then quad0 else wn r in
  let wn := if set_wn_v4 d then val_wn d else wn in
  let r := Regs (dly_ack d) (irq_o r) (wb_dat_o r) (x_in_reg r) (d_in_reg r)
             (mode_train_reg r) (dly_err d) wn x in
  (r, wires_of r).

(** ** The scheduler *)

Definition eval_nba : M (root V) unit := fun s =>
  if negb (Z.land 3 (word 0 (VnbaTriggered (sc s))) =? 0) then
    let '(r, w) := nba_sequent__TOP__0 (ins s) (rg s) (wr s) in
    Ok tt (Root (ins s) r w (sc s) (didInit s))
  else Ok tt s.

Definition eval_act : M (root V) unit := mret tt.

(** A rising edge. *)
Definition posedge (now prev : Z) : bool := negb (Z.land now (u32 (Z.lnot prev)) =? 0).

Definition eval_triggers__act : M (root V) unit := modify (fun s =>
  let c := sc s in
  let t := setBit 0 (posedge (Clk (ins s)) (trigprev_Clk c)) (VactTriggered c) in
  let t := setBit 1 (posedge (Rst (ins s)) (trigprev_Rst c)) t in
  Root (ins s) (rg s) (wr s)
    (Sched (VstlFirstIteration c) (Clk (ins s)) (Rst (ins s)) (VactContinue c) (VactIterCount c)
       (VstlTriggered c) t (VnbaTriggered c)) (didInit s)).

(** The vector [__VpreTriggered] is computed but never read. *)
Definition eval_phase__act : M (root V) bool :=
  _ ← eval_triggers__act;
  exec ← gets (fun s => any (VactTriggered (sc s)));
  _ ← (if exec : bool then
         _ ← with_sc (fun c => Sched (VstlFirstIteration c) (trigprev_Clk c) (trigprev_Rst c)
               (VactContinue c) (VactIterCount c) (VstlTriggered c) (VactTriggered c)
               (thisOr (VnbaTriggered c) (VactTriggered c)));
         eval_act
       else mret tt);
  mret exec.

Definition eval_phase__nba : M (root V) bool :=
  exec ← gets (fun s => any (VnbaTriggered (sc s)));
  _ ← (if exec : bool then
         _ ← eval_nba;
         with_sc (fun c => Sched (VstlFirstIteration c) (trigprev_Clk c) (trigprev_Rst c)
           (VactContinue c) (VactIterCount c) (VstlTriggered c) (VactTriggered c)
           (clear (VnbaTriggered c)))
       else mret tt);
  mret exec.

Definition set_act (continue : bool) (count : Z) : M (root V) unit :=
  with_sc (fun c => Sched (VstlFirstIteration c) (trigprev_Clk c) (trigprev_Rst c) continue count
    (VstlTriggered c) (VactTriggered c) (VnbaTriggered c)).

(** [VL_FATAL_MT] ends the program. *)
Definition VL_FATAL_MT {A} : M (root V) A := throw (Exit 1).

Definition act_step : unit -> M (root V) (unit + unit) := fun _ =>
  c ← gets sc;
  if negb (VactContinue c) then mret (inr tt) else
  if 0x64 <? VactIterCount c then VL_FATAL_MT else
  _ ← set_act false (u32 (1 + VactIterCount c));
  more ← eval_phase__act;
  c ← gets sc;
  _ ← (if more : bool then set_act true (VactIterCount c) else mret tt);
  mret (inl tt).

(** The counters stop both loops: the hundred-and-second round is fatal. *)
Definition rounds : nat := 103.

Definition nba_step : Z * bool -> M (root V) (Z * bool + unit) := fun '(count, continue) =>
  if negb continue then mret (inr tt) else
  if 0x64 <? count then VL_FATAL_MT else
  let count := u32 (1 + count) in
  _ ← set_act true 0;
  _ ← loop rounds act_step tt;
  more ← eval_phase__nba;
  mret (inl (count, more)).

Definition eval : M (root V) unit := loop rounds nba_step (0, true).

(** ** The first evaluation *)

Definition eval_static : M (root V) unit := modify (fun s =>
  let c := sc s in
  Root (ins s) (rg s) (wr s)
    (Sched (VstlFirstIteration c) (Clk (ins s)) (Rst (ins s)) (VactContinue c) (VactIterCount c)
       (VstlTriggered c) (VactTriggered c) (VnbaTriggered c)) (didInit s)).

Definition eval_initial : M (root V) unit := mret tt.
Definition eval_final : M (root V) unit := mret tt.

Definition stl_sequent__TOP__0 : M (root V) unit := modify (fun s =>
  Root (ins s) (rg s) (wires_of (rg s)) (sc s) (didInit s)).

Definition eval_stl : M (root V) unit :=
  c ← gets sc;
  if negb (Z.land 1 (word 0 (VstlTriggered c)) =? 0) then stl_sequent__TOP__0 else mret tt.

Definition set_stl (first : bool) (t : V -> V) : M (root V) unit :=
  with_sc (fun c => Sched first (trigprev_Clk c) (trigprev_Rst c) (VactContinue c)
    (VactIterCount c) (t (VstlTriggered c)) (VactTriggered c) (VnbaTriggered c)).

Definition eval_triggers__stl : M (root V) unit :=
  c ← gets sc;
  set_stl (VstlFirstIteration c) (setBit 0 (VstlFirstIteration c)).

Definition eval_phase__stl : M (root V) bool :=
  _ ← eval_triggers__stl;
  exec ← gets (fun s => any (VstlTriggered (sc s)));
  _ ← (if exec : bool then eval_stl else mret tt);
  mret exec.

Definition settle_step : Z * bool -> M (root V) (Z * bool + unit) := fun '(count, continue) =>
  if negb continue then mret (inr tt) else
  if 0x64 <? count then VL_FATAL_MT else
  let count := u32 (1 + count) in
  more ← eval_phase__stl;
  _ ← set_stl false id;
  mret (inl (count, more)).

Definition eval_settle : M (root V) unit :=
  _ ← set_stl true id;
  loop rounds settle_step (0, true).

(** [VLMS::eval_step], which is [eval] of the class. *)
Definition eval_step : M (root V) unit :=
  init ← gets didInit;
  _ ← (if init : bool then mret tt else
         _ ← modify (fun s => Root (ins s) (rg s) (wr s) (sc s) true);
         _ ← eval_static;
         _ ← eval_initial;
         eval_settle);
  eval.

(** ** Construction *)

(** Every variable of the design starts with whatever [VL_RAND_RESET_I] gives;
    [rnd] is that function on its own state. *)
Section ctor.
Context {R : Type} (VL_RAND_RESET_I : Z -> R -> Z * R) (vec : V).

Definition rand_bits (n : Z) : M R Z := fun r => let '(v, r) := VL_RAND_RESET_I n r in Ok v r.

Definition rand_quad : M R quad :=
  a ← rand_bits 16; b ← rand_bits 16; c ← rand_bits 16; d ← rand_bits 16; mret (a, b, c, d).

(** What the constructor leaves unset ([first], [continue], [count]) and the
    empty trigger vectors are arguments. *)
Definition ctor_var_reset (first continue : bool) (count : Z) : M R (root V) :=
  clk ← rand_bits 1; rst ← rand_bits 1;
  cyc ← rand_bits 1; stb ← rand_bits 1; we ← rand_bits 1;
  adr ← rand_bits 32; dat_i ← rand_bits 16; dat_o ← rand_bits 16;
  ack ← rand_bits 1; irq ← rand_bits 1;
  xin ← rand_bits 16; din ← rand_bits 16; mode ← rand_bits 1; y ← rand_bits 16;
  wn ← rand_quad; x ← rand_quad;
  err ← rand_bits 16; u0 ← rand_bits 16; u1 ← rand_bits 16; u2 ← rand_bits 16; u3 ← rand_bits 16;
  pclk ← rand_bits 1; prst ← rand_bits 1;
  mret (Root (Inputs clk rst cyc stb we adr dat_i) (Regs ack irq dat_o xin din mode err wn x)
    (Wires y u0 u1 u2 u3) (Sched first pclk prst continue count vec vec vec) false).
End ctor.
End lms.

(** ** Reference: the design *)

(** The filter and its bus as wb_lms.v and LMS.v describe them, on signed
    numbers: four weights, the last four samples, the error, and the registers
    of the bus. *)
Record filter := Filter {
  f_ack : bool; f_irq : bool; f_dat : Z;
  f_xin : Z; f_din : Z; f_train : bool;
  f_err : Z; f_w : quad; f_x : quad
}.

(** Bits 27 to 12 of a product, as a signed number. *)
Definition q412 (v : Z) : Z := s16 (v / 2 ^ 12).

Definition dot (w x : quad) : Z :=
  let '(w0, w1, w2, w3) := w in
  let '(x0, x1, x2, x3) := x in
  w0 * x0 + w1 * x1 + w2 * x2 + w3 * x3.

Definition f_y (f : filter) : Z := q412 (dot (f_w f) (f_x f)).

(** The step is one half. *)
Definition gamma : Z := 2 ^ 11.

Definition adapt (err w x : Z) : Z := s16 (w + q412 (gamma * q412 (err * x))).

Definition adapt_all (err : Z) (w x : quad) : quad :=
  let '(w0, w1, w2, w3) := w in
  let '(x0, x1, x2, x3) := x in
  (adapt err w0 x0, adapt err w1 x1, adapt err w2 x2, adapt err w3 x3).

Definition filter_reset : filter := Filter false false 0 0 0 false 0 quad0 quad0.

(** What a bus read at [adr] gives. *)
Definition f_read (adr : Z) (f : filter) : Z :=
  let '(w0, w1, w2, w3) := f_w f in
  let sel := bit_range adr 5 2 in
  if sel =? 3 then f_y f
  else if sel =? 4 then f_err f
  else if sel =? 5 then w0
  else if sel =? 6 then w1
  else if sel =? 7 then w2
  else if sel =? 8 then w3
  else 0.

Definition requested (i : inputs) (f : filter) : bool :=
  negb (wb_cyc_i i =? 0) && negb (wb_stb_i i =? 0) && negb (f_ack f).

(** A clock edge without reset: every register from the values before. *)
Definition filter_clock (i : inputs) (f : filter) : filter :=
  let '(x0, x1, x2, x3) := f_x f in
  let write k := requested i f && negb (wb_we_i i =? 0) && (bit_range (wb_adr_i i) 5 2 =? k) in
  Filter (requested i f)
    (requested i f && negb (wb_we_i i =? 0))
    (if requested i f && (wb_we_i i =? 0) then f_read (wb_adr_i i) f else f_dat f)
    (if write 0 then s16 (wb_dat_i i) else f_xin f)
    (if write 1 then s16 (wb_dat_i i) else f_din f)
    (if write 2 then Z.odd (wb_dat_i i) else f_train f)
    (if f_train f then s16 (f_din f - f_y f) else 0)
    (if f_train f then adapt_all (f_err f) (f_w f) (f_x f) else f_w f)
    (f_xin f, x0, x1, x2).

(** ** Widths *)

Definition width (n v : Z) : Prop := 0 <= v < 2 ^ n.
Definition quad_all (P : Z -> Prop) (q : quad) : Prop :=
  let '(a, b, c, d) := q in P a /\ P b /\ P c /\ P d.
Definition quad_map (f : Z -> Z) (q : quad) : quad :=
  let '(a, b, c, d) := q in (f a, f b, f c, f d).

Record wf_inputs (i : inputs) : Prop := {
  wf_Clk : width 1 (Clk i); wf_Rst : width 1 (Rst i);
  wf_cyc : width 1 (wb_cyc_i i); wf_stb : width 1 (wb_stb_i i); wf_we : width 1 (wb_we_i i);
  wf_adr : width 32 (wb_adr_i i); wf_dat_i : width 16 (wb_dat_i i)
}.

Record wf_regs (r : regs) : Prop := {
  wf_ack : width 1 (wb_ack_o r); wf_irq : width 1 (irq_o r); wf_dat_o : width 16 (wb_dat_o r);
  wf_xin : width 16 (x_in_reg r); wf_din : width 16 (d_in_reg r); wf_mode : width 1 (mode_train_reg r);
  wf_err : width 16 (err_reg r); wf_wn : quad_all (width 16) (wn r); wf_x : quad_all (width 16) (x r)
}.

Record wf_wires (w : wires) : Prop := {
  wf_y : width 16 (y_out w);
  wf_u : quad_all (width 16) (wn_u0 w, wn_u1 w, wn_u2 w, wn_u3 w)
}.

Lemma s16_range v : - 2 ^ 15 <= s16 v < 2 ^ 15.
Proof.
  unfold s16, signed. pose proof (Z.mod_pos_bound v (2 ^ 16) ltac:(lia)).
  destruct (Z.ltb_spec (v mod 2 ^ 16) (2 ^ (16 - 1))); lia.
Qed.

(** [s16] looks at the low sixteen bits. *)
Lemma s16_cong a b : a mod 2 ^ 16 = b mod 2 ^ 16 -> s16 a = s16 b.
Proof. intros E. unfold s16, signed. by rewrite E. Qed.

Lemma s16_mod v : s16 v mod 2 ^ 16 = v mod 2 ^ 16.
Proof.
  unfold s16, signed. destruct (_ <? _); [by rewrite Z.mod_mod by lia|].
  rewrite <- (Z_mod_plus_full _ 1 (2 ^ 16)). by rewrite Z.mul_1_l, Z.sub_add, Z.mod_mod by lia.
Qed.

Lemma land_ffff v : Z.land 0xffff v = v mod 2 ^ 16.
Proof. rewrite Z.land_comm. change 0xffff with (Z.ones 16). by rewrite Z.land_ones by lia. Qed.

Lemma s16_low v : s16 (Z.land 0xffff v) = s16 v.
Proof. apply s16_cong. by rewrite land_ffff, Z.mod_mod by lia. Qed.

Lemma width_low v : width 16 (Z.land 0xffff v).
Proof. rewrite land_ffff. apply Z.mod_pos_bound. lia. Qed.

(** Bits 27 to 12 do not depend on the bits from 32 on. *)
Lemma q412_u32 v : s16 (Z.land 0xffff (Z.shiftr (u32 v) 12)) = q412 v.
Proof.
  rewrite s16_low. apply s16_cong. apply Z.bits_inj'. intros k Hk. unfold u32.
  rewrite <- (Z.shiftr_div_pow2 v 12) by lia.
  rewrite !testbit_mod_pow2 by lia. destruct (Z.ltb_spec k 16); [|done]. cbn [andb].
  rewrite !Z.shiftr_spec, testbit_mod_pow2 by lia. by rewrite (proj2 (Z.ltb_lt _ _)) by lia.
Qed.

Lemma s32_u32 v : - 2 ^ 31 <= v < 2 ^ 31 -> s32 (u32 v) = v.
Proof.
  intros Hv. rewrite <- (s32_small v Hv) at 2. unfold s32, signed, u32. by rewrite Z.mod_mod by lia.
Qed.

(** ** The arithmetic of the generated code *)

Section arithmetic.
Context {V : Type} `{VerilatedOk V}.

Lemma extends_range v : width 16 v -> in_u32 (VL_EXTENDS_II 32 16 v) /\ s32 (VL_EXTENDS_II 32 16 v) = s16 v.
Proof.
  intros Hv. rewrite (extends_ok v Hv). pose proof (s16_range v). split; [apply u32_range|].
  apply s32_u32. lia.
Qed.

Lemma mul16_ok a b : width 16 a -> width 16 b -> mul16 a b = u32 (s16 a * s16 b).
Proof.
  intros [Ha Ea]%extends_range [Hb Eb]%extends_range. unfold mul16. by rewrite muls_ok, Ea, Eb.
Qed.

Lemma u32_sum a b c d : u32 (u32 a + u32 (u32 b + u32 (u32 c + u32 d))) = u32 (a + (b + (c + d))).
Proof. unfold u32. by rewrite <- (Zplus_mod c d), <- (Zplus_mod b), <- (Zplus_mod a). Qed.

Lemma y_of_ok w q : quad_all (width 16) w -> quad_all (width 16) q ->
  s16 (y_of w q) = q412 (dot (quad_map s16 w) (quad_map s16 q)) /\ width 16 (y_of w q).
Proof.
  destruct w as [[[w0 w1] w2] w3], q as [[[x0 x1] x2] x3]. intros (? & ? & ? & ?) (? & ? & ? & ?).
  split; [|apply width_low]. unfold y_of. rewrite !mul16_ok by done.
  rewrite u32_sum, <- q412_u32. cbn [quad_map dot]. do 4 f_equal. ring.
Qed.

Lemma wn_u_of_ok w e q : width 16 w -> width 16 e -> width 16 q ->
  s16 (wn_u_of w e q) = adapt (s16 e) (s16 w) (s16 q) /\ width 16 (wn_u_of w e q).
Proof.
  intros Hw He Hq. split; [|apply width_low]. unfold wn_u_of. rewrite mul16_ok by done.
  set (p := Z.land 0xffff (Z.shiftr (u32 (s16 e * s16 q)) 12)).
  assert (Hp : s16 p = q412 (s16 e * s16 q)) by apply q412_u32.
  destruct (extends_range p (width_low _)) as [Hr Es].
  rewrite muls_ok by (done || by unfold in_u32). rewrite Es, Hp. change (s32 0x800) with gamma.
  set (m := gamma * q412 (s16 e * s16 q)). rewrite s16_low. unfold adapt. fold m.
  apply s16_cong. rewrite <- q412_u32. set (v := Z.shiftr (u32 m) 12).
  rewrite (Z.add_mod (s16 w)), !s16_mod, land_ffff by lia.
  unfold u32. rewrite <- Z.add_mod by lia.
  rewrite Z.mod_mod_divide by (by exists (2 ^ 16)).
  by rewrite Zplus_mod_idemp_r.
Qed.
End arithmetic.

(** ** One clock edge *)

(** The registers as signed numbers. *)
Definition abs (r : regs) : filter :=
  Filter (negb (wb_ack_o r =? 0)) (negb (irq_o r =? 0)) (s16 (wb_dat_o r))
    (s16 (x_in_reg r)) (s16 (d_in_reg r)) (negb (mode_train_reg r =? 0))
    (s16 (err_reg r)) (quad_map s16 (wn r)) (quad_map s16 (x r)).

Lemma width_1 v : width 1 v -> v = 0 \/ v = 1.
Proof. unfold width. lia. Qed.

Lemma sel_bit adr k : 0 <= k < 4 -> Z.testbit adr (k + 2) = Z.testbit (bit_range adr 5 2) k.
Proof. intros Hk. unfold bit_range. rewrite Z.mod_pow2_bits_low by lia. by rewrite Z.shiftr_spec by lia. Qed.

Lemma sel_land adr : Z.land 0xf (Z.shiftr adr 2) = bit_range adr 5 2.
Proof. rewrite Z.land_comm. change 0xf with (Z.ones 4). by rewrite Z.land_ones by lia. Qed.

Lemma sel_range adr : 0 <= bit_range adr 5 2 < 16.
Proof. apply Z.mod_pos_bound. lia. Qed.

Lemma forall_16 (P : Z -> Prop) : Forall P (seqZ 0 16) -> forall v, 0 <= v < 16 -> P v.
Proof. intros HP v Hv. eapply Forall_forall; [exact HP|]. apply list_elem_of_In, elem_of_seqZ. lia. Qed.

(** The conditionals Verilator made of the case statement. *)
Lemma dat_of_ok adr r w : s16 (y_out w) = f_y (abs r) -> s16 (dat_of adr r w) = f_read adr (abs r).
Proof.
  intros Hy. unfold dat_of, f_read. rewrite <- Hy. cbn [abs f_w f_err].
  destruct (wn r) as [[[w0 w1] w2] w3]. cbn [quad_map].
  change 0x20 with (2 ^ (3 + 2)). change 0x10 with (2 ^ (2 + 2)). change 8 with (2 ^ (1 + 2)) at 1 2 3.
  change 4 with (2 ^ (0 + 2)) at 1 2 3 4.
  rewrite !(Z.land_comm (2 ^ _) adr), !land_pow2, !sel_bit, !negb_involutive by lia.
  generalize (bit_range adr 5 2), (sel_range adr). apply forall_16. by repeat constructor.
Qed.

Lemma dat_of_width adr r : wf_regs r -> forall w, width 16 (y_out w) -> width 16 (dat_of adr r w).
Proof.
  intros [] w Hy. unfold dat_of. destruct (wn r) as [[[w0 w1] w2] w3]. destruct wf_wn0 as (? & ? & ? & ?).
  assert (width 16 0) by (unfold width; lia). by repeat case_match.
Qed.

Section edge.
Context {V : Type} `{VerilatedOk V}.

(** The wires are right for the registers. *)
Lemma wires_of_ok r : wf_regs r -> let w := wires_of r in
  wf_wires w /\ s16 (y_out w) = f_y (abs r) /\
  quad_map s16 (wn_u0 w, wn_u1 w, wn_u2 w, wn_u3 w) = adapt_all (f_err (abs r)) (f_w (abs r)) (f_x (abs r)).
Proof.
  intros [Hack Hirq Hdat Hxin Hdin Hmode Herr Hwn Hx]. destruct (y_of_ok _ _ Hwn Hx) as [Ey Wy].
  unfold wires_of, f_y. cbn [abs f_w f_x f_err]. revert Ey Wy Hwn Hx.
  destruct (wn r) as [[[w0 w1] w2] w3], (x r) as [[[x0 x1] x2] x3].
  intros Ey Wy (? & ? & ? & ?) (? & ? & ? & ?).
  destruct (wn_u_of_ok w0 (err_reg r) x0) as [E0 W0]; [done..|].
  destruct (wn_u_of_ok w1 (err_reg r) x1) as [E1 W1]; [done..|].
  destruct (wn_u_of_ok w2 (err_reg r) x2) as [E2 W2]; [done..|].
  destruct (wn_u_of_ok w3 (err_reg r) x3) as [E3 W3]; [done..|].
  split; [split; [exact Wy|by split_and!]|]. split; [exact Ey|].
  cbn [quad_map adapt_all wn_u0 wn_u1 wn_u2 wn_u3]. by rewrite E0, E1, E2, E3.
Qed.

Lemma request_ok i r : wf_inputs i -> wf_regs r ->
  negb (Z.land (Z.land (wb_cyc_i i) (wb_stb_i i)) (u32 (Z.lnot (wb_ack_o r))) =? 0) = requested i (abs r).
Proof.
  intros [_ _ Hc Hs _ _ _] [Ha _ _ _ _ _ _ _ _]. unfold requested. cbn [abs f_ack].
  apply width_1 in Hc as [-> | ->], Hs as [-> | ->], Ha as [-> | ->]; reflexivity.
Qed.

Lemma odd_land v : negb (Z.land 1 v =? 0) = Z.odd v.
Proof. rewrite Z.land_comm. change 1 with (2 ^ 0). rewrite land_pow2, negb_involutive by lia. apply Z.bit0_odd. Qed.

Lemma width_bit b v : width 1 (if b : bool then Z.land 1 v else 0) /\ width 1 (Z.land 1 v).
Proof.
  assert (E : Z.land 1 v = v mod 2) by (rewrite Z.land_comm; change 1 with (Z.ones 1); by rewrite Z.land_ones by lia).
  pose proof (Z.mod_pos_bound v 2 ltac:(lia)). unfold width. rewrite E. destruct b; lia.
Qed.

(** The part of the bus. *)
Lemma bus_write_ok i r : wf_inputs i -> wf_regs r -> let r' := bus_write i r in
  let sel := bit_range (wb_adr_i i) 5 2 in
  wf_regs r' /\ abs r' = Filter (f_ack (abs r)) true (f_dat (abs r))
    (if sel =? 0 then s16 (wb_dat_i i) else f_xin (abs r))
    (if sel =? 1 then s16 (wb_dat_i i) else f_din (abs r))
    (if sel =? 2 then Z.odd (wb_dat_i i) else f_train (abs r))
    (f_err (abs r)) (f_w (abs r)) (f_x (abs r)).
Proof.
  intros Hi Hr. unfold bus_write. rewrite sel_land. set (sel := bit_range _ 5 2). cbv zeta.
  destruct (width_bit true (wb_dat_i i)) as [_ Hb]. pose proof (wf_dat_i _ Hi) as Hd.
  assert (H1 : width 1 1) by (unfold width; lia). destruct Hr.
  destruct (Z.eqb_spec sel 0) as [->|]; [|destruct (Z.eqb_spec sel 1) as [->|]; [|destruct (Z.eqb_spec sel 2) as [->|]]];
    (split; [by split|]); unfold abs; cbn -[Z.land s16 Z.odd]; [done|done| |done].
  by rewrite odd_land.
Qed.

Lemma bus_ok i r w (req : bool) : wf_inputs i -> wf_regs r -> irq_o r = 0 -> width 16 (y_out w) ->
  s16 (y_out w) = f_y (abs r) ->
  let r' := if req then (if negb (wb_we_i i =? 0) then bus_write i r else bus_read i r w) else r in
  let write k := req && negb (wb_we_i i =? 0) && (bit_range (wb_adr_i i) 5 2 =? k) in
  wf_regs r' /\ abs r' = Filter (f_ack (abs r)) (req && negb (wb_we_i i =? 0))
    (if req && (wb_we_i i =? 0) then f_read (wb_adr_i i) (abs r) else f_dat (abs r))
    (if write 0 then s16 (wb_dat_i i) else f_xin (abs r))
    (if write 1 then s16 (wb_dat_i i) else f_din (abs r))
    (if write 2 then Z.odd (wb_dat_i i) else f_train (abs r))
    (f_err (abs r)) (f_w (abs r)) (f_x (abs r)).
Proof.
  intros Hi Hr Hirq Wy Ey. cbv zeta. destruct req; cbn [andb].
  2: { split; [done|]. unfold abs. cbn [f_ack f_dat f_xin f_din f_train f_err f_w f_x]. by rewrite Hirq. }
  destruct (wb_we_i i =? 0); cbn [negb andb]; [|by apply bus_write_ok].
  pose proof (dat_of_ok (wb_adr_i i) r w Ey) as Ed. pose proof (dat_of_width (wb_adr_i i) r Hr w Wy) as Wd.
  split; [destruct Hr; by split|]. unfold bus_read, abs at 1.
  cbn [wb_ack_o irq_o wb_dat_o x_in_reg d_in_reg mode_train_reg err_reg wn x]. by rewrite Ed, Hirq.
Qed.

Lemma bus_keeps i r w (req : bool) :
  wn (if req then (if negb (wb_we_i i =? 0) then bus_write i r else bus_read i r w) else r) = wn r.
Proof. destruct req; [|done]. unfold bus_write, bus_read. by repeat case_match. Qed.

(** The error the filter keeps. *)
Lemma err_ok r w : wf_regs r -> s16 (y_out w) = f_y (abs r) ->
  s16 (Z.land 0xffff (u32 (d_in_reg r - y_out w))) = s16 (f_din (abs r) - f_y (abs r)).
Proof.
  intros _ Ey. rewrite s16_low, <- Ey. cbn [abs f_din]. apply s16_cong. unfold u32.
  rewrite Z.mod_mod_divide by (by exists (2 ^ 16)).
  by rewrite Zminus_mod, <- (s16_mod (d_in_reg r)), <- (s16_mod (y_out w)), <- Zminus_mod.
Qed.

Lemma nba_clock_ok i r : wf_inputs i -> wf_regs r -> Rst i = 0 ->
  let '(r', w') := nba_sequent__TOP__0 i r (wires_of r) in
  wf_regs r' /\ w' = wires_of r' /\ abs r' = filter_clock i (abs r).
Proof.
  intros Hi Hr HR. destruct (wires_of_ok r Hr) as ([Wy Wu] & Ey & Eu).
  unfold nba_sequent__TOP__0. rewrite HR. cbn [Z.eqb negb]. unfold nba_clock, filter_clock.
  generalize dependent (wires_of r). intros w Wy Wu Ey Eu.
  set (r0 := Regs (wb_ack_o r) 0 (wb_dat_o r) (x_in_reg r) (d_in_reg r) (mode_train_reg r) (err_reg r) (wn r) (x r)).
  assert (Hr0 : wf_regs r0) by (destruct Hr; split; try done; unfold width; cbn; lia).
  rewrite (request_ok i r0 Hi Hr0).
  destruct (bus_ok i r0 w (requested i (abs r0)) Hi Hr0 eq_refl Wy Ey) as [Hr1 E1]. cbv zeta in Hr1, E1.
  change (requested i (abs r0)) with (requested i (abs r)) in *.
  change (f_read (wb_adr_i i) (abs r0)) with (f_read (wb_adr_i i) (abs r)) in E1.
  set (req := requested i (abs r)) in *.
  set (r1 := if req then _ else r0) in *.
  pose proof (err_ok r w Hr Ey) as Ee. pose proof (width_low (u32 (d_in_reg r - y_out w))) as We.
  assert (Ep : (if req then (1, if negb (wb_we_i i =? 0) then bus_write i r0 else bus_read i r0 w) else (0, r0)) =
    (b2z req, r1)) by (subst r1; by destruct req). rewrite Ep.
  assert (Ewn : wn r1 = wn r) by (apply (bus_keeps i r0 w req)).
  unfold abs at 1 in E1. injection E1 as _ Eirq Edat Exin Edin Etr _ _ _.
  assert (Hack : width 1 (b2z req)) by (unfold width; destruct req; cbn; lia).
  clearbody r1. pose proof (wf_x _ Hr) as Wx. pose proof (wf_wn _ Hr) as Wwn. pose proof (wf_xin _ Hr) as Wxin.
  cbn [abs f_x f_xin f_dat f_din f_train f_w f_err] in *. fold (abs r) in *.
  destruct (x r) as [[[x0 x1] x2] x3] eqn:Ex. destruct Wx as (Wx0 & Wx1 & Wx2 & Wx3).
  destruct Hr1 as [_ Wirq Wdat Wxi Wdi Wmo _ _ _].
  assert (H16 : width 16 0) by (unfold width; lia).
  destruct (mode_train_reg r =? 0) eqn:Em; cbn [negb set_x_v0 set_x_v4 val_x set_wn_v0 set_wn_v4 val_wn dly_ack dly_err].
  - split; [split; cbn [wb_ack_o irq_o wb_dat_o x_in_reg d_in_reg mode_train_reg err_reg wn x]; try done; by rewrite Ewn|].
    split; [done|]. unfold abs at 1. cbn [wb_ack_o irq_o wb_dat_o x_in_reg d_in_reg mode_train_reg err_reg wn x].
    rewrite Eirq, Edat, Exin, Edin, Etr, Ewn. by destruct req.
  - split; [split; cbn [wb_ack_o irq_o wb_dat_o x_in_reg d_in_reg mode_train_reg err_reg wn x]; done|].
    split; [done|]. unfold abs at 1. cbn [wb_ack_o irq_o wb_dat_o x_in_reg d_in_reg mode_train_reg err_reg wn x].
    rewrite Eirq, Edat, Exin, Edin, Etr, Eu, Ee. by destruct req.
Qed.

Lemma wf_reset : wf_regs (Regs 0 0 0 0 0 0 0 quad0 quad0).
Proof. repeat split; cbn; lia. Qed.

(** What an edge of the clock or of the reset line does. *)
Definition filter_edge (i : inputs) (f : filter) : filter :=
  if negb (Rst i =? 0) then filter_reset else filter_clock i f.

Lemma nba_ok i r r' w' : wf_inputs i -> wf_regs r -> nba_sequent__TOP__0 i r (wires_of r) = (r', w') ->
  wf_regs r' /\ w' = wires_of r' /\ abs r' = filter_edge i (abs r).
Proof.
  intros Hi Hr Hrun. unfold filter_edge. destruct (Z.eqb_spec (Rst i) 0) as [HR|HR]; cbn [negb].
  - pose proof (nba_clock_ok i r Hi Hr HR) as Hok. by rewrite Hrun in Hok.
  - unfold nba_sequent__TOP__0 in Hrun. rewrite (proj2 (Z.eqb_neq _ _) HR) in Hrun.
    injection Hrun as <- <-. split; [exact wf_reset|]. done.
Qed.
End edge.

(** ** The scheduler *)

Section scheduler.
Context {V : Type} `{VerilatedOk V}.

(** Between evaluations nothing is pending. *)
Record idle (c : sched V) : Prop := {
  idle_Clk : width 1 (trigprev_Clk c); idle_Rst : width 1 (trigprev_Rst c);
  idle_act : word 0 (VactTriggered c) < 4; idle_stl : word 0 (VstlTriggered c) < 2;
  idle_nba : word 0 (VnbaTriggered c) = 0
}.

Lemma posedge_ok now prev : width 1 now -> width 1 prev ->
  posedge now prev = negb (now =? 0) && (prev =? 0).
Proof. by intros [-> | ->]%width_1 [-> | ->]%width_1. Qed.

Lemma posedge_same v : width 1 v -> posedge v v = false.
Proof. by intros [-> | ->]%width_1. Qed.

(** The two triggers of a vector that has no other. *)
Lemma two_triggers v b0 b1 : word 0 v < 4 ->
  word 0 (setBit 1 b1 (setBit 0 b0 v)) = b2z b0 + 2 * b2z b1.
Proof.
  intros Hv. apply Z.bits_inj'. intros k Hk. rewrite !word_set by lia.
  pose proof (word_range v). destruct (Z.eqb_spec k 1) as [->|]; [by destruct b0, b1|].
  destruct (Z.eqb_spec k 0) as [->|]; [by destruct b0, b1|].
  rewrite (testbit_above _ 2) by lia. symmetry. apply (testbit_above _ 2); [|lia]. destruct b0, b1; cbn; lia.
Qed.

Lemma one_trigger v b : word 0 v < 2 -> word 0 (setBit 0 b v) = b2z b.
Proof.
  intros Hv. apply Z.bits_inj'. intros k Hk. rewrite word_set by lia. pose proof (word_range v).
  destruct (Z.eqb_spec k 0) as [->|]; [by destruct b|].
  rewrite (testbit_above _ 1) by lia. symmetry. apply (testbit_above _ 1); [|lia]. destruct b; cbn; lia.
Qed.

(** An edge since the last evaluation. *)
Definition edge (i : inputs) (c : sched V) : bool :=
  posedge (Clk i) (trigprev_Clk c) || posedge (Rst i) (trigprev_Rst c).

Definition mark (i : inputs) (c : sched V) : Z :=
  b2z (posedge (Clk i) (trigprev_Clk c)) + 2 * b2z (posedge (Rst i) (trigprev_Rst c)).

Lemma mark_edge i c : negb (mark i c =? 0) = edge i c /\ (edge i c = true -> Z.land 3 (mark i c) <> 0) /\ 0 <= mark i c < 4.
Proof. unfold mark, edge. by destruct (posedge _ _), (posedge _ _). Qed.

(** Looking for edges: they are noted once. *)
Lemma phase_act_ok i r w (c : sched V) b : word 0 (VactTriggered c) < 4 -> exists c',
  eval_phase__act (Root i r w c b) = Ok (edge i c) (Root i r w c' b) /\
  trigprev_Clk c' = Clk i /\ trigprev_Rst c' = Rst i /\
  VactContinue c' = VactContinue c /\ VactIterCount c' = VactIterCount c /\
  VstlTriggered c' = VstlTriggered c /\ word 0 (VactTriggered c') < 4 /\
  word 0 (VnbaTriggered c') = (if edge i c then Z.lor (word 0 (VnbaTriggered c)) (mark i c) else word 0 (VnbaTriggered c)).
Proof.
  intros Ha. set (t := setBit 1 (posedge (Rst i) (trigprev_Rst c)) (setBit 0 (posedge (Clk i) (trigprev_Clk c)) (VactTriggered c))).
  assert (Ht : word 0 t = mark i c) by (by apply two_triggers). destruct (mark_edge i c) as (Hm & _ & Hr).
  assert (Hany : any t = edge i c) by (by rewrite any_ok, Ht).
  unfold eval_phase__act. run_with reflexivity. run_with reflexivity. cbn [ins rg wr sc didInit VactTriggered].
  fold t. rewrite Hany. destruct (edge i c).
  - eexists. split; [reflexivity|]. cbn. rewrite word_or, Ht. split_and!; (done || lia).
  - eexists. split; [reflexivity|]. cbn. rewrite Ht. split_and!; (done || lia).
Qed.

(** A round of the active loop. *)
Lemma act_step_ok i r w (c : sched V) b :
  word 0 (VactTriggered c) < 4 -> VactContinue c = true -> 0 <= VactIterCount c <= 100 -> exists c',
  act_step tt (Root i r w c b) = Ok (inl tt) (Root i r w c' b) /\
  trigprev_Clk c' = Clk i /\ trigprev_Rst c' = Rst i /\
  VactContinue c' = edge i c /\ VactIterCount c' = VactIterCount c + 1 /\
  VstlTriggered c' = VstlTriggered c /\ word 0 (VactTriggered c') < 4 /\
  word 0 (VnbaTriggered c') = (if edge i c then Z.lor (word 0 (VnbaTriggered c)) (mark i c) else word 0 (VnbaTriggered c)).
Proof.
  intros Ha Hc Hn. set (c1 := Sched (VstlFirstIteration c) (trigprev_Clk c) (trigprev_Rst c) false
    (u32 (1 + VactIterCount c)) (VstlTriggered c) (VactTriggered c) (VnbaTriggered c)).
  destruct (phase_act_ok i r w c1 b Ha) as (c2 & Hrun & H1 & H2 & H3 & H4 & H5 & H6 & H7).
  change (edge i c1) with (edge i c) in *. change (mark i c1) with (mark i c) in *.
  unfold act_step. run_with reflexivity. cbn [sc]. rewrite Hc. cbn [negb]. if_false.
  run_with reflexivity. cbn [sc ins rg wr didInit]. fold c1. run_with (exact Hrun). run_with reflexivity.
  cbn [VactIterCount c1] in H4. rewrite u32_small in H4 by lia.
  destruct (edge i c); (eexists; split; [reflexivity|]); cbn in *; split_and!; (done || lia).
Qed.

Lemma act_loop_ok i r w (c : sched V) b : wf_inputs i ->
  word 0 (VactTriggered c) < 4 -> VactContinue c = true -> VactIterCount c = 0 -> exists c',
  loop rounds act_step tt (Root i r w c b) = Ok tt (Root i r w c' b) /\
  trigprev_Clk c' = Clk i /\ trigprev_Rst c' = Rst i /\
  VstlTriggered c' = VstlTriggered c /\ word 0 (VactTriggered c') < 4 /\
  word 0 (VnbaTriggered c') = (if edge i c then Z.lor (word 0 (VnbaTriggered c)) (mark i c) else word 0 (VnbaTriggered c)).
Proof.
  intros Hi Ha Hc Hn. unfold rounds.
  destruct (act_step_ok i r w c b Ha Hc ltac:(lia)) as (c1 & Hr1 & E1 & E2 & E3 & E4 & E5 & E6 & E7).
  erewrite loop_continue by exact Hr1. destruct (edge i c) eqn:He.
  - destruct (act_step_ok i r w c1 b E6 E3 ltac:(lia)) as (c2 & Hr2 & F1 & F2 & F3 & F4 & F5 & F6 & F7).
    assert (He1 : edge i c1 = false).
    { unfold edge. rewrite E1, E2, !posedge_same by apply Hi. done. }
    rewrite He1 in *. erewrite loop_continue by exact Hr2.
    exists c2. split; [|split_and!; try done; congruence].
    apply loop_break. unfold act_step. run_with reflexivity. cbn [sc]. by rewrite F3.
  - exists c1. split; [|by split_and!]. apply loop_break. unfold act_step. run_with reflexivity. cbn [sc]. by rewrite E3.
Qed.

(** A round of the outer loop: the registers change when there was an edge. *)
Lemma nba_step_ok i r (c : sched V) b count : wf_inputs i -> wf_regs r -> idle c -> 0 <= count <= 100 -> exists r' c',
  nba_step (count, true) (Root i r (wires_of r) c b) =
    Ok (inl (count + 1, edge i c)) (Root i r' (wires_of r') c' b) /\
  wf_regs r' /\ abs r' = (if edge i c then filter_edge i (abs r) else abs r) /\
  idle c' /\ trigprev_Clk c' = Clk i /\ trigprev_Rst c' = Rst i.
Proof.
  intros Hi Hr [Hc1 Hc2 Ha Hs Hz] Hn.
  set (c0 := Sched (VstlFirstIteration c) (trigprev_Clk c) (trigprev_Rst c) true 0
    (VstlTriggered c) (VactTriggered c) (VnbaTriggered c)).
  destruct (act_loop_ok i r (wires_of r) c0 b Hi Ha eq_refl eq_refl) as (c1 & Hr1 & E1 & E2 & E3 & E4 & E5).
  change (edge i c0) with (edge i c) in *. change (mark i c0) with (mark i c) in *.
  change (VnbaTriggered c0) with (VnbaTriggered c) in *. change (VstlTriggered c0) with (VstlTriggered c) in *.
  rewrite Hz in E5. destruct (mark_edge i c) as (Hm & Hl & _).
  unfold nba_step. cbn [negb]. if_false. run_with reflexivity. cbn [sc ins rg wr didInit]. fold c0.
  run_with (exact Hr1). rewrite u32_small by lia. replace (1 + count) with (count + 1) by lia.
  unfold eval_phase__nba. unfold mbind at 1 2, M_bind at 1 2, gets. cbn [sc]. rewrite any_ok, E5.
  destruct (edge i c).
  - rewrite Z.lor_0_l, Hm. unfold eval_nba. unfold mbind, M_bind. cbn [sc ins rg wr didInit].
    rewrite E5, Z.lor_0_l, (proj2 (Z.eqb_neq _ _) (Hl eq_refl)). cbn [negb].
    destruct (nba_sequent__TOP__0 i r (wires_of r)) as [r' w'] eqn:Hrun.
    destruct (nba_ok i r r' w' Hi Hr Hrun) as (Hr' & -> & Habs).
    eexists r', _. split; [reflexivity|]. split_and!; [done|done| |done|done].
    destruct Hi. split; cbn; rewrite ?E1, ?E2, ?E3, ?word_clear; done.
  - cbn [Z.eqb negb]. eexists r, c1. split; [reflexivity|]. split_and!; [done|done| |done|done].
    destruct Hi. split; rewrite ?E1, ?E2, ?E3; done.
Qed.

Lemma eval_run_ok i r (c : sched V) b : wf_inputs i -> wf_regs r -> idle c -> exists r' c',
  eval (Root i r (wires_of r) c b) = Ok tt (Root i r' (wires_of r') c' b) /\
  wf_regs r' /\ abs r' = (if edge i c then filter_edge i (abs r) else abs r) /\
  idle c' /\ trigprev_Clk c' = Clk i /\ trigprev_Rst c' = Rst i.
Proof.
  intros Hi Hr Hc. unfold eval, rounds.
  destruct (nba_step_ok i r c b 0 Hi Hr Hc ltac:(lia)) as (r1 & c1 & Hr1 & Hw1 & Ha1 & Hc1 & E1 & E2).
  erewrite loop_continue by exact Hr1. destruct (edge i c).
  - destruct (nba_step_ok i r1 c1 b (0 + 1) Hi Hw1 Hc1 ltac:(lia)) as (r2 & c2 & Hr2 & Hw2 & Ha2 & Hc2 & F1 & F2).
    assert (He1 : edge i c1 = false).
    { unfold edge. rewrite E1, E2, !posedge_same by apply Hi. done. }
    rewrite He1 in *. erewrite loop_continue by exact Hr2.
    exists r2, c2. split; [by apply loop_break|]. by rewrite Ha2.
  - exists r1, c1. split; [by apply loop_break|]. done.
Qed.
End scheduler.

(** ** Evaluations *)

Section evaluation.
Context {V : Type} `{VerilatedOk V}.

Lemma settle_step_ok i r w (c : sched V) b count :
  word 0 (VstlTriggered c) < 2 -> 0 <= count <= 100 -> exists c',
  settle_step (count, true) (Root i r w c b) =
    Ok (inl (count + 1, VstlFirstIteration c))
      (Root i r (if VstlFirstIteration c then wires_of r else w) c' b) /\
  VstlFirstIteration c' = false /\ word 0 (VstlTriggered c') < 2 /\
  trigprev_Clk c' = trigprev_Clk c /\ trigprev_Rst c' = trigprev_Rst c /\
  VactTriggered c' = VactTriggered c /\ VnbaTriggered c' = VnbaTriggered c.
Proof.
  intros Hs Hn. set (t := setBit 0 (VstlFirstIteration c) (VstlTriggered c)).
  assert (Ht : word 0 t = b2z (VstlFirstIteration c)) by (by apply one_trigger).
  unfold settle_step. cbn [negb]. if_false. rewrite u32_small by lia. replace (1 + count) with (count + 1) by lia.
  unfold eval_phase__stl, eval_triggers__stl, eval_stl, set_stl, with_sc, gets, modify, mbind, M_bind, mret, M_ret.
  cbn [sc ins rg wr didInit VstlTriggered VstlFirstIteration]. fold t. rewrite any_ok, Ht.
  destruct (VstlFirstIteration c); cbn [b2z Z.eqb negb]; cbv iota.
  - cbn [sc VstlTriggered]. rewrite Ht. eexists. split; [reflexivity|]. cbn. by rewrite Ht.
  - eexists. split; [reflexivity|]. cbn. by rewrite Ht.
Qed.

(** Settling takes two rounds and makes the wires right. *)
Lemma eval_settle_ok i r w (c : sched V) b : idle c -> exists c',
  eval_settle (Root i r w c b) = Ok tt (Root i r (wires_of r) c' b) /\ idle c' /\
  trigprev_Clk c' = trigprev_Clk c /\ trigprev_Rst c' = trigprev_Rst c.
Proof.
  intros [Hc1 Hc2 Ha Hs Hz]. unfold eval_settle, rounds. run_with reflexivity. cbn [sc ins rg wr didInit].
  set (c0 := Sched true _ _ _ _ _ _ _).
  destruct (settle_step_ok i r w c0 b 0) as (c1 & Hr1 & F1 & S1 & P1 & Q1 & A1 & N1); [done|lia|].
  destruct (settle_step_ok i r (wires_of r) c1 b (0 + 1)) as (c2 & Hr2 & F2 & S2 & P2 & Q2 & A2 & N2); [done|lia|].
  rewrite F1 in Hr2. exists c2. split.
  - erewrite loop_continue by exact Hr1. erewrite loop_continue by exact Hr2. by apply loop_break.
  - rewrite P2, P1, Q2, Q1. split; [|done].
    split; rewrite ?P2, ?P1, ?Q2, ?Q1, ?A2, ?A1, ?N2, ?N1; done.
Qed.

(** A model that can be evaluated: its wires are right once it has been. *)
Record healthy (s : root V) : Prop := {
  healthy_regs : wf_regs (rg s);
  healthy_wires : wf_wires (wr s);
  healthy_sched : idle (sc s);
  healthy_settled : didInit s = true -> wr s = wires_of (rg s)
}.

(** The edge an evaluation sees: none the first time. *)
Definition sees_edge (s : root V) : bool := didInit s && edge (ins s) (sc s).

Lemma eval_step_ok s : wf_inputs (ins s) -> healthy s -> exists s',
  eval_step s = Ok tt s' /\ healthy s' /\ didInit s' = true /\ ins s' = ins s /\
  trigprev_Clk (sc s') = Clk (ins s) /\ trigprev_Rst (sc s') = Rst (ins s) /\
  abs (rg s') = (if sees_edge s then filter_edge (ins s) (abs (rg s)) else abs (rg s)).
Proof.
  destruct s as [i r w c b]. cbn [ins rg wr sc]. intros Hi [Hr Hw Hc Hset]. cbn [rg wr sc didInit] in *.
  unfold eval_step, sees_edge. cbn [didInit ins sc]. run_with reflexivity. cbn [didInit].
  destruct b; cbn [andb].
  - rewrite (Hset eq_refl). erewrite bind_ok by reflexivity.
    destruct (eval_run_ok i r c true Hi Hr Hc) as (r' & c' & Hrun & Hr' & Habs & Hc' & E1 & E2).
    eexists. split; [exact Hrun|]. split_and!; [|done..]. split; [done| |done|done].
    by destruct (wires_of_ok r' Hr').
  - set (c0 := Sched (VstlFirstIteration c) (Clk i) (Rst i) (VactContinue c) (VactIterCount c)
      (VstlTriggered c) (VactTriggered c) (VnbaTriggered c)).
    assert (Hc0 : idle c0) by (destruct Hc, Hi; by split).
    destruct (eval_settle_ok i r w c0 true Hc0) as (c1 & Hr1 & Hc1 & E1 & E2).
    erewrite bind_ok by (exact Hr1).
    destruct (eval_run_ok i r c1 true Hi Hr Hc1) as (r' & c' & Hrun & Hr' & Habs & Hc' & F1 & F2).
    assert (He : edge i c1 = false).
    { unfold edge. rewrite E1, E2. cbn [c0 trigprev_Clk trigprev_Rst]. by rewrite !posedge_same by apply Hi. }
    rewrite He in Habs. eexists. split; [exact Hrun|]. split_and!; [|done..]. split; [done| |done|done].
    by destruct (wires_of_ok r' Hr').
Qed.

(** The constructor. *)
Lemma ctor_ok {R} (rnd : Z -> R -> Z * R) (vec : V) first continue count rs :
  (forall n r, 0 <= n -> width n (fst (rnd n r))) -> word 0 vec = 0 -> exists s rs',
  ctor_var_reset rnd vec first continue count rs = Ok s rs' /\ healthy s /\ didInit s = false.
Proof.
  intros Hrnd Hv.
  assert (Hbits : forall n r, 0 <= n -> exists v r', rand_bits rnd n r = Ok v r' /\ width n v).
  { intros n r Hn. unfold rand_bits. pose proof (Hrnd n r Hn). destruct (rnd n r) as [v r']. by exists v, r'. }
  assert (Hquad : forall r, exists q r', rand_quad rnd r = Ok q r' /\ quad_all (width 16) q).
  { intros r. unfold rand_quad.
    do 4 (match goal with |- exists _ _, (rand_bits _ ?n ≫= _) ?r = _ /\ _ =>
      let E := fresh in destruct (Hbits n r ltac:(lia)) as (? & ? & E & ?); rewrite (bind_ok _ _ _ _ _ E) end).
    do 2 eexists. split; [reflexivity|]. by split_and!. }
  unfold ctor_var_reset.
  repeat match goal with
  | |- exists _ _, (rand_bits _ ?n ≫= _) ?r = _ /\ _ =>
      let E := fresh in destruct (Hbits n r ltac:(lia)) as (? & ? & E & ?); rewrite (bind_ok _ _ _ _ _ E); clear E
  | |- exists _ _, (rand_quad _ ≫= _) ?r = _ /\ _ =>
      let E := fresh in destruct (Hquad r) as (? & ? & E & ?); rewrite (bind_ok _ _ _ _ _ E); clear E
  end.
  do 2 eexists. split; [reflexivity|]. split; [|done].
  split; [by split|split; [done|by split_and!]|split; cbn; rewrite ?Hv; (done || lia)|done].
Qed.
End evaluation.

(** ** A run of the model *)

(** The user sets the inputs, evaluates and looks at the outputs. *)
Section drive.
Context {V : Type} `{Verilated V}.

Definition outputs_of (r : regs) : Z * Z * Z := (wb_ack_o r, irq_o r, wb_dat_o r).

Definition set_inputs (i : inputs) : M (root V) unit :=
  modify (fun s => Root i (rg s) (wr s) (sc s) (didInit s)).

Fixpoint drive (l : list inputs) : M (root V) (list (Z * Z * Z)) :=
  match l with
  | [] => mret []
  | i :: l' =>
      _ ← set_inputs i;
      _ ← eval_step;
      r ← gets rg;
      rest ← drive l';
      mret (outputs_of r :: rest)
  end.
End drive.

(** The same of the design: the filter, and the levels of clock and reset it
    has seen. *)
Definition design_step (i : inputs) (d : filter * option (Z * Z)) : filter * option (Z * Z) :=
  let rises now prev := negb (now =? 0) && (prev =? 0) in
  (match snd d with
   | Some (clk, rst) => if rises (Clk i) clk || rises (Rst i) rst then filter_edge i (fst d) else fst d
   | None => fst d
   end, Some (Clk i, Rst i)).

Fixpoint design (l : list inputs) (d : filter * option (Z * Z)) : list filter * filter :=
  match l with
  | [] => ([], fst d)
  | i :: l' =>
      let d := design_step i d in
      let '(fs, f) := design l' d in (fst d :: fs, f)
  end.

Definition design_outputs (f : filter) : Z * Z * Z := (b2z (f_ack f), b2z (f_irq f), f_dat f mod 2 ^ 16).

Section run.
Context {V : Type} `{VerilatedOk V}.

Definition levels (s : root V) : option (Z * Z) :=
  if didInit s then Some (trigprev_Clk (sc s), trigprev_Rst (sc s)) else None.

Lemma outputs_abs r : wf_regs r -> outputs_of r = design_outputs (abs r).
Proof.
  intros [Ha Hi Hd _ _ _ _ _ _]. unfold outputs_of, design_outputs. cbn [abs f_ack f_irq f_dat].
  rewrite s16_mod, Z.mod_small by done.
  by apply width_1 in Ha as [-> | ->], Hi as [-> | ->].
Qed.

Lemma sees_edge_levels s i : wf_inputs i -> healthy s -> let s1 := Root i (rg s) (wr s) (sc s) (didInit s) in
  (if sees_edge s1 then filter_edge i (abs (rg s)) else abs (rg s)) = fst (design_step i (abs (rg s), levels s)).
Proof.
  intros Hi [_ _ Hc _]. unfold sees_edge, design_step, levels, edge. cbn [didInit ins sc fst snd].
  destruct (didInit s); [|done]. cbn [andb fst]. by rewrite !posedge_ok by (apply Hi || apply Hc).
Qed.

Lemma drive_ok l : forall s, Forall wf_inputs l -> healthy s -> exists s',
  drive l s = Ok (map design_outputs (fst (design l (abs (rg s), levels s)))) s' /\
  healthy s' /\ abs (rg s') = snd (design l (abs (rg s), levels s)).
Proof.
  induction l as [|i l IH]; intros s Hl Hs; [by exists s|]. apply Forall_cons_iff in Hl as [Hi Hl].
  set (s1 := Root i (rg s) (wr s) (sc s) (didInit s)).
  assert (Hs1 : healthy s1) by (destruct Hs; by split).
  destruct (eval_step_ok s1 Hi Hs1) as (s2 & Hr2 & Hs2 & Hd2 & _ & E1 & E2 & Habs).
  cbn [ins s1] in E1, E2. cbn [ins rg s1] in Habs. pose proof (sees_edge_levels s i Hi Hs) as Hse.
  cbv zeta in Hse. fold s1 in Hse. rewrite Hse in Habs.
  assert (Hlev : (abs (rg s2), levels s2) = design_step i (abs (rg s), levels s)).
  { unfold levels. rewrite Hd2, E1, E2, Habs. done. }
  destruct (IH s2 Hl Hs2) as (s3 & Hr3 & Hs3 & Ha3). rewrite Hlev in Hr3, Ha3.
  exists s3. cbn [design]. destruct (design l _) as [fs f] eqn:Ed. cbn [fst snd map] in *.
  split; [|by split]. cbn [drive]. run_with reflexivity. fold s1. run_with (exact Hr2). run_with reflexivity.
  run_with (exact Hr3). rewrite <- Habs, <- outputs_abs; [done|apply Hs2].
Qed.
End run.

(** ** Correctness *)

(** C12: from its construction on, whatever the random initial values and
    whatever the user does with the inputs, the Verilated model behaves as the
    design: every evaluation ends without a convergence failure, shows the
    acknowledge, interrupt and data of the filter written in wb_lms.v and LMS.v,
    and takes one step of it for a rising edge of the clock or the reset. *)
Theorem lms_refines {V} `{VerilatedOk V} {R} (rnd : Z -> R -> Z * R) (vec : V) first continue count rs l :
  (forall n r, 0 <= n -> width n (fst (rnd n r))) -> word 0 vec = 0 -> Forall wf_inputs l ->
  exists s rs', ctor_var_reset rnd vec first continue count rs = Ok s rs' /\
  exists s', drive l s = Ok (map design_outputs (fst (design l (abs (rg s), None)))) s' /\
    abs (rg s') = snd (design l (abs (rg s), None)).
Proof.
  intros Hrnd Hv Hl. destruct (ctor_ok rnd vec first continue count rs Hrnd Hv) as (s & rs' & Hc & Hs & Hd).
  exists s, rs'. split; [done|]. destruct (drive_ok l s Hl Hs) as (s' & Hrun & _ & Habs).
  unfold levels in *. rewrite Hd in *. by exists s'.
Qed.

(** C28: types.  After construction and any sequence of evaluations every
    variable of the model fits the width it is declared with. *)
Theorem lms_widths {V} `{VerilatedOk V} {R} (rnd : Z -> R -> Z * R) (vec : V) first continue count rs l :
  (forall n r, 0 <= n -> width n (fst (rnd n r))) -> word 0 vec = 0 -> Forall wf_inputs l ->
  exists s rs', ctor_var_reset rnd vec first continue count rs = Ok s rs' /\
  exists outs s', drive l s = Ok outs s' /\ wf_regs (rg s') /\ wf_wires (wr s') /\
    Forall (fun '(ack, irq, dat) => width 1 ack /\ width 1 irq /\ width 16 dat) outs.
Proof.
  intros Hrnd Hv Hl. destruct (ctor_ok rnd vec first continue count rs Hrnd Hv) as (s & rs' & Hc & Hs & Hd).
  exists s, rs'. split; [done|]. destruct (drive_ok l s Hl Hs) as (s' & Hrun & Hs' & _).
  eexists _, s'. split; [exact Hrun|]. split; [apply Hs'|]. split; [apply Hs'|].
  apply Forall_map, Forall_true. intros f. unfold design_outputs, width.
  pose proof (Z.mod_pos_bound (f_dat f) (2 ^ 16) ltac:(lia)).
  destruct (f_ack f), (f_irq f); cbn; lia.
Qed.

(** ** The filter as arithmetic *)

Definition tap (k : nat) (q : quad) : Z := let '(a, b, c, d) := q in nth k [a; b; c; d] 0.

Lemma tap_map f k q : f 0 = 0 -> tap k (quad_map f q) = f (tap k q).
Proof. intros H0. destruct q as [[[a b] c] d]. by do 5 (destruct k as [|k]; [done|]). Qed.

Lemma tap_adapt k e w q : (k < 4)%nat -> tap k (adapt_all e w q) = adapt e (tap k w) (tap k q).
Proof.
  intros Hk. destruct w as [[[? ?] ?] ?], q as [[[? ?] ?] ?]. do 4 (destruct k as [|k]; [done|]). lia.
Qed.

(** Without overflow an update is exact but for one rounding. *)
Lemma adapt_exact e w q : - 2 ^ 27 <= e * q < 2 ^ 27 -> - 2 ^ 15 <= w + e * q / 2 ^ 13 < 2 ^ 15 ->
  adapt e w q = w + e * q / 2 ^ 13.
Proof.
  intros Hp Hw. unfold adapt, q412.
  assert (Hq : - 2 ^ 15 <= e * q / 2 ^ 12 < 2 ^ 15).
  { split; [apply Z.div_le_lower_bound; lia|apply Z.div_lt_upper_bound; lia]. }
  rewrite (s16_small (e * q / 2 ^ 12)) by done.
  assert (Hh : gamma * (e * q / 2 ^ 12) / 2 ^ 12 = e * q / 2 ^ 13).
  { unfold gamma. change (2 ^ 12) with (2 ^ 11 * 2) at 2. rewrite Z.div_mul_cancel_l by lia.
    rewrite Z.div_div by lia. done. }
  assert (Hr : - 2 ^ 15 <= e * q / 2 ^ 13 < 2 ^ 15).
  { split; [apply Z.div_le_lower_bound; lia|apply Z.div_lt_upper_bound; lia]. }
  rewrite Hh, (s16_small (e * q / 2 ^ 13)) by done. by apply s16_small.
Qed.

(** C27: a rising clock edge adapts the filter.  In training, every weight whose
    update does not overflow moves by exactly half the product of error and
    sample in Q4.12, rounded down, and the error becomes the wanted value less
    the output; in filter mode the weights stay.  Samples move down the line. *)
Theorem lms_update {V} `{VerilatedOk V} (s : root V) :
  wf_inputs (ins s) -> healthy s -> sees_edge s = true -> Rst (ins s) = 0 ->
  exists s', eval_step s = Ok tt s' /\
    let f := abs (rg s) in let f' := abs (rg s') in
    (forall k, (k < 4)%nat -> f_train f = true ->
      let p := f_err f * tap k (f_x f) in
      - 2 ^ 27 <= p < 2 ^ 27 -> - 2 ^ 15 <= tap k (f_w f) + p / 2 ^ 13 < 2 ^ 15 ->
      tap k (f_w f') = tap k (f_w f) + p / 2 ^ 13) /\
    (f_train f = true -> - 2 ^ 15 <= f_din f - f_y f < 2 ^ 15 -> f_err f' = f_din f - f_y f) /\
    (f_train f = false -> f_w f' = f_w f /\ f_err f' = 0) /\
    (tap 0 (f_x f') = f_xin f /\ forall k, (k < 3)%nat -> tap (S k) (f_x f') = tap k (f_x f)).
Proof.
  intros Hi Hs He HR. destruct (eval_step_ok s Hi Hs) as (s' & Hrun & _ & _ & _ & _ & _ & Habs).
  rewrite He in Habs. unfold filter_edge in Habs. rewrite HR in Habs. cbn [Z.eqb negb] in Habs.
  exists s'. split; [done|]. cbv zeta. rewrite Habs. generalize (abs (rg s)). intros f. unfold filter_clock.
  destruct (f_x f) as [[[x0 x1] x2] x3] eqn:Ex. cbn [f_w f_err f_x]. split_and!.
  - intros k Hk Ht Hp Hw. rewrite Ht, tap_adapt by done. by apply adapt_exact.
  - intros Ht Hr. rewrite Ht. by apply s16_small.
  - intros Ht. by rewrite Ht.
  - done.
  - intros k Hk. do 3 (destruct k as [|k]; [done|]). lia.
Qed.

(** On a quiet bus all taps hold the same sample after four edges: the line
    moves with the clock and not with the samples. *)
Lemma taps_flat i f : wb_cyc_i i = 0 ->
  f_x (Nat.iter 4 (filter_clock i) f) = (f_xin f, f_xin f, f_xin f, f_xin f).
Proof.
  intros Hc. assert (Hq : forall g, f_xin (filter_clock i g) = f_xin g /\
    f_x (filter_clock i g) = let '(a, b, c, _) := f_x g in (f_xin g, a, b, c)).
  { intros g. unfold filter_clock, requested. rewrite Hc. by destruct (f_x g) as [[[? ?] ?] ?]. }
  cbn [Nat.iter nat_rect]. rewrite !(proj2 (Hq _)), !(proj1 (Hq _)). by destruct (f_x f) as [[[? ?] ?] ?].
Qed.

(** ** A concrete library and a recorded run *)

Module Bench.
#[local] Instance lib : Verilated Z := {|
  VL_MULS_III n a b := (signed n a * signed n b) mod 2 ^ n;
  VL_EXTENDS_II lb rb v := signed rb v mod 2 ^ lb;
  setBit i b v := if b then Z.setbit v i else Z.clearbit v i;
  any v := negb (v mod 2 ^ 64 =? 0);
  word _ v := v mod 2 ^ 64;
  thisOr := Z.lor;
  clear _ := 0
|}.

#[local] Instance lib_ok : VerilatedOk Z.
Proof.
  split; [done|done| | |done| |done].
  - intros v. apply Z.mod_pos_bound. lia.
  - intros i b v j Hi Hj. cbn. rewrite !testbit_mod_pow2 by lia.
    destruct b; [rewrite Z.setbit_eqb by lia|rewrite Z.clearbit_eqb by lia]; rewrite (Z.eqb_sym i j);
      destruct (Z.eqb_spec j i) as [->|]; try done; cbn [orb negb andb].
    + by rewrite (proj2 (Z.ltb_lt i 64)) by lia.
    + by rewrite !andb_false_r.
    + by rewrite andb_true_r.
  - intros v v'. cbn. apply Z.bits_inj'. intros k Hk.
    rewrite Z.lor_spec, !testbit_mod_pow2, Z.lor_spec by lia. by destruct (k <? 64).
Qed.

(** A source of initial values. *)
Definition rnd (n r : Z) : Z * Z := (r mod 2 ^ n, (r * 1103515245 + 12345) mod 2 ^ 31).

Definition at_rest (clk rst : Z) : inputs := Inputs clk rst 0 0 0 0 0.
Definition request (clk we adr dat : Z) : inputs := Inputs clk 0 1 1 we adr dat.

(** A cycle of the testbench begins with the falling edge; an access is an
    idle cycle and one with the request. *)
Definition access (we adr dat : Z) : list inputs :=
  [at_rest 0 0; at_rest 1 0; request 0 we adr dat; request 1 we adr dat].

(** Reset, training mode, and the given samples, each followed by the six reads
    the testbench logs. *)
Definition session (samples : list (Z * Z)) : list inputs :=
  [at_rest 0 1; at_rest 1 1] ++ access 1 8 1 ++
  flat_map (fun '(a, b) => access 1 0 (u16 a) ++ access 1 4 (u16 b) ++
    flat_map (fun adr => access 0 adr 0) [0x0c; 0x10; 0x14; 0x18; 0x1c; 0x20]) samples.

(** The data of the last access of each log line. *)
Fixpoint every4 (l : list (Z * Z * Z)) : list Z :=
  match l with
  | _ :: _ :: _ :: (_, _, d) :: l' => s16 d :: every4 l'
  | _ => []
  end.

Fixpoint lines (n : nat) (l : list Z) : list (list Z) :=
  match n with
  | O => []
  | S n' => take 6 (drop 2 l) :: lines n' (drop 8 l)
  end.

Definition logged (samples : list (Z * Z)) : list (list Z) :=
  match ctor_var_reset rnd 0 false false 0 1 with
  | Ok s _ =>
      match drive (session samples) s with
      | Ok outs _ => lines (length samples) (drop 1 (every4 (drop 2 outs)))
      | Err _ _ => []
      end
  | Err _ _ => []
  end.

(** The model gives the numbers recorded in wb_lms_output.csv, overflows
    included: output, error and weights after each of the first samples. *)
Definition samples : list (Z * Z) := [
    (0, 0); (1266, 0); (2408, 1266); (3314, 2408); (3896, 3314); (4096, 3896); (3896, 4096);
    (3314, 3896); (2408, 3314); (1266, 2408); (0, 1266); (-1266, 0) ].

Example recorded : logged samples = [
    [0; 0; 0; 0; 0; 0]; [0; 0; 0; 0; 0; 0];
    [0; 496; 777; 430; 547; 491]; [1611; -369; 535; 520; 1765; -513];
    [-9400; 7325; 638; -12990; -25166; 31200]; [5445; -31960; 10190; 9230; 4418; -8218];
    [-24684; 20430; 3874; -2945; 1618; 12934]; [9310; -1132; 22724; 23624; 16289; 24260];
    [21835; -30857; -4849; 1034; 3442; 968]; [3188; 235; 2322; 2712; 242; 2069];
    [686; 1266; 2524; 2824; 423; 2301]; [-1528; 2010; 950; 1084; -1202; 811] ].
Proof. vm_compute. reflexivity. Qed.

Lemma rnd_range n r : 0 <= n -> width n (fst (rnd n r)).
Proof. intros Hn. apply Z.mod_pos_bound. lia. Qed.

Lemma session_wf l : Forall wf_inputs (session l).
Proof.
  assert (H : forall we adr dat, width 1 we -> width 32 adr -> width 16 dat -> Forall wf_inputs (access we adr dat)).
  { intros. unfold access. repeat (apply Forall_cons; [split; cbn; unfold width in *; lia|]). constructor. }
  unfold session. apply Forall_app. split.
  { repeat (apply Forall_cons; [split; cbn; unfold width; lia|]). constructor. }
  apply Forall_app.
  split; [apply H; unfold width; lia|]. induction l as [|[a b] l IH]; [constructor|]. cbn [flat_map].
  apply Forall_app. split; [|exact IH].
  assert (Hu : forall v, width 16 (u16 v)) by (intros v; apply Z.mod_pos_bound; lia).
  repeat (apply Forall_app; split);
    first [apply H; [unfold width; lia|unfold width; lia|first [apply Hu|unfold width; lia]]|apply Forall_nil].
Qed.

Lemma lms_refines_witness : exists s rs', ctor_var_reset rnd 0 false false 0 1 = Ok s rs' /\
  exists s', drive (session samples) s = Ok (map design_outputs (fst (design (session samples) (abs (rg s), None)))) s' /\
    abs (rg s') = snd (design (session samples) (abs (rg s), None)).
Proof.
  apply (lms_refines rnd 0 false false 0 1 (session samples)).
  - intros n r. apply rnd_range.
  - reflexivity.
  - apply session_wf.
Defined.

Lemma lms_widths_witness : exists s rs', ctor_var_reset rnd 0 false false 0 1 = Ok s rs' /\
  exists outs s', drive (session samples) s = Ok outs s' /\ wf_regs (rg s') /\ wf_wires (wr s') /\
    Forall (fun '(ack, irq, dat) => width 1 ack /\ width 1 irq /\ width 16 dat) outs.
Proof.
  apply (lms_widths rnd 0 false false 0 1 (session samples)).
  - intros n r. apply rnd_range.
  - reflexivity.
  - apply session_wf.
Defined.

(** A filter in training: error 1.5, sample 1 in the first tap, weight 0.25. *)
Definition training : root Z :=
  let r := Regs 0 0 0 0 8192 1 6144 (1024, 0, 0, 0) (4096, 0, 0, 0) in
  Root (at_rest 1 0) r (wires_of r) (Sched false 0 0 false 0 0 0 0) true.

Lemma lms_update_witness : exists s', eval_step training = Ok tt s' /\
  f_w (abs (rg s')) = (1024 + 3072, 0, 0, 0) /\ f_err (abs (rg s')) = 8192 - 1024.
Proof.
  destruct (lms_update training) as (s' & Hrun & Hw & He & _ & _).
  - repeat split; cbn; lia.
  - split; [repeat split; cbn; lia| |repeat split; cbn; lia|done].
    split; [by vm_compute|by vm_compute].
  - reflexivity.
  - reflexivity.
  - exists s'. split; [exact Hrun|]. split; [|apply He; [reflexivity|clear; by vm_compute]].
    pose proof (Hw 0%nat ltac:(lia) eq_refl ltac:(clear; by vm_compute) ltac:(clear; by vm_compute)) as H0.
    pose proof (Hw 1%nat ltac:(lia) eq_refl ltac:(clear; by vm_compute) ltac:(clear; by vm_compute)) as H1.
    pose proof (Hw 2%nat ltac:(lia) eq_refl ltac:(clear; by vm_compute) ltac:(clear; by vm_compute)) as H2.
    pose proof (Hw 3%nat ltac:(lia) eq_refl ltac:(clear; by vm_compute) ltac:(clear; by vm_compute)) as H3.
    destruct (f_w (abs (rg s'))) as [[[w0 w1] w2] w3]. cbn [tap nth] in H0, H1, H2, H3. by rewrite H0, H1, H2, H3.
Defined.
End Bench.
