(* ===== verification/LmsDebug.v ===== *)
(** * The LMS filter's model: debugging build and class interface

    Built with VL_DEBUG, the model of [Lms] checks before every evaluation that
    the inputs of one bit have no other bits set, and can list the triggers
    that are active.  The methods of class VLMS around the evaluation are here
    too.  What the library does about an input that is too wide is a
    parameter. *)

From S2P Require Import Prelude Lms.

(** ** The checks *)

Section debug.
Context {V : Type} `{Verilated V} (overWidthError : string -> M (root V) unit).

Definition check_width (name : string) (get : inputs -> Z) : M (root V) unit :=
  i ← gets ins;
  if negb (Z.land (get i) 0xfe =? 0) then overWidthError name else mret tt.

Definition eval_debug_assertions : M (root V) unit :=
  _ ← check_width "Clk" Clk;
  _ ← check_width "Rst" Rst;
  _ ← check_width "wb_cyc_i" wb_cyc_i;
  _ ← check_width "wb_stb_i" wb_stb_i;
  check_width "wb_we_i" wb_we_i.

(** [VLMS::eval_step] of a debugging build. *)
Definition debug_eval_step : M (root V) unit :=
  _ ← eval_debug_assertions;
  eval_step.

(** ** The list of triggers *)

Definition dump_line (b : bool) (text : string) : list string := if b then [text] else [].

Definition dump_triggers__stl (t : V) : list string :=
  dump_line (negb (any t)) "         No triggers active" ++
  dump_line (negb (Z.land 1 (word 0 t) =? 0))
    "         'stl' region trigger index 0 is active: Internal 'stl' trigger - first iteration".

Definition dump_triggers__act (t : V) : list string :=
  dump_line (negb (any t)) "         No triggers active" ++
  dump_line (negb (Z.land 1 (word 0 t) =? 0)) "         'act' region trigger index 0 is active: @(posedge Clk)" ++
  dump_line (negb (Z.land 2 (word 0 t) =? 0)) "         'act' region trigger index 1 is active: @(posedge Rst)".

Definition dump_triggers__nba (t : V) : list string :=
  dump_line (negb (any t)) "         No triggers active" ++
  dump_line (negb (Z.land 1 (word 0 t) =? 0)) "         'nba' region trigger index 0 is active: @(posedge Clk)" ++
  dump_line (negb (Z.land 2 (word 0 t) =? 0)) "         'nba' region trigger index 1 is active: @(posedge Rst)".

(** ** The class *)

Definition VLMS_eval : M (root V) unit := eval_step.
Definition VLMS_eval_end_step : M (root V) unit := mret tt.
Definition eventsPending : bool := false.
Definition nextTimeSlot : M (root V) Z := VL_FATAL_MT.
Definition VLMS_final : M (root V) unit := eval_final.
Definition modelName : string := "VLMS".
Definition threads : Z := 1.
End debug.

(** ** What the checks check *)

(** The inputs as the C types hold them: bytes for single bits. *)
Record c_inputs (i : inputs) : Prop := {
  c_Clk : width 8 (Clk i); c_Rst : width 8 (Rst i);
  c_cyc : width 8 (wb_cyc_i i); c_stb : width 8 (wb_stb_i i); c_we : width 8 (wb_we_i i);
  c_adr : width 32 (wb_adr_i i); c_dat_i : width 16 (wb_dat_i i)
}.

(** The inputs that are checked, in order. *)
Definition checked : list (string * (inputs -> Z)) :=
  [("Clk", Clk); ("Rst", Rst); ("wb_cyc_i", wb_cyc_i); ("wb_stb_i", wb_stb_i); ("wb_we_i", wb_we_i)].

Definition too_wide (i : inputs) (p : string * (inputs -> Z)) : bool := negb (snd p i <? 2).

Lemma width_check v : width 8 v -> negb (Z.land v 0xfe =? 0) = negb (v <? 2).
Proof.
  unfold width. intros Hv. f_equal.
  assert (Hall : forallb (fun v => Bool.eqb (Z.land v 0xfe =? 0) (v <? 2)) (map Z.of_nat (seq 0 256)) = true)
    by (vm_compute; reflexivity).
  rewrite forallb_forall in Hall. apply Bool.eqb_prop, (Hall v).
  rewrite in_map_iff. exists (Z.to_nat v). rewrite in_seq. lia.
Qed.

Lemma wf_inputs_checked i : c_inputs i -> (wf_inputs i <-> List.find (too_wide i) checked = None).
Proof.
  intros [H1 H2 H3 H4 H5 H6 H7]. cbn [List.find checked]. unfold too_wide, width in *. cbn [snd].
  split.
  - intros [W1 W2 W3 W4 W5 _ _]. unfold width in *. by repeat (rewrite (proj2 (Z.ltb_lt _ 2)) by lia; cbn [negb]).
  - intros Hn.
    repeat match type of Hn with context [?x <? 2] => destruct (Z.ltb_spec x 2); cbn [negb] in Hn; [|done] end.
    split; unfold width; (done || lia).
Qed.

Section checks.
Context {V : Type} `{Verilated V} (overWidthError : string -> M (root V) unit).

Lemma check_width_ok name get (s : root V) : width 8 (get (ins s)) ->
  check_width overWidthError name get s =
    (if too_wide (ins s) (name, get) then overWidthError name else mret tt) s.
Proof. intros Hw. unfold check_width, too_wide. run_with reflexivity. by rewrite width_check. Qed.

(** The next check, which fails or not. *)
Ltac next_check :=
  match goal with
  | |- context [too_wide (ins ?s) (?n, ?g)] =>
      let R := fresh "R" in
      assert (R := check_width_ok n g s ltac:(assumption)); destruct (too_wide (ins s) (n, g));
      [intros e s' He; rewrite He in R; first [exact R|by apply bind_err]
      |first [exact R|erewrite bind_ok by (exact R)]]
  end.

Lemma assertions_ok (s : root V) : c_inputs (ins s) ->
  match List.find (too_wide (ins s)) checked with
  | None => eval_debug_assertions overWidthError s = Ok tt s
  | Some (name, _) => forall e s', overWidthError name s = Err e s' ->
      eval_debug_assertions overWidthError s = Err e s'
  end.
Proof.
  intros [H1 H2 H3 H4 H5 _ _]. unfold eval_debug_assertions, checked. cbn [List.find].
  do 5 next_check.
Qed.

(** Inputs in order cost nothing; the first one that is too wide is reported
    before anything is evaluated. *)
Lemma debug_eval_step_ok (s : root V) : c_inputs (ins s) ->
  match List.find (too_wide (ins s)) checked with
  | None => debug_eval_step overWidthError s = eval_step s
  | Some (name, _) => forall e s', overWidthError name s = Err e s' ->
      debug_eval_step overWidthError s = Err e s'
  end.
Proof.
  intros Hc. pose proof (assertions_ok s Hc) as Ha. unfold debug_eval_step.
  destruct (List.find _ _) as [[name get]|].
  - intros e s' He. apply bind_err. by apply Ha.
  - by erewrite bind_ok by (exact Ha).
Qed.

Lemma dump_act_ok `{!VerilatedOk V} (t : V) :
  dump_triggers__act t =
    if word 0 t =? 0 then ["         No triggers active"]
    else dump_line (Z.testbit (word 0 t) 0) "         'act' region trigger index 0 is active: @(posedge Clk)" ++
         dump_line (Z.testbit (word 0 t) 1) "         'act' region trigger index 1 is active: @(posedge Rst)".
Proof.
  unfold dump_triggers__act. rewrite any_ok, negb_involutive.
  assert (E0 : negb (Z.land 1 (word 0 t) =? 0) = Z.testbit (word 0 t) 0)
    by (rewrite Z.land_comm, (land_pow2 _ 0), negb_involutive by lia; done).
  assert (E1 : negb (Z.land 2 (word 0 t) =? 0) = Z.testbit (word 0 t) 1)
    by (rewrite Z.land_comm, (land_pow2 _ 1), negb_involutive by lia; done).
  rewrite E0, E1. destruct (Z.eqb_spec (word 0 t) 0) as [->|]; done.
Qed.
End checks.

(** C29: the debugging build is the model with its precondition checked: on
    inputs as the C types hold them, the checks let exactly those pass whose
    values fit the ports, and the evaluation is then that of the plain model;
    otherwise the first port that does not fit is reported, and the model is not
    evaluated when the report ends the program. *)
Theorem debug_build_agrees {V} `{Verilated V} (overWidthError : string -> M (root V) unit) (s : root V) :
  c_inputs (ins s) -> (forall name s, overWidthError name s = Err (Exit 1) s) ->
  (wf_inputs (ins s) -> debug_eval_step overWidthError s = eval_step s) /\
  (~ wf_inputs (ins s) -> debug_eval_step overWidthError s = Err (Exit 1) s).
Proof.
  intros Hc Ho. pose proof (debug_eval_step_ok overWidthError s Hc) as Hd.
  rewrite (wf_inputs_checked _ Hc). destruct (List.find (too_wide (ins s)) checked) as [[name get]|].
  - split; [done|]. intros _. by apply Hd.
  - by split.
Qed.

#[local] Existing Instance Bench.lib.

Definition stopped (name : string) : M (root Z) unit := throw (Exit 1).
Definition with_inputs (i : inputs) : root Z :=
  Root i (rg Bench.training) (wr Bench.training) (sc Bench.training) true.

Lemma debug_build_agrees_witness :
  debug_eval_step stopped (with_inputs (Inputs 1 0 1 1 0 44 7)) = eval_step (with_inputs (Inputs 1 0 1 1 0 44 7)) /\
  debug_eval_step stopped (with_inputs (Inputs 1 0 2 1 0 44 7)) =
    Err (Exit 1) (with_inputs (Inputs 1 0 2 1 0 44 7)).
Proof.
  split.
  - apply (debug_build_agrees stopped); [|done|]; split; unfold width; cbn; lia.
  - apply (debug_build_agrees stopped); [|done|].
    + split; unfold width; cbn; lia.
    + intros [_ _ Hw _ _ _ _]. unfold width in Hw. cbn in Hw. lia.
Defined.

(** Without the checks any new bit of a byte is an edge, as here of a clock
    that stays at one in its lowest bit. *)
Example wide_clock : posedge 3 1 = true /\ posedge 1 1 = false.
Proof. vm_compute. done. Qed.
